(** * wallet-ledger: the transactional mutation engine

    A shallow embedding of [src/config/db.js], [src/errors/AppError.js],
    [src/services/transaction.service.js], [src/controllers/transaction.controller.js],
    [src/middleware/errorHandler.js] and [src/middleware/idempotency.js],
    together with the parts of the SQL schema ([src/db/migrations]) that the
    statements issued by those files depend on; then the migration runner
    ([src/db/migrate.js]) and the read side ([src/services/wallet.service.js],
    [src/controllers/wallet.controller.js]).

    - JavaScript numbers are IEEE-754 binary64 values, kept as the exact
      rational they denote; every arithmetic result is rounded to nearest,
      ties to even ([Js.fl]).
    - [NUMERIC(20,6)] columns are integers counting millionths.
    - A [uuid] value is kept as the text the server prints for it.  The id
      of a request is a text: a statement reads it as a value ([uuid_in])
      before it compares it with a column, JavaScript compares it as text.
    - Asynchronous code that threads one pg client through awaited queries is
      a state-and-exception monad over the [World]. *)

From Stdlib Require Import ZArith QArith List String Ascii Lia Bool Arith Sorted Permutation Lqa Qpower Qround.
Import ListNotations.
Open Scope Z_scope.

(** ** JavaScript numbers *)

Module Js.

Definition number := Q.

Definition round_half_even (n d : Z) : Z :=
  let q := n / d in
  let r := n mod d in
  match (2 * r ?= d) with
  | Lt => q
  | Gt => q + 1
  | Eq => if Z.even q then q else q + 1
  end.

Definition pow2Q (e : Z) : Q :=
  if 0 <=? e then inject_Z (2 ^ e) else 1 # Z.to_pos (2 ^ (- e)).

Definition pow10Q (e : Z) : Q :=
  if 0 <=? e then inject_Z (10 ^ e) else 1 # Z.to_pos (10 ^ (- e)).

(** Nearest binary64 to the positive rational [n / d]: a 53-bit significand,
    exponent bounded below by the subnormal exponent -1074.  Overflow to
    Infinity is outside the model: the engine only meets magnitudes below
    10^14 (the range of NUMERIC(20,6)) and validated request amounts. *)
Definition fl_pos (n d : Z) : Q :=
  let e0 := Z.log2 n - Z.log2 d - 52 in
  let below :=
    if 0 <=? e0 then n <? d * 2 ^ (e0 + 52) else n * 2 ^ (- e0) <? d * 2 ^ 52 in
  let e := Z.max (if below then e0 - 1 else e0) (-1074) in
  let m := if 0 <=? e then round_half_even n (d * 2 ^ e)
           else round_half_even (n * 2 ^ (- e)) d in
  Qred (inject_Z m * pow2Q e).

Definition fl (q : Q) : number :=
  match Qnum q with
  | 0 => 0%Q
  | Zpos n => fl_pos (Zpos n) (Zpos (Qden q))
  | Zneg n => Qred (- fl_pos (Zpos n) (Zpos (Qden q)))
  end.

(** [x - y], [x + y] and [x < y] on numbers. *)
Definition sub (x y : number) : number := fl (x - y).
Definition add (x y : number) : number := fl (x + y).
Definition ltb (x y : number) : bool :=
  Qnum x * Zpos (Qden y) <? Qnum y * Zpos (Qden x).
Definition eqb (x y : number) : bool :=
  Qnum x * Zpos (Qden y) =? Qnum y * Zpos (Qden x).

(** *** Number::toString

    [String(x)] is the decimal [s * 10^(n-k)] with the fewest digits [k]
    that still reads back as [x]; among several such [s] the one nearest
    to [x], and of two equally near the even one.  Only the value of that
    decimal matters to the statements below. *)

Fixpoint count_digits (fuel : nat) (i : Z) : Z :=
  match fuel with
  | O => 0
  | S f => if i <? 10 then 0 else 1 + count_digits f (i / 10)
  end.

Fixpoint count_shifts (fuel : nat) (n d : Z) : Z :=
  match fuel with
  | O => 0
  | S f => if d <=? n then 0 else 1 + count_shifts f (n * 10) d
  end.

(** [ilog10 n d] is the [E] with [10^E <= n/d < 10^(E+1)], for [n, d > 0]. *)
Definition ilog10 (n d : Z) : Z :=
  if d <=? n then count_digits (S (Z.to_nat (Z.log2 (n / d)))) (n / d)
  else - count_shifts (2 + Z.to_nat (Z.log2 d)) n d.

Definition Qfloor' (q : Q) : Z := Qnum q / Zpos (Qden q).

Definition Qabs' (q : Q) : Q := Z.abs (Qnum q) # Qden q.

(** The candidate with [k] digits, when one reads back as [a]. *)
Definition candidate (a : Q) (E k : Z) : option Q :=
  let p := E + 1 - k in
  let s := Qfloor' (a * pow10Q (- p)) in
  let lo := Qred (inject_Z s * pow10Q p) in
  let hi := Qred (inject_Z (s + 1) * pow10Q p) in
  let ok_lo := eqb (fl lo) a in
  let ok_hi := eqb (fl hi) a in
  match ok_lo, ok_hi with
  | false, false => None
  | true, false => Some lo
  | false, true => Some hi
  | true, true =>
      let dl := Qabs' (a - lo) in
      let dh := Qabs' (hi - a) in
      if ltb dl dh then Some lo
      else if ltb dh dl then Some hi
      else if Z.even s then Some lo else Some hi
  end.

Fixpoint shortest (a : Q) (E : Z) (fuel : nat) (k : Z) : Q :=
  match fuel with
  | O => a
  | S f =>
      match candidate a E k with
      | Some c => c
      | None => shortest a E f (k + 1)
      end
  end.

Definition toString_value (x : number) : Q :=
  match Qnum x with
  | 0 => 0%Q
  | Zpos n => shortest x (ilog10 (Zpos n) (Zpos (Qden x))) 17 1
  | Zneg n =>
      let a := (Zpos n # Qden x)%Q in
      Qred (- shortest a (ilog10 (Zpos n) (Zpos (Qden x))) 17 1)
  end.

End Js.

Open Scope string_scope.
Open Scope Z_scope.

(** ** The schema (migrations 002-005) *)

(** A uuid value is kept as the text the server prints for it, which is
    also what pg hands to JavaScript for a uuid column.  A request names a
    wallet by a text of its own; JavaScript compares texts ([===], [<]), and
    a statement that takes the text as a parameter reads it with [uuid_in]
    and compares values ([=], [IN], [ORDER BY]).  Ids drawn by
    [gen_random_uuid()] are numbered by a counter of the world. *)
Definition uuid := string.

(** *** The input and output functions of the type uuid

    A value has sixteen bytes.  The server reads two hexadecimal digits per
    byte, in either case, lets a hyphen follow every second byte but the
    last, and lets braces enclose the whole; it prints lower-case digits in
    groups of 8, 4, 4, 4 and 12. *)

(** A hexadecimal digit, in lower case. *)
Definition hex_digit (c : ascii) : option ascii :=
  let n := nat_of_ascii c in
  if (48 <=? n)%nat && (n <=? 57)%nat then Some c
  else if (97 <=? n)%nat && (n <=? 102)%nat then Some c
  else if (65 <=? n)%nat && (n <=? 70)%nat then Some (ascii_of_nat (n + 32))
  else None.

Definition skip_hyphen (src : string) : string :=
  match src with
  | String c rest => if Ascii.eqb c "-" then rest else src
  | EmptyString => src
  end.

(** The bytes [i], [i + 1], ... of a value, [n] of them. *)
Fixpoint read_bytes (n i : nat) (src : string) : option (list (ascii * ascii) * string) :=
  match n with
  | O => Some ([], src)
  | S n' =>
      match src with
      | String a (String b rest) =>
          match hex_digit a, hex_digit b with
          | Some x, Some y =>
              match read_bytes n' (S i)
                      (if Nat.odd i && (i <? 15)%nat then skip_hyphen rest else rest) with
              | Some (bytes, tl) => Some ((x, y) :: bytes, tl)
              | None => None
              end
          | _, _ => None
          end
      | _ => None
      end
  end.

Definition string_to_uuid (source : string) : option (list (ascii * ascii)) :=
  let braces := match source with
                | String c _ => Ascii.eqb c "{"
                | EmptyString => false
                end in
  let src := match source with
             | String c rest => if Ascii.eqb c "{" then rest else source
             | EmptyString => source
             end in
  match read_bytes 16 0 src with
  | Some (bytes, tl) =>
      if String.eqb tl (if braces then "}" else "") then Some bytes else None
  | None => None
  end.

Fixpoint print_bytes (i : nat) (bytes : list (ascii * ascii)) : string :=
  match bytes with
  | [] => ""
  | (x, y) :: rest =>
      String x (String y
        (if (i =? 3)%nat || (i =? 5)%nat || (i =? 7)%nat || (i =? 9)%nat
         then String "-" (print_bytes (S i) rest)
         else print_bytes (S i) rest))
  end.

Definition uuid_out (bytes : list (ascii * ascii)) : uuid := print_bytes 0 bytes.

(** The value a text stands for, when the server reads it as a uuid. *)
Definition uuid_in (text : string) : option uuid :=
  option_map uuid_out (string_to_uuid text).

(** A digit is read as a lower-case digit, which is read as itself and is
    neither a hyphen nor a brace. *)
Definition hex_digit_checked (c : ascii) : bool :=
  match hex_digit c with
  | Some x =>
      match hex_digit x with
      | Some y => Ascii.eqb y x && negb (Ascii.eqb x "-") && negb (Ascii.eqb x "{")
      | None => false
      end
  | None => true
  end.

(** Two lower-case digits. *)
Definition digits (xy : ascii * ascii) : Prop :=
  hex_digit (fst xy) = Some (fst xy) /\ hex_digit (snd xy) = Some (snd xy).
Abbreviation gen_uuid := nat (only parsing).
Definition timestamptz := Z.

(** A [NUMERIC(20,6)] value, in millionths. *)
Definition numeric := Z.

Inductive transaction_type_enum := ty_topup | ty_bonus | ty_spend.
Inductive transaction_status_enum := pending | completed | failed.
Inductive entry_type_enum := debit | credit.

Record wallet_row := mk_wallet {
  w_id : uuid;
  w_owner_id : uuid;
  w_asset_type_id : uuid;
  w_balance : numeric;
  w_is_active : bool;
  w_updated_at : timestamptz }.

Definition json_object := list (string * string).

Record transaction_row := mk_transaction {
  t_id : gen_uuid;
  t_type : transaction_type_enum;
  t_status : transaction_status_enum;
  t_user_wallet_id : uuid;
  t_system_wallet_id : uuid;
  t_amount : numeric;
  t_reference_id : option string;
  t_idempotency_key : option string;
  t_description : option string;
  t_metadata : json_object;
  t_created_at : timestamptz;
  t_updated_at : timestamptz }.

Record ledger_entry_row := mk_ledger_entry {
  le_id : gen_uuid;
  le_transaction_id : gen_uuid;
  le_wallet_id : uuid;
  le_entry_type : entry_type_enum;
  le_amount : numeric;
  le_balance_before : numeric;
  le_balance_after : numeric;
  le_created_at : timestamptz }.

(** ** Errors (src/errors/AppError.js) and pg's DatabaseError *)

Inductive available_value :=
| AvailText (balance : numeric)      (* the column text, as pg returns it *)
| AvailNumber (x : Js.number).       (* a parsed number *)

Record funds_details := mk_details {
  available : available_value;
  required : Js.number }.

Inductive message :=
| Msg (s : string)
| MsgInsufficient (d : funds_details).

Inductive Err :=
| AppError (msg : message) (statusCode : nat) (code : string)
           (details : option funds_details)
| DatabaseError (code : string) (constraint : string) (detail : option string)
| TypeError (msg : string).

Definition isOperational (e : Err) : bool :=
  match e with AppError _ _ _ _ => true | _ => false end.

Definition NotFoundError (resource : string) : Err :=
  AppError (Msg (resource ++ " not found")) 404 "NOT_FOUND" None.

Definition ConflictError (m : string) : Err :=
  AppError (Msg m) 409 "CONFLICT" None.

Definition InsufficientFundsError (avail : available_value) (req : Js.number) : Err :=
  let d := mk_details avail req in
  AppError (MsgInsufficient d) 422 "INSUFFICIENT_FUNDS" (Some d).

(** SQLSTATE codes raised by the statements below. *)
Definition check_violation := "23514".
Definition unique_violation := "23505".
Definition foreign_key_violation := "23503".
Definition numeric_value_out_of_range := "22003".
Definition string_data_right_truncation := "22001".
Definition invalid_text_representation := "22P02".

(** The DETAIL line the server attaches to a constraint violation. *)
Definition failing_row : option string := Some "Failing row contains the new values.".
Definition key_exists : option string := Some "Key already exists.".
Definition key_absent : option string := Some "Key is not present in the referenced table.".

(** ** Responses *)

Record formatted_transaction := mk_formatted {
  f_id : gen_uuid;
  f_type : transaction_type_enum;
  f_status : transaction_status_enum;
  f_userWalletId : uuid;
  f_systemWalletId : uuid;
  f_amount : Js.number;
  f_referenceId : option string;
  f_idempotencyKey : option string;
  f_description : option string;
  f_metadata : json_object;
  f_ledgerEntries : option (list (option ledger_entry_row));
  f_createdAt : timestamptz;
  f_updatedAt : timestamptz }.

Inductive json_body :=
| BodySuccess (data : formatted_transaction)
| BodyError (code : string) (msg : message) (details : option funds_details)
            (stack : bool) (requestId : string).

Record idempotency_key_row := mk_idempotency_key {
  ik_key : string;
  ik_request_path : string;
  ik_response_status : nat;
  ik_response_body : json_body;
  ik_expires_at : timestamptz }.

Record Db := mk_db {
  wallets : list wallet_row;
  transactions : list transaction_row;
  ledger_entries : list ledger_entry_row;
  idempotency_keys : list idempotency_key_row }.

(** ** The world a request runs in

    [db] is what the statements of the running request see; [undo] is the
    state ROLLBACK returns to.  Outside a transaction both agree. *)

Inductive Event :=
| EConnect | EBegin | ECommit | ERollback | ERelease
| ELock (id : uuid).

Record World := mk_world {
  db : Db;
  undo : Db;
  next_uuid : gen_uuid;
  clock : timestamptz;
  log : list Event }.

Inductive result (A : Type) :=
| Ok (a : A)
| Throw (e : Err).
Arguments Ok {A} a.
Arguments Throw {A} e.

Definition M (A : Type) := World -> World * result A.

Definition ret {A} (a : A) : M A := fun w => (w, Ok a).
Definition throw {A} (e : Err) : M A := fun w => (w, Throw e).
Definition bind {A B} (m : M A) (k : A -> M B) : M B :=
  fun w => match m w with
           | (w', Ok a) => k a w'
           | (w', Throw e) => (w', Throw e)
           end.

Notation "x <- m ;; k" := (bind m (fun x => k))
  (at level 61, m at next level, right associativity).
Notation "m ;;; k" := (bind m (fun _ => k))
  (at level 61, right associativity).

Definition get_db : M Db := fun w => (w, Ok (db w)).
Definition now : M timestamptz := fun w => (w, Ok (clock w)).
Definition set_db (d : Db) : M unit :=
  fun w => (mk_world d (undo w) (next_uuid w) (clock w) (log w), Ok tt).
Definition emit (es : list Event) : M unit :=
  fun w => (mk_world (db w) (undo w) (next_uuid w) (clock w) (log w ++ es), Ok tt).
Definition gen_random_uuid : M gen_uuid :=
  fun w => (mk_world (db w) (undo w) (S (next_uuid w)) (clock w) (log w), Ok (next_uuid w)).
Definition lift {A} (r : result A) : M A := fun w => (w, r).

(** ** Numbers at the SQL boundary *)

Definition numeric_value (v : numeric) : Q := v # 1000000.

(** pg returns a NUMERIC column as its decimal text; [parseFloat] reads that
    text as the nearest binary64. *)
Definition parseFloat (v : numeric) : Js.number := Js.fl (numeric_value v).

(** pg sends a number parameter as [String(x)]; the server reads that decimal
    exactly. *)
Definition sql_param (x : Js.number) : Q := Js.toString_value x.

(** Rounding to scale 6, half away from zero, in millionths. *)
Definition pg_round6 (d : Q) : Z :=
  let n := Qnum d * 1000000 in
  let den := Zpos (Qden d) in
  if 0 <=? n then (2 * n + den) / (2 * den)
  else - ((2 * (- n) + den) / (2 * den)).

Definition numeric_20_6 (d : Q) : result numeric :=
  let v := pg_round6 d in
  if Z.abs v <? 10 ^ 20 then Ok v
  else Throw (DatabaseError numeric_value_out_of_range "numeric field overflow" None).

(** A text parameter where the statement expects a [uuid]: a text the input
    function refuses fails the statement when it is bound.  The server's
    message goes on to quote the text; the fault keeps the part that is the
    same for every text. *)
Definition no_uuid : Err :=
  DatabaseError invalid_text_representation "invalid input syntax for type uuid" None.

Definition uuid_param (text : string) : result uuid :=
  match uuid_in text with
  | Some v => Ok v
  | None => Throw no_uuid
  end.

(** [x || null] on an optional string: [undefined] and [''] are falsy. *)
Definition truthy (s : option string) : option string :=
  match s with
  | Some "" => None
  | other => other
  end.

Definition or_else (s : option string) (dflt : string) : option string :=
  match truthy s with
  | Some v => Some v
  | None => Some dflt
  end.

Fixpoint obj_set (o : json_object) (k v : string) : json_object :=
  match o with
  | [] => [(k, v)]
  | (k', v') :: rest =>
      if String.eqb k' k then (k', v) :: rest else (k', v') :: obj_set rest k v
  end.

(** [{ ...base, ...extra }] *)
Definition spread (base extra : json_object) : json_object :=
  fold_left (fun o kv => obj_set o (fst kv) (snd kv)) extra base.

Definition fits (n : nat) (s : option string) : bool :=
  match s with
  | Some v => Nat.leb (String.length v) n
  | None => true
  end.

(** ** SQL statements issued through the client *)

Definition key_is (k : string) (t : transaction_row) : bool :=
  match t_idempotency_key t with
  | Some k' => String.eqb k' k
  | None => false
  end.

Definition id_is (id : gen_uuid) (t : transaction_row) : bool :=
  Nat.eqb (t_id t) id.

(** [SELECT * FROM transactions WHERE idempotency_key = $1] *)
Definition select_transactions_by_key (k : string) : M (list transaction_row) :=
  d <- get_db ;; ret (filter (key_is k) (transactions d)).

(** [SELECT id FROM transactions WHERE idempotency_key = $1] *)
Definition select_transaction_ids_by_key (k : string) : M (list gen_uuid) :=
  d <- get_db ;; ret (map t_id (filter (key_is k) (transactions d))).

(** [SELECT * FROM transactions WHERE id = $1] *)
Definition select_transactions_by_id (id : gen_uuid) : M (list transaction_row) :=
  d <- get_db ;; ret (filter (id_is id) (transactions d)).

(** [id = $1] and [id IN ($1, $2)] on a row of [wallets], for the values of
    the parameters. *)
Definition w_id_is (v : uuid) (w : wallet_row) : bool := String.eqb (w_id w) v.

Definition id_in (v1 v2 : uuid) (w : wallet_row) : bool :=
  w_id_is v1 w || w_id_is v2 w.

Fixpoint insert_by_id (w : wallet_row) (l : list wallet_row) : list wallet_row :=
  match l with
  | [] => [w]
  | x :: rest =>
      if String.leb (w_id w) (w_id x) then w :: x :: rest
      else x :: insert_by_id w rest
  end.

(** [ORDER BY id] *)
Definition order_by_id (l : list wallet_row) : list wallet_row :=
  fold_right insert_by_id [] l.

Definition wallet_exists (v : uuid) (d : Db) : bool :=
  existsb (w_id_is v) (wallets d).

Definition with_transactions (d : Db) (ts : list transaction_row) : Db :=
  mk_db (wallets d) ts (ledger_entries d) (idempotency_keys d).

Definition with_wallets (d : Db) (ws : list wallet_row) : Db :=
  mk_db ws (transactions d) (ledger_entries d) (idempotency_keys d).

Definition with_ledger_entries (d : Db) (es : list ledger_entry_row) : Db :=
  mk_db (wallets d) (transactions d) es (idempotency_keys d).

Definition with_idempotency_keys (d : Db) (ks : list idempotency_key_row) : Db :=
  mk_db (wallets d) (transactions d) (ledger_entries d) ks.

Definition guard (b : bool) (e : Err) : M unit :=
  if b then ret tt else throw e.

(** [INSERT INTO transactions (type, status, user_wallet_id, system_wallet_id,
    amount, reference_id, idempotency_key, description, metadata)
    VALUES (ty, 'pending', ...) RETURNING *], the two wallet ids being the
    texts of the request.  The uuid parameters are read when the statement
    is bound; then come the column coercions, the CHECK constraints, the
    unique indexes and the foreign keys. *)
Definition insert_transaction (ty : transaction_type_enum)
    (user_wallet_id system_wallet_id : string) (amount : Js.number)
    (reference_id idempotency_key description : option string)
    (metadata : json_object) : M transaction_row :=
  user <- lift (uuid_param user_wallet_id) ;;
  system <- lift (uuid_param system_wallet_id) ;;
  id <- gen_random_uuid ;;
  amt <- lift (numeric_20_6 (sql_param amount)) ;;
  guard (fits 255 reference_id && fits 255 idempotency_key)
        (DatabaseError string_data_right_truncation "character varying(255)" None) ;;;
  guard (0 <? amt) (DatabaseError check_violation "transactions_amount_positive" failing_row) ;;;
  guard (negb (String.eqb user system))
        (DatabaseError check_violation "transactions_wallets_differ" failing_row) ;;;
  d <- get_db ;;
  guard (negb (existsb (id_is id) (transactions d)))
        (DatabaseError unique_violation "transactions_pkey" key_exists) ;;;
  guard (match idempotency_key with
         | Some k => negb (existsb (key_is k) (transactions d))
         | None => true
         end)
        (DatabaseError unique_violation "transactions_idempotency_key_key" key_exists) ;;;
  guard (wallet_exists user d && wallet_exists system d)
        (DatabaseError foreign_key_violation "transactions_wallet_id_fkey" key_absent) ;;;
  t <- now ;;
  let row := mk_transaction id ty pending user system amt
               reference_id idempotency_key description metadata t t in
  set_db (with_transactions d (transactions d ++ [row])) ;;;
  ret row.

Fixpoint map_result {A B} (f : A -> result B) (l : list A) : result (list B) :=
  match l with
  | [] => Ok []
  | x :: rest =>
      match f x with
      | Throw e => Throw e
      | Ok y =>
          match map_result f rest with
          | Throw e => Throw e
          | Ok ys => Ok (y :: ys)
          end
      end
  end.

Definition set_balance (w : wallet_row) (b : numeric) (t : timestamptz) : wallet_row :=
  mk_wallet (w_id w) (w_owner_id w) (w_asset_type_id w) b (w_is_active w) t.

(** One row of [UPDATE wallets SET balance = balance (op) $1, updated_at = NOW()
    WHERE id = $2]: exact NUMERIC arithmetic, the result coerced to
    NUMERIC(20,6), then [CHECK (balance >= 0)].  The id is [wallet.id] of a
    row the lock statement returned: the text of a stored value, which the
    server reads back as that value. *)
Definition update_wallet_row (op : Q -> Q -> Q) (amount : Js.number) (id : uuid)
    (t : timestamptz) (w : wallet_row) : result wallet_row :=
  if String.eqb (w_id w) id then
    match numeric_20_6 (op (numeric_value (w_balance w)) (sql_param amount)) with
    | Throw e => Throw e
    | Ok b =>
        if 0 <=? b then Ok (set_balance w b t)
        else Throw (DatabaseError check_violation "wallets_balance_non_negative" failing_row)
    end
  else Ok w.

Definition update_wallets_balance (op : Q -> Q -> Q) (amount : Js.number)
    (id : uuid) : M unit :=
  d <- get_db ;;
  t <- now ;;
  ws <- lift (map_result (update_wallet_row op amount id t) (wallets d)) ;;
  set_db (with_wallets d ws).

(** [INSERT INTO ledger_entries (transaction_id, wallet_id, entry_type, amount,
    balance_before, balance_after) VALUES (...)], the wallet id being
    [wallet.id] of a returned row. *)
Definition insert_ledger_entry (transaction_id : gen_uuid) (wallet_id : uuid)
    (entry_type : entry_type_enum)
    (amount balance_before balance_after : Js.number) : M unit :=
  id <- gen_random_uuid ;;
  amt <- lift (numeric_20_6 (sql_param amount)) ;;
  before <- lift (numeric_20_6 (sql_param balance_before)) ;;
  after <- lift (numeric_20_6 (sql_param balance_after)) ;;
  guard (0 <? amt) (DatabaseError check_violation "ledger_entries_amount_positive" failing_row) ;;;
  d <- get_db ;;
  guard (negb (existsb (fun e => Nat.eqb (le_id e) id) (ledger_entries d)))
        (DatabaseError unique_violation "ledger_entries_pkey" key_exists) ;;;
  guard (existsb (id_is transaction_id) (transactions d)
         && wallet_exists wallet_id d)
        (DatabaseError foreign_key_violation "ledger_entries_fkey" key_absent) ;;;
  t <- now ;;
  let row := mk_ledger_entry id transaction_id wallet_id entry_type amt before after t in
  set_db (with_ledger_entries d (ledger_entries d ++ [row])).

Definition set_completed (t : timestamptz) (r : transaction_row) : transaction_row :=
  mk_transaction (t_id r) (t_type r) completed (t_user_wallet_id r)
    (t_system_wallet_id r) (t_amount r) (t_reference_id r) (t_idempotency_key r)
    (t_description r) (t_metadata r) (t_created_at r) t.

(** [UPDATE transactions SET status = 'completed', updated_at = NOW()
    WHERE id = $1 RETURNING *] *)
Definition update_transaction_completed (id : gen_uuid) : M (list transaction_row) :=
  d <- get_db ;;
  t <- now ;;
  let ts := map (fun r => if id_is id r then set_completed t r else r) (transactions d) in
  set_db (with_transactions d ts) ;;;
  ret (filter (id_is id) ts).

(** ** The transaction runner (src/config/db.js) *)

Definition begin : M unit :=
  fun w => (mk_world (db w) (db w) (next_uuid w) (clock w) (log w ++ [EBegin]), Ok tt).

Definition commit : M unit :=
  fun w => (mk_world (db w) (db w) (next_uuid w) (clock w) (log w ++ [ECommit]), Ok tt).

Definition rollback : M unit :=
  fun w => (mk_world (undo w) (undo w) (next_uuid w) (clock w) (log w ++ [ERollback]), Ok tt).

(** [try { BEGIN; result = fn(client); COMMIT; return result }
     catch (err) { ROLLBACK; throw err } finally { client.release() }] *)
Definition withTransaction {A} (fn : M A) : M A :=
  fun w =>
    let (w0, _) := emit [EConnect] w in
    let (w1, r) := (begin ;;; result <- fn ;; commit ;;; ret result) w0 in
    match r with
    | Ok result =>
        let (w2, _) := emit [ERelease] w1 in (w2, Ok result)
    | Throw err =>
        let (w2, _) := rollback w1 in
        let (w3, _) := emit [ERelease] w2 in (w3, Throw err)
    end.

(** ** The flow engine (src/services/transaction.service.js) *)

Record Params := mk_params {
  walletId : string;
  systemWalletId : string;
  amount : Js.number;
  referenceId : string;
  reason : string;
  serviceId : string;
  description : option string;
  metadata : json_object;
  idempotencyKey : option string }.

(** A row as a query hands it to [formatTransaction]: the columns of
    [transactions], and [ledger_entries] when the query aggregates them. *)
Record result_row := mk_row {
  r_transaction : transaction_row;
  r_ledger_entries : option (list (option ledger_entry_row)) }.

(** A row of [SELECT *] or [RETURNING *] on [transactions]. *)
Definition star (t : transaction_row) : result_row := mk_row t None.

Definition formatTransaction (row : result_row) : formatted_transaction :=
  let t := r_transaction row in
  mk_formatted (t_id t) (t_type t) (t_status t) (t_user_wallet_id t)
    (t_system_wallet_id t) (parseFloat (t_amount t)) (t_reference_id t)
    (t_idempotency_key t) (t_description t) (t_metadata t)
    (r_ledger_entries row) (t_created_at t) (t_updated_at t).

(** [formatTransaction(rows[0])]: reading a property of [undefined] throws. *)
Definition format_first (rows : list transaction_row) : M formatted_transaction :=
  match rows with
  | r :: _ => ret (formatTransaction (star r))
  | [] => throw (TypeError "Cannot read properties of undefined")
  end.

Definition sortIds (a b : string) : string * string :=
  if String.ltb a b then (a, b) else (b, a).

Definition or_throw {A} (o : option A) (e : Err) : M A :=
  match o with
  | Some a => ret a
  | None => throw e
  end.

(** [(w) => w.id === id]: the text pg returned for the id of the row against
    the text of the request. *)
Definition has_id (id : string) (w : wallet_row) : bool := String.eqb (w_id w) id.

Inductive Flow := Topup | Bonus | Spend.

Section Engine.

(** What rival transactions commit while a [SELECT ... FOR UPDATE] of this
    one waits for their row locks.  [fun d => d] is a run without rivals. *)
Variable ahead : Db -> Db.

Definition wait_for_row_locks : M unit :=
  fun w => (mk_world (ahead (db w)) (ahead (undo w)) (next_uuid w) (clock w) (log w),
            Ok tt).

(** [SELECT * FROM wallets WHERE id IN ($1, $2) ORDER BY id FOR UPDATE]:
    the two texts are read as uuids when the statement is bound, before it
    runs and waits for any lock. *)
Definition select_wallets_for_update (id1 id2 : string) : M (list wallet_row) :=
  v1 <- lift (uuid_param id1) ;;
  v2 <- lift (uuid_param id2) ;;
  wait_for_row_locks ;;;
  d <- get_db ;;
  let rows := order_by_id (filter (id_in v1 v2) (wallets d)) in
  emit (map (fun w => ELock (w_id w)) rows) ;;;
  ret rows.

Definition lockWallets (id1 id2 : string) : M (list wallet_row) :=
  rows <- select_wallets_for_update id1 id2 ;;
  if Nat.ltb (List.length rows) 2 then throw (NotFoundError "One or both wallets")
  else ret rows.

Definition debitWallet (wallet : wallet_row) (amount : Js.number)
    (transactionId : gen_uuid) : M unit :=
  let balanceBefore := parseFloat (w_balance wallet) in
  let balanceAfter := Js.sub balanceBefore amount in
  update_wallets_balance Qminus amount (w_id wallet) ;;;
  insert_ledger_entry transactionId (w_id wallet) debit amount balanceBefore balanceAfter.

Definition creditWallet (wallet : wallet_row) (amount : Js.number)
    (transactionId : gen_uuid) : M unit :=
  let balanceBefore := parseFloat (w_balance wallet) in
  let balanceAfter := Js.add balanceBefore amount in
  update_wallets_balance Qplus amount (w_id wallet) ;;;
  insert_ledger_entry transactionId (w_id wallet) credit amount balanceBefore balanceAfter.

Definition checkDuplicate (idempotencyKey : string) : M (option formatted_transaction) :=
  rows <- select_transactions_by_key idempotencyKey ;;
  match rows with
  | r :: _ => ret (Some (formatTransaction (star r)))
  | [] => ret None
  end.

(** The function [topup] hands to the runner. *)
Definition topup_fn (p : Params) : M formatted_transaction :=
  dup <- match truthy (idempotencyKey p) with
         | Some key =>
             existing <- select_transaction_ids_by_key key ;;
             match existing with
             | id :: _ =>
                 txRows <- select_transactions_by_id id ;;
                 r <- format_first txRows ;;
                 ret (Some r)
             | [] => ret None
             end
         | None => ret None
         end ;;
  match dup with
  | Some r => ret r
  | None =>
      let (firstId, secondId) := sortIds (systemWalletId p) (walletId p) in
      wallets <- lockWallets firstId secondId ;;
      systemWallet <- or_throw (find (has_id (systemWalletId p)) wallets)
                               (NotFoundError "System wallet") ;;
      userWallet <- or_throw (find (has_id (walletId p)) wallets)
                             (NotFoundError "User wallet") ;;
      guard (w_is_active systemWallet) (ConflictError "System wallet is inactive") ;;;
      guard (w_is_active userWallet) (ConflictError "User wallet is inactive") ;;;
      guard (String.eqb (w_asset_type_id systemWallet) (w_asset_type_id userWallet))
            (ConflictError "Wallet asset types do not match") ;;;
      guard (negb (Js.ltb (parseFloat (w_balance systemWallet)) (amount p)))
            (InsufficientFundsError (AvailText (w_balance systemWallet)) (amount p)) ;;;
      txn <- insert_transaction ty_topup (walletId p) (systemWalletId p) (amount p)
               (Some (referenceId p)) (truthy (idempotencyKey p))
               (truthy (description p)) (metadata p) ;;
      debitWallet systemWallet (amount p) (t_id txn) ;;;
      creditWallet userWallet (amount p) (t_id txn) ;;;
      rows <- update_transaction_completed (t_id txn) ;;
      format_first rows
  end.

(** The function [bonus] hands to the runner. *)
Definition bonus_fn (p : Params) : M formatted_transaction :=
  dup <- match truthy (idempotencyKey p) with
         | Some key => checkDuplicate key
         | None => ret None
         end ;;
  match dup with
  | Some r => ret r
  | None =>
      let (firstId, secondId) := sortIds (systemWalletId p) (walletId p) in
      wallets <- lockWallets firstId secondId ;;
      systemWallet <- or_throw (find (has_id (systemWalletId p)) wallets)
                               (NotFoundError "System wallet") ;;
      userWallet <- or_throw (find (has_id (walletId p)) wallets)
                             (NotFoundError "User wallet") ;;
      guard (w_is_active systemWallet) (ConflictError "Bonus pool wallet is inactive") ;;;
      guard (w_is_active userWallet) (ConflictError "User wallet is inactive") ;;;
      guard (String.eqb (w_asset_type_id systemWallet) (w_asset_type_id userWallet))
            (ConflictError "Wallet asset types do not match") ;;;
      guard (negb (Js.ltb (parseFloat (w_balance systemWallet)) (amount p)))
            (InsufficientFundsError (AvailText (w_balance systemWallet)) (amount p)) ;;;
      txn <- insert_transaction ty_bonus (walletId p) (systemWalletId p) (amount p)
               None (truthy (idempotencyKey p))
               (or_else (description p) ("Bonus: " ++ reason p))
               (spread [("reason", reason p)] (metadata p)) ;;
      debitWallet systemWallet (amount p) (t_id txn) ;;;
      creditWallet userWallet (amount p) (t_id txn) ;;;
      rows <- update_transaction_completed (t_id txn) ;;
      format_first rows
  end.

(** The function [spend] hands to the runner. *)
Definition spend_fn (p : Params) : M formatted_transaction :=
  dup <- match truthy (idempotencyKey p) with
         | Some key => checkDuplicate key
         | None => ret None
         end ;;
  match dup with
  | Some r => ret r
  | None =>
      let (firstId, secondId) := sortIds (walletId p) (systemWalletId p) in
      wallets <- lockWallets firstId secondId ;;
      userWallet <- or_throw (find (has_id (walletId p)) wallets)
                             (NotFoundError "User wallet") ;;
      systemWallet <- or_throw (find (has_id (systemWalletId p)) wallets)
                               (NotFoundError "Revenue wallet") ;;
      guard (w_is_active userWallet) (ConflictError "User wallet is inactive") ;;;
      guard (w_is_active systemWallet) (ConflictError "Revenue wallet is inactive") ;;;
      guard (String.eqb (w_asset_type_id userWallet) (w_asset_type_id systemWallet))
            (ConflictError "Wallet asset types do not match") ;;;
      guard (negb (Js.ltb (parseFloat (w_balance userWallet)) (amount p)))
            (InsufficientFundsError (AvailNumber (parseFloat (w_balance userWallet)))
                                    (amount p)) ;;;
      txn <- insert_transaction ty_spend (walletId p) (systemWalletId p) (amount p)
               None (truthy (idempotencyKey p))
               (or_else (description p) ("Purchase: " ++ serviceId p))
               (spread [("serviceId", serviceId p)] (metadata p)) ;;
      debitWallet userWallet (amount p) (t_id txn) ;;;
      creditWallet systemWallet (amount p) (t_id txn) ;;;
      rows <- update_transaction_completed (t_id txn) ;;
      format_first rows
  end.

Definition topup (p : Params) : M formatted_transaction :=
  withTransaction (topup_fn p).

Definition bonus (p : Params) : M formatted_transaction :=
  withTransaction (bonus_fn p).

Definition spend (p : Params) : M formatted_transaction :=
  withTransaction (spend_fn p).

Definition flow_fn (f : Flow) : Params -> M formatted_transaction :=
  match f with
  | Topup => topup_fn
  | Bonus => bonus_fn
  | Spend => spend_fn
  end.

Definition run_flow (f : Flow) : Params -> M formatted_transaction :=
  match f with
  | Topup => topup
  | Bonus => bonus
  | Spend => spend
  end.

End Engine.

(** [getTransaction]: the read view that aggregates the postings,
    [json_agg(le ORDER BY le.created_at)] over a LEFT JOIN. *)
Fixpoint insert_by_created_at (e : ledger_entry_row) (l : list ledger_entry_row)
    : list ledger_entry_row :=
  match l with
  | [] => [e]
  | x :: rest =>
      if le_created_at e <? le_created_at x then e :: x :: rest
      else x :: insert_by_created_at e rest
  end.

Definition references (id : gen_uuid) (e : ledger_entry_row) : bool :=
  Nat.eqb (le_transaction_id e) id.

Definition json_agg_entries (id : gen_uuid) (d : Db) : list (option ledger_entry_row) :=
  match filter (references id) (ledger_entries d) with
  | [] => [None]
  | es => map Some (fold_left (fun acc e => insert_by_created_at e acc) es [])
  end.

Definition getTransaction (transactionId : gen_uuid) : M formatted_transaction :=
  d <- get_db ;;
  match filter (id_is transactionId) (transactions d) with
  | [] => throw (NotFoundError "Transaction")
  | t :: _ => ret (formatTransaction (mk_row t (Some (json_agg_entries transactionId d))))
  end.

(** ** The request boundary *)

Record Env := mk_env {
  IDEMPOTENCY_TTL_HOURS : Z;
  NODE_ENV : string }.

Record Request := mk_request {
  req_id : option string;
  req_path : string;
  req_idempotency_key : option string;      (* headers['idempotency-key'] *)
  req_body : Params }.

Record Response := mk_response {
  res_statusCode : nat;
  res_x_idempotency_replayed : bool;        (* X-Idempotency-Replayed: true *)
  res_body : json_body }.

(** A handler down the middleware chain: it ends by sending one response. *)
Definition Handler := World -> World * Response.

Section Boundary.

Variable env : Env.
Variable ahead : Db -> Db.

(** src/middleware/errorHandler.js *)
Definition errorHandler (err : Err) (req : Request) : Response :=
  let requestId := match truthy (req_id req) with
                   | Some id => id
                   | None => "unknown"
                   end in
  match err with
  | AppError msg statusCode code details =>
      mk_response statusCode false (BodyError code msg details false requestId)
  | DatabaseError code constraint detail =>
      if String.eqb code "23514" then
        mk_response 422 false
          (BodyError "CONSTRAINT_VIOLATION"
             (Msg match truthy detail with
                  | Some d => d
                  | None => "Database constraint violated"
                  end)
             None false requestId)
      else if String.eqb code "23505" then
        mk_response 409 false
          (BodyError "CONFLICT" (Msg "Resource already exists") None false requestId)
      else if String.eqb (NODE_ENV env) "production" then
        mk_response 500 false
          (BodyError "INTERNAL_ERROR" (Msg "An unexpected error occurred") None false
             requestId)
      else
        mk_response 500 false
          (BodyError "INTERNAL_ERROR" (Msg constraint) None true requestId)
  | TypeError m =>
      if String.eqb (NODE_ENV env) "production" then
        mk_response 500 false
          (BodyError "INTERNAL_ERROR" (Msg "An unexpected error occurred") None false
             requestId)
      else
        mk_response 500 false (BodyError "INTERNAL_ERROR" (Msg m) None true requestId)
  end.

(** src/controllers/transaction.controller.js:
    [try { txn = await service({ ...req.body, idempotencyKey });
           res.status(201).json({ success: true, data: txn }) }
     catch (err) { next(err) }] *)
Definition with_key (body : Params) (key : option string) : Params :=
  mk_params (walletId body) (systemWalletId body) (amount body) (referenceId body)
    (reason body) (serviceId body) (description body) (metadata body) key.

Definition controller (f : Flow) (req : Request) : Handler :=
  fun w =>
    let idempotencyKey := req_idempotency_key req in
    match run_flow ahead f (with_key (req_body req) idempotencyKey) w with
    | (w', Ok txn) => (w', mk_response 201 false (BodySuccess txn))
    | (w', Throw err) => (w', errorHandler err req)
    end.

(** The pool's own [query]: a statement outside any transaction. *)
Definition autocommit (f : Db -> Db) (w : World) : World :=
  mk_world (f (db w)) (f (db w)) (next_uuid w) (clock w) (log w).

Definition seconds_of_hours (h : Z) : Z := h * 3600.

Definition same_key_path (key path : string) (r : idempotency_key_row) : bool :=
  String.eqb (ik_key r) key && String.eqb (ik_request_path r) path.

(** [SELECT response_status, response_body FROM idempotency_keys
    WHERE key = $1 AND request_path = $2 AND expires_at > NOW()] *)
Definition select_cached (key path : string) (w : World) : list idempotency_key_row :=
  filter (fun r => same_key_path key path r && (clock w <? ik_expires_at r))
         (idempotency_keys (db w)).

(** [INSERT INTO idempotency_keys (...) VALUES ($1, $2, $3, $4,
    NOW() + ($5 || ' hours')::INTERVAL) ON CONFLICT (key, request_path) DO NOTHING];
    a failing insert is caught and logged, the response still goes out.
    The inserts that fail here are those on the width of a column: the TTL
    is taken to be one the server can add to the clock, and the body one
    the JSONB column accepts. *)
Definition store_response (key path : string) (status : nat) (body : json_body)
    (w : World) : World :=
  if negb (Nat.leb (String.length key) 255 && Nat.leb (String.length path) 500)
  then w
  else if existsb (same_key_path key path) (idempotency_keys (db w)) then w
  else
    let row := mk_idempotency_key key path status body
                 (clock w + seconds_of_hours (IDEMPOTENCY_TTL_HOURS env)) in
    autocommit (fun d => with_idempotency_keys d (idempotency_keys d ++ [row])) w.

(** src/middleware/idempotency.js.  [res.json] is wrapped so that the first
    body sent with a status below 500 is stored; a cache hit marks the
    response captured before sending it. *)
Definition idempotency (req : Request) (next : Handler) : Handler :=
  fun w =>
    match truthy (req_idempotency_key req) with
    | None => next w
    | Some key =>
        let requestPath := req_path req in
        match select_cached key requestPath w with
        | cached :: _ =>
            (w, mk_response (ik_response_status cached) true (ik_response_body cached))
        | [] =>
            let (w', res) := next w in
            if Nat.ltb (res_statusCode res) 500
            then (store_response key requestPath (res_statusCode res) (res_body res) w',
                  res)
            else (w', res)
        end
    end.

(** [router.post(path, mutationLimiter, idempotency, validateBody(schema), controller)],
    for a body that passes the limiter and the schema. *)
Definition endpoint (f : Flow) (req : Request) : Handler :=
  idempotency req (controller f req).

End Boundary.

(** ** Observations on a run *)

(** The row locks in a log, in the order they were taken. *)
Fixpoint locks (l : list Event) : list uuid :=
  match l with
  | [] => []
  | ELock id :: rest => id :: locks rest
  | _ :: rest => locks rest
  end.

(** The row locks a computation takes when started in [w]. *)
Definition acquired {A} (m : M A) (w : World) : list uuid :=
  locks (skipn (List.length (log w)) (log (fst (m w)))).

(** [x] is taken strictly before [y]. *)
Definition precedes (x y : uuid) (l : list uuid) : Prop :=
  exists l1 l2 l3, l = (l1 ++ x :: l2 ++ y :: l3)%list.

Definition ascending (l : list uuid) : Prop :=
  StronglySorted (fun x y => String.leb x y = true) l.

(** The waits that row locks can create: a flow that holds the lock on [x]
    and has yet to take the one on [y] makes the holder of [y] stand before
    it, and such waits chain.  A deadlock on wallet rows is a chain that
    closes on itself. *)
Inductive lock_wait : uuid -> uuid -> Prop :=
| wait_step (ahead : Db -> Db) (f : Flow) (p : Params) (w : World) (x y : uuid) :
    precedes x y (acquired (run_flow ahead f p) w) -> x <> y -> lock_wait x y
| wait_chain (x y z : uuid) :
    lock_wait x y -> lock_wait y z -> lock_wait x z.

(** Both texts are read as uuids. *)
Definition uuid_texts (id1 id2 : string) : bool :=
  match uuid_in id1, uuid_in id2 with
  | Some _, Some _ => true
  | _, _ => false
  end.

(** The rows [lockWallets id1 id2] finds in [d], in the order they are
    locked: none when a text is no uuid and the statement fails. *)
Definition locked_rows (id1 id2 : string) (d : Db) : list wallet_row :=
  match uuid_in id1, uuid_in id2 with
  | Some v1, Some v2 => order_by_id (filter (id_in v1 v2) (wallets d))
  | _, _ => []
  end.

(** * Vocabulary of the statements *)

(** The order of [ORDER BY id] on rows. *)
Definition by_id (x y : wallet_row) : Prop := String.leb (w_id x) (w_id y) = true.

(** A computation that leaves the rollback point, the log and the clock alone. *)
Definition Frame {A} (m : M A) : Prop :=
  forall w, undo (fst (m w)) = undo w /\ log (fst (m w)) = log w
            /\ clock (fst (m w)) = clock w.

(** A computation whose faults all come from the datastore or the runtime. *)
Definition Infra {A} (m : M A) : Prop :=
  forall w e, snd (m w) = Throw e -> isOperational e = false.

(** The world after the runner has taken a client and issued BEGIN, after
    COMMIT and release, and after ROLLBACK and release. *)
Definition begun (w : World) : World :=
  mk_world (db w) (db w) (next_uuid w) (clock w) ((log w ++ [EConnect]) ++ [EBegin]).

Definition committed_world (w : World) : World :=
  mk_world (db w) (db w) (next_uuid w) (clock w) ((log w ++ [ECommit]) ++ [ERelease]).

Definition rolled_back (w : World) : World :=
  mk_world (undo w) (undo w) (next_uuid w) (clock w) ((log w ++ [ERollback]) ++ [ERelease]).

(** The first transaction row a hit of the duplicate check formats. *)
Definition dup_row (f : Flow) (k : string) (d : Db) : option transaction_row :=
  match filter (key_is k) (transactions d) with
  | [] => None
  | r :: _ =>
      match f with
      | Topup => hd_error (filter (id_is (t_id r)) (transactions d))
      | _ => Some r
      end
  end.

(** The duplicate check finds nothing: no key, or no row under the key. *)
Definition dup_miss (p : Params) (d : Db) : Prop :=
  match truthy (idempotencyKey p) with
  | Some k => filter (key_is k) (transactions d) = []
  | None => True
  end.

(** [PRIMARY KEY (id)] on [transactions] and on [wallets]. *)
Definition transactions_pkey (d : Db) : Prop := NoDup (map t_id (transactions d)).
Definition wallets_pkey (d : Db) : Prop := NoDup (map w_id (wallets d)).

(** The per-flow policy: which wallet is debited and which credited, and
    what each flow writes into the transaction row. *)
Definition source_id (f : Flow) (p : Params) : uuid :=
  match f with Spend => walletId p | _ => systemWalletId p end.

Definition target_id (f : Flow) (p : Params) : uuid :=
  match f with Spend => systemWalletId p | _ => walletId p end.

Definition flow_type (f : Flow) : transaction_type_enum :=
  match f with Topup => ty_topup | Bonus => ty_bonus | Spend => ty_spend end.

Definition flow_reference (f : Flow) (p : Params) : option string :=
  match f with Topup => Some (referenceId p) | _ => None end.

Definition flow_description (f : Flow) (p : Params) : option string :=
  match f with
  | Topup => truthy (description p)
  | Bonus => or_else (description p) ("Bonus: " ++ reason p)
  | Spend => or_else (description p) ("Purchase: " ++ serviceId p)
  end.

Definition flow_metadata (f : Flow) (p : Params) : json_object :=
  match f with
  | Topup => metadata p
  | Bonus => spread [("reason", reason p)] (metadata p)
  | Spend => spread [("serviceId", serviceId p)] (metadata p)
  end.

(** What the source wallet's balance is reported as in [InsufficientFunds]. *)
Definition flow_available (f : Flow) (source : wallet_row) : available_value :=
  match f with
  | Spend => AvailNumber (parseFloat (w_balance source))
  | _ => AvailText (w_balance source)
  end.

(** Steps 3 and 4 of a flow as a function of the rows the locker returned:
    the fault raised, or the source and the target wallet. *)
Definition validate (f : Flow) (p : Params) (rows : list wallet_row)
    : Err + wallet_row * wallet_row :=
  if Nat.ltb (List.length rows) 2 then inl (NotFoundError "One or both wallets")
  else
    let system := find (has_id (systemWalletId p)) rows in
    let user := find (has_id (walletId p)) rows in
    let checks (s u : wallet_row) (inactive_system : string) :=
      let source := match f with Spend => u | _ => s end in
      let target := match f with Spend => s | _ => u end in
      if negb (w_is_active source) then
        inl (ConflictError match f with
                           | Spend => "User wallet is inactive"
                           | _ => inactive_system
                           end)
      else if negb (w_is_active target) then
        inl (ConflictError match f with
                           | Spend => inactive_system
                           | _ => "User wallet is inactive"
                           end)
      else if negb (String.eqb (w_asset_type_id source) (w_asset_type_id target)) then
        inl (ConflictError "Wallet asset types do not match")
      else if Js.ltb (parseFloat (w_balance source)) (amount p) then
        inl (InsufficientFundsError (flow_available f source) (amount p))
      else inr (source, target) in
    match f with
    | Topup =>
        match system, user with
        | None, _ => inl (NotFoundError "System wallet")
        | Some _, None => inl (NotFoundError "User wallet")
        | Some s, Some u => checks s u "System wallet is inactive"
        end
    | Bonus =>
        match system, user with
        | None, _ => inl (NotFoundError "System wallet")
        | Some _, None => inl (NotFoundError "User wallet")
        | Some s, Some u => checks s u "Bonus pool wallet is inactive"
        end
    | Spend =>
        match user, system with
        | None, _ => inl (NotFoundError "User wallet")
        | Some _, None => inl (NotFoundError "Revenue wallet")
        | Some u, Some s => checks s u "Revenue wallet is inactive"
        end
    end.

(** The world once the lock statement has returned. *)
Definition locked_world (ahead : Db -> Db) (id1 id2 : string) (w : World) : World :=
  mk_world (ahead (db w)) (ahead (undo w)) (next_uuid w) (clock w)
    (log w ++ map (fun x => ELock (w_id x)) (locked_rows id1 id2 (ahead (db w)))).

(** Steps 5 to 8 of a flow: the pending row, the two postings, completion. *)
Definition post (f : Flow) (p : Params) (source target : wallet_row)
    : M formatted_transaction :=
  txn <- insert_transaction (flow_type f) (walletId p) (systemWalletId p) (amount p)
           (flow_reference f p) (truthy (idempotencyKey p))
           (flow_description f p) (flow_metadata f p) ;;
  debitWallet source (amount p) (t_id txn) ;;;
  creditWallet target (amount p) (t_id txn) ;;;
  rows <- update_transaction_completed (t_id txn) ;;
  format_first rows.

(** The ids of the rows a flow locks, in the order it locks them. *)
Definition locked_ids (ahead : Db -> Db) (p : Params) (d : Db) : list uuid :=
  map w_id (locked_rows (walletId p) (systemWalletId p) (ahead d)).

(** The statement that ends a transaction with this outcome. *)
Definition closing {A} (r : result A) : Event :=
  match r with Ok _ => ECommit | Throw _ => ERollback end.

(** The text is what the server prints for the uuid it stands for. *)
Definition printed (id : string) : bool :=
  match uuid_in id with
  | Some v => String.eqb v id
  | None => false
  end.

(** The row of the wallet table a flow finds under the id of a request:
    the row the lock statement selects for the value the text stands for,
    kept by [find] when the text pg returns for it is the text of the
    request. *)
Definition wallet_of (d : Db) (id : string) : option wallet_row :=
  match uuid_in id with
  | Some v => find (has_id id) (filter (w_id_is v) (wallets d))
  | None => None
  end.

(** The messages of the two [is_active] checks. *)
Definition inactive_source (f : Flow) : string :=
  match f with
  | Topup => "System wallet is inactive"
  | Bonus => "Bonus pool wallet is inactive"
  | Spend => "User wallet is inactive"
  end.

Definition inactive_target (f : Flow) : string :=
  match f with
  | Spend => "Revenue wallet is inactive"
  | _ => "User wallet is inactive"
  end.

(** The function a flow hands to the runner wrote nothing: when it ended,
    the store was as the lock statement had found it. *)
Definition wrote_nothing (ahead : Db -> Db) (f : Flow) (p : Params) (w : World) : Prop :=
  db (fst (flow_fn ahead f p (begun w))) = ahead (db w).

(** One row of the completing UPDATE. *)
Definition complete_row (id : gen_uuid) (t : timestamptz) (r : transaction_row)
    : transaction_row :=
  if id_is id r then set_completed t r else r.

(** The completed row and the two postings a fresh run leaves behind. *)
Definition completed_row (f : Flow) (p : Params) (id : gen_uuid) (t : timestamptz)
    (amt : numeric) : transaction_row :=
  mk_transaction id (flow_type f) completed (walletId p) (systemWalletId p)
    amt (flow_reference f p) (truthy (idempotencyKey p)) (flow_description f p)
    (flow_metadata f p) t t.

Definition debit_entry (id : gen_uuid) (t : timestamptz) (source : wallet_row)
    (amt before after : numeric) : ledger_entry_row :=
  mk_ledger_entry (S id) id (w_id source) debit amt before after t.

Definition credit_entry (id : gen_uuid) (t : timestamptz) (target : wallet_row)
    (amt before after : numeric) : ledger_entry_row :=
  mk_ledger_entry (S (S id)) id (w_id target) credit amt before after t.

(** [ledger_entries.transaction_id REFERENCES transactions (id)] *)
Definition ledger_fkey (d : Db) : Prop :=
  Forall (fun e => existsb (id_is (le_transaction_id e)) (transactions d) = true)
         (ledger_entries d).

(** A posting's amount with its sign: negative for a debit. *)
Definition signed_amount (e : ledger_entry_row) : Z :=
  match le_entry_type e with
  | debit => - le_amount e
  | credit => le_amount e
  end.

(** Replaying a request [n] times, each run starting where the last ended. *)
Fixpoint replay (ahead : Db -> Db) (f : Flow) (p : Params) (n : nat) (w : World)
    : World * list (result formatted_transaction) :=
  match n with
  | O => (w, [])
  | S n' =>
      let (w1, r) := run_flow ahead f p w in
      let (w2, rs) := replay ahead f p n' w1 in
      (w2, r :: rs)
  end.

(** [transactions.idempotency_key UNIQUE], for one key. *)
Definition key_unique (k : string) (d : Db) : Prop :=
  (List.length (filter (key_is k) (transactions d)) <= 1)%nat.

(** [req.id || 'unknown'] *)
Definition requestId_of (req : Request) : string :=
  match truthy (req_id req) with
  | Some id => id
  | None => "unknown"
  end.

(** No stored response has a status of 500 or above. *)
Definition never_5xx (d : Db) : Prop :=
  Forall (fun r => (ik_response_status r < 500)%nat) (idempotency_keys d).

(** [UNIQUE (key, request_path)] *)
Definition idempotency_keys_unique (d : Db) : Prop :=
  NoDup (map (fun r => (ik_key r, ik_request_path r)) (idempotency_keys d)).

(** * Scenarios

    The seed of the integration tests (tests/helpers/db.js): one asset,
    treasury 1,000,000, bonus pool 500,000, revenue 0, alice 500, bob 100. *)

Definition no_rivals (d : Db) : Db := d.

Definition units (n : Z) : numeric := n * 1000000.

Definition asset_tc : uuid := "aaaaaaaa-aaaa-aaaa-aaaa-aaaaaaaaaaaa".
Definition treasury : uuid := "bbbbbbbb-bbbb-bbbb-bbbb-bbbbbbbbbbbb".
Definition bonus_pool : uuid := "eeeeeeee-eeee-eeee-eeee-eeeeeeeeeeee".
Definition revenue : uuid := "99999999-9999-9999-9999-999999999999".
Definition alice : uuid := "dddddddd-dddd-dddd-dddd-dddddddddddd".
Definition bob : uuid := "22222222-2222-2222-2222-222222222222".

Definition wallet (id owner : uuid) (balance : numeric) : wallet_row :=
  mk_wallet id owner asset_tc balance true 0.

Definition seed_wallets (treasury_balance alice_balance : numeric) : list wallet_row :=
  [ wallet treasury "cccccccc-cccc-cccc-cccc-cccccccccccc" treasury_balance;
    wallet bonus_pool "ffffffff-ffff-ffff-ffff-ffffffffffff" (units 500000);
    wallet revenue "88888888-8888-8888-8888-888888888888" (units 0);
    wallet alice "11111111-1111-1111-1111-111111111111" alice_balance;
    wallet bob "33333333-3333-3333-3333-333333333333" (units 100) ].

Definition seed_db : Db := mk_db (seed_wallets (units 1000000) (units 500)) [] [] [].

Definition world_of (d : Db) : World := mk_world d d 0%nat 1700000000 [].

Definition request_body (user system : uuid) (amt : Js.number) : Params :=
  mk_params user system amt "stripe-111" "referral" "item-sword-001" None [] None.

Definition test_env : Env := mk_env 24 "test".

Definition post_request (path key : string) (body : Params) : Request :=
  mk_request (Some "req-1") path (Some key) body.

(** Scenario 1: alice tops up 100 under key k1. *)
Definition topup_100 : Params :=
  with_key (request_body alice treasury (inject_Z 100)) (Some "k1").

Definition topup_100_row : transaction_row :=
  mk_transaction 0 ty_topup completed alice treasury (units 100) (Some "stripe-111")
    (Some "k1") None [] 1700000000 1700000000.

Definition after_topup_100 : World := fst (topup no_rivals topup_100 (world_of seed_db)).

(** A store whose treasury holds 10^13 units. *)
Definition rich_treasury_db : Db :=
  mk_db (seed_wallets (units 10000000000000) (units 500)) [] [] [].

(** A store in which alice holds 9999999999999.999999 units. *)
Definition rich_alice_db : Db :=
  mk_db (seed_wallets (units 1000000) 9999999999999999999) [] [] [].

(** A rival request that is served to completion on another connection. *)
Definition rival (f : Flow) (p : Params) (d : Db) : Db :=
  db (fst (run_flow no_rivals f p (mk_world d d 100%nat 1700000000 []))).

(** A decision procedure for [NoDup], to check keys of concrete tables. *)
Fixpoint nodupb {A} (eqb : A -> A -> bool) (l : list A) : bool :=
  match l with
  | [] => true
  | x :: rest => negb (existsb (eqb x) rest) && nodupb eqb rest
  end.

Definition topup_thousandth : Params :=
  with_key (request_body alice treasury (Js.fl (1 # 1000))) (Some "k1").

(** Alice holds 9999999999999.999999 and spends 10^13: the funds check
    passes (see C7), the pending row is inserted, and the debit violates
    [CHECK (balance >= 0)]. *)
Definition spend_ten_trillion : Params :=
  with_key (request_body alice revenue (inject_Z 10000000000000)) (Some "k2").

Definition topup_100_request : Request :=
  post_request "/api/v1/transactions/topup" "k1" (request_body alice treasury (inject_Z 100)).

(** The same request, served on another connection, commits while this one
    waits for the row locks. *)
Definition winner : Db -> Db := rival Topup topup_100.

Definition stranger : uuid := "00000000-0000-0000-0000-000000000000".

(** Alice's id as a client may write it. *)
Definition alice_in_capitals : string := "DDDDDDDD-DDDD-DDDD-DDDD-DDDDDDDDDDDD".

(** Alice's wallet deactivated; alice's wallet in another asset. *)
Definition frozen_db : Db :=
  mk_db [ wallet treasury "cccccccc-cccc-cccc-cccc-cccccccccccc" (units 1000000);
          mk_wallet alice "11111111-1111-1111-1111-111111111111" asset_tc (units 500)
            false 0 ]
        [] [] [].

Definition mixed_db : Db :=
  mk_db [ wallet treasury "cccccccc-cccc-cccc-cccc-cccccccccccc" (units 1000000);
          mk_wallet alice "11111111-1111-1111-1111-111111111111"
            "a1a1a1a1-a1a1-a1a1-a1a1-a1a1a1a1a1a1" (units 500) true 0 ]
        [] [] [].

Definition alice_row : wallet_row :=
  wallet alice "11111111-1111-1111-1111-111111111111" (units 500).

Definition revenue_row : wallet_row :=
  wallet revenue "88888888-8888-8888-8888-888888888888" (units 0).

Definition spend_9999 : Params :=
  with_key (request_body alice revenue (inject_Z 9999)) (Some "k2").

Definition spend_100 : Params :=
  with_key (request_body alice revenue (inject_Z 100)) (Some "k3").

Definition after_first_request : World :=
  fst (endpoint test_env no_rivals Topup topup_100_request (world_of seed_db)).

Definition cached_topup_100 : idempotency_key_row :=
  mk_idempotency_key "k1" "/api/v1/transactions/topup" 201
    (BodySuccess (formatTransaction (star topup_100_row))) (1700000000 + 24 * 3600).

(** A handler that fails with an unexpected fault. *)
Definition crashing : Handler :=
  fun w => (w, errorHandler test_env (TypeError "boom") topup_100_request).

Definition pending_bonus_row : transaction_row :=
  mk_transaction 7 ty_bonus pending bob bonus_pool (units 50) None (Some "k1")
    (Some "Bonus: referral") [("reason", "referral")] 1600000000 1600000000.

Definition db_with_pending_bonus : Db :=
  mk_db (seed_wallets (units 1000000) (units 500)) [pending_bonus_row] [] [].

(** A spend of 10^9 between two unknown wallets under the same key. *)
Definition spend_between_strangers : Request :=
  post_request "/api/v1/transactions/spend" "k1"
    (request_body stranger "ffffffff-0000-0000-0000-000000000000" (inject_Z 1000000000)).

(** * Vocabulary of the invariants *)

(** [CHECK (balance >= 0)] on every wallet. *)
Definition balances_non_negative (d : Db) : Prop :=
  Forall (fun x => 0 <= w_balance x) (wallets d).

(** The sum of all wallet balances, in millionths. *)
Definition total_balance (d : Db) : Z :=
  fold_right (fun x acc => w_balance x + acc) 0 (wallets d).

(** A decimal with at most six fractional digits. *)
Definition six_decimals (d : Q) : bool :=
  (Qnum d * 1000000) mod Zpos (Qden d) =? 0.

(** What the two UPDATEs of a posting of [amt] make of one wallet row. *)
Definition moved (src tgt : uuid) (amt : numeric) (t : timestamptz) (x : wallet_row)
    : wallet_row :=
  if String.eqb (w_id x) src then set_balance x (w_balance x - amt) t
  else if String.eqb (w_id x) tgt then set_balance x (w_balance x + amt) t
  else x.

(** The constraints of the schema that the flows rely on. *)
Definition schema_holds (d : Db) : Prop :=
  wallets_pkey d /\ transactions_pkey d /\ (forall k, key_unique k d) /\
  ledger_fkey d /\ balances_non_negative d.

(** What a run may do to one wallet row: the identifying columns stay, and a
    row under another id than the two of the request stays as it is. *)
Definition same_wallet_but_balance (id1 id2 : uuid) (x y : wallet_row) : Prop :=
  w_id y = w_id x /\ w_owner_id y = w_owner_id x /\
  w_asset_type_id y = w_asset_type_id x /\ w_is_active y = w_is_active x /\
  (w_id x <> id1 -> w_id x <> id2 -> y = x).

(** The faults the flows raise themselves. *)
Definition business_fault (f : Flow) (p : Params) (e : Err) : Prop :=
  (exists resource,
     In resource ["One or both wallets"; "System wallet"; "User wallet"; "Revenue wallet"]
     /\ e = NotFoundError resource) \/
  (exists m,
     In m [inactive_source f; inactive_target f; "Wallet asset types do not match"]
     /\ e = ConflictError m) \/
  (exists source, e = InsufficientFundsError (flow_available f source) (amount p)).


(** A top-up of half a millionth. *)
Definition topup_half_millionth : Params :=
  with_key (request_body alice treasury (Js.fl (5 # 10000000))) (Some "k1").

(** The record of scenario 1 once it has expired, and a later moment. *)
Definition later (dt : Z) (w : World) : World :=
  mk_world (db w) (undo w) (next_uuid w) (clock w + dt) (log w).

(** The same request with another amount in its body. *)
Definition topup_999_request : Request :=
  post_request "/api/v1/transactions/topup" "k1" (request_body alice treasury (inject_Z 999)).

(** A request without an Idempotency-Key header. *)
Definition keyless_topup_request : Request :=
  mk_request (Some "req-2") "/api/v1/transactions/topup" None
    (request_body alice treasury (inject_Z 100)).

(** ** The migration runner (src/db/migrate.js) *)

(** [f.endsWith(suffix)] *)
Definition endsWith (suffix f : string) : bool :=
  Nat.leb (String.length suffix) (String.length f)
  && String.eqb (substring (String.length f - String.length suffix)
                   (String.length suffix) f) suffix.

Fixpoint insert_sorted (f : string) (l : list string) : list string :=
  match l with
  | [] => [f]
  | x :: rest => if String.leb f x then f :: x :: rest else x :: insert_sorted f rest
  end.

(** [files.sort()]: ascending order of the code units. *)
Definition sort_names (l : list string) : list string :=
  fold_right insert_sorted [] l.

Section Migrations.

(** The schema the migration files act on, and what [client.query(sql)]
    makes of it for the text of one file: the schema it leaves, or the
    message of the error it raises.  The table [schema_migrations] is kept
    apart from that schema: the one statement of [src/db/migrations] that
    names it, [CREATE TABLE IF NOT EXISTS schema_migrations] in file 005,
    finds it created by the runner and does nothing. *)
Variable Schema : Type.
Variable run_sql : string -> Schema -> Schema + string.

(** The database as the runner sees it: the schema, and the filenames in
    [schema_migrations] when that table exists. *)
Record Catalog := mk_catalog {
  schema : Schema;
  schema_migrations : option (list string) }.

Inductive Outcome :=
| Complete (count : nat)                  (* "Migrations complete. [count] new ..." *)
| Failure (message : string).             (* the thrown Error *)

(** [CREATE TABLE IF NOT EXISTS schema_migrations (...)] *)
Definition create_schema_migrations (c : Catalog) : Catalog :=
  match schema_migrations c with
  | Some _ => c
  | None => mk_catalog (schema c) (Some [])
  end.

Definition recorded (c : Catalog) : list string :=
  match schema_migrations c with
  | Some t => t
  | None => []
  end.

(** [INSERT INTO schema_migrations (filename) VALUES ($1)]:
    [filename VARCHAR(255) NOT NULL UNIQUE]. *)
Definition insert_migration (file : string) (t : list string) : list string + string :=
  if negb (Nat.leb (String.length file) 255)
  then inr "value too long for type character varying(255)"
  else if existsb (String.eqb file) t
  then inr "duplicate key value violates unique constraint"
  else inl (t ++ [file])%list.

(** [readFile(join(MIGRATIONS_DIR, file), 'utf8')] in a directory given by
    its entries, name and content. *)
Definition readFile (dir : list (string * string)) (file : string) : option string :=
  option_map snd (find (fun e => String.eqb (fst e) file) dir).

Definition migration_failed (file msg : string) : string :=
  "Migration failed: " ++ file ++ String "010" msg.

(** The loop over the sorted files. *)
Fixpoint apply_files (dir : list (string * string)) (appliedSet : list string)
    (files : list string) (c : Catalog) (count : nat) : Catalog * Outcome :=
  match files with
  | [] => (c, Complete count)
  | file :: rest =>
      if existsb (String.eqb file) appliedSet
      then apply_files dir appliedSet rest c count
      else
        match readFile dir file with
        | None => (c, Failure ("ENOENT: no such file or directory, open " ++ file))
        | Some sql =>
            (* BEGIN *)
            match run_sql sql (schema c) with
            | inr msg => (c, Failure (migration_failed file msg))      (* ROLLBACK *)
            | inl s =>
                match insert_migration file (recorded c) with
                | inr msg => (c, Failure (migration_failed file msg))  (* ROLLBACK *)
                | inl t =>                                             (* COMMIT *)
                    apply_files dir appliedSet rest (mk_catalog s (Some t)) (S count)
                end
            end
        end
  end.

Definition migrate (dir : list (string * string)) (c : Catalog) : Catalog * Outcome :=
  let c0 := create_schema_migrations c in
  let appliedSet := recorded c0 in
  let files := sort_names (filter (endsWith ".sql") (map fst dir)) in
  apply_files dir appliedSet files c0 0.

End Migrations.

Arguments mk_catalog {Schema} schema schema_migrations.
Arguments schema {Schema} c.
Arguments schema_migrations {Schema} c.
Arguments create_schema_migrations {Schema} c.
Arguments recorded {Schema} c.
Arguments apply_files {Schema} run_sql dir appliedSet files c count.
Arguments migrate {Schema} run_sql dir c.

(** The ascending order of filenames. *)
Definition by_name (x y : string) : Prop := String.leb x y = true.

(** [appliedSet.has(file)] negated. *)
Definition is_pending (appliedSet : list string) (file : string) : bool :=
  negb (existsb (String.eqb file) appliedSet).

(** The files a run has to apply, in the order it meets them. *)
Definition pending_files (dir : list (string * string)) (recorded : list string)
    : list string :=
  filter (is_pending recorded) (sort_names (filter (endsWith ".sql") (map fst dir))).

Section MigrationFacts.

Variable Schema : Type.
Variable run_sql : string -> Schema -> Schema + string.

(** Running the texts of [files] one after the other, as long as none fails. *)
Fixpoint run_all (dir : list (string * string)) (files : list string) (s : Schema)
    : option Schema :=
  match files with
  | [] => Some s
  | file :: rest =>
      match readFile dir file with
      | None => None
      | Some sql =>
          match run_sql sql s with
          | inl s' => run_all dir rest s'
          | inr _ => None
          end
      end
  end.

End MigrationFacts.

Arguments run_all {Schema} run_sql dir files s.

(** A schema as the list of the statements run on it; the statement [boom]
    raises a syntax error.  A directory whose listing is not sorted. *)
Definition toy_sql (sql : string) (s : list string) : list string + string :=
  if String.eqb sql "boom" then inr "syntax error at or near boom"
  else inl (s ++ [sql])%list.

Definition toy_dir : list (string * string) :=
  [ ("002_create_wallets.sql", "CREATE TABLE wallets");
    ("README.md", "notes");
    ("001_create_asset_types.sql", "CREATE TABLE asset_types") ].

Definition broken_dir : list (string * string) :=
  (toy_dir ++ [("003_create_transactions.sql", "boom");
               ("004_create_ledger_entries.sql", "CREATE TABLE ledger_entries")])%list.

Definition fresh_catalog : Catalog (list string) := mk_catalog [] None.

(** * Vocabulary of the numeric range *)

(** The unit roundoff of binary64, [2^-53], and a bound on the error of a
    subnormal result. *)
Definition unit_roundoff : Q := 1 # 9007199254740992.
Definition subnormal_slack : Q := 1 # 1267650600228229401496703205376.

(** The exponent [Js.fl_pos] gives the last bit of the significand, before
    it is bounded below, and the significand at an exponent. *)
Definition last_bit (n d : Z) : Z :=
  let e0 := Z.log2 n - Z.log2 d - 52 in
  let below :=
    if 0 <=? e0 then n <? d * 2 ^ (e0 + 52) else n * 2 ^ (- e0) <? d * 2 ^ 52 in
  if below then e0 - 1 else e0.

Definition significand (n d e : Z) : Z :=
  if 0 <=? e then Js.round_half_even n (d * 2 ^ e)
  else Js.round_half_even (n * 2 ^ (- e)) d.

(** [a] is the value of a binary64 number. *)
Definition is_double (a : Q) : Prop := Js.eqb (Js.fl a) a = true.

(** The range in which the snapshots and the funds check are exact: below
    [2^49] millionths, that is 562,949,953.421312 units. *)
Definition exact_range (v : numeric) : Prop := 0 <= v < 2 ^ 49.

(** ** The read side (src/services/wallet.service.js,
       src/controllers/wallet.controller.js)

    The read endpoints take [page] and [limit] from the query string, so the
    numbers they compute with leave the finite range the engine stays in:
    [parseInt] yields NaN for a text without digits, and a zero keeps its
    sign.  A finite number that is not zero is kept as in [Js]. *)

Inductive jsnum :=
| NaN
| Infinity (negative : bool)
| Zero (negative : bool)
| Num (x : Js.number).

Definition is_negative (q : Q) : bool := Qnum q <? 0.

Definition negative_number (a : jsnum) : bool :=
  match a with
  | NaN => false
  | Infinity s => s
  | Zero s => s
  | Num x => is_negative x
  end.

(** The real value of a finite number. *)
Definition real_of (a : jsnum) : Q :=
  match a with
  | Num x => x
  | _ => 0%Q
  end.

(** [2^1024], the least magnitude that is no longer finite. *)
Definition two_1024 : Q := inject_Z (2 ^ 1024).

(** The number nearest to the real [q]: rounded to a 53-bit significand, to
    Infinity when that leaves the finite range, to a zero of the sign of [q]
    when it underflows. *)
Definition number_of (q : Q) : jsnum :=
  let x := Js.fl q in
  if Js.eqb x 0%Q then Zero (is_negative q)
  else if Js.ltb (Js.Qabs' x) two_1024 then Num x
  else Infinity (is_negative q).

(** [a - b] *)
Definition js_sub (a b : jsnum) : jsnum :=
  match a, b with
  | NaN, _ => NaN
  | _, NaN => NaN
  | Infinity s, Infinity t => if Bool.eqb s t then NaN else Infinity s
  | Infinity s, _ => Infinity s
  | _, Infinity t => Infinity (negb t)
  | Zero s, Zero t => Zero (s && negb t)
  | _, _ => number_of (real_of a - real_of b)
  end.

(** [a * b] *)
Definition js_mul (a b : jsnum) : jsnum :=
  match a, b with
  | NaN, _ => NaN
  | _, NaN => NaN
  | Infinity _, Zero _ => NaN
  | Zero _, Infinity _ => NaN
  | Infinity s, _ => Infinity (xorb s (negative_number b))
  | _, Infinity t => Infinity (xorb (negative_number a) t)
  | Zero s, _ => Zero (xorb s (negative_number b))
  | _, Zero t => Zero (xorb (negative_number a) t)
  | Num x, Num y => number_of (x * y)
  end.

(** [a / b] *)
Definition js_div (a b : jsnum) : jsnum :=
  match a, b with
  | NaN, _ => NaN
  | _, NaN => NaN
  | Infinity _, Infinity _ => NaN
  | Infinity s, _ => Infinity (xorb s (negative_number b))
  | _, Infinity t => Zero (xorb (negative_number a) t)
  | Zero _, Zero _ => NaN
  | Num x, Zero t => Infinity (xorb (is_negative x) t)
  | Zero s, Num y => Zero (xorb s (is_negative y))
  | Num x, Num y => number_of (x / y)
  end.

(** The order [Math.min] goes by: [-0] is below [+0]. *)
Definition below (a b : jsnum) : bool :=
  match a, b with
  | NaN, _ => false
  | _, NaN => false
  | Infinity s, Infinity t => s && negb t
  | Infinity s, _ => s
  | _, Infinity t => negb t
  | Zero s, Zero t => s && negb t
  | Zero _, Num y => negb (is_negative y)
  | Num x, Zero _ => is_negative x
  | Num x, Num y => Js.ltb x y
  end.

(** [Math.min(a, b)] *)
Definition Math_min (a b : jsnum) : jsnum :=
  match a, b with
  | NaN, _ => NaN
  | _, NaN => NaN
  | _, _ => if below b a then b else a
  end.

(** [Math.ceil(a)]: a number in [(-1, 0)] goes to [-0]. *)
Definition Math_ceil (a : jsnum) : jsnum :=
  match a with
  | Num x =>
      let c := - ((- Qnum x) / Zpos (Qden x)) in
      if c =? 0 then Zero true else Num (inject_Z c)
  | other => other
  end.

(** The number that stands for the whole number [n]. *)
Definition js_int (n : Z) : jsnum :=
  if n =? 0 then Zero false else Num (inject_Z n).

(** *** parseInt

    A string holds code units below 256; of the white space that [parseInt]
    skips, TAB, LF, VT, FF, CR, SP and NBSP are in that range. *)
Definition is_white_space (c : ascii) : bool :=
  let n := nat_of_ascii c in
  ((Nat.leb 9 n && Nat.leb n 13) || Nat.eqb n 32 || Nat.eqb n 160)%bool.

Fixpoint trim_start (s : string) : string :=
  match s with
  | String c rest => if is_white_space c then trim_start rest else s
  | EmptyString => s
  end.

(** The value of a code unit as a digit of radix [R]. *)
Definition digit_of (R : Z) (c : ascii) : option Z :=
  let n := Z.of_nat (nat_of_ascii c) in
  let v := if (48 <=? n) && (n <=? 57) then Some (n - 48)
           else if (97 <=? n) && (n <=? 122) then Some (n - 87)
           else if (65 <=? n) && (n <=? 90) then Some (n - 55)
           else None in
  match v with
  | Some d => if d <? R then Some d else None
  | None => None
  end.

(** The integer that the longest prefix of radix-[R] digits denotes, when
    there is a digit at all; [acc] is the value of the digits read so far. *)
Fixpoint leading_digits (R : Z) (s : string) (acc : option Z) : option Z :=
  match s with
  | String c rest =>
      match digit_of R c with
      | Some d =>
          leading_digits R rest
            (Some (match acc with Some a => a * R + d | None => d end))
      | None => acc
      end
  | EmptyString => acc
  end.

(** [parseInt(string)] without a radix: white space, a sign, [0x] or [0X]
    for radix 16, then digits; NaN when no digit follows, a zero of the sign
    read, otherwise the number nearest to the integer.  (The standard lets
    an implementation drop decimal digits after the twentieth; here they
    count.) *)
Definition parseInt (text : string) : jsnum :=
  let trimmed := trim_start text in
  let sign_rest :=
    match trimmed with
    | String "-"%char rest => (true, rest)
    | String "+"%char rest => (false, rest)
    | _ => (false, trimmed)
    end in
  let R_rest :=
    match snd sign_rest with
    | String "0"%char (String "x"%char rest) => (16, rest)
    | String "0"%char (String "X"%char rest) => (16, rest)
    | other => (10, other)
    end in
  match leading_digits (fst R_rest) (snd R_rest) None with
  | None => NaN
  | Some mathInt =>
      if mathInt =? 0 then Zero (fst sign_rest)
      else number_of (inject_Z (if fst sign_rest then - mathInt else mathInt))
  end.

(** [parseInt(countRows[0].total)]: pg returns a [COUNT] as the digits of a
    bigint. *)
Definition count_number (n : nat) : jsnum := number_of (inject_Z (Z.of_nat n)).

(** *** Tables and rows of the read side *)

Inductive owner_type_enum := owner_user | owner_system.

(** Migration 001. *)
Record asset_type_row := mk_asset_type {
  at_id : uuid;
  at_name : string;
  at_symbol : string;
  at_description : option string;
  at_is_active : bool;
  at_created_at : timestamptz;
  at_updated_at : timestamptz }.

(** The columns of [wallets] that the engine neither reads nor writes:
    [name] (migration 006), [owner_type] and [created_at] (migration 002). *)
Record wallet_columns := mk_columns {
  wc_name : option string;
  wc_owner_type : owner_type_enum;
  wc_created_at : timestamptz }.

(** A row of [wallets w JOIN asset_types at ON at.id = w.asset_type_id]. *)
Record wallet_view := mk_view {
  v_wallet : wallet_row;
  v_columns : wallet_columns;
  v_asset_type : asset_type_row }.

Record asset_type_ref := mk_ref {
  ref_id : uuid;
  ref_name : string;
  ref_symbol : string }.

Record formatted_wallet := mk_formatted_wallet {
  fw_id : uuid;
  fw_name : option string;
  fw_ownerId : uuid;
  fw_ownerType : owner_type_enum;
  fw_balance : Js.number;
  fw_isActive : bool;
  fw_assetType : asset_type_ref;
  fw_createdAt : timestamptz;
  fw_updatedAt : timestamptz }.

(** The body of [GET /wallets/:id/balance]. *)
Record balance_body := mk_balance_body {
  bb_walletId : uuid;
  bb_balance : Js.number;
  bb_assetType : asset_type_ref;
  bb_updatedAt : timestamptz }.

(** A row of the wallet history: the columns of the ledger entry and of the
    transaction it is joined with, NUMERIC columns as pg returns them. *)
Record history_row := mk_history {
  h_id : gen_uuid;
  h_entry_type : entry_type_enum;
  h_amount : numeric;
  h_balance_before : numeric;
  h_balance_after : numeric;
  h_created_at : timestamptz;
  h_transaction_id : gen_uuid;
  h_transaction_type : transaction_type_enum;
  h_status : transaction_status_enum;
  h_reference_id : option string;
  h_description : option string;
  h_metadata : json_object }.

Record pagination_info := mk_pagination {
  pg_page : jsnum;
  pg_limit : jsnum;
  pg_total : jsnum;
  pg_pages : jsnum }.

Record paged (A : Type) := mk_paged {
  data : list A;
  pagination : pagination_info }.
Arguments mk_paged {A} data pagination.
Arguments data {A} p.
Arguments pagination {A} p.

(** *** Statements of the read side *)

Definition invalid_row_count_in_limit_clause := "2201W".
Definition invalid_row_count_in_result_offset_clause := "2201X".

Definition quoted (s : string) : string := String "034" (s ++ String "034" "").

Definition is_whole (d : Q) : bool := Qnum d mod Zpos (Qden d) =? 0.

Definition whole_part (d : Q) : Z := Qnum d / Zpos (Qden d).

Fixpoint insert_desc {A} (key : A -> Z) (r : A) (l : list A) : list A :=
  match l with
  | [] => [r]
  | x :: rest =>
      if key x <? key r then r :: x :: rest else x :: insert_desc key r rest
  end.

(** [ORDER BY key DESC].  Rows with equal keys come in an order the server
    does not specify; the statements about this order hold for whichever
    one it takes. *)
Definition order_by_desc {A} (key : A -> Z) (l : list A) : list A :=
  fold_right (insert_desc key) [] l.

(** [le.wallet_id = $1], for the value of the parameter. *)
Definition of_wallet (v : uuid) (e : ledger_entry_row) : bool :=
  String.eqb (le_wallet_id e) v.

(** The columns the history selects from an entry [le] and a transaction
    [t]. *)
Definition history_of (le : ledger_entry_row) (t : transaction_row) : history_row :=
  mk_history (le_id le) (le_entry_type le) (le_amount le) (le_balance_before le)
    (le_balance_after le) (le_created_at le) (t_id t) (t_type t) (t_status t)
    (t_reference_id t) (t_description t) (t_metadata t).

(** [ledger_entries le JOIN transactions t ON t.id = le.transaction_id],
    for one entry. *)
Definition join_transaction (d : Db) (e : ledger_entry_row) : list history_row :=
  map (history_of e) (filter (id_is (le_transaction_id e)) (transactions d)).

(** [... WHERE le.wallet_id = $1 ORDER BY le.created_at DESC], before
    LIMIT and OFFSET, for the value of the parameter. *)
Definition wallet_history (v : uuid) (d : Db) : list history_row :=
  order_by_desc h_created_at
    (flat_map (join_transaction d) (filter (of_wallet v) (ledger_entries d))).

(** [LIMIT l OFFSET o] at execution: the offset is looked at first. *)
Definition limit_offset {A} (l o : Z) (rows : list A) : result (list A) :=
  if o <? 0 then
    Throw (DatabaseError invalid_row_count_in_result_offset_clause
             "OFFSET must not be negative" None)
  else if l <? 0 then
    Throw (DatabaseError invalid_row_count_in_limit_clause
             "LIMIT must not be negative" None)
  else Ok (firstn (Z.to_nat l) (skipn (Z.to_nat o) rows)).

Module walletService.

Section Queries.

(** The table [asset_types] and the remaining columns of the wallet row
    under an id; no statement of the application writes them. *)
Variable asset_types : list asset_type_row.
Variable columns_of : uuid -> wallet_columns.

(** What other requests commit between two statements of this one: the read
    side runs each statement on the pool, outside any transaction. *)
Variable meanwhile : Db -> Db.

(** The text of [String(x)], of which [Js.toString_value] is the value; the
    model needs it inside error messages only. *)
Variable String_of : jsnum -> string.

Definition others : M unit := fun w => (autocommit meanwhile w, Ok tt).

(** A number parameter where the statement expects a [bigint]: pg sends
    [String(x)], the server reads it with the input function of the type.
    The text of a finite number is a plain digit string when its value is
    whole and below [10^21]; otherwise it has a point or an exponent. *)
Definition bigint_param (x : jsnum) : result Z :=
  let syntax :=
    DatabaseError invalid_text_representation
      ("invalid input syntax for type bigint: " ++ quoted (String_of x)) None in
  match x with
  | NaN => Throw syntax
  | Infinity _ => Throw syntax
  | Zero _ => Ok 0
  | Num v =>
      let d := Js.toString_value v in
      if is_whole d && (Z.abs (whole_part d) <? 1000000000000000000000) then
        if (- 9223372036854775808 <=? whole_part d)
           && (whole_part d <? 9223372036854775808)
        then Ok (whole_part d)
        else Throw (DatabaseError numeric_value_out_of_range
                      ("value " ++ quoted (String_of x)
                       ++ " is out of range for type bigint") None)
      else Throw syntax
  end.

(** A text parameter where the statement expects an [owner_type_enum]. *)
Definition owner_type_param (s : string) : result owner_type_enum :=
  if String.eqb s "user" then Ok owner_user
  else if String.eqb s "system" then Ok owner_system
  else Throw (DatabaseError invalid_text_representation
                ("invalid input value for enum owner_type_enum: " ++ quoted s) None).

Definition join_asset_types (ws : list wallet_row) : list wallet_view :=
  flat_map (fun w =>
              map (mk_view w (columns_of (w_id w)))
                  (filter (fun a => String.eqb (at_id a) (w_asset_type_id w))
                          asset_types))
           ws.

Definition formatWallet (row : wallet_view) : formatted_wallet :=
  mk_formatted_wallet (w_id (v_wallet row)) (wc_name (v_columns row))
    (w_owner_id (v_wallet row)) (wc_owner_type (v_columns row))
    (parseFloat (w_balance (v_wallet row))) (w_is_active (v_wallet row))
    (mk_ref (at_id (v_asset_type row)) (at_name (v_asset_type row))
            (at_symbol (v_asset_type row)))
    (wc_created_at (v_columns row)) (w_updated_at (v_wallet row)).

(** [getWalletById(walletId)]: [WHERE w.id = $1] reads the text as a uuid
    and selects by value. *)
Definition getWalletById (walletId : string) : M formatted_wallet :=
  d <- get_db ;;
  v <- lift (uuid_param walletId) ;;
  match join_asset_types (filter (w_id_is v) (wallets d)) with
  | [] => throw (NotFoundError "Wallet")
  | row :: _ => ret (formatWallet row)
  end.

(** [conditions] and [params] of [listWallets]: the filter of the WHERE
    clause, once its parameter has been read. *)
Definition owner_filter (ownerType : option string) : result (wallet_row -> bool) :=
  match truthy ownerType with
  | None => Ok (fun _ => true)
  | Some s =>
      match owner_type_param s with
      | Throw e => Throw e
      | Ok ty =>
          Ok (fun w => match wc_owner_type (columns_of (w_id w)), ty with
                       | owner_user, owner_user => true
                       | owner_system, owner_system => true
                       | _, _ => false
                       end)
      end
  end.

(** [listWallets({ ownerType, page, limit })].  The controller passes [page]
    and [limit], so the defaults of the parameters never apply.  The server
    reads the parameters when the statement is bound, in their order, and
    looks at OFFSET and LIMIT when it runs. *)
Definition listWallets (ownerType : option string) (page limit : jsnum)
    : M (paged formatted_wallet) :=
  let offset := js_mul (js_sub page (Num 1%Q)) limit in
  d <- get_db ;;
  keep <- lift (owner_filter ownerType) ;;
  l <- lift (bigint_param limit) ;;
  o <- lift (bigint_param offset) ;;
  rows <- lift (limit_offset l o
                  (order_by_desc (fun v => wc_created_at (v_columns v))
                     (join_asset_types (filter keep (wallets d))))) ;;
  others ;;;
  d' <- get_db ;;
  let total := count_number (List.length (filter keep (wallets d'))) in
  ret (mk_paged (map formatWallet rows)
         (mk_pagination page limit total (Math_ceil (js_div total limit)))).

(** [getWalletTransactions(walletId, { page, limit })]: the existence check,
    the page query and the count query are three statements, and each reads
    the text of the id as its first parameter. *)
Definition getWalletTransactions (walletId : string) (page limit : jsnum)
    : M (paged history_row) :=
  getWalletById walletId ;;;
  let offset := js_mul (js_sub page (Num 1%Q)) limit in
  others ;;;
  d <- get_db ;;
  v <- lift (uuid_param walletId) ;;
  l <- lift (bigint_param limit) ;;
  o <- lift (bigint_param offset) ;;
  rows <- lift (limit_offset l o (wallet_history v d)) ;;
  others ;;;
  d' <- get_db ;;
  v' <- lift (uuid_param walletId) ;;
  let total :=
    count_number (List.length (filter (of_wallet v') (ledger_entries d'))) in
  ret (mk_paged rows
         (mk_pagination page limit total (Math_ceil (js_div total limit)))).

End Queries.

End walletService.

(** The answer of a read controller. *)
Inductive reply (A : Type) :=
| Json (body : A)               (* res.json({ success: true, ... }) *)
| Failed (res : Response).      (* next(err), answered by the error handler *)
Arguments Json {A} body.
Arguments Failed {A} res.

Module walletController.

Section Handlers.

Variable env : Env.
Variable asset_types : list asset_type_row.
Variable columns_of : uuid -> wallet_columns.
Variable meanwhile : Db -> Db.
Variable String_of : jsnum -> string.

(** [page ? parseInt(page) : 1] *)
Definition page_of (page : option string) : jsnum :=
  match truthy page with
  | Some s => parseInt s
  | None => Num 1%Q
  end.

(** [limit ? Math.min(parseInt(limit), 100) : 20] *)
Definition limit_of (limit : option string) : jsnum :=
  match truthy limit with
  | Some s => Math_min (parseInt s) (Num 100%Q)
  | None => Num 20%Q
  end.

(** [try { res.json(...) } catch (err) { next(err) }] *)
Definition answer {A B} (m : M A) (body : A -> B) (req : Request)
    : World -> World * reply B :=
  fun w =>
    match m w with
    | (w', Ok a) => (w', Json (body a))
    | (w', Throw err) => (w', Failed (errorHandler env err req))
    end.

(** The handlers take [req.params.id] and the entries of [req.query] they
    read, each given once or not at all; the id has passed
    [validateParams(uuidParam)]. *)
Definition listWallets (req : Request) (ownerType page limit : option string)
    : World -> World * reply (paged formatted_wallet) :=
  answer (walletService.listWallets asset_types columns_of meanwhile String_of
            ownerType (page_of page) (limit_of limit))
         (fun result => result) req.

Definition getWallet (req : Request) (id : string)
    : World -> World * reply formatted_wallet :=
  answer (walletService.getWalletById asset_types columns_of id)
         (fun wallet => wallet) req.

Definition getBalance (req : Request) (id : string)
    : World -> World * reply balance_body :=
  answer (walletService.getWalletById asset_types columns_of id)
         (fun wallet => mk_balance_body (fw_id wallet) (fw_balance wallet)
                          (fw_assetType wallet) (fw_updatedAt wallet))
         req.

Definition getWalletTransactions (req : Request) (id : string)
    (page limit : option string) : World -> World * reply (paged history_row) :=
  answer (walletService.getWalletTransactions asset_types columns_of meanwhile
            String_of id (page_of page) (limit_of limit))
         (fun result => result) req.

End Handlers.

End walletController.

(** Vocabulary of the statements about pages. *)

(** The order of [ORDER BY key DESC]. *)
Definition newest_first {A} (key : A -> Z) (x y : A) : Prop := key y <= key x.

(** The rows of the page [p] of size [l], counted from 1. *)
Definition slice {A} (p l : Z) (rows : list A) : list A :=
  firstn (Z.to_nat l) (skipn (Z.to_nat ((p - 1) * l)) rows).

(** The number of pages of size [l] that [n] rows fill. *)
Definition page_count (n : nat) (l : Z) : Z := (Z.of_nat n + l - 1) / l.

(** The rows a run returned, none when it threw. *)
Definition rows_of {A} (run : World * result (paged A)) : list A :=
  match snd run with
  | Ok r => data r
  | Throw _ => []
  end.

(** The text of a query parameter reads as the whole number [n]; an absent
    or empty parameter stands for [dflt]. *)
Definition query_number (q : option string) (dflt n : Z) : Prop :=
  match truthy q with
  | Some s => parseInt s = js_int n
  | None => n = dflt
  end.

(** The text of a query parameter has no digits to read. *)
Definition query_nan (q : option string) : Prop :=
  exists s, truthy q = Some s /\ parseInt s = NaN.

(** The wallet row whose id is printed as [id], and the row of the asset
    type it refers to. *)
Definition wallet_with_asset (asset_types : list asset_type_row) (d : Db) (id : uuid)
    (x : wallet_row) (a : asset_type_row) : Prop :=
  wallet_of d id = Some x /\
  find (fun a => String.eqb (at_id a) (w_asset_type_id x)) asset_types = Some a.

(** The wallet row with the uuid [v], and that row with the row of the
    asset type it refers to. *)
Definition wallet_by_uuid (d : Db) (v : uuid) : option wallet_row :=
  find (w_id_is v) (wallets d).

Definition wallet_and_asset (asset_types : list asset_type_row) (d : Db) (v : uuid)
    (x : wallet_row) (a : asset_type_row) : Prop :=
  wallet_by_uuid d v = Some x /\
  find (fun a => String.eqb (at_id a) (w_asset_type_id x)) asset_types = Some a.

(** An answer of the error handler for an unexpected fault. *)
Definition answers_500 (req : Request) (res : Response) : Prop :=
  res_statusCode res = 500%nat /\
  exists m stack,
    res_body res = BodyError "INTERNAL_ERROR" m None stack (requestId_of req).

(** Query parameters that do not name a page: a text without digits, a
    negative limit, or a page below 1. *)
Definition bad_paging (page limit : option string) : Prop :=
  query_nan page \/ query_nan limit \/
  (exists l, query_number limit 20 l /\ - 2 ^ 50 <= l < 0) \/
  (exists p l, query_number page 1 p /\ query_number limit 20 l /\
               - 2 ^ 40 <= p <= 0 /\ 1 <= l).

(** The SQLSTATE codes of a parameter that is no [bigint] and of a negative
    row count. *)
Definition paging_fault (e : Err) : Prop :=
  exists code m,
    e = DatabaseError code m None /\
    In code [invalid_text_representation; numeric_value_out_of_range;
             invalid_row_count_in_result_offset_clause;
             invalid_row_count_in_limit_clause].

(** [PRIMARY KEY (id)] on [asset_types], and
    [wallets.asset_type_id REFERENCES asset_types (id)]. *)
Definition asset_types_pkey (asset_types : list asset_type_row) : Prop :=
  NoDup (map at_id asset_types).

Definition wallets_asset_type_fkey (asset_types : list asset_type_row) (d : Db) : Prop :=
  Forall (fun x => existsb (fun a => String.eqb (at_id a) (w_asset_type_id x))
                           asset_types = true)
         (wallets d).

Definition owner_type_label (ty : owner_type_enum) : string :=
  match ty with
  | owner_user => "user"
  | owner_system => "system"
  end.

(** The wallets an [ownerType] of the query selects: all of them when it is
    absent or empty. *)
Definition owner_matches (columns_of : uuid -> wallet_columns)
    (ownerType : option string) (x : wallet_row) : bool :=
  match truthy ownerType with
  | None => true
  | Some s => String.eqb s (owner_type_label (wc_owner_type (columns_of (w_id x))))
  end.

(** The row the list shows for a wallet and its asset type. *)
Definition listed (columns_of : uuid -> wallet_columns)
    (wa : wallet_row * asset_type_row) : formatted_wallet :=
  walletService.formatWallet (mk_view (fst wa) (columns_of (w_id (fst wa))) (snd wa)).

(** *** Scenarios of the read side

    One asset type, which every wallet of the seed holds; alice and bob are
    users, the other wallets belong to the system. *)

Definition test_coins : asset_type_row :=
  mk_asset_type asset_tc "Test Coins" "TC" None true 0 0.

Definition seed_asset_types : list asset_type_row := [test_coins].

Definition seed_columns (id : uuid) : wallet_columns :=
  if String.eqb id alice then mk_columns (Some "Alice") owner_user 40
  else if String.eqb id bob then mk_columns (Some "Bob") owner_user 50
  else if String.eqb id treasury then mk_columns (Some "Treasury") owner_system 10
  else if String.eqb id bonus_pool then mk_columns (Some "Bonus Pool") owner_system 20
  else mk_columns (Some "Revenue") owner_system 30.

(** The texts of the numbers that are no digit strings, as far as the
    scenarios meet them. *)
Definition text_of (x : jsnum) : string :=
  match x with
  | NaN => "NaN"
  | Infinity false => "Infinity"
  | Infinity true => "-Infinity"
  | _ => "0"
  end.

(** A GET request; the read handlers do not look at a body. *)
Definition get_request : Request :=
  mk_request (Some "req-7") "/api/v1/wallets" None (request_body "" "" 0%Q).

(** Alice tops up 100 and, a minute later, spends 100. *)
Definition after_topup_and_spend : World :=
  fst (run_flow no_rivals Spend spend_100 (later 60 after_topup_100)).

Definition alice_after_spend : wallet_row :=
  mk_wallet alice "11111111-1111-1111-1111-111111111111" asset_tc (units 500) true
    1700000060.

Definition spend_100_row : transaction_row :=
  mk_transaction 3 ty_spend completed alice revenue (units 100) None (Some "k3")
    (Some "Purchase: item-sword-001") [("serviceId", "item-sword-001")]
    1700000060 1700000060.

(** * Properties *)

(** ** Numbers: the model against known values of the language *)

Example tenth_is_rounded :
  Js.fl (1 # 10) = 3602879701896397 # 36028797018963968.
Proof. vm_compute. reflexivity. Qed.

Example tenth_prints_as_tenth : Js.toString_value (Js.fl (1 # 10)) = 1 # 10.
Proof. vm_compute. reflexivity. Qed.

(** [0.1 + 0.2] is [0.30000000000000004] and [0.3 - 0.1] is [0.19999999999999998]. *)
Example sum_of_tenths :
  Js.toString_value (Js.add (Js.fl (1 # 10)) (Js.fl (2 # 10)))
  = Qred (30000000000000004 # 100000000000000000).
Proof. vm_compute. reflexivity. Qed.

Example difference_of_tenths :
  Js.toString_value (Js.sub (Js.fl (3 # 10)) (Js.fl (1 # 10)))
  = Qred (19999999999999998 # 100000000000000000).
Proof. vm_compute. reflexivity. Qed.

(** [1e13 - 0.001] is [9999999999999.998]: doubles near 10^13 are 2^-9 apart. *)
Example ten_trillion_minus_thousandth :
  Js.sub (inject_Z 10000000000000) (Js.fl (1 # 1000)) = 5119999999999999 # 512 /\
  Js.toString_value (Js.sub (inject_Z 10000000000000) (Js.fl (1 # 1000)))
  = Qred (9999999999999998 # 1000).
Proof. split; vm_compute; reflexivity. Qed.

(** [parseFloat('9999999999999.999999')] is [10000000000000]. *)
Example parse_just_below_ten_trillion :
  parseFloat 9999999999999999999 = inject_Z 10000000000000.
Proof. vm_compute. reflexivity. Qed.

(** Storing [0.19999999999999998] in a NUMERIC(20,6) column gives 0.200000. *)
Example stored_difference_of_tenths :
  numeric_20_6 (sql_param (Js.sub (Js.fl (3 # 10)) (Js.fl (1 # 10)))) = Ok 200000.
Proof. vm_compute. reflexivity. Qed.

(** ** The texts of uuid values *)

Example uuid_in_reads_either_case :
  uuid_in "dddddddd-dddd-dddd-dddd-dddddddddddd" = Some "dddddddd-dddd-dddd-dddd-dddddddddddd" /\
  uuid_in "DDDDDDDD-DDDD-DDDD-DDDD-DDDDDDDDDDDD" = Some "dddddddd-dddd-dddd-dddd-dddddddddddd".
Proof. split; vm_compute; reflexivity. Qed.

Example uuid_in_reads_braces_and_groups :
  uuid_in "{a0eebc99-9c0b4ef8-bb6d6bb9-bd380a11}" = Some "a0eebc99-9c0b-4ef8-bb6d-6bb9bd380a11" /\
  uuid_in "a0eebc999c0b4ef8bb6d6bb9bd380a11" = Some "a0eebc99-9c0b-4ef8-bb6d-6bb9bd380a11" /\
  uuid_in "a0ee-bc99-9c0b-4ef8-bb6d-6bb9-bd38-0a11" = Some "a0eebc99-9c0b-4ef8-bb6d-6bb9bd380a11".
Proof. repeat split; vm_compute; reflexivity. Qed.

Example uuid_in_refuses :
  uuid_in "a0eebc99-9c0b-4ef8-bb6d-6bb9bd380a1" = None /\
  uuid_in "a0eebc99-9c0b-4ef8-bb6d-6bb9bd380a11-" = None /\
  uuid_in "a-0eebc99-9c0b-4ef8-bb6d-6bb9bd380a11" = None /\
  uuid_in "{a0eebc99-9c0b-4ef8-bb6d-6bb9bd380a11" = None /\
  uuid_in "a0eebc99:9c0b:4ef8:bb6d:6bb9bd380a11" = None /\
  uuid_in "g0eebc99-9c0b-4ef8-bb6d-6bb9bd380a11" = None /\
  uuid_in "" = None.
Proof. repeat split; vm_compute; reflexivity. Qed.

Lemma every_ascii (P : ascii -> bool) :
  forallb P (map ascii_of_nat (seq 0 256)) = true -> forall c, P c = true.
Proof.
  intros H c. rewrite forallb_forall in H. apply H.
  rewrite <- (ascii_nat_embedding c). apply in_map. apply in_seq.
  pose proof (nat_ascii_bounded c). lia.
Qed.

Lemma hex_digit_lower (c x : ascii) :
  hex_digit c = Some x ->
  hex_digit x = Some x /\ Ascii.eqb x "-" = false /\ Ascii.eqb x "{" = false.
Proof.
  intro H.
  assert (Hc : hex_digit_checked c = true).
  { apply every_ascii. vm_compute. reflexivity. }
  unfold hex_digit_checked in Hc. rewrite H in Hc.
  destruct (hex_digit x) as [y|]; [|discriminate].
  apply andb_true_iff in Hc. destruct Hc as (Hc & H3).
  apply andb_true_iff in Hc. destruct Hc as (H1 & H2).
  apply Ascii.eqb_eq in H1. apply negb_true_iff in H2, H3. subst y. auto.
Qed.

Lemma read_bytes_digits (n : nat) : forall i src bytes tl,
  read_bytes n i src = Some (bytes, tl) ->
  Forall digits bytes /\ List.length bytes = n.
Proof.
  induction n as [|n IH]; intros i src bytes tl H; cbn [read_bytes] in H.
  - inversion H; subst. split; [constructor|reflexivity].
  - destruct src as [|a [|b rest]]; try discriminate.
    destruct (hex_digit a) as [x|] eqn:Hx; [|discriminate].
    destruct (hex_digit b) as [y|] eqn:Hy; [|discriminate].
    destruct (read_bytes n (S i) _) as [[bs tl']|] eqn:Hr; [|discriminate].
    inversion H; subst. destruct (IH _ _ _ _ Hr) as (Hd & Hl).
    split; [|cbn [List.length]; congruence].
    constructor; [|exact Hd]. split; cbn [fst snd].
    + now apply hex_digit_lower in Hx.
    + now apply hex_digit_lower in Hy.
Qed.

Lemma skip_hyphen_digit (bytes : list (ascii * ascii)) (i : nat) (tl : string) :
  Forall digits bytes -> bytes <> [] ->
  skip_hyphen (print_bytes i bytes ++ tl) = print_bytes i bytes ++ tl.
Proof.
  intros Hd Hne. destruct bytes as [|[x y] rest]; [now elim Hne|].
  inversion Hd as [|? ? (Hx & _) _]; subst. cbn [fst] in Hx.
  cbn [print_bytes append skip_hyphen].
  apply hex_digit_lower in Hx. destruct Hx as (_ & -> & _). reflexivity.
Qed.

(** Reading what was printed gives the bytes back. *)
Lemma read_print_bytes (bytes : list (ascii * ascii)) : forall i tl,
  Forall digits bytes -> (i + List.length bytes = 16)%nat ->
  read_bytes (List.length bytes) i (print_bytes i bytes ++ tl) = Some (bytes, tl).
Proof.
  induction bytes as [|[x y] rest IH]; intros i tl Hd Hlen; [reflexivity|].
  inversion Hd as [|? ? (Hx & Hy) Hrest]; subst. cbn [fst snd] in Hx, Hy.
  cbn [List.length] in Hlen.
  cbn [List.length read_bytes print_bytes append]. rewrite Hx, Hy.
  assert (Hnext : (if Nat.odd i && (i <? 15)%nat
                   then skip_hyphen
                          ((if (i =? 3)%nat || (i =? 5)%nat || (i =? 7)%nat || (i =? 9)%nat
                            then String "-" (print_bytes (S i) rest)
                            else print_bytes (S i) rest) ++ tl)
                   else (if (i =? 3)%nat || (i =? 5)%nat || (i =? 7)%nat || (i =? 9)%nat
                         then String "-" (print_bytes (S i) rest)
                         else print_bytes (S i) rest) ++ tl)
                  = print_bytes (S i) rest ++ tl).
  { assert (Hi : (i < 16)%nat) by lia.
    do 16 (destruct i as [|i];
           [cbn [Nat.odd Nat.ltb Nat.leb Nat.eqb negb andb orb skip_hyphen append Ascii.eqb
                 Bool.eqb];
            first [reflexivity
                  |apply skip_hyphen_digit;
                   [exact Hrest|intro E; subst rest; cbn [List.length] in Hlen; lia]]|]).
    lia. }
  rewrite Hnext, IH; [reflexivity|exact Hrest|lia].
Qed.

Lemma append_nil (s : string) : (s ++ "")%string = s.
Proof. induction s as [|c s IH]; cbn [append]; congruence. Qed.

(** What [uuid_in] returns is a text it reads as itself. *)
Lemma uuid_in_out (text : string) (v : uuid) : uuid_in text = Some v -> uuid_in v = Some v.
Proof.
  unfold uuid_in, string_to_uuid. intro H.
  destruct (read_bytes 16 0 _) as [[bytes tl]|] eqn:Hr; [|discriminate].
  destruct (String.eqb tl _); [|discriminate].
  cbn [option_map] in H. inversion H; subst v. clear H.
  destruct (read_bytes_digits _ _ _ _ _ Hr) as (Hd & Hl).
  pose proof (read_print_bytes bytes 0%nat "" Hd) as Hp.
  rewrite Hl in Hp. specialize (Hp eq_refl).
  rewrite append_nil in Hp. unfold uuid_out.
  destruct bytes as [|[x y] rest]; [discriminate|].
  inversion Hd as [|? ? (Hx & _) _]; subst. cbn [fst] in Hx.
  apply hex_digit_lower in Hx. destruct Hx as (_ & _ & Hb).
  cbn [print_bytes] in *. rewrite Hb, Hp. reflexivity.
Qed.

Lemma uuid_texts_true (a b : string) :
  uuid_texts a b = true <-> exists v1 v2, uuid_in a = Some v1 /\ uuid_in b = Some v2.
Proof.
  unfold uuid_texts. destruct (uuid_in a) as [v1|], (uuid_in b) as [v2|]; split;
    try discriminate; eauto; intros (u1 & u2 & H1 & H2); discriminate.
Qed.

Lemma uuid_texts_swap (a b : string) : uuid_texts a b = uuid_texts b a.
Proof. unfold uuid_texts. now destruct (uuid_in a), (uuid_in b). Qed.

(** ** The lexicographic order on ids *)

Lemma ascii_compare_refl (a : ascii) : Ascii.compare a a = Eq.
Proof. unfold Ascii.compare. apply N.compare_refl. Qed.

Lemma ascii_compare_lt_trans (a b c : ascii) :
  Ascii.compare a b = Lt -> Ascii.compare b c = Lt -> Ascii.compare a c = Lt.
Proof.
  unfold Ascii.compare. rewrite !N.compare_lt_iff. apply N.lt_trans.
Qed.

Lemma string_compare_refl (s : string) : String.compare s s = Eq.
Proof.
  induction s as [|a s IH]; simpl; [reflexivity|].
  now rewrite ascii_compare_refl.
Qed.

Lemma string_compare_lt_trans (s1 : string) : forall s2 s3,
  String.compare s1 s2 = Lt -> String.compare s2 s3 = Lt -> String.compare s1 s3 = Lt.
Proof.
  induction s1 as [|a s1 IH]; intros [|b s2] [|c s3]; simpl; try congruence.
  destruct (Ascii.compare a b) eqn:Hab; try discriminate;
    destruct (Ascii.compare b c) eqn:Hbc; try discriminate; intros H1 H2.
  - apply Ascii.compare_eq_iff in Hab, Hbc. subst.
    rewrite ascii_compare_refl. eauto.
  - apply Ascii.compare_eq_iff in Hab. subst. now rewrite Hbc.
  - apply Ascii.compare_eq_iff in Hbc. subst. now rewrite Hab.
  - now rewrite (ascii_compare_lt_trans _ _ _ Hab Hbc).
Qed.

Lemma string_leb_trans (s1 s2 s3 : string) :
  String.leb s1 s2 = true -> String.leb s2 s3 = true -> String.leb s1 s3 = true.
Proof.
  unfold String.leb.
  destruct (String.compare s1 s2) eqn:H12; try discriminate;
    destruct (String.compare s2 s3) eqn:H23; try discriminate; intros _ _.
  - apply String.compare_eq_iff in H12, H23. subst. now rewrite string_compare_refl.
  - apply String.compare_eq_iff in H12. subst. now rewrite H23.
  - apply String.compare_eq_iff in H23. subst. now rewrite H12.
  - now rewrite (string_compare_lt_trans _ _ _ H12 H23).
Qed.

Lemma string_leb_false (s1 s2 : string) :
  String.leb s1 s2 = false -> String.leb s2 s1 = true.
Proof.
  intro H. destruct (String.leb_total s1 s2) as [H'|H']; congruence.
Qed.

Lemma sortIds_swap (a b : uuid) : sortIds a b = sortIds b a.
Proof.
  unfold sortIds, String.ltb. rewrite (String.compare_antisym b a).
  destruct (String.compare a b) eqn:H; simpl; try reflexivity.
  apply String.compare_eq_iff in H. now subst.
Qed.

Lemma sortIds_ordered (a b : uuid) :
  String.leb (fst (sortIds a b)) (snd (sortIds a b)) = true.
Proof.
  unfold sortIds, String.ltb, String.leb.
  destruct (String.compare a b) eqn:H; simpl.
  - apply String.compare_eq_iff in H. subst. now rewrite string_compare_refl.
  - now rewrite H.
  - rewrite String.compare_antisym, H. reflexivity.
Qed.

(** ** [ORDER BY id] *)

Lemma insert_by_id_In (w x : wallet_row) (l : list wallet_row) :
  In x (insert_by_id w l) <-> x = w \/ In x l.
Proof.
  induction l as [|y l IH]; simpl.
  - intuition.
  - destruct (String.leb (w_id w) (w_id y)); simpl; rewrite ?IH; intuition.
Qed.

Lemma order_by_id_In (x : wallet_row) (l : list wallet_row) :
  In x (order_by_id l) <-> In x l.
Proof.
  induction l as [|y l IH]; simpl; [tauto|].
  rewrite insert_by_id_In, IH. intuition.
Qed.

Lemma insert_by_id_length (w : wallet_row) (l : list wallet_row) :
  List.length (insert_by_id w l) = S (List.length l).
Proof.
  induction l as [|y l IH]; simpl; [reflexivity|].
  destruct (String.leb (w_id w) (w_id y)); simpl; congruence.
Qed.

Lemma order_by_id_length (l : list wallet_row) :
  List.length (order_by_id l) = List.length l.
Proof.
  induction l as [|y l IH]; simpl; [reflexivity|].
  now rewrite insert_by_id_length, IH.
Qed.

Lemma insert_by_id_sorted (w : wallet_row) (l : list wallet_row) :
  StronglySorted by_id l -> StronglySorted by_id (insert_by_id w l).
Proof.
  induction 1 as [|y l Hs IH Hall]; simpl.
  - repeat constructor.
  - destruct (String.leb (w_id w) (w_id y)) eqn:Hle.
    + constructor; [now constructor|].
      constructor; [exact Hle|].
      eapply Forall_impl; [|exact Hall].
      intros z Hz. unfold by_id in *. eapply string_leb_trans; eauto.
    + constructor; [exact IH|].
      apply Forall_forall. intros z Hz.
      apply insert_by_id_In in Hz. destruct Hz as [->|Hz].
      * now apply string_leb_false.
      * rewrite Forall_forall in Hall. now apply Hall.
Qed.

Lemma order_by_id_sorted (l : list wallet_row) : StronglySorted by_id (order_by_id l).
Proof.
  induction l as [|y l IH]; simpl; [constructor|].
  now apply insert_by_id_sorted.
Qed.

Lemma sorted_map_id (l : list wallet_row) :
  StronglySorted by_id l -> ascending (map w_id l).
Proof.
  unfold ascending.
  induction 1 as [|y l Hs IH Hall]; simpl; constructor; auto.
  rewrite Forall_map. exact Hall.
Qed.

Lemma locked_rows_ascending (a b : string) (d : Db) :
  ascending (map w_id (locked_rows a b d)).
Proof.
  unfold locked_rows. destruct (uuid_in a), (uuid_in b); try constructor.
  apply sorted_map_id, order_by_id_sorted.
Qed.

Lemma id_in_swap (a b : uuid) (w : wallet_row) : id_in a b w = id_in b a w.
Proof. unfold id_in. apply orb_comm. Qed.

Lemma locked_rows_swap (a b : string) (d : Db) : locked_rows a b d = locked_rows b a d.
Proof.
  unfold locked_rows. destruct (uuid_in a), (uuid_in b); try reflexivity.
  f_equal. apply filter_ext. intro w. apply id_in_swap.
Qed.

Lemma uuid_texts_sorted (a b : string) :
  (let (x, y) := sortIds a b in uuid_texts x y) = uuid_texts a b.
Proof.
  unfold sortIds. destruct (String.ltb a b); [reflexivity|apply uuid_texts_swap].
Qed.

Lemma ascending_precedes (l : list uuid) (x y : uuid) :
  ascending l -> precedes x y l -> String.leb x y = true.
Proof.
  intros Hs (l1 & l2 & l3 & ->).
  induction l1 as [|z l1 IH]; simpl in Hs.
  - inversion Hs as [|? ? _ Hall]; subst.
    rewrite Forall_forall in Hall. apply Hall.
    apply in_or_app. right. now left.
  - inversion Hs; subst. auto.
Qed.

Lemma ascending_no_cycle (l1 l2 : list uuid) (x y : uuid) :
  ascending l1 -> ascending l2 ->
  precedes x y l1 -> x <> y -> ~ precedes y x l2.
Proof.
  intros H1 H2 Hxy Hne Hyx. apply Hne.
  apply String.leb_antisym; eauto using ascending_precedes.
Qed.

(** ** Reasoning about runs *)

Lemma bind_ok {A B} (m : M A) (k : A -> M B) (w w1 : World) (a : A) :
  m w = (w1, Ok a) -> bind m k w = k a w1.
Proof. intro H. unfold bind. now rewrite H. Qed.

Lemma bind_throw {A B} (m : M A) (k : A -> M B) (w w1 : World) (e : Err) :
  m w = (w1, Throw e) -> bind m k w = (w1, Throw e).
Proof. intro H. unfold bind. now rewrite H. Qed.

Lemma bind_inv {A B} (m : M A) (k : A -> M B) (w w' : World) (r : result B) :
  bind m k w = (w', r) ->
  (exists w1 a, m w = (w1, Ok a) /\ k a w1 = (w', r)) \/
  (exists e, m w = (w', Throw e) /\ r = Throw e).
Proof.
  unfold bind. destruct (m w) as [w1 [a|e]]; intro H.
  - left. eauto.
  - right. inversion H; subst. eauto.
Qed.

Lemma frame_bind {A B} (m : M A) (k : A -> M B) :
  Frame m -> (forall a, Frame (k a)) -> Frame (bind m k).
Proof.
  intros Hm Hk w. unfold bind. specialize (Hm w).
  destruct (m w) as [w1 [a|e]]; simpl in *; [|exact Hm].
  destruct Hm as (Hu & Hl & Hc). destruct (Hk a w1) as (Hu' & Hl' & Hc').
  repeat split; congruence.
Qed.

Lemma infra_bind {A B} (m : M A) (k : A -> M B) :
  Infra m -> (forall a, Infra (k a)) -> Infra (bind m k).
Proof.
  intros Hm Hk w e. unfold bind. specialize (Hm w).
  destruct (m w) as [w1 [a|e1]]; simpl in *.
  - apply Hk.
  - intro H. inversion H; subst. now apply Hm.
Qed.

Lemma frame_ret {A} (a : A) : Frame (ret a).
Proof. intro w. now simpl. Qed.
Lemma frame_throw {A} (e : Err) : Frame (@throw A e).
Proof. intro w. now simpl. Qed.
Lemma frame_lift {A} (r : result A) : Frame (lift r).
Proof. intro w. now simpl. Qed.
Lemma frame_get_db : Frame get_db.
Proof. intro w. now simpl. Qed.
Lemma frame_now : Frame now.
Proof. intro w. now simpl. Qed.
Lemma frame_set_db (d : Db) : Frame (set_db d).
Proof. intro w. now simpl. Qed.
Lemma frame_gen_random_uuid : Frame gen_random_uuid.
Proof. intro w. now simpl. Qed.
Lemma frame_guard (b : bool) (e : Err) : Frame (guard b e).
Proof. intro w. unfold guard. now destruct b. Qed.
Lemma frame_or_throw {A} (o : option A) (e : Err) : Frame (or_throw o e).
Proof. intro w. unfold or_throw. now destruct o. Qed.
Lemma frame_format_first (rows : list transaction_row) : Frame (format_first rows).
Proof. intro w. unfold format_first. now destruct rows. Qed.

Lemma infra_ret {A} (a : A) : Infra (ret a).
Proof. intros w e H. discriminate. Qed.
Lemma infra_get_db : Infra get_db.
Proof. intros w e H. discriminate. Qed.
Lemma infra_now : Infra now.
Proof. intros w e H. discriminate. Qed.
Lemma infra_set_db (d : Db) : Infra (set_db d).
Proof. intros w e H. discriminate. Qed.
Lemma infra_gen_random_uuid : Infra gen_random_uuid.
Proof. intros w e H. discriminate. Qed.
Lemma infra_guard (b : bool) (e : Err) : isOperational e = false -> Infra (guard b e).
Proof.
  intros He w e'. unfold guard. destruct b; simpl; intro H; inversion H; now subst.
Qed.
Lemma infra_uuid_param (text : string) : Infra (lift (uuid_param text)).
Proof.
  intros w e. unfold lift, uuid_param. cbn [snd].
  destruct (uuid_in text); intro H; inversion H; now subst.
Qed.
Lemma infra_numeric (d : Q) : Infra (lift (numeric_20_6 d)).
Proof.
  intros w e. unfold lift, numeric_20_6. cbn [snd].
  destruct (Z.abs (pg_round6 d) <? 10 ^ 20); intro H; inversion H; now subst.
Qed.
Lemma infra_format_first (rows : list transaction_row) : Infra (format_first rows).
Proof.
  intros w e. unfold format_first. destruct rows; simpl; intro H; inversion H; now subst.
Qed.

Lemma map_result_infra {A B} (f : A -> result B) (l : list A) :
  (forall x e, f x = Throw e -> isOperational e = false) ->
  forall e, map_result f l = Throw e -> isOperational e = false.
Proof.
  intros Hf. induction l as [|x l IH]; simpl; intros e H; [discriminate|].
  destruct (f x) as [y|e1] eqn:Hx.
  - destruct (map_result f l) as [ys|e2]; [discriminate|].
    inversion H; subst. now apply IH.
  - inversion H; subst. eauto.
Qed.

Lemma update_wallet_row_infra op amt id t w e :
  update_wallet_row op amt id t w = Throw e -> isOperational e = false.
Proof.
  unfold update_wallet_row, numeric_20_6.
  destruct (String.eqb (w_id w) id); [|discriminate].
  destruct (Z.abs _ <? 10 ^ 20).
  - destruct (0 <=? _); intro H; inversion H; now subst.
  - intro H; inversion H; now subst.
Qed.

Lemma infra_update_rows op amt id t ws :
  Infra (lift (map_result (update_wallet_row op amt id t) ws)).
Proof.
  intros w e. unfold lift. cbn [snd]. apply map_result_infra.
  intros x e'. apply update_wallet_row_infra.
Qed.

Create HintDb frame.
#[local] Hint Resolve frame_ret frame_throw frame_lift frame_get_db frame_now
  frame_set_db frame_gen_random_uuid frame_guard frame_or_throw
  frame_format_first : frame.

Create HintDb infra.
#[local] Hint Resolve infra_ret infra_get_db infra_now infra_set_db
  infra_gen_random_uuid infra_uuid_param infra_numeric infra_format_first
  infra_update_rows : infra.

Ltac frame :=
  repeat first
    [ apply frame_bind; [|intro]
    | solve [auto with frame] ].

Ltac infra :=
  repeat first
    [ apply infra_bind; [|intro]
    | apply infra_guard; reflexivity
    | solve [auto with infra] ].

Lemma frame_insert_transaction ty u s amt ref key desc meta :
  Frame (insert_transaction ty u s amt ref key desc meta).
Proof. unfold insert_transaction. frame. Qed.

Lemma frame_update_wallets_balance op amt id : Frame (update_wallets_balance op amt id).
Proof. unfold update_wallets_balance. frame. Qed.

Lemma frame_insert_ledger_entry tid wid ty amt before after :
  Frame (insert_ledger_entry tid wid ty amt before after).
Proof. unfold insert_ledger_entry. frame. Qed.

Lemma frame_update_transaction_completed id : Frame (update_transaction_completed id).
Proof. unfold update_transaction_completed. frame. Qed.

Lemma infra_insert_transaction ty u s amt ref key desc meta :
  Infra (insert_transaction ty u s amt ref key desc meta).
Proof. unfold insert_transaction. infra. Qed.

Lemma infra_update_wallets_balance op amt id : Infra (update_wallets_balance op amt id).
Proof. unfold update_wallets_balance. infra. Qed.

Lemma infra_insert_ledger_entry tid wid ty amt before after :
  Infra (insert_ledger_entry tid wid ty amt before after).
Proof. unfold insert_ledger_entry. infra. Qed.

Lemma infra_update_transaction_completed id : Infra (update_transaction_completed id).
Proof. unfold update_transaction_completed. infra. Qed.

#[local] Hint Resolve frame_insert_transaction frame_update_wallets_balance
  frame_insert_ledger_entry frame_update_transaction_completed : frame.
#[local] Hint Resolve infra_insert_transaction infra_update_wallets_balance
  infra_insert_ledger_entry infra_update_transaction_completed : infra.

(** ** The runner and the statements, step by step *)

Lemma withTransaction_run {A} (fn : M A) (w : World) :
  withTransaction fn w =
  match fn (begun w) with
  | (w1, Ok r) => (committed_world w1, Ok r)
  | (w1, Throw e) => (rolled_back w1, Throw e)
  end.
Proof.
  unfold withTransaction, bind, begin, commit, rollback, emit, ret, begun,
    committed_world, rolled_back. simpl.
  destruct (fn _) as [w1 [r|e]]; reflexivity.
Qed.

Section EngineFacts.

Variable ahead : Db -> Db.

Lemma lockWallets_run (id1 id2 : string) (w : World) :
  lockWallets ahead id1 id2 w =
  if uuid_texts id1 id2 then
    (locked_world ahead id1 id2 w,
     if Nat.ltb (List.length (locked_rows id1 id2 (ahead (db w)))) 2
     then Throw (NotFoundError "One or both wallets")
     else Ok (locked_rows id1 id2 (ahead (db w))))
  else (w, Throw no_uuid).
Proof.
  unfold lockWallets, select_wallets_for_update, uuid_param, uuid_texts,
    wait_for_row_locks, bind, lift, get_db, emit, ret, throw, locked_world, locked_rows.
  destruct (uuid_in id1) as [v1|]; [|reflexivity].
  destruct (uuid_in id2) as [v2|]; [|reflexivity].
  cbn [db undo next_uuid clock log].
  destruct (Nat.ltb _ 2); reflexivity.
Qed.

Lemma lock_sorted_ids (a b : string) (d : Db) :
  (let (x, y) := sortIds a b in locked_rows x y d) = locked_rows a b d.
Proof.
  unfold sortIds. destruct (String.ltb a b); [reflexivity|apply locked_rows_swap].
Qed.

Lemma frame_debitWallet wallet amt tid : Frame (debitWallet wallet amt tid).
Proof. unfold debitWallet. frame. Qed.

Lemma frame_creditWallet wallet amt tid : Frame (creditWallet wallet amt tid).
Proof. unfold creditWallet. frame. Qed.

Lemma infra_debitWallet wallet amt tid : Infra (debitWallet wallet amt tid).
Proof. unfold debitWallet. infra. Qed.

Lemma infra_creditWallet wallet amt tid : Infra (creditWallet wallet amt tid).
Proof. unfold creditWallet. infra. Qed.

Hint Resolve frame_debitWallet frame_creditWallet : frame.
Hint Resolve infra_debitWallet infra_creditWallet : infra.

Lemma frame_post f p source target : Frame (post f p source target).
Proof. unfold post. frame. Qed.

Lemma infra_post f p source target : Infra (post f p source target).
Proof. unfold post. infra. Qed.

Lemma flow_fn_hit (f : Flow) (p : Params) (w : World) (k : string) (row : transaction_row) :
  truthy (idempotencyKey p) = Some k ->
  dup_row f k (db w) = Some row ->
  flow_fn ahead f p w = (w, Ok (formatTransaction (star row))).
Proof.
  intros Hk Hrow. unfold dup_row in Hrow.
  destruct f; cbn [flow_fn]; unfold topup_fn, bonus_fn, spend_fn;
    rewrite Hk;
    cbv beta iota zeta delta [bind checkDuplicate select_transaction_ids_by_key
      select_transactions_by_key select_transactions_by_id get_db ret];
    destruct (filter (key_is k) (transactions (db w))) as [|r rest];
    try discriminate; cbn [map].
  - destruct (filter (id_is (t_id r)) (transactions (db w))) as [|r' rest'];
      [discriminate|].
    cbn [hd_error] in Hrow. inversion Hrow; subst. reflexivity.
  - inversion Hrow; subst. reflexivity.
  - inversion Hrow; subst. reflexivity.
Qed.

Lemma flow_fn_miss (f : Flow) (p : Params) (w : World) :
  dup_miss p (db w) ->
  flow_fn ahead f p w =
  if uuid_texts (walletId p) (systemWalletId p) then
    let wl := locked_world ahead (walletId p) (systemWalletId p) w in
    match validate f p (locked_rows (walletId p) (systemWalletId p) (ahead (db w))) with
    | inl e => (wl, Throw e)
    | inr (source, target) => post f p source target wl
    end
  else (w, Throw no_uuid).
Proof.
  intro Hmiss. unfold dup_miss in Hmiss.
  assert (Hdup : forall B (k : option formatted_transaction -> M B),
    bind (match truthy (idempotencyKey p) with
          | Some key => checkDuplicate key
          | None => ret None
          end) k w = k None w).
  { intros B k.
    cbv beta iota zeta delta [bind checkDuplicate select_transactions_by_key get_db ret].
    destruct (truthy (idempotencyKey p)); [|reflexivity].
    now rewrite Hmiss. }
  assert (Hdup' : forall B (k : option formatted_transaction -> M B),
    bind (match truthy (idempotencyKey p) with
          | Some key =>
              existing <- select_transaction_ids_by_key key ;;
              match existing with
              | id :: _ =>
                  txRows <- select_transactions_by_id id ;;
                  r <- format_first txRows ;;
                  ret (Some r)
              | [] => ret None
              end
          | None => ret None
          end) k w = k None w).
  { intros B k.
    cbv beta iota zeta delta [bind select_transaction_ids_by_key get_db ret].
    destruct (truthy (idempotencyKey p)); [|reflexivity].
    now rewrite Hmiss. }
  cbv zeta.
  destruct f; cbn [flow_fn]; unfold topup_fn, bonus_fn, spend_fn;
    rewrite ?Hdup, ?Hdup'; clear Hdup Hdup'.
  - pose proof (lock_sorted_ids (systemWalletId p) (walletId p) (ahead (db w))) as Hs.
    pose proof (uuid_texts_sorted (systemWalletId p) (walletId p)) as Ht.
    rewrite (locked_rows_swap (systemWalletId p)) in Hs.
    rewrite (uuid_texts_swap (systemWalletId p)) in Ht.
    unfold locked_world. rewrite <- Hs, <- Ht. clear Hs Ht.
    destruct (sortIds (systemWalletId p) (walletId p)) as [a b].
    unfold bind at 1. rewrite lockWallets_run.
    destruct (uuid_texts a b); [|reflexivity].
    unfold locked_world, validate.
    destruct (Nat.ltb _ 2); [reflexivity|].
    set (rows := locked_rows a b (ahead (db w))).
    destruct (find (has_id (systemWalletId p)) rows) as [s|]; [|reflexivity].
    destruct (find (has_id (walletId p)) rows) as [u|]; [|reflexivity].
    unfold bind, or_throw, guard, ret, throw, post.
    destruct (w_is_active s); [|reflexivity].
    destruct (w_is_active u); [|reflexivity].
    destruct (String.eqb _ _); [|reflexivity].
    destruct (Js.ltb _ _); reflexivity.
  - pose proof (lock_sorted_ids (systemWalletId p) (walletId p) (ahead (db w))) as Hs.
    pose proof (uuid_texts_sorted (systemWalletId p) (walletId p)) as Ht.
    rewrite (locked_rows_swap (systemWalletId p)) in Hs.
    rewrite (uuid_texts_swap (systemWalletId p)) in Ht.
    unfold locked_world. rewrite <- Hs, <- Ht. clear Hs Ht.
    destruct (sortIds (systemWalletId p) (walletId p)) as [a b].
    unfold bind at 1. rewrite lockWallets_run.
    destruct (uuid_texts a b); [|reflexivity].
    unfold locked_world, validate.
    destruct (Nat.ltb _ 2); [reflexivity|].
    set (rows := locked_rows a b (ahead (db w))).
    destruct (find (has_id (systemWalletId p)) rows) as [s|]; [|reflexivity].
    destruct (find (has_id (walletId p)) rows) as [u|]; [|reflexivity].
    unfold bind, or_throw, guard, ret, throw, post.
    destruct (w_is_active s); [|reflexivity].
    destruct (w_is_active u); [|reflexivity].
    destruct (String.eqb _ _); [|reflexivity].
    destruct (Js.ltb _ _); reflexivity.
  - pose proof (lock_sorted_ids (walletId p) (systemWalletId p) (ahead (db w))) as Hs.
    pose proof (uuid_texts_sorted (walletId p) (systemWalletId p)) as Ht.
    unfold locked_world. rewrite <- Hs, <- Ht. clear Hs Ht.
    destruct (sortIds (walletId p) (systemWalletId p)) as [a b].
    unfold bind at 1. rewrite lockWallets_run.
    destruct (uuid_texts a b); [|reflexivity].
    unfold locked_world, validate.
    destruct (Nat.ltb _ 2); [reflexivity|].
    set (rows := locked_rows a b (ahead (db w))).
    destruct (find (has_id (walletId p)) rows) as [u|]; [|reflexivity].
    destruct (find (has_id (systemWalletId p)) rows) as [s|]; [|reflexivity].
    unfold bind, or_throw, guard, ret, throw, post.
    destruct (w_is_active u); [|reflexivity].
    destruct (w_is_active s); [|reflexivity].
    destruct (String.eqb _ _); [|reflexivity].
    destruct (Js.ltb _ _); reflexivity.
Qed.

End EngineFacts.

(** ** What a flow leaves in the log and at the rollback point *)

Lemma locks_app (l1 l2 : list Event) : locks (l1 ++ l2) = (locks l1 ++ locks l2)%list.
Proof.
  induction l1 as [|e l1 IH]; simpl; [reflexivity|].
  destruct e; simpl; now rewrite ?IH.
Qed.

Lemma locks_map_ELock (ids : list uuid) : locks (map ELock ids) = ids.
Proof. induction ids as [|i ids IH]; simpl; congruence. Qed.

Lemma skipn_length_app {A} (l r : list A) : skipn (List.length l) (l ++ r) = r.
Proof. induction l as [|x l IH]; simpl; auto. Qed.

Lemma dup_row_none (f : Flow) (k : string) (d : Db) :
  dup_row f k d = None -> filter (key_is k) (transactions d) = [].
Proof.
  unfold dup_row.
  destruct (filter (key_is k) (transactions d)) as [|r rest] eqn:Hf; [reflexivity|].
  destruct f; try discriminate.
  assert (Hin : In r (filter (id_is (t_id r)) (transactions d))).
  { apply filter_In. split.
    - assert (H : In r (filter (key_is k) (transactions d))) by (rewrite Hf; now left).
      now apply filter_In in H.
    - unfold id_is. apply Nat.eqb_refl. }
  destruct (filter (id_is (t_id r)) (transactions d)); [destruct Hin|discriminate].
Qed.

Lemma hit_or_miss (f : Flow) (p : Params) (d : Db) :
  (exists k row, truthy (idempotencyKey p) = Some k /\ dup_row f k d = Some row)
  \/ dup_miss p d.
Proof.
  unfold dup_miss. destruct (truthy (idempotencyKey p)) as [k|] eqn:Hk; [|now right].
  destruct (dup_row f k d) as [row|] eqn:Hrow.
  - left. eauto.
  - right. eapply dup_row_none; eauto.
Qed.

Section Traces.

Variable ahead : Db -> Db.

Lemma run_flow_run (f : Flow) (p : Params) (w : World) :
  run_flow ahead f p w = withTransaction (flow_fn ahead f p) w.
Proof. destruct f; reflexivity. Qed.

(** The function handed to the runner either returns at the duplicate
    check, having touched nothing, or goes through the lock statement and
    leaves the rollback point where that statement found it. *)
Lemma flow_fn_trace (f : Flow) (p : Params) (w : World) :
  fst (flow_fn ahead f p w) = w \/
  (undo (fst (flow_fn ahead f p w)) = ahead (undo w) /\
   log (fst (flow_fn ahead f p w)) = (log w ++ map ELock (locked_ids ahead p (db w)))%list /\
   clock (fst (flow_fn ahead f p w)) = clock w).
Proof.
  destruct (hit_or_miss f p (db w)) as [(k & row & Hk & Hrow)|Hmiss].
  - left. now rewrite (flow_fn_hit ahead f p w k row Hk Hrow).
  - rewrite (flow_fn_miss ahead f p w Hmiss). cbv zeta.
    destruct (uuid_texts _ _); [right|now left].
    unfold locked_ids. rewrite map_map.
    destruct (validate f p _) as [e|[source target]].
    + cbn [fst]. unfold locked_world. cbn [undo log clock]. auto.
    + destruct (frame_post f p source target
                  (locked_world ahead (walletId p) (systemWalletId p) w))
        as (Hu & Hl & Hc).
      rewrite Hu, Hl, Hc. unfold locked_world. cbn [undo log clock]. auto.
Qed.

Lemma run_flow_outcome (f : Flow) (p : Params) (w : World) :
  exists ids,
    (ids = [] \/ ids = locked_ids ahead p (db w)) /\
    log (fst (run_flow ahead f p w)) =
      (log w ++ [EConnect; EBegin] ++ map ELock ids
         ++ [closing (snd (run_flow ahead f p w)); ERelease])%list /\
    undo (fst (run_flow ahead f p w)) = db (fst (run_flow ahead f p w)) /\
    clock (fst (run_flow ahead f p w)) = clock w /\
    (forall e, snd (run_flow ahead f p w) = Throw e ->
       db (fst (run_flow ahead f p w)) = db w \/
       db (fst (run_flow ahead f p w)) = ahead (db w)).
Proof.
  rewrite run_flow_run, withTransaction_run.
  pose proof (flow_fn_trace f p (begun w)) as Ht.
  destruct (flow_fn ahead f p (begun w)) as [w1 r]. cbn [fst] in Ht.
  destruct Ht as [->|(Hu & Hl & Hc)].
  - exists []. split; [now left|].
    destruct r as [a|e]; cbn [fst snd closing]; unfold committed_world, rolled_back, begun;
      cbn [db undo log clock map]; rewrite <- !app_assoc; cbn [app];
      repeat split; auto; discriminate.
  - exists (locked_ids ahead p (db w)). split; [now right|].
    destruct r as [a|e]; cbn [fst snd closing]; unfold committed_world, rolled_back;
      cbn [db undo log clock]; rewrite Hl, ?Hu, ?Hc; unfold begun; cbn [db undo log clock];
      rewrite <- !app_assoc; cbn [app]; repeat split; auto; discriminate.
Qed.

Lemma acquired_run_flow (f : Flow) (p : Params) (w : World) :
  acquired (run_flow ahead f p) w = [] \/
  acquired (run_flow ahead f p) w = locked_ids ahead p (db w).
Proof.
  destruct (run_flow_outcome f p w) as (ids & Hids & Hlog & _).
  unfold acquired. rewrite Hlog, skipn_length_app.
  rewrite !locks_app, locks_map_ELock. cbn [locks app].
  unfold closing. destruct (snd _); rewrite app_nil_r;
    destruct Hids as [->| ->]; auto.
Qed.

Lemma acquired_ascending (f : Flow) (p : Params) (w : World) :
  ascending (acquired (run_flow ahead f p) w).
Proof.
  destruct (acquired_run_flow f p w) as [-> | ->].
  - constructor.
  - apply locked_rows_ascending.
Qed.

Lemma acquired_lockWallets (a b : string) (w : World) :
  acquired (lockWallets ahead a b) w =
  if uuid_texts a b then map w_id (locked_rows a b (ahead (db w))) else [].
Proof.
  unfold acquired. rewrite lockWallets_run. destruct (uuid_texts a b); cbn [fst].
  - unfold locked_world. cbn [log].
    now rewrite skipn_length_app, <- map_map, locks_map_ELock.
  - now rewrite skipn_all.
Qed.

End Traces.

Lemma lock_wait_strict (x y : uuid) :
  lock_wait x y -> String.leb x y = true /\ x <> y.
Proof.
  induction 1 as [ahead f p w x y Hp Hne|x y z _ (Hxy & Hne1) _ (Hyz & Hne2)].
  - split; [|exact Hne].
    eapply ascending_precedes; [apply acquired_ascending|exact Hp].
  - split; [eapply string_leb_trans; eauto|].
    intro Heq. subst z. apply Hne1. now apply String.leb_antisym.
Qed.

(** ** C8: canonical lock order *)

(** C8.  The lock statement takes its rows in ascending id order whatever the
    order of its two arguments: [sortIds] is symmetric, [lockWallets] returns
    the same rows, in the same ascending order, for [(a, b)] and [(b, a)],
    the locks any flow takes are ascending, and therefore two flows never
    take two distinct rows in opposite orders, and no chain of waits on
    wallet rows closes on itself (no circular wait, hence no deadlock). *)
Theorem locks_taken_in_ascending_id_order :
  (forall a b, sortIds a b = sortIds b a) /\
  (forall ahead a b w, lockWallets ahead a b w = lockWallets ahead b a w) /\
  (forall ahead a b w, ascending (acquired (lockWallets ahead a b) w)) /\
  (forall ahead f p w, ascending (acquired (run_flow ahead f p) w)) /\
  (forall ahead1 f1 p1 w1 ahead2 f2 p2 w2 x y,
      precedes x y (acquired (run_flow ahead1 f1 p1) w1) ->
      x <> y ->
      ~ precedes y x (acquired (run_flow ahead2 f2 p2) w2)) /\
  (forall x, ~ lock_wait x x).
Proof.
  split; [exact sortIds_swap|].
  split.
  { intros ahead a b w. rewrite !lockWallets_run, (uuid_texts_swap a b).
    unfold locked_world. now rewrite (locked_rows_swap a b). }
  split.
  { intros ahead a b w. rewrite acquired_lockWallets.
    destruct (uuid_texts a b); [apply locked_rows_ascending|constructor]. }
  split; [exact acquired_ascending|].
  split.
  { intros ahead1 f1 p1 w1 ahead2 f2 p2 w2 x y Hxy Hne.
    eapply ascending_no_cycle; eauto using acquired_ascending. }
  intros x Hx. destruct (lock_wait_strict x x Hx) as (_ & Hne). now apply Hne.
Qed.

(** ** C2: commit or rollback *)

Lemma run_flow_throw ahead f p w w1 e :
  flow_fn ahead f p (begun w) = (w1, Throw e) ->
  run_flow ahead f p w = (rolled_back w1, Throw e).
Proof. intro H. now rewrite run_flow_run, withTransaction_run, H. Qed.

Lemma run_flow_ok ahead f p w w1 r :
  flow_fn ahead f p (begun w) = (w1, Ok r) ->
  run_flow ahead f p w = (committed_world w1, Ok r).
Proof. intro H. now rewrite run_flow_run, withTransaction_run, H. Qed.

(** C2.  Whatever function the runner is given: when it throws, the runner
    issues ROLLBACK, which returns the store to the rollback point, releases
    the client and rethrows the same fault; when it returns, the runner issues
    COMMIT, releases the client and returns the same result.  For the three
    flows: a run that ends in a fault leaves the store as it was (or as the
    rivals that committed during the lock wait left it), so no write of the
    flow persists, and its log is CONNECT, BEGIN, the row locks, ROLLBACK,
    RELEASE; a run that returns ends with COMMIT, RELEASE. *)
Theorem runner_commits_or_rolls_back :
  (forall A (fn : M A) w w1 e,
      fn (begun w) = (w1, Throw e) ->
      exists w', withTransaction fn w = (w', Throw e) /\
                 db w' = undo w1 /\
                 log w' = (log w1 ++ [ERollback; ERelease])%list) /\
  (forall A (fn : M A) w w1 r,
      fn (begun w) = (w1, Ok r) ->
      exists w', withTransaction fn w = (w', Ok r) /\
                 db w' = db w1 /\
                 log w' = (log w1 ++ [ECommit; ERelease])%list) /\
  (forall ahead f p w w' e,
      run_flow ahead f p w = (w', Throw e) ->
      (db w' = db w \/ db w' = ahead (db w)) /\
      exists ids,
        log w' = (log w ++ [EConnect; EBegin] ++ map ELock ids
                    ++ [ERollback; ERelease])%list) /\
  (forall f p w w' e,
      run_flow (fun d => d) f p w = (w', Throw e) ->
      wallets (db w') = wallets (db w) /\
      transactions (db w') = transactions (db w) /\
      ledger_entries (db w') = ledger_entries (db w)) /\
  (forall ahead f p w w' r,
      run_flow ahead f p w = (w', Ok r) ->
      exists ids,
        log w' = (log w ++ [EConnect; EBegin] ++ map ELock ids
                    ++ [ECommit; ERelease])%list).
Proof.
  repeat split.
  - intros A fn w w1 e H. exists (rolled_back w1).
    rewrite withTransaction_run, H. unfold rolled_back. cbn [db log].
    now rewrite <- app_assoc.
  - intros A fn w w1 r H. exists (committed_world w1).
    rewrite withTransaction_run, H. unfold committed_world. cbn [db log].
    now rewrite <- app_assoc.
  - destruct (run_flow_outcome ahead f p w) as (ids & _ & _ & _ & _ & Hdb).
    rewrite H in Hdb. cbn [fst snd] in Hdb. eauto.
  - destruct (run_flow_outcome ahead f p w) as (ids & _ & Hlog & _).
    rewrite H in Hlog. cbn [fst snd closing] in Hlog. eauto.
  - destruct (run_flow_outcome (fun d => d) f p w) as (ids & _ & _ & _ & _ & Hdb).
    rewrite H in Hdb. cbn [fst snd] in Hdb. destruct (Hdb e eq_refl) as [-> | ->]; auto.
  - destruct (run_flow_outcome (fun d => d) f p w) as (ids & _ & _ & _ & _ & Hdb).
    rewrite H in Hdb. cbn [fst snd] in Hdb. destruct (Hdb e eq_refl) as [-> | ->]; auto.
  - destruct (run_flow_outcome (fun d => d) f p w) as (ids & _ & _ & _ & _ & Hdb).
    rewrite H in Hdb. cbn [fst snd] in Hdb. destruct (Hdb e eq_refl) as [-> | ->]; auto.
  - intros ahead f p w w' r H.
    destruct (run_flow_outcome ahead f p w) as (ids & _ & Hlog & _).
    rewrite H in Hlog. cbn [fst snd closing] in Hlog. eauto.
Qed.

(** ** The wallet table and the rows the locker returns *)

Lemma has_id_true (id : string) (r : wallet_row) : has_id id r = true <-> w_id r = id.
Proof. unfold has_id. apply String.eqb_eq. Qed.

Lemma w_id_is_true (v : uuid) (r : wallet_row) : w_id_is v r = true <-> w_id r = v.
Proof. unfold w_id_is. apply String.eqb_eq. Qed.

Lemma locked_rows_In (a b : string) (d : Db) (r : wallet_row) :
  In r (locked_rows a b d) <->
  exists v1 v2, uuid_in a = Some v1 /\ uuid_in b = Some v2 /\
                In r (wallets d) /\ (w_id r = v1 \/ w_id r = v2).
Proof.
  unfold locked_rows. destruct (uuid_in a) as [v1|], (uuid_in b) as [v2|].
  - rewrite order_by_id_In, filter_In. unfold id_in.
    rewrite orb_true_iff, !w_id_is_true. split.
    + intros (H1 & H2). exists v1, v2. auto.
    + intros (u1 & u2 & E1 & E2 & H). inversion E1; inversion E2; subst. exact H.
  - split; [intros []|intros (u1 & u2 & _ & E & _); discriminate].
  - split; [intros []|intros (u1 & u2 & E & _); discriminate].
  - split; [intros []|intros (u1 & u2 & E & _); discriminate].
Qed.

(** A row the lock statement returned and [find] kept: the text of the
    request is the text of its value. *)
Lemma locked_text (a b id : string) (d : Db) (r : wallet_row) :
  In r (locked_rows a b d) -> w_id r = id -> uuid_in id = Some id.
Proof.
  intros Hin Hid. apply locked_rows_In in Hin.
  destruct Hin as (v1 & v2 & H1 & H2 & _ & [Hv|Hv]); subst id; rewrite Hv.
  - exact (uuid_in_out _ _ H1).
  - exact (uuid_in_out _ _ H2).
Qed.

Lemma find_filter_same {A} (P : A -> bool) (l : list A) : find P (filter P l) = find P l.
Proof.
  induction l as [|x l IH]; [reflexivity|]. cbn [filter find].
  destruct (P x) eqn:Hx; [cbn [find]; now rewrite Hx|exact IH].
Qed.

Lemma wallet_of_text (d : Db) (id : string) :
  uuid_in id = Some id -> wallet_of d id = find (has_id id) (wallets d).
Proof.
  intro H. unfold wallet_of. rewrite H.
  change (w_id_is id) with (has_id id). apply find_filter_same.
Qed.

Lemma wallet_of_Some (d : Db) (id : string) (r : wallet_row) :
  wallet_of d id = Some r <->
  uuid_in id = Some id /\ find (has_id id) (wallets d) = Some r.
Proof.
  split.
  - intro H. assert (Hid : uuid_in id = Some id).
    { unfold wallet_of in H. destruct (uuid_in id) as [v|]; [|discriminate].
      apply find_some in H. destruct H as (Hin & Hr).
      apply filter_In in Hin. destruct Hin as (_ & Hv).
      apply has_id_true in Hr. apply w_id_is_true in Hv. f_equal. now rewrite <- Hv. }
    split; [exact Hid|]. now rewrite wallet_of_text in H.
  - intros (Hid & H). now rewrite wallet_of_text.
Qed.

Lemma pkey_inj {A B} (key : A -> B) (l : list A) (x y : A) :
  NoDup (map key l) -> In x l -> In y l -> key x = key y -> x = y.
Proof.
  induction l as [|z l IH]; simpl; [tauto|].
  intros Hnd [->|Hx] [->|Hy] Heq; inversion Hnd as [|? ? Hnot Hnd']; subst; auto.
  - exfalso. apply Hnot. rewrite Heq. now apply in_map.
  - exfalso. apply Hnot. rewrite <- Heq. now apply in_map.
Qed.

Lemma printed_true (id : string) : printed id = true <-> uuid_in id = Some id.
Proof.
  unfold printed. destruct (uuid_in id) as [v|]; [|split; discriminate].
  rewrite String.eqb_eq. split; [now intros ->|now inversion 1].
Qed.

Lemma wallet_of_find (d : Db) (id : string) :
  wallet_of d id = if printed id then find (has_id id) (wallets d) else None.
Proof.
  destruct (printed id) eqn:Hp.
  - apply wallet_of_text. now apply printed_true.
  - destruct (wallet_of d id) as [r|] eqn:Hr; [|reflexivity].
    apply wallet_of_Some in Hr. destruct Hr as (Hid & _).
    apply printed_true in Hid. congruence.
Qed.

Lemma find_locked_missing (a b id : string) (d : Db) :
  wallet_of d id = None -> find (has_id id) (locked_rows a b d) = None.
Proof.
  intro Hnone.
  destruct (find (has_id id) (locked_rows a b d)) as [r|] eqn:Hf; [|reflexivity].
  apply find_some in Hf. destruct Hf as (Hin & Hid). apply has_id_true in Hid.
  rewrite (wallet_of_text d id (locked_text a b id d r Hin Hid)) in Hnone.
  apply locked_rows_In in Hin. destruct Hin as (v1 & v2 & _ & _ & Hin & _).
  pose proof (find_none _ _ Hnone r Hin) as Hno.
  apply has_id_true in Hid. congruence.
Qed.

Lemma find_locked_found (a b id : string) (d : Db) (r : wallet_row) :
  wallets_pkey d -> wallet_of d id = Some r -> id = a \/ id = b ->
  uuid_texts a b = true ->
  find (has_id id) (locked_rows a b d) = Some r.
Proof.
  unfold wallets_pkey. intros Hpk Hr Hid Htexts.
  apply wallet_of_Some in Hr. destruct Hr as (Hv & Hr).
  apply uuid_texts_true in Htexts. destruct Htexts as (v1 & v2 & H1 & H2).
  apply find_some in Hr. destruct Hr as (Hin & Hr). apply has_id_true in Hr.
  destruct (find (has_id id) (locked_rows a b d)) as [r'|] eqn:Hf.
  - apply find_some in Hf. destruct Hf as (Hin' & Hr'). apply has_id_true in Hr'.
    apply locked_rows_In in Hin'. destruct Hin' as (u1 & u2 & _ & _ & Hin' & _).
    f_equal. eapply (pkey_inj w_id); eauto. congruence.
  - assert (Hl : In r (locked_rows a b d)).
    { apply locked_rows_In. exists v1, v2. repeat split; auto.
      destruct Hid as [E|E]; subst id; [left|right]; congruence. }
    pose proof (find_none _ _ Hf r Hl) as Hno.
    apply has_id_true in Hr. congruence.
Qed.

Lemma found_texts (d : Db) (a b : string) (ra rb : wallet_row) :
  wallet_of d a = Some ra -> wallet_of d b = Some rb -> uuid_texts a b = true.
Proof.
  intros Ha Hb. apply wallet_of_Some in Ha, Hb.
  apply uuid_texts_true. exists a, b. tauto.
Qed.

Lemma two_members {A} (l : list A) (x y : A) :
  In x l -> In y l -> x <> y -> (2 <= List.length l)%nat.
Proof.
  destruct l as [|u [|v l]]; simpl; intros Hx Hy Hne.
  - destruct Hx.
  - destruct Hx as [->|[]], Hy as [->|[]]. now elim Hne.
  - lia.
Qed.

Lemma locked_rows_two (a b : string) (d : Db) (ra rb : wallet_row) :
  wallet_of d a = Some ra -> wallet_of d b = Some rb -> a <> b ->
  Nat.ltb (List.length (locked_rows a b d)) 2 = false.
Proof.
  intros Ha Hb Hne.
  apply wallet_of_Some in Ha, Hb. destruct Ha as (Hva & Ha), Hb as (Hvb & Hb).
  apply find_some in Ha, Hb. destruct Ha as (Ha & Hia), Hb as (Hb & Hib).
  apply has_id_true in Hia, Hib.
  apply Nat.ltb_ge. apply (two_members _ ra rb).
  - apply locked_rows_In. exists a, b. auto.
  - apply locked_rows_In. exists a, b. auto.
  - intro Heq. subst. congruence.
Qed.

Lemma filter_one_id (a : uuid) (l : list wallet_row) :
  NoDup (map w_id l) -> (List.length (filter (id_in a a) l) <= 1)%nat.
Proof.
  induction l as [|x l IH]; simpl; intro Hnd; [lia|].
  inversion Hnd as [|? ? Hnot Hnd']; subst.
  destruct (id_in a a x) eqn:Hx; [|auto].
  assert (Hempty : filter (id_in a a) l = []).
  { destruct (filter (id_in a a) l) as [|y rest] eqn:Hf; [reflexivity|].
    assert (Hy : In y (filter (id_in a a) l)) by (rewrite Hf; now left).
    apply filter_In in Hy. destruct Hy as (Hy & Hya).
    unfold id_in in Hx, Hya. rewrite orb_diag in Hx, Hya.
    apply w_id_is_true in Hx, Hya.
    exfalso. apply Hnot. rewrite Hx, <- Hya. now apply in_map. }
  rewrite Hempty. simpl. lia.
Qed.

Lemma locked_rows_same_id (a b : string) (d : Db) :
  wallets_pkey d -> uuid_in a = uuid_in b ->
  Nat.ltb (List.length (locked_rows a b d)) 2 = true.
Proof.
  intros Hpk Heq. apply Nat.ltb_lt. unfold locked_rows. rewrite <- Heq.
  destruct (uuid_in a) as [v|]; [|cbn [List.length]; lia].
  rewrite order_by_id_length. pose proof (filter_one_id v (wallets d) Hpk). lia.
Qed.

(** ** Validation as a function of the locked rows *)

Lemma validate_too_few f p rows :
  Nat.ltb (List.length rows) 2 = true ->
  validate f p rows = inl (NotFoundError "One or both wallets").
Proof. intro H. unfold validate. now rewrite H. Qed.

Lemma validate_missing f p rows :
  find (has_id (walletId p)) rows = None \/ find (has_id (systemWalletId p)) rows = None ->
  exists resource, validate f p rows = inl (NotFoundError resource).
Proof.
  intro H. unfold validate.
  destruct (Nat.ltb _ 2); [eauto|].
  destruct f;
    destruct (find (has_id (systemWalletId p)) rows),
             (find (has_id (walletId p)) rows);
    destruct H as [H|H]; try discriminate; eauto.
Qed.

Lemma validate_checks f p rows source target :
  Nat.ltb (List.length rows) 2 = false ->
  find (has_id (source_id f p)) rows = Some source ->
  find (has_id (target_id f p)) rows = Some target ->
  validate f p rows =
    if negb (w_is_active source) then inl (ConflictError (inactive_source f))
    else if negb (w_is_active target) then inl (ConflictError (inactive_target f))
    else if negb (String.eqb (w_asset_type_id source) (w_asset_type_id target))
         then inl (ConflictError "Wallet asset types do not match")
    else if Js.ltb (parseFloat (w_balance source)) (amount p)
         then inl (InsufficientFundsError (flow_available f source) (amount p))
    else inr (source, target).
Proof.
  intros Hlen Hs Ht. unfold validate. rewrite Hlen.
  destruct f; cbn [source_id target_id] in Hs, Ht; rewrite Hs, Ht; reflexivity.
Qed.

Lemma validate_inr f p rows source target :
  validate f p rows = inr (source, target) ->
  find (has_id (source_id f p)) rows = Some source /\
  find (has_id (target_id f p)) rows = Some target /\
  w_is_active source = true /\ w_is_active target = true /\
  w_asset_type_id source = w_asset_type_id target /\
  Js.ltb (parseFloat (w_balance source)) (amount p) = false.
Proof.
  unfold validate. destruct (Nat.ltb _ 2); [discriminate|].
  destruct f; cbn [source_id target_id];
    destruct (find (has_id (systemWalletId p)) rows) as [s|];
    destruct (find (has_id (walletId p)) rows) as [u|]; try discriminate;
    cbv zeta;
    repeat match goal with
    | |- context [if ?b then _ else _] => destruct b eqn:?; try discriminate
    end;
    intro H; inversion H; subst;
    repeat match goal with
    | H : negb _ = false |- _ => apply negb_false_iff in H
    end;
    match goal with
    | H : String.eqb _ _ = true |- _ => apply String.eqb_eq in H
    end;
    auto 10.
Qed.

(** The locker returned two rows and [find] found both ids among them:
    both texts are uuids, each the text of its own value. *)
Lemma validate_inr_texts f p a b d source target :
  validate f p (locked_rows a b d) = inr (source, target) ->
  uuid_texts a b = true /\
  uuid_in (source_id f p) = Some (source_id f p) /\
  uuid_in (target_id f p) = Some (target_id f p).
Proof.
  intro Hv. split.
  - unfold uuid_texts. unfold locked_rows in Hv.
    destruct (uuid_in a), (uuid_in b); try reflexivity;
      now rewrite validate_too_few in Hv.
  - apply validate_inr in Hv. destruct Hv as (Hs & Ht & _).
    apply find_some in Hs, Ht. destruct Hs as (Hs & His), Ht as (Ht & Hit).
    apply has_id_true in His, Hit.
    split; [exact (locked_text a b _ d source Hs His)
           |exact (locked_text a b _ d target Ht Hit)].
Qed.

Lemma request_ids f p :
  (walletId p = source_id f p /\ systemWalletId p = target_id f p) \/
  (walletId p = target_id f p /\ systemWalletId p = source_id f p).
Proof. destruct f; cbn [source_id target_id]; auto. Qed.

Section Rejections.

Variable ahead : Db -> Db.

Lemma run_flow_rejected f p w e :
  dup_miss p (db w) ->
  uuid_texts (walletId p) (systemWalletId p) = true ->
  validate f p (locked_rows (walletId p) (systemWalletId p) (ahead (db w))) = inl e ->
  exists w', run_flow ahead f p w = (w', Throw e) /\ db w' = ahead (db w)
             /\ wrote_nothing ahead f p w.
Proof.
  intros Hmiss Htexts Hv.
  assert (Hfn : flow_fn ahead f p (begun w) =
                (locked_world ahead (walletId p) (systemWalletId p) (begun w), Throw e)).
  { rewrite flow_fn_miss by exact Hmiss. rewrite Htexts. cbv zeta.
    change (db (begun w)) with (db w). now rewrite Hv. }
  eexists. split; [apply run_flow_throw; exact Hfn|].
  unfold wrote_nothing. rewrite Hfn. split; reflexivity.
Qed.

Lemma run_flow_accepted f p w source target :
  dup_miss p (db w) ->
  validate f p (locked_rows (walletId p) (systemWalletId p) (ahead (db w)))
    = inr (source, target) ->
  flow_fn ahead f p (begun w) =
  post f p source target (locked_world ahead (walletId p) (systemWalletId p) (begun w)).
Proof.
  intros Hmiss Hv. rewrite flow_fn_miss by exact Hmiss.
  destruct (validate_inr_texts _ _ _ _ _ _ _ Hv) as (-> & _). cbv zeta.
  change (db (begun w)) with (db w). now rewrite Hv.
Qed.

Lemma found_rows f p d source target :
  wallets_pkey d ->
  wallet_of d (source_id f p) = Some source ->
  wallet_of d (target_id f p) = Some target ->
  walletId p <> systemWalletId p ->
  let rows := locked_rows (walletId p) (systemWalletId p) d in
  Nat.ltb (List.length rows) 2 = false /\
  find (has_id (source_id f p)) rows = Some source /\
  find (has_id (target_id f p)) rows = Some target.
Proof.
  intros Hpk Hs Ht Hne rows. subst rows.
  destruct f; cbn [source_id target_id] in *;
    (split; [eapply locked_rows_two; eauto
            |split; eapply find_locked_found; eauto using found_texts]).
Qed.

End Rejections.

Lemma found_request_texts f p d source target :
  wallet_of d (source_id f p) = Some source ->
  wallet_of d (target_id f p) = Some target ->
  uuid_texts (walletId p) (systemWalletId p) = true.
Proof.
  intros Hs Ht. destruct f; cbn [source_id target_id] in *; eauto using found_texts.
Qed.

Lemma validate_inr_request f p a b d source target :
  validate f p (locked_rows a b d) = inr (source, target) ->
  uuid_in (walletId p) = Some (walletId p) /\
  uuid_in (systemWalletId p) = Some (systemWalletId p).
Proof.
  intro Hv. destruct (validate_inr_texts _ _ _ _ _ _ _ Hv) as (_ & Hs & Ht).
  destruct f; cbn [source_id target_id] in *; auto.
Qed.

(** ** C6: validation faults *)

(** C6, as the code has it.  For every flow whose duplicate check finds
    nothing and whose two wallet ids are texts of uuids, with [D] the store
    as the lock statement sees it: a requested id under which the flow finds
    no wallet row raises NotFound; an inactive wallet on either side raises
    Conflict; differing asset types raise Conflict; two ids that stand for
    the same uuid make the locker return fewer than two rows and the flow
    raises NotFound.  In each case the flow wrote nothing and the store is
    left as [D].  (A flow whose duplicate check finds a row returns that row
    and makes none of these checks.) *)
Theorem validation_faults_write_nothing ahead f p w :
  dup_miss p (db w) ->
  wallets_pkey (ahead (db w)) ->
  uuid_texts (walletId p) (systemWalletId p) = true ->
  (wallet_of (ahead (db w)) (walletId p) = None \/
   wallet_of (ahead (db w)) (systemWalletId p) = None ->
   exists resource w',
     run_flow ahead f p w = (w', Throw (NotFoundError resource)) /\
     db w' = ahead (db w) /\ wrote_nothing ahead f p w) /\
  (forall source target,
     wallet_of (ahead (db w)) (source_id f p) = Some source ->
     wallet_of (ahead (db w)) (target_id f p) = Some target ->
     walletId p <> systemWalletId p ->
     (w_is_active source = false \/ w_is_active target = false ->
      exists m w',
        run_flow ahead f p w = (w', Throw (ConflictError m)) /\
        db w' = ahead (db w) /\ wrote_nothing ahead f p w) /\
     (w_asset_type_id source <> w_asset_type_id target ->
      exists m w',
        run_flow ahead f p w = (w', Throw (ConflictError m)) /\
        db w' = ahead (db w) /\ wrote_nothing ahead f p w)) /\
  (uuid_in (walletId p) = uuid_in (systemWalletId p) ->
   (List.length (locked_rows (walletId p) (systemWalletId p) (ahead (db w))) < 2)%nat /\
   exists w',
     run_flow ahead f p w = (w', Throw (NotFoundError "One or both wallets")) /\
     db w' = ahead (db w) /\ wrote_nothing ahead f p w).
Proof.
  intros Hmiss Hpk Htexts. split; [|split].
  - intros Hnone.
    destruct (validate_missing f p
                (locked_rows (walletId p) (systemWalletId p) (ahead (db w))))
      as (resource & Hv).
    { destruct Hnone as [H|H]; [left|right]; now apply find_locked_missing. }
    exists resource. now apply run_flow_rejected.
  - intros source target Hs Ht Hne.
    destruct (found_rows f p _ source target Hpk Hs Ht Hne) as (Hlen & Hfs & Hft).
    pose proof (validate_checks f p _ source target Hlen Hfs Hft) as Hv.
    split.
    + intros Hinactive.
      destruct (w_is_active source) eqn:Has; cbn [negb] in Hv.
      * destruct Hinactive as [Hi|Hi]; [discriminate|].
        rewrite Hi in Hv. cbn [negb] in Hv.
        exists (inactive_target f). now apply run_flow_rejected.
      * exists (inactive_source f). now apply run_flow_rejected.
    + intros Hasset.
      apply String.eqb_neq in Hasset. rewrite Hasset in Hv. cbn [negb] in Hv.
      destruct (w_is_active source); cbn [negb] in Hv;
        [destruct (w_is_active target); cbn [negb] in Hv|];
        eexists; eapply run_flow_rejected; eauto.
  - intros Heq.
    pose proof (locked_rows_same_id (walletId p) (systemWalletId p) _ Hpk Heq) as Hlen.
    split; [now apply Nat.ltb_lt|].
    apply run_flow_rejected; [exact Hmiss|exact Htexts|].
    now apply validate_too_few.
Qed.

(** ** C7: the funds check *)

(** C7, as the code has it.  Once a flow has found both wallets active and
    of one asset type, it raises InsufficientFunds, carrying the source
    balance as [available] and the amount as [required], exactly when the
    source balance parsed to a binary64 number is below the amount; nothing
    is written in that case.  The comparison is the one of JavaScript numbers,
    not one of decimals. *)
Theorem insufficient_funds_iff_parsed_balance_below_amount ahead f p w source target :
  dup_miss p (db w) ->
  wallets_pkey (ahead (db w)) ->
  wallet_of (ahead (db w)) (source_id f p) = Some source ->
  wallet_of (ahead (db w)) (target_id f p) = Some target ->
  walletId p <> systemWalletId p ->
  w_is_active source = true ->
  w_is_active target = true ->
  w_asset_type_id source = w_asset_type_id target ->
  (Js.ltb (parseFloat (w_balance source)) (amount p) = true ->
   exists w',
     run_flow ahead f p w =
       (w', Throw (AppError
                     (MsgInsufficient (mk_details (flow_available f source) (amount p)))
                     422 "INSUFFICIENT_FUNDS"
                     (Some (mk_details (flow_available f source) (amount p))))) /\
     db w' = ahead (db w) /\ wrote_nothing ahead f p w) /\
  (Js.ltb (parseFloat (w_balance source)) (amount p) = false ->
   forall avail req,
     snd (run_flow ahead f p w) <> Throw (InsufficientFundsError avail req)).
Proof.
  intros Hmiss Hpk Hs Ht Hne Has Hat Hasset.
  destruct (found_rows f p _ source target Hpk Hs Ht Hne) as (Hlen & Hfs & Hft).
  pose proof (validate_checks f p _ source target Hlen Hfs Hft) as Hv.
  rewrite Has, Hat, Hasset, String.eqb_refl in Hv. cbn [negb] in Hv.
  split; intro Hlt; rewrite Hlt in Hv.
  - apply run_flow_rejected; eauto using found_request_texts.
  - intros avail req Hthrow.
    pose proof (run_flow_accepted ahead f p w source target Hmiss Hv) as Hfn.
    rewrite run_flow_run, withTransaction_run, Hfn in Hthrow.
    pose proof (infra_post f p source target
                  (locked_world ahead (walletId p) (systemWalletId p) (begun w))) as Hinfra.
    destruct (post f p source target _) as [w1 [r|e]]; cbn [snd] in *; [discriminate|].
    inversion Hthrow; subst. specialize (Hinfra _ eq_refl). discriminate.
Qed.

(** ** The statements of a fresh run, one by one *)

Ltac run_in H :=
  cbv beta iota zeta delta
    [bind gen_random_uuid lift guard get_db now set_db ret throw] in H;
  cbn [db undo next_uuid clock log] in H.

Ltac run :=
  cbv beta iota zeta delta
    [bind gen_random_uuid lift guard get_db now set_db ret throw negb];
  cbn [db undo next_uuid clock log].

Ltac step_in H :=
  match type of H with
  | context [if ?b then _ else _] =>
      let E := fresh "Hc" in destruct b eqn:E; run_in H; try discriminate H
  end.

Lemma bind_ok_inv {A B} (m : M A) (k : A -> M B) (w w' : World) (b : B) :
  bind m k w = (w', Ok b) ->
  exists w1 a, m w = (w1, Ok a) /\ k a w1 = (w', Ok b).
Proof.
  intro H. apply bind_inv in H. destruct H as [H|(e & _ & H)]; [exact H|discriminate].
Qed.

Lemma insert_transaction_ok ty u s amt ref key desc meta w w1 txn :
  uuid_in u = Some u -> uuid_in s = Some s ->
  insert_transaction ty u s amt ref key desc meta w = (w1, Ok txn) ->
  exists a,
    numeric_20_6 (sql_param amt) = Ok a /\
    0 < a /\
    existsb (id_is (next_uuid w)) (transactions (db w)) = false /\
    match key with
    | Some k => existsb (key_is k) (transactions (db w)) = false
    | None => True
    end /\
    txn = mk_transaction (next_uuid w) ty pending u s a ref key desc meta
            (clock w) (clock w) /\
    w1 = mk_world (with_transactions (db w) (transactions (db w) ++ [txn])) (undo w)
           (S (next_uuid w)) (clock w) (log w).
Proof.
  unfold insert_transaction, uuid_param. intros Hu Hs H. rewrite Hu, Hs in H. run_in H.
  destruct (numeric_20_6 (sql_param amt)) as [a|e] eqn:Ha; [|discriminate].
  run_in H. repeat step_in H.
  inversion H; subst. exists a.
  apply Z.ltb_lt in Hc0. apply negb_true_iff in Hc2.
  repeat split; auto.
  destruct key; [now apply negb_true_iff|exact I].
Qed.

Lemma update_wallets_balance_ok op amt id w w1 :
  update_wallets_balance op amt id w = (w1, Ok tt) ->
  exists ws,
    map_result (update_wallet_row op amt id (clock w)) (wallets (db w)) = Ok ws /\
    w1 = mk_world (with_wallets (db w) ws) (undo w) (next_uuid w) (clock w) (log w).
Proof.
  unfold update_wallets_balance. intro H. run_in H.
  destruct (map_result _ _) as [ws|e]; [|discriminate].
  run_in H. inversion H; subst. eauto.
Qed.

Lemma insert_ledger_entry_ok tid wid ty amt before after w w1 :
  insert_ledger_entry tid wid ty amt before after w = (w1, Ok tt) ->
  exists a b c,
    numeric_20_6 (sql_param amt) = Ok a /\
    numeric_20_6 (sql_param before) = Ok b /\
    numeric_20_6 (sql_param after) = Ok c /\
    w1 = mk_world
           (with_ledger_entries (db w)
              (ledger_entries (db w)
                 ++ [mk_ledger_entry (next_uuid w) tid wid ty a b c (clock w)]))
           (undo w) (S (next_uuid w)) (clock w) (log w).
Proof.
  unfold insert_ledger_entry. intro H. run_in H.
  destruct (numeric_20_6 (sql_param amt)) as [a|e] eqn:Ha; [|discriminate].
  run_in H.
  destruct (numeric_20_6 (sql_param before)) as [b|e] eqn:Hb; [|discriminate].
  run_in H.
  destruct (numeric_20_6 (sql_param after)) as [c|e] eqn:Hc'; [|discriminate].
  run_in H. repeat step_in H.
  inversion H; subst. exists a, b, c. auto.
Qed.

Lemma update_transaction_completed_run id w :
  update_transaction_completed id w =
  (mk_world (with_transactions (db w) (map (complete_row id (clock w)) (transactions (db w))))
     (undo w) (next_uuid w) (clock w) (log w),
   Ok (filter (id_is id) (map (complete_row id (clock w)) (transactions (db w))))).
Proof. reflexivity. Qed.

Lemma fresh_id_rows id t ts :
  existsb (id_is id) ts = false ->
  map (complete_row id t) ts = ts /\ filter (id_is id) ts = [].
Proof.
  induction ts as [|r ts IH]; simpl; [auto|].
  intro H. apply orb_false_iff in H. destruct H as (Hr & Hts).
  destruct (IH Hts) as (Hm & Hf).
  unfold complete_row at 1. rewrite Hr, Hm, Hf. auto.
Qed.

Lemma fresh_key_rows k ts :
  existsb (key_is k) ts = false -> filter (key_is k) ts = [].
Proof.
  induction ts as [|r ts IH]; simpl; [auto|].
  intro H. apply orb_false_iff in H. destruct H as (Hr & Hts).
  rewrite Hr. auto.
Qed.

Lemma post_ok f p source target wl w1 r :
  uuid_in (walletId p) = Some (walletId p) ->
  uuid_in (systemWalletId p) = Some (systemWalletId p) ->
  post f p source target wl = (w1, Ok r) ->
  exists amt bd ad bc ac ws1 ws,
    numeric_20_6 (sql_param (amount p)) = Ok amt /\
    0 < amt /\
    numeric_20_6 (sql_param (parseFloat (w_balance source))) = Ok bd /\
    numeric_20_6 (sql_param (Js.sub (parseFloat (w_balance source)) (amount p))) = Ok ad /\
    numeric_20_6 (sql_param (parseFloat (w_balance target))) = Ok bc /\
    numeric_20_6 (sql_param (Js.add (parseFloat (w_balance target)) (amount p))) = Ok ac /\
    map_result (update_wallet_row Qminus (amount p) (w_id source) (clock wl))
      (wallets (db wl)) = Ok ws1 /\
    map_result (update_wallet_row Qplus (amount p) (w_id target) (clock wl)) ws1 = Ok ws /\
    existsb (id_is (next_uuid wl)) (transactions (db wl)) = false /\
    match truthy (idempotencyKey p) with
    | Some k => existsb (key_is k) (transactions (db wl)) = false
    | None => True
    end /\
    r = formatTransaction (star (completed_row f p (next_uuid wl) (clock wl) amt)) /\
    db w1 = mk_db ws
              (transactions (db wl) ++ [completed_row f p (next_uuid wl) (clock wl) amt])
              (ledger_entries (db wl)
                 ++ [debit_entry (next_uuid wl) (clock wl) source amt bd ad;
                     credit_entry (next_uuid wl) (clock wl) target amt bc ac])
              (idempotency_keys (db wl)) /\
    undo w1 = undo wl /\ log w1 = log wl /\ clock w1 = clock wl.
Proof.
  unfold post. intros Hcu Hcs H.
  apply bind_ok_inv in H. destruct H as (wa & txn & Hins & H).
  apply bind_ok_inv in H. destruct H as (wb & [] & Hdeb & H).
  apply bind_ok_inv in H. destruct H as (wc & [] & Hcre & H).
  apply bind_ok_inv in H. destruct H as (wd & rows & Hupd & H).
  apply insert_transaction_ok in Hins; [|exact Hcu|exact Hcs].
  destruct Hins as (amt & Hamt & Hpos & Hid & Hkey & -> & ->).
  unfold debitWallet in Hdeb. apply bind_ok_inv in Hdeb.
  destruct Hdeb as (wa' & [] & Hu1 & Hl1).
  apply update_wallets_balance_ok in Hu1. destruct Hu1 as (ws1 & Hws1 & ->).
  apply insert_ledger_entry_ok in Hl1.
  destruct Hl1 as (a1 & bd & ad & Ha1 & Hbd & Had & ->).
  unfold creditWallet in Hcre. apply bind_ok_inv in Hcre.
  destruct Hcre as (wb' & [] & Hu2 & Hl2).
  apply update_wallets_balance_ok in Hu2. destruct Hu2 as (ws & Hws & ->).
  apply insert_ledger_entry_ok in Hl2.
  destruct Hl2 as (a2 & bc & ac & Ha2 & Hbc & Hac & ->).
  rewrite update_transaction_completed_run in Hupd.
  cbn [db undo next_uuid clock log with_wallets with_transactions with_ledger_entries
       wallets transactions ledger_entries idempotency_keys t_id] in *.
  rewrite Hamt in Ha1, Ha2. inversion Ha1; inversion Ha2; subst a1 a2.
  inversion Hupd; subst wd rows. clear Hupd.
  destruct (fresh_id_rows (next_uuid wl) (clock wl) _ Hid) as (Hmap & Hfil).
  rewrite !map_app, !filter_app, !Hmap, !Hfil in H.
  cbn [map filter app] in H.
  unfold complete_row, id_is, set_completed in H.
  cbn [t_id t_type t_status t_user_wallet_id t_system_wallet_id t_amount t_reference_id
       t_idempotency_key t_description t_metadata t_created_at t_updated_at] in H.
  rewrite !Nat.eqb_refl in H.
  unfold format_first, ret in H. inversion H; subst w1 r. clear H.
  exists amt, bd, ad, bc, ac, ws1, ws.
  cbn [db undo log clock].
  repeat split; auto.
  unfold with_transactions, with_ledger_entries, with_wallets.
  cbn [wallets transactions ledger_entries idempotency_keys].
  now rewrite <- app_assoc.
Qed.

Section FreshRuns.

Variable ahead : Db -> Db.

(** A run that passes the duplicate check and returns: what it found and
    what it left in the store. *)
Lemma fresh_run f p w w' r :
  dup_miss p (db w) ->
  run_flow ahead f p w = (w', Ok r) ->
  exists source target amt bd ad bc ac ws,
    In source (wallets (ahead (db w))) /\ w_id source = source_id f p /\
    In target (wallets (ahead (db w))) /\ w_id target = target_id f p /\
    Js.ltb (parseFloat (w_balance source)) (amount p) = false /\
    numeric_20_6 (sql_param (amount p)) = Ok amt /\ 0 < amt /\
    numeric_20_6 (sql_param (parseFloat (w_balance source))) = Ok bd /\
    numeric_20_6 (sql_param (Js.sub (parseFloat (w_balance source)) (amount p))) = Ok ad /\
    numeric_20_6 (sql_param (parseFloat (w_balance target))) = Ok bc /\
    numeric_20_6 (sql_param (Js.add (parseFloat (w_balance target)) (amount p))) = Ok ac /\
    existsb (id_is (next_uuid w)) (transactions (ahead (db w))) = false /\
    match truthy (idempotencyKey p) with
    | Some k => existsb (key_is k) (transactions (ahead (db w))) = false
    | None => True
    end /\
    r = formatTransaction (star (completed_row f p (next_uuid w) (clock w) amt)) /\
    db w' = mk_db ws
              (transactions (ahead (db w))
                 ++ [completed_row f p (next_uuid w) (clock w) amt])
              (ledger_entries (ahead (db w))
                 ++ [debit_entry (next_uuid w) (clock w) source amt bd ad;
                     credit_entry (next_uuid w) (clock w) target amt bc ac])
              (idempotency_keys (ahead (db w))).
Proof.
  intros Hmiss Hrun.
  rewrite run_flow_run, withTransaction_run in Hrun.
  rewrite flow_fn_miss in Hrun by exact Hmiss. cbv zeta in Hrun.
  change (db (begun w)) with (db w) in Hrun.
  destruct (uuid_texts _ _); [|discriminate].
  destruct (validate f p _) as [e|[source target]] eqn:Hv; [discriminate|].
  destruct (post f p source target _) as [w1 [r1|e]] eqn:Hpost; [|discriminate].
  inversion Hrun; subst w' r1. clear Hrun.
  destruct (validate_inr_request _ _ _ _ _ _ _ Hv) as (Hcu & Hcs).
  apply validate_inr in Hv. destruct Hv as (Hfs & Hft & _ & _ & _ & Hlt).
  apply find_some in Hfs, Hft.
  destruct Hfs as (Hins & Hids), Hft as (Hint & Hidt).
  apply locked_rows_In in Hins, Hint. apply has_id_true in Hids, Hidt.
  destruct Hins as (? & ? & _ & _ & Hins & _), Hint as (? & ? & _ & _ & Hint & _).
  apply post_ok in Hpost; [|exact Hcu|exact Hcs].
  destruct Hpost as (amt & bd & ad & bc & ac & ws1 & ws & Hamt & Hpos & Hbd & Had
                     & Hbc & Hac & _ & _ & Hid & Hkey & Hr & Hdb & _).
  unfold locked_world, begun in Hid, Hkey, Hr, Hdb.
  cbn [db next_uuid clock] in Hid, Hkey, Hr, Hdb.
  exists source, target, amt, bd, ad, bc, ac, ws.
  unfold committed_world. cbn [db].
  repeat split; try tauto; auto.
Qed.

(** A run that posts was asked with the two ids as the server prints
    them. *)
Lemma fresh_run_texts f p w w' r :
  dup_miss p (db w) ->
  run_flow ahead f p w = (w', Ok r) ->
  uuid_in (walletId p) = Some (walletId p) /\
  uuid_in (systemWalletId p) = Some (systemWalletId p).
Proof.
  intros Hmiss Hrun.
  rewrite run_flow_run, withTransaction_run in Hrun.
  rewrite flow_fn_miss in Hrun by exact Hmiss. cbv zeta in Hrun.
  destruct (uuid_texts _ _); [|discriminate].
  destruct (validate f p _) as [e|[source target]] eqn:Hv; [discriminate|].
  exact (validate_inr_request _ _ _ _ _ _ _ Hv).
Qed.

Lemma fresh_run_printed f p w w' r :
  dup_miss p (db w) ->
  run_flow ahead f p w = (w', Ok r) ->
  printed (source_id f p) = true /\ printed (target_id f p) = true.
Proof.
  intros Hmiss Hrun.
  destruct (fresh_run_texts f p w w' r Hmiss Hrun) as (Hcu & Hcs).
  rewrite !printed_true. destruct f; cbn [source_id target_id]; auto.
Qed.

(** The function handed to the runner, once the duplicate check has found
    nothing: a text that is no uuid fails the lock statement, a fault of the
    validation ends the run after the locks, and otherwise the flow posts. *)
Lemma flow_fn_cases f p w :
  dup_miss p (db w) ->
  (uuid_texts (walletId p) (systemWalletId p) = false /\
   flow_fn ahead f p (begun w) = (begun w, Throw no_uuid)) \/
  (uuid_texts (walletId p) (systemWalletId p) = true /\
   exists e,
     validate f p (locked_rows (walletId p) (systemWalletId p) (ahead (db w))) = inl e /\
     flow_fn ahead f p (begun w)
     = (locked_world ahead (walletId p) (systemWalletId p) (begun w), Throw e)) \/
  (uuid_texts (walletId p) (systemWalletId p) = true /\
   exists source target,
     validate f p (locked_rows (walletId p) (systemWalletId p) (ahead (db w)))
     = inr (source, target) /\
     flow_fn ahead f p (begun w)
     = post f p source target
         (locked_world ahead (walletId p) (systemWalletId p) (begun w))).
Proof.
  intro Hmiss. rewrite flow_fn_miss by exact Hmiss. cbv zeta.
  change (db (begun w)) with (db w).
  destruct (uuid_texts _ _); [|now left]. right.
  destruct (validate f p _) as [e|[source target]]; [left|right]; eauto.
Qed.

End FreshRuns.

(** ** Double entry *)

Lemma no_references_to_fresh_id id d :
  ledger_fkey d -> existsb (id_is id) (transactions d) = false ->
  filter (references id) (ledger_entries d) = [].
Proof.
  unfold ledger_fkey. intros Hfk Hfresh.
  induction (ledger_entries d) as [|e es IH]; [reflexivity|].
  inversion Hfk as [|? ? He Hes]; subst. cbn [filter].
  destruct (references id e) eqn:Href; [|auto].
  unfold references in Href. apply Nat.eqb_eq in Href. congruence.
Qed.

(** X25.  A flow that passes the duplicate check and commits leaves one
    completed transaction row T and exactly two ledger entries that
    reference it: a debit on the source wallet and a credit on the
    target wallet, both with amount T.amount, so their signed amounts sum to
    zero.  The debit records the source balance parsed to a binary64 number
    and the binary64 difference of that number and the amount; the credit
    records the parsed target balance and the binary64 sum; each is rounded
    to six decimals when stored. *)
Theorem committed_flow_posts_one_debit_and_one_credit ahead f p w w' r :
  dup_miss p (db w) ->
  ledger_fkey (ahead (db w)) ->
  run_flow ahead f p w = (w', Ok r) ->
  exists T d c source target,
    In T (transactions (db w')) /\ t_id T = f_id r /\ t_status T = completed /\
    filter (references (f_id r)) (ledger_entries (db w')) = [d; c] /\
    In source (wallets (ahead (db w))) /\ w_id source = source_id f p /\
    In target (wallets (ahead (db w))) /\ w_id target = target_id f p /\
    le_entry_type d = debit /\ le_wallet_id d = source_id f p /\
    le_entry_type c = credit /\ le_wallet_id c = target_id f p /\
    le_amount d = t_amount T /\ le_amount c = t_amount T /\
    signed_amount d + signed_amount c = 0 /\
    numeric_20_6 (sql_param (parseFloat (w_balance source))) = Ok (le_balance_before d) /\
    numeric_20_6 (sql_param (Js.sub (parseFloat (w_balance source)) (amount p)))
      = Ok (le_balance_after d) /\
    numeric_20_6 (sql_param (parseFloat (w_balance target))) = Ok (le_balance_before c) /\
    numeric_20_6 (sql_param (Js.add (parseFloat (w_balance target)) (amount p)))
      = Ok (le_balance_after c).
Proof.
  intros Hmiss Hfk Hrun.
  destruct (fresh_run ahead f p w w' r Hmiss Hrun)
    as (source & target & amt & bd & ad & bc & ac & ws & Hins & Hids & Hint & Hidt & _
        & Hamt & Hpos & Hbd & Had & Hbc & Hac & Hid & _ & -> & Hdb).
  exists (completed_row f p (next_uuid w) (clock w) amt),
         (debit_entry (next_uuid w) (clock w) source amt bd ad),
         (credit_entry (next_uuid w) (clock w) target amt bc ac),
         source, target.
  rewrite Hdb. cbn [transactions ledger_entries formatTransaction f_id star r_transaction
                    completed_row t_id t_status t_amount].
  split; [apply in_or_app; right; now left|].
  split; [reflexivity|]. split; [reflexivity|].
  split.
  { rewrite filter_app, (no_references_to_fresh_id _ _ Hfk Hid).
    cbn [filter app]. unfold references, debit_entry, credit_entry.
    cbn [le_transaction_id]. now rewrite Nat.eqb_refl. }
  unfold signed_amount.
  cbn [debit_entry credit_entry le_entry_type le_wallet_id le_amount le_balance_before
       le_balance_after].
  repeat split; auto. lia.
Qed.

(** ** C5: what a fresh success returns *)

Lemma controller_ok env ahead f req w w' r :
  run_flow ahead f (with_key (req_body req) (req_idempotency_key req)) w = (w', Ok r) ->
  controller env ahead f req w = (w', mk_response 201 false (BodySuccess r)).
Proof. intro H. unfold controller. now rewrite H. Qed.

Lemma controller_throw env ahead f req w w' e :
  run_flow ahead f (with_key (req_body req) (req_idempotency_key req)) w = (w', Throw e) ->
  controller env ahead f req w = (w', errorHandler env e req).
Proof. intro H. unfold controller. now rewrite H. Qed.

(** C5, as the code has it.  On the fresh success path a flow returns the
    formatted view of the completed transaction row, with status
    'completed' and with [ledgerEntries] undefined, and the endpoint echoes
    it with status 201.  The two postings are in the store; the read view
    [getTransaction] is what returns them. *)
Theorem fresh_success_echoes_completed_transaction env ahead f req w w' r :
  dup_miss (with_key (req_body req) (req_idempotency_key req)) (db w) ->
  ledger_fkey (ahead (db w)) ->
  run_flow ahead f (with_key (req_body req) (req_idempotency_key req)) w = (w', Ok r) ->
  controller env ahead f req w = (w', mk_response 201 false (BodySuccess r)) /\
  f_status r = completed /\
  f_type r = flow_type f /\
  f_ledgerEntries r = None /\
  exists T d c,
    In T (transactions (db w')) /\ r = formatTransaction (star T) /\
    filter (references (f_id r)) (ledger_entries (db w')) = [d; c] /\
    exists r',
      getTransaction (f_id r) w' = (w', Ok r') /\
      f_ledgerEntries r' = Some [Some d; Some c].
Proof.
  intros Hmiss Hfk Hrun.
  split; [now apply controller_ok|].
  destruct (fresh_run ahead f _ w w' r Hmiss Hrun)
    as (source & target & amt & bd & ad & bc & ac & ws & _ & _ & _ & _ & _
        & _ & _ & _ & _ & _ & _ & Hid & _ & -> & Hdb).
  set (p := with_key (req_body req) (req_idempotency_key req)) in *.
  set (T := completed_row f p (next_uuid w) (clock w) amt) in *.
  set (d := debit_entry (next_uuid w) (clock w) source amt bd ad) in *.
  set (c := credit_entry (next_uuid w) (clock w) target amt bc ac) in *.
  repeat split; try reflexivity.
  assert (Hrefs : filter (references (next_uuid w)) (ledger_entries (db w')) = [d; c]).
  { rewrite Hdb. cbn [ledger_entries].
    rewrite filter_app, (no_references_to_fresh_id _ _ Hfk Hid).
    cbn [filter app]. unfold references, d, c, debit_entry, credit_entry.
    cbn [le_transaction_id]. now rewrite Nat.eqb_refl. }
  exists T, d, c.
  split; [rewrite Hdb; cbn [transactions]; apply in_or_app; right; now left|].
  split; [reflexivity|]. split; [exact Hrefs|].
  cbn [formatTransaction f_id star r_transaction T completed_row t_id].
  unfold getTransaction, bind, get_db, ret, json_agg_entries.
  rewrite Hrefs.
  assert (Hts : filter (id_is (next_uuid w)) (transactions (db w')) = [T]).
  { rewrite Hdb. cbn [transactions].
    rewrite filter_app. destruct (fresh_id_rows (next_uuid w) (clock w) _ Hid) as (_ & ->).
    cbn [filter app]. unfold id_is, T, completed_row. cbn [t_id].
    now rewrite Nat.eqb_refl. }
  rewrite Hts. eexists. split; [reflexivity|].
  cbn [formatTransaction f_ledgerEntries r_ledger_entries fold_left insert_by_created_at].
  unfold d, c, debit_entry, credit_entry. cbn [le_created_at].
  now rewrite Z.ltb_irrefl.
Qed.

(** ** C3 and C10: the in-transaction duplicate check *)

Lemma dup_row_pkey f k d row :
  transactions_pkey d ->
  hd_error (filter (key_is k) (transactions d)) = Some row ->
  dup_row f k d = Some row.
Proof.
  unfold transactions_pkey, dup_row. intros Hpk Hhd.
  destruct (filter (key_is k) (transactions d)) as [|r rest] eqn:Hf; [discriminate|].
  cbn [hd_error] in Hhd. inversion Hhd; subst r. clear Hhd.
  destruct f; try reflexivity.
  assert (Hin : In row (transactions d)).
  { assert (H : In row (filter (key_is k) (transactions d))) by (rewrite Hf; now left).
    now apply filter_In in H. }
  assert (Hin' : In row (filter (id_is (t_id row)) (transactions d))).
  { apply filter_In. split; [exact Hin|]. unfold id_is. apply Nat.eqb_refl. }
  destruct (filter (id_is (t_id row)) (transactions d)) as [|r' rest'] eqn:Hf';
    [destruct Hin'|].
  cbn [hd_error]. f_equal.
  assert (H : In r' (filter (id_is (t_id row)) (transactions d))) by (rewrite Hf'; now left).
  apply filter_In in H. destruct H as (Hr' & Hid). unfold id_is in Hid.
  apply Nat.eqb_eq in Hid. eapply (pkey_inj t_id); eauto.
Qed.

Lemma run_flow_hit ahead f p w k row :
  truthy (idempotencyKey p) = Some k ->
  dup_row f k (db w) = Some row ->
  run_flow ahead f p w = (committed_world (begun w), Ok (formatTransaction (star row))).
Proof.
  intros Hk Hrow.
  rewrite run_flow_run, withTransaction_run.
  now rewrite (flow_fn_hit ahead f p (begun w) k row Hk Hrow).
Qed.

Lemma replay_hits ahead f p k row (n : nat) : forall w,
  truthy (idempotencyKey p) = Some k ->
  dup_row f k (db w) = Some row ->
  db (fst (replay ahead f p n w)) = db w /\
  snd (replay ahead f p n w) = repeat (Ok (formatTransaction (star row))) n.
Proof.
  induction n as [|n IH]; intros w Hk Hrow; cbn [replay repeat]; [auto|].
  rewrite (run_flow_hit ahead f p w k row Hk Hrow).
  destruct (IH (committed_world (begun w)) Hk Hrow) as (Hdb & Hrs).
  destruct (replay ahead f p n (committed_world (begun w))) as [w2 rs].
  cbn [fst snd] in *. split; [exact Hdb|now rewrite Hrs].
Qed.

(** C3.  A flow invoked with a key that already identifies a transaction row
    touches nothing and returns that row formatted.  Hence, once a request
    with a key has succeeded, every replay of it returns the same transaction,
    the store (so every wallet balance) stays as the first run left it, and
    exactly one transaction row carries the key. *)
Theorem replay_returns_stored_transaction ahead f p k :
  truthy (idempotencyKey p) = Some k ->
  (forall w row,
      transactions_pkey (db w) ->
      hd_error (filter (key_is k) (transactions (db w))) = Some row ->
      fst (flow_fn ahead f p (begun w)) = begun w /\
      exists w', run_flow ahead f p w = (w', Ok (formatTransaction (star row))) /\
                 db w' = db w) /\
  (forall w w1 r,
      key_unique k (db w) ->
      run_flow ahead f p w = (w1, Ok r) ->
      List.length (filter (key_is k) (transactions (db w1))) = 1%nat /\
      forall n,
        db (fst (replay ahead f p n w1)) = db w1 /\
        snd (replay ahead f p n w1) = repeat (Ok r) n).
Proof.
  intro Hk. split.
  - intros w row Hpk Hhd.
    pose proof (dup_row_pkey f k (db w) row Hpk Hhd) as Hrow.
    split.
    + now rewrite (flow_fn_hit ahead f p (begun w) k row Hk Hrow).
    + eexists. split; [apply (run_flow_hit ahead f p w k row Hk Hrow)|reflexivity].
  - intros w w1 r Huniq Hrun.
    destruct (hit_or_miss f p (db w)) as [(k' & row & Hk' & Hrow)|Hmiss].
    + rewrite Hk in Hk'. inversion Hk'; subst k'. clear Hk'.
      rewrite (run_flow_hit ahead f p w k row Hk Hrow) in Hrun.
      inversion Hrun; subst w1 r. clear Hrun.
      change (db (committed_world (begun w))) with (db w).
      split.
      * unfold key_unique in Huniq. unfold dup_row in Hrow.
        destruct (filter (key_is k) (transactions (db w))) as [|x [|y rest]];
          [discriminate|reflexivity|cbn [List.length] in Huniq; lia].
      * intro n. now apply (replay_hits ahead f p k row n (committed_world (begun w))).
    + destruct (fresh_run ahead f p w w1 r Hmiss Hrun)
        as (source & target & amt & bd & ad & bc & ac & ws & _ & _ & _ & _ & _
            & _ & _ & _ & _ & _ & _ & Hid & Hkey & -> & Hdb).
      rewrite Hk in Hkey.
      assert (Hf : filter (key_is k) (transactions (db w1))
                   = [completed_row f p (next_uuid w) (clock w) amt]).
      { rewrite Hdb. cbn [transactions]. rewrite filter_app, (fresh_key_rows _ _ Hkey).
        cbn [filter app]. unfold key_is, completed_row. cbn [t_idempotency_key].
        now rewrite Hk, String.eqb_refl. }
      split; [now rewrite Hf|].
      intro n. apply (replay_hits ahead f p k _ n w1 Hk).
      unfold dup_row. rewrite Hf. destruct f; try reflexivity.
      rewrite Hdb. cbn [transactions completed_row t_id].
      rewrite filter_app. destruct (fresh_id_rows (next_uuid w) (clock w) _ Hid) as (_ & ->).
      cbn [filter app]. unfold id_is. cbn [t_id]. now rewrite Nat.eqb_refl.
Qed.

(** C10.  The duplicate check of every flow matches on the key alone: when
    any transaction row carries the request's key, whatever its kind,
    wallets, amount or status, the endpoint answers 201 with that row
    formatted; no wallet is looked up or locked and nothing is written. *)
Theorem duplicate_check_matches_on_key_alone env ahead f req w k row :
  truthy (req_idempotency_key req) = Some k ->
  transactions_pkey (db w) ->
  hd_error (filter (key_is k) (transactions (db w))) = Some row ->
  exists w',
    controller env ahead f req w
      = (w', mk_response 201 false (BodySuccess (formatTransaction (star row)))) /\
    db w' = db w /\
    next_uuid w' = next_uuid w /\
    log w' = (log w ++ [EConnect; EBegin; ECommit; ERelease])%list /\
    acquired (run_flow ahead f (with_key (req_body req) (req_idempotency_key req))) w = [].
Proof.
  intros Hk Hpk Hhd.
  pose proof (dup_row_pkey f k (db w) row Hpk Hhd) as Hrow.
  pose proof (run_flow_hit ahead f (with_key (req_body req) (req_idempotency_key req))
                w k row Hk Hrow) as Hrun.
  exists (committed_world (begun w)).
  split; [now apply controller_ok|].
  split; [reflexivity|]. split; [reflexivity|].
  split.
  - unfold committed_world, begun. cbn [log]. now rewrite <- !app_assoc.
  - unfold acquired. rewrite Hrun. cbn [fst]. unfold committed_world, begun. cbn [log].
    rewrite <- !app_assoc. now rewrite skipn_length_app.
Qed.

(** ** C4: a key that a rival committed during the lock wait *)

Lemma insert_transaction_duplicate_key ty u s amt ref k desc meta w a :
  uuid_in u = Some u -> uuid_in s = Some s ->
  numeric_20_6 (sql_param amt) = Ok a ->
  0 < a ->
  fits 255 ref && fits 255 (Some k) = true ->
  u <> s ->
  existsb (id_is (next_uuid w)) (transactions (db w)) = false ->
  existsb (key_is k) (transactions (db w)) = true ->
  insert_transaction ty u s amt ref (Some k) desc meta w =
  (mk_world (db w) (undo w) (S (next_uuid w)) (clock w) (log w),
   Throw (DatabaseError unique_violation "transactions_idempotency_key_key" key_exists)).
Proof.
  intros Hu Hs Ha Hpos Hfits Hne Hid Hkey.
  apply Z.ltb_lt in Hpos. apply String.eqb_neq in Hne.
  unfold insert_transaction, uuid_param. rewrite Hu, Hs.
  run. rewrite Ha. run. rewrite Hfits. run. rewrite Hpos. run. rewrite Hne. run.
  rewrite Hid. run. rewrite Hkey. reflexivity.
Qed.

(** C4, as the code has it.  When the duplicate check of a flow misses and a
    rival commits a transaction under the same key while the flow waits for
    the row locks, the insert of the pending row raises a unique violation
    on [idempotency_key].  No flow catches it: the runner rolls back, the
    fault reaches the error handler, and the endpoint answers 409 CONFLICT
    'Resource already exists'; the winner's transaction is not returned. *)
Theorem lost_race_answers_conflict env ahead f req w k source target amt :
  truthy (req_idempotency_key req) = Some k ->
  filter (key_is k) (transactions (db w)) = [] ->
  existsb (key_is k) (transactions (ahead (db w))) = true ->
  validate f (with_key (req_body req) (req_idempotency_key req))
    (locked_rows (walletId (req_body req)) (systemWalletId (req_body req)) (ahead (db w)))
    = inr (source, target) ->
  numeric_20_6 (sql_param (amount (req_body req))) = Ok amt ->
  0 < amt ->
  fits 255 (flow_reference f (req_body req)) && fits 255 (Some k) = true ->
  walletId (req_body req) <> systemWalletId (req_body req) ->
  existsb (id_is (next_uuid w)) (transactions (ahead (db w))) = false ->
  exists w',
    run_flow ahead f (with_key (req_body req) (req_idempotency_key req)) w
      = (w', Throw (DatabaseError unique_violation "transactions_idempotency_key_key"
                      key_exists)) /\
    controller env ahead f req w
      = (w', mk_response 409 false
               (BodyError "CONFLICT" (Msg "Resource already exists") None false
                  (requestId_of req))) /\
    db w' = ahead (db w).
Proof.
  intros Hk Hmiss Hwon Hv Hamt Hpos Hfits Hne Hid.
  set (p := with_key (req_body req) (req_idempotency_key req)) in *.
  assert (Hdm : dup_miss p (db w)).
  { unfold dup_miss. change (idempotencyKey p) with (req_idempotency_key req).
    now rewrite Hk. }
  pose proof (run_flow_accepted ahead f p w source target Hdm Hv) as Hfn.
  destruct (validate_inr_request _ _ _ _ _ _ _ Hv) as (Hcu & Hcs).
  assert (Hpost : post f p source target
                    (locked_world ahead (walletId p) (systemWalletId p) (begun w))
                  = (mk_world (ahead (db w)) (ahead (db w)) (S (next_uuid w)) (clock w)
                       (log (locked_world ahead (walletId p) (systemWalletId p) (begun w))),
                     Throw (DatabaseError unique_violation
                              "transactions_idempotency_key_key" key_exists))).
  { unfold post. apply bind_throw.
    change (truthy (idempotencyKey p)) with (truthy (req_idempotency_key req)).
    rewrite Hk.
    rewrite (insert_transaction_duplicate_key _ _ _ _ _ _ _ _ _ amt); auto. }
  rewrite Hpost in Hfn.
  pose proof (run_flow_throw ahead f p w _ _ Hfn) as Hrun.
  eexists. split; [exact Hrun|].
  split; [|reflexivity].
  rewrite (controller_throw env ahead f req w _ _ Hrun). reflexivity.
Qed.

(** ** C9: the idempotency boundary *)

Lemma same_key_path_true key path r :
  same_key_path key path r = true <-> (ik_key r, ik_request_path r) = (key, path).
Proof.
  unfold same_key_path. rewrite andb_true_iff, !String.eqb_eq.
  split; [intros (-> & ->); reflexivity|intro H; inversion H; auto].
Qed.

Lemma filter_unique {A B} (key : A -> B) (P : A -> bool) (l : list A) (x : A) :
  NoDup (map key l) -> In x l -> P x = true ->
  (forall y, P y = true -> key y = key x) ->
  filter P l = [x].
Proof.
  intros Hnd Hin Hx Hkey.
  induction l as [|z l IH]; [destruct Hin|].
  inversion Hnd as [|? ? Hnot Hnd']; subst. cbn [filter].
  destruct Hin as [->|Hin].
  - rewrite Hx. f_equal.
    destruct (filter P l) as [|y rest] eqn:Hf; [reflexivity|].
    assert (Hy : In y (filter P l)) by (rewrite Hf; now left).
    apply filter_In in Hy. destruct Hy as (Hy & HPy).
    exfalso. apply Hnot. rewrite <- (Hkey y HPy). now apply in_map.
  - destruct (P z) eqn:Hz.
    + exfalso. apply Hnot. rewrite (Hkey z Hz). now apply in_map.
    + auto.
Qed.

Lemma store_response_rows env key path status body w :
  exists extra,
    idempotency_keys (db (store_response env key path status body w))
      = (idempotency_keys (db w) ++ extra)%list /\
    (extra = [] \/
     extra = [mk_idempotency_key key path status body
                (clock w + seconds_of_hours (IDEMPOTENCY_TTL_HOURS env))]) /\
    (existsb (same_key_path key path) (idempotency_keys (db w)) = true ->
     store_response env key path status body w = w).
Proof.
  unfold store_response.
  destruct (negb _).
  - exists []. rewrite app_nil_r. auto.
  - destruct (existsb _ _).
    + exists []. rewrite app_nil_r. auto.
    + eexists. split; [reflexivity|]. split; [now right|discriminate].
Qed.

Lemma store_response_stores env key path status body w :
  (String.length key <= 255)%nat -> (String.length path <= 500)%nat ->
  existsb (same_key_path key path) (idempotency_keys (db w)) = false ->
  store_response env key path status body w
  = autocommit
      (fun d => with_idempotency_keys d
                  (idempotency_keys d
                     ++ [mk_idempotency_key key path status body
                           (clock w + seconds_of_hours (IDEMPOTENCY_TTL_HOURS env))]))
      w.
Proof.
  intros Hk Hp He. unfold store_response.
  apply Nat.leb_le in Hk, Hp. now rewrite Hk, Hp, He.
Qed.

Lemma store_response_too_long env key path status body w :
  (255 < String.length key)%nat \/ (500 < String.length path)%nat ->
  store_response env key path status body w = w.
Proof.
  intro H. unfold store_response.
  destruct (Nat.leb (String.length key) 255) eqn:Hk; [|reflexivity].
  destruct (Nat.leb (String.length path) 500) eqn:Hp; [|reflexivity].
  apply Nat.leb_le in Hk, Hp. lia.
Qed.

(** C9.  For a request carrying a non-empty Idempotency-Key: when the store
    holds a record for (key, path) that has not expired, the boundary answers
    with the cached status and body, marks the response as replayed, and does
    not run the handler; on a miss it runs the handler and passes its
    response on.  A response with status 500 or above is not stored.  A
    response with a status below 500 is stored, with the status, the body and
    an expiry of now plus the TTL, as one new row and nothing else, when the
    table has no row for (key, path) and key and path fit their columns; an
    existing (key, path) row is left as it is, and an insert that fails on
    the length of key or path is only logged. *)
Theorem idempotency_boundary env req next w key :
  truthy (req_idempotency_key req) = Some key ->
  (forall cached,
      idempotency_keys_unique (db w) ->
      In cached (idempotency_keys (db w)) ->
      ik_key cached = key -> ik_request_path cached = req_path req ->
      clock w < ik_expires_at cached ->
      idempotency env req next w
        = (w, mk_response (ik_response_status cached) true (ik_response_body cached))) /\
  (select_cached key (req_path req) w = [] ->
   snd (idempotency env req next w) = snd (next w) /\
   ((500 <= res_statusCode (snd (next w)))%nat ->
    fst (idempotency env req next w) = fst (next w)) /\
   (existsb (same_key_path key (req_path req)) (idempotency_keys (db (fst (next w)))) = true ->
    fst (idempotency env req next w) = fst (next w)) /\
   ((res_statusCode (snd (next w)) < 500)%nat ->
    (String.length key <= 255)%nat -> (String.length (req_path req) <= 500)%nat ->
    existsb (same_key_path key (req_path req)) (idempotency_keys (db (fst (next w)))) = false ->
    idempotency_keys (db (fst (idempotency env req next w)))
      = (idempotency_keys (db (fst (next w)))
           ++ [mk_idempotency_key key (req_path req) (res_statusCode (snd (next w)))
                 (res_body (snd (next w)))
                 (clock (fst (next w)) + seconds_of_hours (IDEMPOTENCY_TTL_HOURS env))])%list /\
    wallets (db (fst (idempotency env req next w))) = wallets (db (fst (next w))) /\
    transactions (db (fst (idempotency env req next w)))
      = transactions (db (fst (next w))) /\
    ledger_entries (db (fst (idempotency env req next w)))
      = ledger_entries (db (fst (next w)))) /\
   ((255 < String.length key)%nat \/ (500 < String.length (req_path req))%nat ->
    fst (idempotency env req next w) = fst (next w)) /\
   (exists extra,
      idempotency_keys (db (fst (idempotency env req next w)))
        = (idempotency_keys (db (fst (next w))) ++ extra)%list /\
      (extra = [] \/
       ((res_statusCode (snd (next w)) < 500)%nat /\
        extra = [mk_idempotency_key key (req_path req) (res_statusCode (snd (next w)))
                   (res_body (snd (next w)))
                   (clock (fst (next w))
                    + seconds_of_hours (IDEMPOTENCY_TTL_HOURS env))]))) /\
   (never_5xx (db (fst (next w))) ->
    never_5xx (db (fst (idempotency env req next w))))).
Proof.
  intro Hk. split.
  - intros cached Huniq Hin Hkey Hpath Hlive.
    unfold idempotency. rewrite Hk.
    assert (Hsel : select_cached key (req_path req) w = [cached]).
    { unfold select_cached.
      apply (filter_unique (fun r => (ik_key r, ik_request_path r))); auto.
      - apply andb_true_iff. split.
        + apply same_key_path_true. now rewrite Hkey, Hpath.
        + now apply Z.ltb_lt.
      - intros y Hy. apply andb_true_iff in Hy. destruct Hy as (Hy & _).
        apply same_key_path_true in Hy. now rewrite Hy, Hkey, Hpath. }
    now rewrite Hsel.
  - intro Hmiss. unfold idempotency. rewrite Hk, Hmiss.
    destruct (next w) as [w1 res]. cbn [fst snd].
    destruct (Nat.ltb (res_statusCode res) 500) eqn:Hlt; cbn [fst snd].
    + apply Nat.ltb_lt in Hlt.
      destruct (store_response_rows env key (req_path req) (res_statusCode res)
                  (res_body res) w1) as (extra & Hrows & Hextra & Hconflict).
      split; [reflexivity|]. split; [lia|]. split; [exact Hconflict|].
      split.
      { intros _ Hlk Hlp Hnone.
        rewrite (store_response_stores env key (req_path req) _ _ w1 Hlk Hlp Hnone).
        repeat split. }
      split; [apply store_response_too_long|].
      split.
      * exists extra. split; [exact Hrows|]. destruct Hextra as [->| ->]; auto.
      * unfold never_5xx. rewrite Hrows. intro H5. apply Forall_app. split; [exact H5|].
        destruct Hextra as [->| ->]; [constructor|].
        constructor; [exact Hlt|constructor].
    + apply Nat.ltb_ge in Hlt.
      split; [reflexivity|]. split; [reflexivity|]. split; [reflexivity|].
      split; [intros; lia|]. split; [reflexivity|].
      split; [|auto].
      exists []. rewrite app_nil_r. auto.
Qed.

Lemma nodupb_sound {A} (eqb : A -> A -> bool) (l : list A) :
  (forall x y, eqb x y = true <-> x = y) -> nodupb eqb l = true -> NoDup l.
Proof.
  intro Heq. induction l as [|x l IH]; cbn [nodupb]; intro H; constructor.
  - apply andb_true_iff in H. destruct H as (H & _). apply negb_true_iff in H.
    intro Hin. assert (Hex : existsb (eqb x) l = true).
    { apply existsb_exists. exists x. split; [exact Hin|]. now apply Heq. }
    congruence.
  - apply andb_true_iff in H. destruct H as (_ & H). auto.
Defined.

Lemma seed_wallets_pkey (t a : numeric) (ts : list transaction_row)
    (es : list ledger_entry_row) (ks : list idempotency_key_row) :
  wallets_pkey (mk_db (seed_wallets t a) ts es ks).
Proof.
  unfold wallets_pkey. apply (nodupb_sound String.eqb); [exact String.eqb_eq|].
  vm_compute. reflexivity.
Defined.

(** ** Double entry at scenario 1, and C1: a snapshot that is not the balance *)

Lemma topup_100_commits :
  topup no_rivals topup_100 (world_of seed_db)
  = (after_topup_100, Ok (formatTransaction (star topup_100_row))).
Proof. vm_compute. reflexivity. Defined.

Lemma committed_flow_posts_witness :
  (dup_miss topup_100 (db (world_of seed_db)) /\
   ledger_fkey (no_rivals (db (world_of seed_db))) /\
   run_flow no_rivals Topup topup_100 (world_of seed_db)
   = (after_topup_100, Ok (formatTransaction (star topup_100_row)))) /\
  exists d c,
    filter (references 0) (ledger_entries (db after_topup_100)) = [d; c] /\
    le_entry_type d = debit /\ le_wallet_id d = treasury /\
    le_entry_type c = credit /\ le_wallet_id c = alice /\
    signed_amount d + signed_amount c = 0.
Proof.
  assert (H1 : dup_miss topup_100 (db (world_of seed_db))) by (vm_compute; reflexivity).
  assert (H2 : ledger_fkey (no_rivals (db (world_of seed_db)))) by constructor.
  pose proof topup_100_commits as H3.
  split; [auto|].
  destruct (committed_flow_posts_one_debit_and_one_credit
              no_rivals Topup topup_100 (world_of seed_db) after_topup_100 _ H1 H2 H3)
    as (T & d & c & source & target & _ & _ & _ & Hf & _ & _ & _ & _ & Hd & Hwd & Hc & Hwc
        & _ & _ & Hsum & _).
  exists d, c. auto 10.
Defined.

(** Scenario 1 records the snapshots of the spec: treasury 1,000,000 to
    999,900 and alice 500 to 600. *)
Example scenario_1_snapshots :
  map (fun e => (le_entry_type e, le_balance_before e, le_balance_after e))
      (ledger_entries (db after_topup_100))
  = [(debit, units 1000000, units 999900); (credit, units 500, units 600)].
Proof. vm_compute. reflexivity. Qed.

(** C1.  With 10^13 units in the treasury, a top-up of 0.001 commits; the
    debit entry records balance_before 10000000000000.000000, amount 0.001000
    and balance_after 9999999999999.998000, which is not balance_before -
    amount, while the UPDATE of the same [debitWallet] leaves
    9999999999999.999000 in the wallet row: the snapshot is computed with
    binary64 numbers, the balance with decimals. *)
Lemma snapshot_is_not_before_minus_amount :
  exists w' r d,
    topup no_rivals topup_thousandth (world_of rich_treasury_db) = (w', Ok r) /\
    hd_error (filter (references (f_id r)) (ledger_entries (db w'))) = Some d /\
    le_entry_type d = debit /\
    le_balance_before d = 10000000000000000000 /\
    le_amount d = 1000 /\
    le_balance_after d = 9999999999999998000 /\
    le_balance_after d <> le_balance_before d - le_amount d /\
    option_map w_balance (wallet_of (db w') treasury) = Some 9999999999999999000.
Proof.
  eexists. eexists. eexists.
  split; [vm_compute; reflexivity|].
  split; [vm_compute; reflexivity|].
  cbn [le_entry_type le_balance_before le_amount le_balance_after].
  repeat split; try (vm_compute; reflexivity).
  intro H. discriminate H.
Qed.

(** ** C2 where the flow has written before it fails *)

Lemma runner_rolls_back_witness :
  (exists w1 e,
      spend_fn no_rivals spend_ten_trillion (begun (world_of rich_alice_db))
      = (w1, Throw e) /\
      List.length (transactions (db w1)) = 1%nat) /\
  exists w' e,
    run_flow no_rivals Spend spend_ten_trillion (world_of rich_alice_db) = (w', Throw e) /\
    wallets (db w') = wallets rich_alice_db /\
    transactions (db w') = [] /\
    ledger_entries (db w') = [].
Proof.
  split.
  - eexists. eexists. split; vm_compute; reflexivity.
  - destruct runner_commits_or_rolls_back as (_ & _ & _ & H & _).
    eexists. eexists.
    assert (Hrun : run_flow (fun d => d) Spend spend_ten_trillion (world_of rich_alice_db)
                   = (fst (spend no_rivals spend_ten_trillion (world_of rich_alice_db)),
                      Throw (DatabaseError check_violation "wallets_balance_non_negative"
                               failing_row)))
      by (vm_compute; reflexivity).
    split; [exact Hrun|]. exact (H _ _ _ _ _ Hrun).
Defined.

(** ** C3 at scenario 2 *)

Lemma seed_transactions_pkey_after_topup : transactions_pkey (db after_topup_100).
Proof.
  unfold transactions_pkey. apply (nodupb_sound Nat.eqb); [exact Nat.eqb_eq|].
  vm_compute. reflexivity.
Defined.

Lemma replay_witness :
  (truthy (idempotencyKey topup_100) = Some "k1" /\
   transactions_pkey (db after_topup_100) /\
   hd_error (filter (key_is "k1") (transactions (db after_topup_100))) = Some topup_100_row /\
   key_unique "k1" (db (world_of seed_db)) /\
   run_flow no_rivals Topup topup_100 (world_of seed_db)
   = (after_topup_100, Ok (formatTransaction (star topup_100_row)))) /\
  (exists w',
      run_flow no_rivals Topup topup_100 after_topup_100
      = (w', Ok (formatTransaction (star topup_100_row))) /\
      db w' = db after_topup_100) /\
  List.length (filter (key_is "k1") (transactions (db after_topup_100))) = 1%nat /\
  db (fst (replay no_rivals Topup topup_100 3 after_topup_100)) = db after_topup_100 /\
  snd (replay no_rivals Topup topup_100 3 after_topup_100)
  = repeat (Ok (formatTransaction (star topup_100_row))) 3.
Proof.
  assert (H1 : truthy (idempotencyKey topup_100) = Some "k1") by reflexivity.
  pose proof seed_transactions_pkey_after_topup as H2.
  assert (H3 : hd_error (filter (key_is "k1") (transactions (db after_topup_100)))
               = Some topup_100_row) by (vm_compute; reflexivity).
  assert (H4 : key_unique "k1" (db (world_of seed_db))) by (vm_compute; lia).
  pose proof topup_100_commits as H5.
  destruct (replay_returns_stored_transaction no_rivals Topup topup_100 "k1" H1)
    as (Hhit & Hreplay).
  destruct (Hhit after_topup_100 topup_100_row H2 H3) as (_ & Hrun).
  destruct (Hreplay (world_of seed_db) after_topup_100 _ H4 H5) as (Hone & Hn).
  destruct (Hn 3%nat) as (Hdb & Hrs).
  exact (conj (conj H1 (conj H2 (conj H3 (conj H4 H5))))
              (conj Hrun (conj Hone (conj Hdb Hrs)))).
Defined.

(** ** C4 in a race *)

Lemma lost_race_witness :
  (truthy (req_idempotency_key topup_100_request) = Some "k1" /\
   filter (key_is "k1") (transactions (db (world_of seed_db))) = [] /\
   existsb (key_is "k1") (transactions (winner (db (world_of seed_db)))) = true) /\
  exists w',
    controller test_env winner Topup topup_100_request (world_of seed_db)
    = (w', mk_response 409 false
             (BodyError "CONFLICT" (Msg "Resource already exists") None false "req-1")) /\
    db w' = winner (db (world_of seed_db)).
Proof.
  assert (H1 : truthy (req_idempotency_key topup_100_request) = Some "k1") by reflexivity.
  assert (H2 : filter (key_is "k1") (transactions (db (world_of seed_db))) = [])
    by reflexivity.
  assert (H3 : existsb (key_is "k1") (transactions (winner (db (world_of seed_db)))) = true)
    by (vm_compute; reflexivity).
  split; [auto|].
  destruct (lost_race_answers_conflict test_env winner Topup topup_100_request
              (world_of seed_db) "k1"
              (mk_wallet treasury "cccccccc-cccc-cccc-cccc-cccccccccccc" asset_tc
                 (units 999900) true 1700000000)
              (mk_wallet alice "11111111-1111-1111-1111-111111111111" asset_tc
                 (units 600) true 1700000000)
              (units 100) H1 H2 H3)
    as (w' & _ & Hres & Hdb).
  - vm_compute. reflexivity.
  - vm_compute. reflexivity.
  - reflexivity.
  - vm_compute. reflexivity.
  - intro H. discriminate H.
  - vm_compute. reflexivity.
  - exists w'. split; [exact Hres|exact Hdb].
Defined.

(** The request that lost the race is answered 409 CONFLICT, while the
    winner's transaction sits committed under the same key. *)
Lemma lost_race_is_surfaced_as_409 :
  filter (key_is "k1") (transactions (db (world_of seed_db))) = [] /\
  res_statusCode
    (snd (controller test_env winner Topup topup_100_request (world_of seed_db))) = 409%nat /\
  res_body (snd (controller test_env winner Topup topup_100_request (world_of seed_db)))
  = BodyError "CONFLICT" (Msg "Resource already exists") None false "req-1" /\
  map t_status
    (filter (key_is "k1")
       (transactions
          (db (fst (controller test_env winner Topup topup_100_request
                      (world_of seed_db))))))
  = [completed].
Proof. repeat split; vm_compute; reflexivity. Qed.

(** ** C5 at scenario 1 *)

Lemma fresh_success_witness :
  (dup_miss (with_key (req_body topup_100_request) (req_idempotency_key topup_100_request))
     (db (world_of seed_db)) /\
   ledger_fkey (no_rivals (db (world_of seed_db))) /\
   run_flow no_rivals Topup
     (with_key (req_body topup_100_request) (req_idempotency_key topup_100_request))
     (world_of seed_db)
   = (after_topup_100, Ok (formatTransaction (star topup_100_row)))) /\
  controller test_env no_rivals Topup topup_100_request (world_of seed_db)
  = (after_topup_100,
     mk_response 201 false (BodySuccess (formatTransaction (star topup_100_row)))) /\
  f_status (formatTransaction (star topup_100_row)) = completed /\
  f_ledgerEntries (formatTransaction (star topup_100_row)) = None.
Proof.
  assert (H1 : dup_miss (with_key (req_body topup_100_request)
                           (req_idempotency_key topup_100_request))
                 (db (world_of seed_db))) by (vm_compute; reflexivity).
  assert (H2 : ledger_fkey (no_rivals (db (world_of seed_db)))) by constructor.
  pose proof topup_100_commits as H3.
  split; [auto|].
  destruct (fresh_success_echoes_completed_transaction test_env no_rivals Topup
              topup_100_request (world_of seed_db) after_topup_100 _ H1 H2 H3)
    as (Hc & Hs & _ & Hl & _).
  auto.
Defined.

(** The body the endpoint sends on scenario 1 carries no ledger entries,
    although both postings of the transaction are in the store. *)
Lemma fresh_response_carries_no_ledger_entries :
  exists r,
    snd (endpoint test_env no_rivals Topup topup_100_request (world_of seed_db))
    = mk_response 201 false (BodySuccess r) /\
    f_status r = completed /\
    (forall d c, f_ledgerEntries r <> Some [Some d; Some c]) /\
    List.length
      (filter (references (f_id r))
         (ledger_entries
            (db (fst (endpoint test_env no_rivals Topup topup_100_request
                        (world_of seed_db)))))) = 2%nat.
Proof.
  eexists. split; [vm_compute; reflexivity|].
  split; [reflexivity|]. split; [|vm_compute; reflexivity].
  intros d c H. discriminate H.
Qed.

(** ** C6 on four requests *)

Lemma two_wallets_pkey (d : Db) :
  nodupb String.eqb (map w_id (wallets d)) = true -> wallets_pkey d.
Proof. intro H. exact (nodupb_sound String.eqb _ String.eqb_eq H). Defined.

Lemma validation_faults_witness :
  (exists resource w',
      run_flow no_rivals Topup (request_body stranger treasury (inject_Z 100))
        (world_of seed_db) = (w', Throw (NotFoundError resource)) /\
      db w' = seed_db) /\
  (exists resource w',
      run_flow no_rivals Topup (request_body alice_in_capitals treasury (inject_Z 100))
        (world_of seed_db) = (w', Throw (NotFoundError resource)) /\
      db w' = seed_db) /\
  (exists m w',
      run_flow no_rivals Topup (request_body alice treasury (inject_Z 100))
        (world_of frozen_db) = (w', Throw (ConflictError m)) /\
      db w' = frozen_db) /\
  (exists m w',
      run_flow no_rivals Spend (request_body alice treasury (inject_Z 100))
        (world_of mixed_db) = (w', Throw (ConflictError m)) /\
      db w' = mixed_db) /\
  (exists w',
      run_flow no_rivals Bonus (request_body alice alice_in_capitals (inject_Z 100))
        (world_of seed_db) = (w', Throw (NotFoundError "One or both wallets")) /\
      db w' = seed_db).
Proof.
  split; [|split; [|split; [|split]]].
  - destruct (validation_faults_write_nothing no_rivals Topup
                (request_body stranger treasury (inject_Z 100)) (world_of seed_db))
      as (H & _).
    + exact I.
    + apply two_wallets_pkey. vm_compute. reflexivity.
    + vm_compute. reflexivity.
    + destruct H as (resource & w' & Hrun & Hdb & _); [left; vm_compute; reflexivity|].
      exists resource, w'. auto.
  - destruct (validation_faults_write_nothing no_rivals Topup
                (request_body alice_in_capitals treasury (inject_Z 100))
                (world_of seed_db))
      as (H & _).
    + exact I.
    + apply two_wallets_pkey. vm_compute. reflexivity.
    + vm_compute. reflexivity.
    + destruct H as (resource & w' & Hrun & Hdb & _); [left; vm_compute; reflexivity|].
      exists resource, w'. auto.
  - destruct (validation_faults_write_nothing no_rivals Topup
                (request_body alice treasury (inject_Z 100)) (world_of frozen_db))
      as (_ & H & _).
    + exact I.
    + apply two_wallets_pkey. vm_compute. reflexivity.
    + vm_compute. reflexivity.
    + destruct (H (wallet treasury "cccccccc-cccc-cccc-cccc-cccccccccccc" (units 1000000))
                  (mk_wallet alice "11111111-1111-1111-1111-111111111111" asset_tc
                     (units 500) false 0))
        as (Hinactive & _);
        [vm_compute; reflexivity|vm_compute; reflexivity|intro E; discriminate E|].
      destruct Hinactive as (m & w' & Hrun & Hdb & _); [right; reflexivity|].
      exists m, w'. auto.
  - destruct (validation_faults_write_nothing no_rivals Spend
                (request_body alice treasury (inject_Z 100)) (world_of mixed_db))
      as (_ & H & _).
    + exact I.
    + apply two_wallets_pkey. vm_compute. reflexivity.
    + vm_compute. reflexivity.
    + destruct (H (mk_wallet alice "11111111-1111-1111-1111-111111111111"
                     "a1a1a1a1-a1a1-a1a1-a1a1-a1a1a1a1a1a1" (units 500) true 0)
                  (wallet treasury "cccccccc-cccc-cccc-cccc-cccccccccccc" (units 1000000)))
        as (_ & Hasset);
        [vm_compute; reflexivity|vm_compute; reflexivity|intro E; discriminate E|].
      destruct Hasset as (m & w' & Hrun & Hdb & _); [intro E; discriminate E|].
      exists m, w'. auto.
  - destruct (validation_faults_write_nothing no_rivals Bonus
                (request_body alice alice_in_capitals (inject_Z 100)) (world_of seed_db))
      as (_ & _ & H).
    + exact I.
    + apply two_wallets_pkey. vm_compute. reflexivity.
    + vm_compute. reflexivity.
    + destruct H as (_ & w' & Hrun & Hdb & _); [vm_compute; reflexivity|].
      exists w'. auto.
Defined.

(** A top-up that names alice's wallet in capitals: the lock statement reads
    the id as her uuid and locks both rows, [find] looks for the text of the
    request among the texts pg returned, and the flow raises NotFound for the
    user wallet. *)
Example id_in_capitals_is_locked_and_not_found :
  acquired (run_flow no_rivals Topup
              (request_body alice_in_capitals treasury (inject_Z 100)))
    (world_of seed_db) = [treasury; alice] /\
  snd (run_flow no_rivals Topup (request_body alice_in_capitals treasury (inject_Z 100))
         (world_of seed_db)) = Throw (NotFoundError "User wallet").
Proof. split; vm_compute; reflexivity. Qed.

(** C6 does not hold where the duplicate check finds a row.  A spend
    between two ids that match no wallet row, sent under the key of a stored
    transaction, raises no NotFound: the flow returns the stored row. *)
Lemma known_key_skips_the_wallet_checks :
  wallet_of db_with_pending_bonus (walletId (req_body spend_between_strangers)) = None /\
  wallet_of db_with_pending_bonus (systemWalletId (req_body spend_between_strangers))
  = None /\
  uuid_texts (walletId (req_body spend_between_strangers))
    (systemWalletId (req_body spend_between_strangers)) = true /\
  snd (run_flow no_rivals Spend
         (with_key (req_body spend_between_strangers)
            (req_idempotency_key spend_between_strangers))
         (world_of db_with_pending_bonus))
  = Ok (formatTransaction (star pending_bonus_row)) /\
  forall resource,
    snd (run_flow no_rivals Spend
           (with_key (req_body spend_between_strangers)
              (req_idempotency_key spend_between_strangers))
           (world_of db_with_pending_bonus))
    <> Throw (NotFoundError resource).
Proof.
  split; [vm_compute; reflexivity|].
  split; [vm_compute; reflexivity|].
  split; [vm_compute; reflexivity|].
  assert (H : snd (run_flow no_rivals Spend
                     (with_key (req_body spend_between_strangers)
                        (req_idempotency_key spend_between_strangers))
                     (world_of db_with_pending_bonus))
              = Ok (formatTransaction (star pending_bonus_row)))
    by (vm_compute; reflexivity).
  split; [exact H|].
  intros resource E. rewrite H in E. discriminate E.
Qed.

(** ** C7 at scenario 3, and where the parsed comparison departs from decimals *)

Lemma insufficient_funds_witness :
  (exists w',
      run_flow no_rivals Spend spend_9999 (world_of seed_db)
      = (w', Throw (InsufficientFundsError (AvailNumber (inject_Z 500)) (inject_Z 9999))) /\
      db w' = seed_db) /\
  (forall avail req,
      snd (run_flow no_rivals Spend spend_100 (world_of seed_db))
      <> Throw (InsufficientFundsError avail req)).
Proof.
  split.
  - destruct (insufficient_funds_iff_parsed_balance_below_amount no_rivals Spend
                spend_9999 (world_of seed_db) alice_row revenue_row) as (H & _);
      [vm_compute; reflexivity|apply two_wallets_pkey; vm_compute; reflexivity
      |reflexivity|reflexivity
      |intro E; discriminate E|reflexivity|reflexivity|reflexivity|].
    destruct H as (w' & Hrun & Hdb & _); [vm_compute; reflexivity|].
    exists w'. split; [exact Hrun|exact Hdb].
  - destruct (insufficient_funds_iff_parsed_balance_below_amount no_rivals Spend
                spend_100 (world_of seed_db) alice_row revenue_row) as (_ & H);
      [vm_compute; reflexivity|apply two_wallets_pkey; vm_compute; reflexivity
      |reflexivity|reflexivity
      |intro E; discriminate E|reflexivity|reflexivity|reflexivity|].
    apply H. vm_compute. reflexivity.
Defined.

(** Alice holds 9999999999999.999999 and spends 10^13, which is a binary64
    number.  In decimals the balance is below the amount, yet no
    InsufficientFunds is raised: the balance parses to 10^13, the check
    passes, and the run ends with the check violation of the debit. *)
Lemma decimal_shortfall_passes_the_funds_check :
  (numeric_value 9999999999999999999%Z < amount spend_ten_trillion)%Q /\
  Js.fl (amount spend_ten_trillion) = amount spend_ten_trillion /\
  option_map w_balance (wallet_of rich_alice_db alice) = Some 9999999999999999999 /\
  parseFloat 9999999999999999999 = amount spend_ten_trillion /\
  snd (run_flow no_rivals Spend spend_ten_trillion (world_of rich_alice_db))
  = Throw (DatabaseError check_violation "wallets_balance_non_negative" failing_row) /\
  forall avail req,
    snd (run_flow no_rivals Spend spend_ten_trillion (world_of rich_alice_db))
    <> Throw (InsufficientFundsError avail req).
Proof.
  split; [reflexivity|].
  split; [vm_compute; reflexivity|].
  split; [vm_compute; reflexivity|].
  split; [vm_compute; reflexivity|].
  assert (H : snd (run_flow no_rivals Spend spend_ten_trillion (world_of rich_alice_db))
              = Throw (DatabaseError check_violation "wallets_balance_non_negative"
                         failing_row)) by (vm_compute; reflexivity).
  split; [exact H|].
  intros avail req E. rewrite H in E. discriminate E.
Qed.

(** ** C8 on two flows over the same pair of wallets *)

Lemma lock_order_witness :
  sortIds alice revenue = (revenue, alice) /\
  acquired (run_flow no_rivals Spend spend_100) (world_of seed_db) = [revenue; alice] /\
  acquired (run_flow no_rivals Topup (request_body revenue alice (inject_Z 1)))
    (world_of seed_db) = [revenue; alice] /\
  ~ precedes alice revenue
      (acquired (run_flow no_rivals Topup (request_body revenue alice (inject_Z 1)))
         (world_of seed_db)).
Proof.
  destruct locks_taken_in_ascending_id_order as (_ & _ & _ & _ & H & _).
  split; [reflexivity|].
  split; [vm_compute; reflexivity|].
  split; [vm_compute; reflexivity|].
  apply (H no_rivals Spend spend_100 (world_of seed_db)).
  - exists [], [], []. vm_compute. reflexivity.
  - intro E. discriminate E.
Defined.

(** ** C9 on a first request, its retry, and a failing handler *)

Lemma idempotency_boundary_witness :
  (idempotency_keys
     (db (fst (idempotency test_env topup_100_request
                 (controller test_env no_rivals Topup topup_100_request)
                 (world_of seed_db))))
   = [cached_topup_100]) /\
  (forall next,
      idempotency test_env topup_100_request next after_first_request
      = (after_first_request,
         mk_response 201 true (BodySuccess (formatTransaction (star topup_100_row))))) /\
  (fst (idempotency test_env topup_100_request crashing (world_of seed_db))
   = world_of seed_db /\
   res_statusCode (snd (idempotency test_env topup_100_request crashing (world_of seed_db)))
   = 500%nat).
Proof.
  split; [|split].
  - destruct (idempotency_boundary test_env topup_100_request
                (controller test_env no_rivals Topup topup_100_request)
                (world_of seed_db) "k1") as (_ & H); [reflexivity|].
    destruct H as (_ & _ & _ & Hstore & _); [reflexivity|].
    destruct Hstore as (Hrows & _).
    + apply Nat.ltb_lt. reflexivity.
    + apply Nat.leb_le. reflexivity.
    + apply Nat.leb_le. reflexivity.
    + vm_compute. reflexivity.
    + rewrite Hrows. vm_compute. reflexivity.
  - intro next.
    destruct (idempotency_boundary test_env topup_100_request next after_first_request "k1")
      as (H & _); [reflexivity|].
    apply (H cached_topup_100).
    + unfold idempotency_keys_unique.
      replace (idempotency_keys (db after_first_request)) with [cached_topup_100]
        by (vm_compute; reflexivity).
      repeat constructor. intros [].
    + replace (idempotency_keys (db after_first_request)) with [cached_topup_100]
        by (vm_compute; reflexivity).
      now left.
    + reflexivity.
    + reflexivity.
    + vm_compute. reflexivity.
  - destruct (idempotency_boundary test_env topup_100_request crashing (world_of seed_db)
                "k1") as (_ & H); [reflexivity|].
    destruct H as (Hres & Hkeep & _); [reflexivity|].
    split.
    + apply Hkeep. vm_compute. apply le_n.
    + rewrite Hres. reflexivity.
Defined.

(** ** C10 on a pending row of another flow *)

Lemma duplicate_check_witness :
  exists w',
    controller test_env no_rivals Spend spend_between_strangers
      (world_of db_with_pending_bonus)
    = (w', mk_response 201 false (BodySuccess (formatTransaction (star pending_bonus_row))))
    /\ db w' = db_with_pending_bonus
    /\ f_status (formatTransaction (star pending_bonus_row)) = pending
    /\ f_type (formatTransaction (star pending_bonus_row)) = ty_bonus.
Proof.
  destruct (duplicate_check_matches_on_key_alone test_env no_rivals Spend
              spend_between_strangers (world_of db_with_pending_bonus) "k1"
              pending_bonus_row) as (w' & Hres & Hdb & _).
  - reflexivity.
  - unfold transactions_pkey. apply (nodupb_sound Nat.eqb); [exact Nat.eqb_eq|].
    reflexivity.
  - reflexivity.
  - exists w'. auto.
Defined.

(** * Invariants of the engine *)

(** ** The two UPDATEs of a posting, row by row *)

Lemma map_result_ok {A B} (f : A -> result B) (l : list A) : forall l',
  map_result f l = Ok l' -> Forall2 (fun x y => f x = Ok y) l l'.
Proof.
  induction l as [|x l IH]; intros l' H; cbn [map_result] in H.
  - inversion H. constructor.
  - destruct (f x) as [y|e] eqn:Hx; [|discriminate].
    destruct (map_result f l) as [ys|e]; [|discriminate].
    inversion H; subst. constructor; auto.
Qed.

Lemma pg_round6_whole (k : Z) (den : positive) (n : Z) :
  n * 1000000 = k * Zpos den -> pg_round6 (n # den) = k.
Proof.
  intro H. unfold pg_round6. cbn [Qnum Qden]. rewrite H.
  destruct (0 <=? k * Zpos den) eqn:Hs.
  - apply Z.leb_le in Hs.
    symmetry. apply (Z.div_unique _ _ _ (Zpos den)); lia.
  - apply Z.leb_gt in Hs.
    assert (E : (2 * - (k * Z.pos den) + Z.pos den) / (2 * Z.pos den) = - k).
    { symmetry. apply (Z.div_unique _ _ _ (Zpos den)); lia. }
    rewrite E. lia.
Qed.

Lemma six_decimals_whole (d : Q) :
  six_decimals d = true ->
  Qnum d * 1000000 = pg_round6 d * Zpos (Qden d).
Proof.
  unfold six_decimals. intro H. apply Z.eqb_eq in H.
  apply Z.mod_divide in H; [|lia]. destruct H as (k & Hk).
  destruct d as [n den]. cbn [Qnum Qden] in *.
  now rewrite (pg_round6_whole k den n Hk).
Qed.

Lemma pg_round6_minus (b : numeric) (d : Q) :
  six_decimals d = true ->
  pg_round6 (numeric_value b - d) = b - pg_round6 d.
Proof.
  intro H. apply six_decimals_whole in H.
  destruct d as [n den]. cbn [Qnum Qden] in H.
  unfold numeric_value, Qminus, Qplus, Qopp. cbn [Qnum Qden].
  apply pg_round6_whole. lia.
Qed.

Lemma pg_round6_plus (b : numeric) (d : Q) :
  six_decimals d = true ->
  pg_round6 (numeric_value b + d) = b + pg_round6 d.
Proof.
  intro H. apply six_decimals_whole in H.
  destruct d as [n den]. cbn [Qnum Qden] in H.
  unfold numeric_value, Qplus. cbn [Qnum Qden].
  apply pg_round6_whole. lia.
Qed.

Lemma numeric_20_6_ok (d : Q) (v : numeric) :
  numeric_20_6 d = Ok v -> v = pg_round6 d.
Proof.
  unfold numeric_20_6. destruct (_ <? _); [|discriminate]. now inversion 1.
Qed.

Lemma update_wallet_row_minus amt id t x y :
  six_decimals (sql_param amt) = true ->
  update_wallet_row Qminus amt id t x = Ok y ->
  y = (if String.eqb (w_id x) id
       then set_balance x (w_balance x - pg_round6 (sql_param amt)) t else x)
  /\ (String.eqb (w_id x) id = true -> pg_round6 (sql_param amt) <= w_balance x).
Proof.
  intros H6. unfold update_wallet_row.
  destruct (String.eqb (w_id x) id).
  - destruct (numeric_20_6 _) as [b|e] eqn:Hb; [|discriminate].
    apply numeric_20_6_ok in Hb. rewrite pg_round6_minus in Hb by exact H6.
    destruct (0 <=? b) eqn:Hnn; [|discriminate].
    apply Z.leb_le in Hnn. inversion 1; subst. split; [reflexivity|lia].
  - inversion 1; subst. split; [reflexivity|discriminate].
Qed.

Lemma update_wallet_row_plus amt id t x y :
  six_decimals (sql_param amt) = true ->
  update_wallet_row Qplus amt id t x = Ok y ->
  y = (if String.eqb (w_id x) id
       then set_balance x (w_balance x + pg_round6 (sql_param amt)) t else x).
Proof.
  intros H6. unfold update_wallet_row.
  destruct (String.eqb (w_id x) id).
  - destruct (numeric_20_6 _) as [b|e] eqn:Hb; [|discriminate].
    apply numeric_20_6_ok in Hb. rewrite pg_round6_plus in Hb by exact H6.
    destruct (0 <=? b) eqn:Hnn; [|discriminate].
    inversion 1; subst. reflexivity.
  - inversion 1; subst. reflexivity.
Qed.

Lemma update_rows_minus amt id t (l : list wallet_row) : forall l',
  six_decimals (sql_param amt) = true ->
  map_result (update_wallet_row Qminus amt id t) l = Ok l' ->
  l' = map (fun x => if String.eqb (w_id x) id
                     then set_balance x (w_balance x - pg_round6 (sql_param amt)) t
                     else x) l.
Proof.
  intros l' H6 H. apply map_result_ok in H.
  induction H as [|x y l l' Hxy _ IH]; [reflexivity|].
  cbn [map]. rewrite <- IH.
  apply update_wallet_row_minus in Hxy; [|exact H6]. now destruct Hxy as (-> & _).
Qed.

Lemma update_rows_covered amt id t (l : list wallet_row) : forall l' x,
  six_decimals (sql_param amt) = true ->
  map_result (update_wallet_row Qminus amt id t) l = Ok l' ->
  In x l -> w_id x = id -> pg_round6 (sql_param amt) <= w_balance x.
Proof.
  intros l' x H6 H Hin Hid. apply map_result_ok in H.
  induction H as [|x0 y l l' Hxy _ IH]; [destruct Hin|].
  destruct Hin as [->|Hin]; [|auto].
  apply update_wallet_row_minus in Hxy; [|exact H6]. destruct Hxy as (_ & Hle).
  apply Hle. now apply String.eqb_eq.
Qed.

Lemma update_rows_plus amt id t (l : list wallet_row) : forall l',
  six_decimals (sql_param amt) = true ->
  map_result (update_wallet_row Qplus amt id t) l = Ok l' ->
  l' = map (fun x => if String.eqb (w_id x) id
                     then set_balance x (w_balance x + pg_round6 (sql_param amt)) t
                     else x) l.
Proof.
  intros l' H6 H. apply map_result_ok in H.
  induction H as [|x y l l' Hxy _ IH]; [reflexivity|].
  cbn [map]. rewrite <- IH.
  apply update_wallet_row_plus in Hxy; [|exact H6]. now rewrite Hxy.
Qed.

Lemma update_wallet_row_keeps op amt id t x y :
  update_wallet_row op amt id t x = Ok y ->
  w_id y = w_id x /\ w_owner_id y = w_owner_id x /\
  w_asset_type_id y = w_asset_type_id x /\ w_is_active y = w_is_active x /\
  (0 <= w_balance x -> 0 <= w_balance y) /\
  (w_id x <> id -> y = x).
Proof.
  unfold update_wallet_row. destruct (String.eqb (w_id x) id) eqn:E.
  - destruct (numeric_20_6 _) as [b|e]; [|discriminate].
    destruct (0 <=? b) eqn:Hb; [|discriminate].
    apply Z.leb_le in Hb. apply String.eqb_eq in E.
    inversion 1; subst. cbn [set_balance w_id w_owner_id w_asset_type_id w_is_active
                             w_balance]. repeat split; auto. now intros [].
  - inversion 1; subst. auto 10.
Qed.

Lemma update_rows_keep op amt id t (l : list wallet_row) : forall l',
  map_result (update_wallet_row op amt id t) l = Ok l' ->
  map w_id l' = map w_id l /\
  (Forall (fun x => 0 <= w_balance x) l -> Forall (fun x => 0 <= w_balance x) l').
Proof.
  intros l' H. apply map_result_ok in H.
  induction H as [|x y l l' Hxy _ (IH1 & IH2)]; [auto|].
  apply update_wallet_row_keeps in Hxy. destruct Hxy as (Hid & _ & _ & _ & Hb & _).
  split.
  - cbn [map]. now rewrite Hid, IH1.
  - intro Hall. inversion Hall; subst. constructor; auto.
Qed.

Lemma update_rows_footprint op amt id t (l : list wallet_row) : forall l',
  map_result (update_wallet_row op amt id t) l = Ok l' ->
  Forall2 (fun x y => w_id y = w_id x /\ w_owner_id y = w_owner_id x /\
                      w_asset_type_id y = w_asset_type_id x /\
                      w_is_active y = w_is_active x /\ (w_id x <> id -> y = x)) l l'.
Proof.
  intros l' H. apply map_result_ok in H.
  induction H as [|x y l l' Hxy _ IH]; constructor; [|exact IH].
  pose proof (update_wallet_row_keeps _ _ _ _ _ _ Hxy) as (H1 & H2 & H3 & H4 & _ & H5).
  auto.
Qed.

Lemma insert_transaction_differ ty u s amt ref key desc meta w w1 txn :
  uuid_in u = Some u -> uuid_in s = Some s ->
  insert_transaction ty u s amt ref key desc meta w = (w1, Ok txn) ->
  String.eqb u s = false.
Proof.
  unfold insert_transaction, uuid_param. intros Hu Hs H. rewrite Hu, Hs in H. run_in H.
  destruct (numeric_20_6 (sql_param amt)) as [a|e] eqn:Ha; [|discriminate].
  run_in H. repeat step_in H.
  now apply negb_true_iff.
Qed.

Lemma post_differ f p source target wl w1 r :
  uuid_in (walletId p) = Some (walletId p) ->
  uuid_in (systemWalletId p) = Some (systemWalletId p) ->
  post f p source target wl = (w1, Ok r) ->
  String.eqb (walletId p) (systemWalletId p) = false.
Proof.
  unfold post. intros Hcu Hcs H.
  apply bind_ok_inv in H. destruct H as (wa & txn & Hins & _).
  eapply insert_transaction_differ; eauto.
Qed.

Lemma moved_id src tgt amt t x : w_id (moved src tgt amt t x) = w_id x.
Proof.
  unfold moved. destruct (String.eqb _ src); [reflexivity|].
  destruct (String.eqb _ tgt); reflexivity.
Qed.

Lemma find_moved src tgt amt t id (l : list wallet_row) :
  find (has_id id) (map (moved src tgt amt t) l)
  = option_map (moved src tgt amt t) (find (has_id id) l).
Proof.
  induction l as [|x l IH]; [reflexivity|].
  cbn [map find]. unfold has_id at 1 3. rewrite moved_id.
  destruct (String.eqb (w_id x) id); [reflexivity|exact IH].
Qed.

Lemma total_moved src tgt amt t (l : list wallet_row) :
  String.eqb src tgt = false ->
  fold_right (fun x acc => w_balance x + acc) 0 (map (moved src tgt amt t) l)
  = fold_right (fun x acc => w_balance x + acc) 0 l
    + amt * (Z.of_nat (List.length (filter (has_id tgt) l))
             - Z.of_nat (List.length (filter (has_id src) l))).
Proof.
  intro Hne. induction l as [|x l IH]; [cbn; lia|].
  cbn [map fold_right filter]. rewrite IH. clear IH. unfold moved.
  change (has_id src x) with (String.eqb (w_id x) src).
  change (has_id tgt x) with (String.eqb (w_id x) tgt).
  destruct (String.eqb (w_id x) src) eqn:Hs, (String.eqb (w_id x) tgt) eqn:Ht;
    cbn [List.length set_balance w_balance]; try lia.
  apply String.eqb_eq in Hs, Ht. rewrite <- Hs, <- Ht, String.eqb_refl in Hne.
  discriminate.
Qed.

Lemma one_row_under_id id (l : list wallet_row) x :
  NoDup (map w_id l) -> find (has_id id) l = Some x ->
  List.length (filter (has_id id) l) = 1%nat.
Proof.
  induction l as [|y l IH]; [discriminate|].
  cbn [map find filter]. intros Hnd Hf. inversion Hnd as [|? ? Hnot Hnd']; subst.
  destruct (has_id id y) eqn:Hy.
  - apply has_id_true in Hy.
    destruct (filter (has_id id) l) as [|z rest] eqn:Hz; [reflexivity|].
    assert (Hin : In z (filter (has_id id) l)) by (rewrite Hz; now left).
    apply filter_In in Hin. destruct Hin as (Hin & Hzid). apply has_id_true in Hzid.
    exfalso. apply Hnot. rewrite Hy, <- Hzid. now apply in_map.
  - auto.
Qed.

Lemma fresh_id_not_in id ts :
  existsb (id_is id) ts = false -> ~ In id (map t_id ts).
Proof.
  intros H Hin. apply in_map_iff in Hin. destruct Hin as (r & Hr & Hin).
  assert (Hex : existsb (id_is id) ts = true).
  { apply existsb_exists. exists r. split; [exact Hin|].
    unfold id_is. now apply Nat.eqb_eq. }
  congruence.
Qed.

Lemma NoDup_snoc {A} (l : list A) (x : A) : NoDup l -> ~ In x l -> NoDup (l ++ [x]).
Proof.
  induction l as [|y l IH]; intros Hnd Hx; cbn [app].
  - constructor; [intros []|constructor].
  - inversion Hnd; subst. constructor.
    + intro Hin. apply in_app_or in Hin. destruct Hin as [Hin|[->|[]]]; [auto|].
      apply Hx. now left.
    + apply IH; [assumption|]. intro Hin. apply Hx. now right.
Qed.

Lemma Forall2_refl_on {A} (R : A -> A -> Prop) (l : list A) :
  (forall x, R x x) -> Forall2 R l l.
Proof. intro H. induction l; constructor; auto. Qed.

Lemma Forall2_chain {A} (R1 R2 R : A -> A -> Prop) (l1 l2 l3 : list A) :
  (forall x y z, R1 x y -> R2 y z -> R x z) ->
  Forall2 R1 l1 l2 -> Forall2 R2 l2 l3 -> Forall2 R l1 l3.
Proof.
  intros Hc H12. revert l3.
  induction H12 as [|x y l1 l2 Hxy _ IH]; intros l3 H23; inversion H23; subst;
    constructor; eauto.
Qed.

(** ** The three ways a run can end *)

Lemma validate_inl f p rows e :
  validate f p rows = inl e -> business_fault f p e.
Proof.
  unfold validate, business_fault. destruct (Nat.ltb _ 2).
  { inversion 1. left. eexists. split; [|reflexivity]. cbn. auto. }
  destruct f;
    destruct (find (has_id (systemWalletId p)) rows) as [s|];
    destruct (find (has_id (walletId p)) rows) as [u|];
    cbv zeta;
    repeat match goal with
    | |- context [if ?b then _ else _] => destruct b
    end;
    inversion 1;
    try (left; eexists; split; [|reflexivity]; cbn; now auto 6);
    try (right; left; eexists; split; [|reflexivity]; cbn; now auto 6);
    try (right; right; eexists; reflexivity).
Qed.

Section Outcomes.

Variable ahead : Db -> Db.

(** A run that ends in a fault leaves the store as it found it, or as the
    lock statement found it. *)
Lemma run_flow_miss_throw f p w w' e :
  run_flow ahead f p w = (w', Throw e) ->
  db w' = db w \/ db w' = ahead (db w).
Proof.
  intro Hrun.
  destruct (run_flow_outcome ahead f p w) as (ids & _ & _ & _ & _ & Hdb).
  rewrite Hrun in Hdb. cbn [fst snd] in Hdb. eauto.
Qed.

Lemma run_flow_faults f p w w' e :
  run_flow ahead f p w = (w', Throw e) ->
  business_fault f p e \/ isOperational e = false.
Proof.
  intro Hrun.
  destruct (hit_or_miss f p (db w)) as [(k & row & Hk & Hrow)|Hmiss].
  { rewrite (run_flow_hit ahead f p w k row Hk Hrow) in Hrun. discriminate. }
  rewrite run_flow_run, withTransaction_run in Hrun.
  destruct (flow_fn_cases ahead f p w Hmiss)
    as [(_ & Hfn)|[(_ & e' & Hv & Hfn)|(_ & source & target & Hv & Hfn)]];
    rewrite Hfn in Hrun.
  - inversion Hrun; subst. now right.
  - inversion Hrun; subst. left. eapply validate_inl; eauto.
  - right.
    pose proof (infra_post f p source target
                  (locked_world ahead (walletId p) (systemWalletId p) (begun w))) as Hi.
    destruct (post f p source target _) as [w1 [r1|e']]; [discriminate|].
    inversion Hrun; subst. apply (Hi e). reflexivity.
Qed.

(** The two UPDATEs of a run that posts. *)
Lemma fresh_run_updates f p w w' r :
  dup_miss p (db w) ->
  run_flow ahead f p w = (w', Ok r) ->
  exists ws1,
    map_result (update_wallet_row Qminus (amount p) (source_id f p) (clock w))
      (wallets (ahead (db w))) = Ok ws1 /\
    map_result (update_wallet_row Qplus (amount p) (target_id f p) (clock w)) ws1
      = Ok (wallets (db w')) /\
    String.eqb (source_id f p) (target_id f p) = false.
Proof.
  intros Hmiss Hrun.
  destruct (fresh_run_texts ahead f p w w' r Hmiss Hrun) as (Hcu & Hcs).
  rewrite run_flow_run, withTransaction_run in Hrun.
  destruct (flow_fn_cases ahead f p w Hmiss)
    as [(_ & Hfn)|[(_ & e' & Hv & Hfn)|(_ & source & target & Hv & Hfn)]];
    rewrite Hfn in Hrun; try discriminate.
  destruct (post f p source target _) as [w1 [r1|e]] eqn:Hpost; [|discriminate].
  inversion Hrun; subst w' r1. clear Hrun.
  apply validate_inr in Hv. destruct Hv as (Hfs & Hft & _).
  apply find_some in Hfs, Hft.
  destruct Hfs as (_ & Hids), Hft as (_ & Hidt).
  apply has_id_true in Hids, Hidt.
  pose proof (post_differ _ _ _ _ _ _ _ Hcu Hcs Hpost) as Hne.
  apply post_ok in Hpost; [|exact Hcu|exact Hcs].
  destruct Hpost as (amt & bd & ad & bc & ac & ws1 & ws & _ & _ & _ & _
                     & _ & _ & Hws1 & Hws & _ & _ & _ & Hdb & _).
  unfold locked_world, begun in Hws1, Hws, Hdb.
  cbn [db next_uuid clock] in Hws1, Hws, Hdb.
  rewrite Hids in Hws1. rewrite Hidt in Hws.
  exists ws1. unfold committed_world. cbn [db]. rewrite Hdb. cbn [wallets].
  repeat split; auto.
  destruct f; cbn [source_id target_id]; try exact Hne;
    now rewrite String.eqb_sym.
Qed.

Lemma fresh_run_moved f p w w' r amt :
  dup_miss p (db w) ->
  six_decimals (sql_param (amount p)) = true ->
  numeric_20_6 (sql_param (amount p)) = Ok amt ->
  run_flow ahead f p w = (w', Ok r) ->
  wallets (db w') =
    map (moved (source_id f p) (target_id f p) amt (clock w)) (wallets (ahead (db w)))
  /\ String.eqb (source_id f p) (target_id f p) = false.
Proof.
  intros Hmiss H6 Hamt Hrun.
  destruct (fresh_run_updates f p w w' r Hmiss Hrun) as (ws1 & H1 & H2 & Hne).
  split; [|exact Hne].
  apply update_rows_minus in H1; [|exact H6].
  apply update_rows_plus in H2; [|exact H6].
  apply numeric_20_6_ok in Hamt. rewrite <- Hamt in H1, H2.
  rewrite H2, H1, map_map. apply map_ext. intro x. unfold moved.
  destruct (String.eqb (w_id x) (source_id f p)) eqn:Hs.
  - cbn [set_balance w_id]. apply String.eqb_eq in Hs. rewrite Hs, Hne. reflexivity.
  - reflexivity.
Qed.

End Outcomes.

(** ** Exact movement of the amount *)

(** X1.  A flow that posts an amount of at most six decimals takes exactly that
    amount from every row under the source id, which held at least as much,
    and adds exactly that amount to the row under the target id; the lookup
    of any other wallet returns what it returned before.  The amount in the
    response is that amount as a number. *)
Theorem committed_flow_moves_the_amount ahead f p w w' r :
  dup_miss p (db w) ->
  six_decimals (sql_param (amount p)) = true ->
  run_flow ahead f p w = (w', Ok r) ->
  exists amt,
    numeric_value amt == sql_param (amount p) /\ 0 < amt /\
    f_amount r = parseFloat amt /\
    source_id f p <> target_id f p /\
    wallet_of (ahead (db w)) (source_id f p) <> None /\
    wallet_of (ahead (db w)) (target_id f p) <> None /\
    (forall x, In x (wallets (ahead (db w))) -> w_id x = source_id f p ->
               amt <= w_balance x) /\
    forall id,
      wallet_of (db w') id =
      option_map
        (fun x =>
           if String.eqb id (source_id f p)
           then set_balance x (w_balance x - amt) (clock w)
           else if String.eqb id (target_id f p)
                then set_balance x (w_balance x + amt) (clock w)
                else x)
        (wallet_of (ahead (db w)) id).
Proof.
  intros Hmiss H6 Hrun.
  destruct (fresh_run ahead f p w w' r Hmiss Hrun)
    as (source & target & amt & bd & ad & bc & ac & ws & Hins & Hids & Hint & Hidt & _
        & Hamt & Hpos & _ & _ & _ & _ & _ & _ & Hr & _).
  destruct (fresh_run_moved ahead f p w w' r amt Hmiss H6 Hamt Hrun) as (Hws & Hne).
  destruct (fresh_run_updates ahead f p w w' r Hmiss Hrun) as (ws1 & Hws1 & _ & _).
  exists amt.
  split.
  { pose proof (six_decimals_whole _ H6) as Hw.
    rewrite <- (numeric_20_6_ok _ _ Hamt) in Hw.
    unfold numeric_value, Qeq. cbn [Qnum Qden]. lia. }
  split; [exact Hpos|].
  split; [now rewrite Hr|].
  split; [intro Heq; rewrite Heq, String.eqb_refl in Hne; discriminate|].
  destruct (fresh_run_printed ahead f p w w' r Hmiss Hrun) as (Hps & Hpt).
  split.
  { rewrite wallet_of_find, Hps. intro Hnone.
    pose proof (find_none _ _ Hnone source Hins) as Hno.
    apply has_id_true in Hids. congruence. }
  split.
  { rewrite wallet_of_find, Hpt. intro Hnone.
    pose proof (find_none _ _ Hnone target Hint) as Hno.
    apply has_id_true in Hidt. congruence. }
  split.
  { intros x Hin Hid. rewrite (numeric_20_6_ok _ _ Hamt).
    eapply update_rows_covered; eauto. }
  intro id. rewrite !wallet_of_find. destruct (printed id); [|reflexivity].
  rewrite Hws, find_moved.
  destruct (find (has_id id) (wallets (ahead (db w)))) as [x|] eqn:Hx; [|reflexivity].
  cbn [option_map]. apply find_some in Hx. destruct Hx as (_ & Hx).
  apply has_id_true in Hx. unfold moved. now rewrite Hx.
Qed.

Lemma six_decimals_100 : six_decimals (sql_param (amount topup_100)) = true.
Proof. vm_compute. reflexivity. Defined.

Lemma topup_100_misses : dup_miss topup_100 (db (world_of seed_db)).
Proof. vm_compute. reflexivity. Defined.

Lemma committed_flow_moves_the_amount_witness :
  (dup_miss topup_100 (db (world_of seed_db)) /\
   six_decimals (sql_param (amount topup_100)) = true /\
   run_flow no_rivals Topup topup_100 (world_of seed_db)
   = (after_topup_100, Ok (formatTransaction (star topup_100_row)))) /\
  map (fun id => option_map w_balance (wallet_of (db after_topup_100) id))
      [treasury; alice; bob]
  = [Some (units 999900); Some (units 600); Some (units 100)].
Proof.
  split; [exact (conj topup_100_misses (conj six_decimals_100 topup_100_commits))|].
  destruct (committed_flow_moves_the_amount no_rivals Topup topup_100 (world_of seed_db)
              after_topup_100 _ topup_100_misses six_decimals_100 topup_100_commits)
    as (amt & Hq & _ & _ & _ & _ & _ & _ & Hall).
  assert (Hs : sql_param (amount topup_100) = 100 # 1) by (vm_compute; reflexivity).
  rewrite Hs in Hq. unfold numeric_value, Qeq in Hq. cbn [Qnum Qden] in Hq.
  assert (Hamt : amt = units 100) by (unfold units; lia). subst amt.
  cbn [map]. rewrite !Hall. vm_compute. reflexivity.
Defined.

(** The six decimals matter: a top-up of 0.0000005 commits, is recorded as
    a transaction of 0.000001, leaves the treasury as it was and adds
    0.000001 to alice. *)
Example half_a_millionth_is_credited_but_not_debited :
  let (w', r) := topup no_rivals topup_half_millionth (world_of seed_db) in
  six_decimals (sql_param (amount topup_half_millionth)) = false /\
  map t_amount (transactions (db w')) = [1] /\
  map (fun id => option_map w_balance (wallet_of (db w') id)) [treasury; alice]
  = [Some (units 1000000); Some (units 500 + 1)] /\
  total_balance (db w') = total_balance seed_db + 1.
Proof. vm_compute. auto. Qed.

(** ** Conservation *)

(** X2.  A flow that posts an amount of at most six decimals leaves the sum of
    all wallet balances as it was. *)
Theorem committed_flow_conserves_total_balance ahead f p w w' r :
  dup_miss p (db w) ->
  wallets_pkey (ahead (db w)) ->
  six_decimals (sql_param (amount p)) = true ->
  run_flow ahead f p w = (w', Ok r) ->
  total_balance (db w') = total_balance (ahead (db w)).
Proof.
  intros Hmiss Hpk H6 Hrun.
  destruct (fresh_run ahead f p w w' r Hmiss Hrun)
    as (source & target & amt & bd & ad & bc & ac & ws & Hins & Hids & Hint & Hidt & _
        & Hamt & _).
  destruct (fresh_run_moved ahead f p w w' r amt Hmiss H6 Hamt Hrun) as (Hws & Hne).
  assert (Hex : forall id x, In x (wallets (ahead (db w))) -> w_id x = id ->
            List.length (filter (has_id id) (wallets (ahead (db w)))) = 1%nat).
  { intros id x Hin Hid.
    destruct (find (has_id id) (wallets (ahead (db w)))) as [y|] eqn:Hy.
    - eapply one_row_under_id; eauto.
    - pose proof (find_none _ _ Hy x Hin) as Hno.
      apply has_id_true in Hid. congruence. }
  unfold total_balance. rewrite Hws, total_moved by exact Hne.
  rewrite (Hex _ _ Hins Hids), (Hex _ _ Hint Hidt). lia.
Qed.

Lemma committed_flow_conserves_total_balance_witness :
  (dup_miss topup_100 (db (world_of seed_db)) /\
   wallets_pkey (no_rivals (db (world_of seed_db))) /\
   six_decimals (sql_param (amount topup_100)) = true /\
   run_flow no_rivals Topup topup_100 (world_of seed_db)
   = (after_topup_100, Ok (formatTransaction (star topup_100_row)))) /\
  total_balance (db after_topup_100) = units 1500600.
Proof.
  pose proof (seed_wallets_pkey (units 1000000) (units 500) [] [] []) as Hpk.
  split; [exact (conj topup_100_misses (conj Hpk (conj six_decimals_100 topup_100_commits)))|].
  rewrite (committed_flow_conserves_total_balance no_rivals Topup topup_100
             (world_of seed_db) after_topup_100 _ topup_100_misses Hpk six_decimals_100
             topup_100_commits).
  vm_compute. reflexivity.
Defined.

(** ** The constraints of the schema *)

(** X3.  Whatever a run does, it leaves a store that satisfies the primary keys
    of wallets and transactions, the uniqueness of idempotency keys, the
    reference of every posting to a transaction, and non-negative balances,
    provided the store it started from and the store it locked did. *)
Theorem flows_keep_the_schema_constraints ahead f p w :
  schema_holds (db w) ->
  schema_holds (ahead (db w)) ->
  schema_holds (db (fst (run_flow ahead f p w))).
Proof.
  intros Hw Ha.
  destruct (hit_or_miss f p (db w)) as [(k & row & Hk & Hrow)|Hmiss].
  { now rewrite (run_flow_hit ahead f p w k row Hk Hrow). }
  destruct (run_flow ahead f p w) as [w' [r|e]] eqn:Hrun; cbn [fst].
  2:{ now destruct (run_flow_miss_throw ahead f p w w' e Hrun) as [-> | ->]. }
  destruct (fresh_run_updates ahead f p w w' r Hmiss Hrun) as (ws1 & H1 & H2 & _).
  destruct (fresh_run ahead f p w w' r Hmiss Hrun)
    as (source & target & amt & bd & ad & bc & ac & ws & _ & _ & _ & _ & _
        & _ & _ & _ & _ & _ & _ & Hid & Hkey & _ & Hdb).
  destruct Ha as (Hpk & Htk & Hku & Hfk & Hnn).
  apply update_rows_keep in H1, H2.
  destruct H1 as (Hid1 & Hnn1), H2 as (Hid2 & Hnn2).
  unfold schema_holds, wallets_pkey, transactions_pkey, key_unique, ledger_fkey,
    balances_non_negative in *.
  repeat split.
  - now rewrite Hid2, Hid1.
  - rewrite Hdb. cbn [transactions]. rewrite map_app. cbn [map completed_row t_id].
    apply NoDup_snoc; [exact Htk|now apply fresh_id_not_in].
  - intro k. rewrite Hdb. cbn [transactions]. rewrite filter_app, length_app.
    cbn [filter]. unfold key_is at 2. cbn [completed_row t_idempotency_key].
    destruct (truthy (idempotencyKey p)) as [k'|]; [|cbn; specialize (Hku k); lia].
    destruct (String.eqb k' k) eqn:Hkk; [|cbn; specialize (Hku k); lia].
    apply String.eqb_eq in Hkk. subst k'.
    rewrite (fresh_key_rows _ _ Hkey). cbn. lia.
  - rewrite Hdb. cbn [transactions ledger_entries].
    apply Forall_app. split.
    + eapply Forall_impl; [|exact Hfk]. cbn beta. intros e He.
      rewrite existsb_app, He. reflexivity.
    + repeat constructor; cbn [debit_entry credit_entry le_transaction_id];
        rewrite existsb_app; cbn [existsb]; unfold id_is at 2;
        cbn [completed_row t_id]; rewrite Nat.eqb_refl; now rewrite orb_true_r.
  - auto.
Qed.

Lemma seed_db_schema_holds : schema_holds seed_db.
Proof.
  split; [apply seed_wallets_pkey|].
  split; [constructor|].
  split; [intro k; apply Nat.le_0_l|].
  split; [constructor|].
  unfold balances_non_negative.
  repeat constructor; vm_compute; discriminate.
Defined.

Lemma flows_keep_the_schema_constraints_witness :
  (schema_holds (db (world_of seed_db)) /\
   schema_holds (no_rivals (db (world_of seed_db)))) /\
  schema_holds (db (fst (run_flow no_rivals Topup topup_100 (world_of seed_db)))).
Proof.
  assert (H : schema_holds (db (world_of seed_db))) by exact seed_db_schema_holds.
  assert (H' : schema_holds (no_rivals (db (world_of seed_db))))
    by exact seed_db_schema_holds.
  exact (conj (conj H H')
           (flows_keep_the_schema_constraints no_rivals Topup topup_100
              (world_of seed_db) H H')).
Defined.

(** ** What a run never touches *)

(** X4.  A run only ever appends to [transactions] and [ledger_entries], and
    leaves [idempotency_keys] alone: relative to the store it started from
    (or the store it locked), either nothing was added and the wallets are
    as they were, or one completed row and its two postings were added and
    the row is what the run returned. *)
Theorem flows_only_append_to_the_ledger ahead f p w :
  exists base ts es,
    (base = db w \/ base = ahead (db w)) /\
    transactions (db (fst (run_flow ahead f p w))) = (transactions base ++ ts)%list /\
    ledger_entries (db (fst (run_flow ahead f p w))) = (ledger_entries base ++ es)%list /\
    idempotency_keys (db (fst (run_flow ahead f p w))) = idempotency_keys base /\
    ((ts = [] /\ es = [] /\ wallets (db (fst (run_flow ahead f p w))) = wallets base) \/
     (exists T d c,
        ts = [T] /\ es = [d; c] /\
        snd (run_flow ahead f p w) = Ok (formatTransaction (star T)) /\
        t_status T = completed /\ t_idempotency_key T = truthy (idempotencyKey p) /\
        le_transaction_id d = t_id T /\ le_transaction_id c = t_id T)).
Proof.
  destruct (run_flow ahead f p w) as [w' res] eqn:Hrun. cbn [fst snd].
  destruct (hit_or_miss f p (db w)) as [(k & row & Hk & Hrow)|Hmiss].
  { rewrite (run_flow_hit ahead f p w k row Hk Hrow) in Hrun. inversion Hrun; subst.
    exists (db w), [], []. cbn [db committed_world begun]. rewrite !app_nil_r. auto 10. }
  destruct res as [r|e].
  2:{ destruct (run_flow_miss_throw ahead f p w w' e Hrun) as [-> | ->];
        [exists (db w), [], []|exists (ahead (db w)), [], []];
        rewrite !app_nil_r; auto 10. }
  destruct (fresh_run ahead f p w w' r Hmiss Hrun)
    as (source & target & amt & bd & ad & bc & ac & ws & _ & _ & _ & _ & _
        & _ & _ & _ & _ & _ & _ & _ & _ & Hr & Hdb).
  exists (ahead (db w)), [completed_row f p (next_uuid w) (clock w) amt],
    [debit_entry (next_uuid w) (clock w) source amt bd ad;
     credit_entry (next_uuid w) (clock w) target amt bc ac].
  rewrite Hdb. cbn [transactions ledger_entries idempotency_keys].
  split; [now right|]. repeat split.
  right. do 3 eexists. repeat split. now rewrite Hr.
Qed.

(** X5.  A run leaves every wallet row in place with its id, owner, asset type
    and activity flag, and leaves the rows under other ids than the two of
    the request exactly as they were. *)
Theorem flows_touch_two_balances_only ahead f p w :
  exists base,
    (base = db w \/ base = ahead (db w)) /\
    Forall2 (same_wallet_but_balance (source_id f p) (target_id f p))
      (wallets base) (wallets (db (fst (run_flow ahead f p w)))).
Proof.
  destruct (run_flow ahead f p w) as [w' res] eqn:Hrun. cbn [fst].
  assert (Hrefl : forall l, Forall2
            (same_wallet_but_balance (source_id f p) (target_id f p)) l l).
  { intro l. apply Forall2_refl_on. intro x. unfold same_wallet_but_balance. auto. }
  destruct (hit_or_miss f p (db w)) as [(k & row & Hk & Hrow)|Hmiss].
  { rewrite (run_flow_hit ahead f p w k row Hk Hrow) in Hrun. inversion Hrun; subst.
    exists (db w). cbn [db committed_world begun]. auto. }
  destruct res as [r|e].
  2:{ destruct (run_flow_miss_throw ahead f p w w' e Hrun) as [-> | ->];
        [exists (db w)|exists (ahead (db w))]; auto. }
  destruct (fresh_run_updates ahead f p w w' r Hmiss Hrun) as (ws1 & H1 & H2 & _).
  exists (ahead (db w)). split; [now right|].
  apply update_rows_footprint in H1, H2.
  eapply Forall2_chain; [|exact H1|exact H2].
  cbn beta. intros x y z (A1 & A2 & A3 & A4 & A5) (B1 & B2 & B3 & B4 & B5).
  unfold same_wallet_but_balance. repeat split; try congruence.
  intros Hs Ht. rewrite B5 by congruence. auto.
Qed.

(** ** The statuses of a mutation endpoint *)

(** X6.  The controller answers 201 with the transaction when the flow returns.
    When the flow throws it answers with an error body carrying the request
    id: 404 NOT_FOUND, 409 CONFLICT, 422 INSUFFICIENT_FUNDS or
    CONSTRAINT_VIOLATION, or 500 INTERNAL_ERROR, the last only for a fault of
    the datastore or the runtime; in production no answer carries a stack and
    a 500 carries the generic message. *)
Theorem controller_answers_201_404_409_422_or_500 env ahead f req w :
  let res := snd (controller env ahead f req w) in
  res_x_idempotency_replayed res = false /\
  match run_flow ahead f (with_key (req_body req) (req_idempotency_key req)) w with
  | (_, Ok txn) => res_statusCode res = 201%nat /\ res_body res = BodySuccess txn
  | (_, Throw e) =>
      exists code msg details stack,
        res_body res = BodyError code msg details stack (requestId_of req) /\
        (NODE_ENV env = "production" -> stack = false) /\
        ((res_statusCode res = 404%nat /\ code = "NOT_FOUND") \/
         (res_statusCode res = 409%nat /\ code = "CONFLICT") \/
         (res_statusCode res = 422%nat /\
            (code = "INSUFFICIENT_FUNDS" \/ code = "CONSTRAINT_VIOLATION")) \/
         (res_statusCode res = 500%nat /\ code = "INTERNAL_ERROR" /\
            isOperational e = false /\
            (NODE_ENV env = "production" -> msg = Msg "An unexpected error occurred")))
  end.
Proof.
  cbv zeta. unfold controller.
  destruct (run_flow ahead f _ w) as [w1 [txn|e]] eqn:Hrun; cbn [snd].
  { cbn. auto. }
  apply run_flow_faults in Hrun.
  unfold errorHandler, requestId_of.
  destruct Hrun as [[(resource & _ & ->)|[(m & _ & ->)|(source & ->)]]|Hop].
  - cbn. split; [reflexivity|]. do 4 eexists. split; [reflexivity|]. auto.
  - cbn. split; [reflexivity|]. do 4 eexists. split; [reflexivity|]. auto.
  - cbn. split; [reflexivity|]. do 4 eexists. split; [reflexivity|]. auto 10.
  - destruct e as [msg sc code det|code c d|m]; [discriminate| |].
    + destruct (String.eqb code "23514"); [cbn; split; [reflexivity|];
        do 4 eexists; split; [reflexivity|]; auto 10|].
      destruct (String.eqb code "23505"); [cbn; split; [reflexivity|];
        do 4 eexists; split; [reflexivity|]; auto 10|].
      destruct (String.eqb (NODE_ENV env) "production") eqn:Hp;
        cbn; (split; [reflexivity|]); do 4 eexists; (split; [reflexivity|]).
      * split; [auto|]. right. right. right. auto.
      * apply String.eqb_neq in Hp. split; [intro; contradiction|].
        right. right. right. repeat split; auto. intro; contradiction.
    + destruct (String.eqb (NODE_ENV env) "production") eqn:Hp;
        cbn; (split; [reflexivity|]); do 4 eexists; (split; [reflexivity|]).
      * split; [auto|]. right. right. right. auto.
      * apply String.eqb_neq in Hp. split; [intro; contradiction|].
        right. right. right. repeat split; auto. intro; contradiction.
Qed.

(** * The idempotency boundary over several requests *)

Lemma existsb_false_filter {A} (P Q : A -> bool) (l : list A) :
  existsb P l = false -> filter (fun r => P r && Q r) l = [].
Proof.
  induction l as [|x l IH]; [reflexivity|].
  cbn [existsb filter]. intro H. apply orb_false_iff in H. destruct H as (Hx & Hl).
  rewrite Hx. cbn [andb]. auto.
Qed.

(** X7.  The first request under a key on a path is answered below 500 and its
    response is stored.  Any later request with that key on that path,
    whatever its body and whatever its handler would do, is answered with
    that first status and body, marked as replayed, as long as the record
    has not expired; it leaves the world as it found it. *)
Theorem retry_within_ttl_replays_the_first_response env req req' next next' w w2 key :
  truthy (req_idempotency_key req) = Some key ->
  truthy (req_idempotency_key req') = Some key ->
  req_path req' = req_path req ->
  (String.length key <= 255)%nat ->
  (String.length (req_path req) <= 500)%nat ->
  select_cached key (req_path req) w = [] ->
  existsb (same_key_path key (req_path req)) (idempotency_keys (db (fst (next w)))) = false ->
  (res_statusCode (snd (next w)) < 500)%nat ->
  idempotency_keys (db w2) = idempotency_keys (db (fst (idempotency env req next w))) ->
  clock w2 < clock (fst (next w)) + seconds_of_hours (IDEMPOTENCY_TTL_HOURS env) ->
  idempotency env req' next' w2
  = (w2, mk_response (res_statusCode (snd (next w))) true (res_body (snd (next w)))).
Proof.
  intros Hk Hk' Hpath Hlk Hlp Hmiss Hnew Hlt Hdb Hclock.
  assert (Hstored : idempotency_keys (db (fst (idempotency env req next w)))
            = (idempotency_keys (db (fst (next w)))
               ++ [mk_idempotency_key key (req_path req) (res_statusCode (snd (next w)))
                     (res_body (snd (next w)))
                     (clock (fst (next w))
                      + seconds_of_hours (IDEMPOTENCY_TTL_HOURS env))])%list).
  { unfold idempotency. rewrite Hk, Hmiss.
    destruct (next w) as [w1 res]. cbn [fst snd] in *.
    apply Nat.ltb_lt in Hlt. rewrite Hlt. cbn [fst].
    unfold store_response.
    apply Nat.leb_le in Hlk, Hlp. rewrite Hlk, Hlp, Hnew. reflexivity. }
  unfold idempotency. rewrite Hk', Hpath. unfold select_cached.
  rewrite Hdb, Hstored, filter_app.
  rewrite (existsb_false_filter _ _ _ Hnew).
  cbn [filter app]. unfold same_key_path. cbn [ik_key ik_request_path ik_expires_at].
  rewrite !String.eqb_refl. apply Z.ltb_lt in Hclock. rewrite Hclock. reflexivity.
Qed.

(** Scenario 2 at the boundary: an hour after the top-up of 100 under k1,
    a top-up of 999 under k1 is answered with the first response. *)
Lemma retry_within_ttl_witness :
  idempotency test_env topup_999_request
    (controller test_env no_rivals Topup topup_999_request)
    (later 3600 (fst (idempotency test_env topup_100_request
                        (controller test_env no_rivals Topup topup_100_request)
                        (world_of seed_db))))
  = (later 3600 (fst (idempotency test_env topup_100_request
                        (controller test_env no_rivals Topup topup_100_request)
                        (world_of seed_db))),
     mk_response
       (res_statusCode
          (snd (controller test_env no_rivals Topup topup_100_request (world_of seed_db))))
       true
       (res_body
          (snd (controller test_env no_rivals Topup topup_100_request (world_of seed_db))))).
Proof.
  apply (retry_within_ttl_replays_the_first_response test_env topup_100_request
           topup_999_request (controller test_env no_rivals Topup topup_100_request)
           (controller test_env no_rivals Topup topup_999_request) (world_of seed_db)
           _ "k1").
  - reflexivity.
  - reflexivity.
  - reflexivity.
  - vm_compute. repeat constructor.
  - vm_compute. repeat constructor.
  - vm_compute. reflexivity.
  - vm_compute. reflexivity.
  - vm_compute. repeat constructor.
  - vm_compute. reflexivity.
  - vm_compute. reflexivity.
Defined.

(** X8.  Once the record of a key on a path has expired, the boundary neither
    replays nor stores for that key and path: a handler that leaves
    [idempotency_keys] alone is run, and its world and response are passed
    on unchanged, the expired record still in place. *)
Theorem expired_record_is_never_replaced env req next w key row :
  truthy (req_idempotency_key req) = Some key ->
  idempotency_keys_unique (db w) ->
  In row (idempotency_keys (db w)) ->
  ik_key row = key -> ik_request_path row = req_path req ->
  ik_expires_at row <= clock w ->
  idempotency_keys (db (fst (next w))) = idempotency_keys (db w) ->
  idempotency env req next w = next w.
Proof.
  intros Hk Huniq Hin Hkey Hpath Hexp Hkeep.
  assert (Hsel : select_cached key (req_path req) w = []).
  { unfold select_cached.
    destruct (filter _ (idempotency_keys (db w))) as [|r rest] eqn:Hf; [reflexivity|].
    assert (Hr : In r (filter (fun r => same_key_path key (req_path req) r
                                        && (clock w <? ik_expires_at r))
                         (idempotency_keys (db w)))) by (rewrite Hf; now left).
    apply filter_In in Hr. destruct Hr as (Hr & Hc).
    apply andb_true_iff in Hc. destruct Hc as (Hs & Hlive).
    apply same_key_path_true in Hs. apply Z.ltb_lt in Hlive.
    assert (r = row).
    { eapply (pkey_inj (fun r => (ik_key r, ik_request_path r))); eauto.
      now rewrite Hs, Hkey, Hpath. }
    subst r. lia. }
  assert (Hex : existsb (same_key_path key (req_path req))
                  (idempotency_keys (db (fst (next w)))) = true).
  { rewrite Hkeep. apply existsb_exists. exists row. split; [exact Hin|].
    apply same_key_path_true. now rewrite Hkey, Hpath. }
  unfold idempotency. rewrite Hk, Hsel.
  destruct (next w) as [w1 res]. cbn [fst] in Hex.
  destruct (Nat.ltb _ 500); [|reflexivity].
  unfold store_response. rewrite Hex.
  destruct (negb _); reflexivity.
Qed.

(** A day and an hour after scenario 1 the record of k1 has expired. *)
Lemma expired_record_witness :
  idempotency test_env topup_100_request
    (controller test_env no_rivals Topup topup_100_request)
    (later (25 * 3600) after_first_request)
  = controller test_env no_rivals Topup topup_100_request
      (later (25 * 3600) after_first_request).
Proof.
  apply (expired_record_is_never_replaced test_env topup_100_request
           (controller test_env no_rivals Topup topup_100_request)
           (later (25 * 3600) after_first_request) "k1" cached_topup_100).
  - reflexivity.
  - unfold idempotency_keys_unique. vm_compute. repeat constructor. intros [].
  - vm_compute. left. reflexivity.
  - reflexivity.
  - reflexivity.
  - vm_compute. discriminate.
  - vm_compute. reflexivity.
Defined.

(** X9.  A request without an Idempotency-Key, or with an empty one, that the
    flow accepts is answered 201 and always creates a transaction: the row
    is new, carries no key, and nothing is stored at the boundary. *)
Theorem request_without_key_is_never_deduplicated env ahead f req w w' r :
  truthy (req_idempotency_key req) = None ->
  run_flow ahead f (with_key (req_body req) (req_idempotency_key req)) w = (w', Ok r) ->
  endpoint env ahead f req w = (w', mk_response 201 false (BodySuccess r)) /\
  f_idempotencyKey r = None /\
  existsb (id_is (f_id r)) (transactions (ahead (db w))) = false /\
  (exists T, transactions (db w') = (transactions (ahead (db w)) ++ [T])%list /\
             t_id T = f_id r) /\
  idempotency_keys (db w') = idempotency_keys (ahead (db w)).
Proof.
  intros Hk Hrun.
  assert (Hmiss : dup_miss (with_key (req_body req) (req_idempotency_key req)) (db w)).
  { unfold dup_miss. cbn [with_key idempotencyKey]. now rewrite Hk. }
  destruct (fresh_run ahead f _ w w' r Hmiss Hrun)
    as (source & target & amt & bd & ad & bc & ac & ws & _ & _ & _ & _ & _
        & _ & _ & _ & _ & _ & _ & Hid & _ & Hr & Hdb).
  split.
  { unfold endpoint, idempotency. rewrite Hk. unfold controller. now rewrite Hrun. }
  rewrite Hr, Hdb.
  cbn [formatTransaction star r_transaction completed_row f_idempotencyKey f_id t_id
       t_idempotency_key transactions idempotency_keys with_key idempotencyKey].
  split; [exact Hk|]. split; [exact Hid|].
  split; [|reflexivity]. eexists. split; reflexivity.
Qed.

Lemma keyless_topup_commits :
  run_flow no_rivals Topup
    (with_key (req_body keyless_topup_request) (req_idempotency_key keyless_topup_request))
    (world_of seed_db)
  = (fst (run_flow no_rivals Topup
            (with_key (req_body keyless_topup_request)
               (req_idempotency_key keyless_topup_request))
            (world_of seed_db)),
     Ok (formatTransaction
           (star (mk_transaction 0 ty_topup completed alice treasury (units 100)
                    (Some "stripe-111") None None [] 1700000000 1700000000)))).
Proof. vm_compute. reflexivity. Defined.

Lemma request_without_key_witness :
  endpoint test_env no_rivals Topup keyless_topup_request (world_of seed_db)
  = (fst (run_flow no_rivals Topup
            (with_key (req_body keyless_topup_request)
               (req_idempotency_key keyless_topup_request))
            (world_of seed_db)),
     mk_response 201 false
       (BodySuccess
          (formatTransaction
             (star (mk_transaction 0 ty_topup completed alice treasury (units 100)
                      (Some "stripe-111") None None [] 1700000000 1700000000))))).
Proof.
  exact (proj1 (request_without_key_is_never_deduplicated test_env no_rivals Topup
                  keyless_topup_request (world_of seed_db) _ _ eq_refl
                  keyless_topup_commits)).
Defined.

(** * Reading a transaction back *)





(** * The migration runner *)

Lemma insert_sorted_In (f x : string) (l : list string) :
  In x (insert_sorted f l) <-> x = f \/ In x l.
Proof.
  induction l as [|y l IH]; cbn [insert_sorted].
  - cbn. intuition.
  - destruct (String.leb f y); cbn [In]; [intuition|]. rewrite IH. intuition.
Qed.

Lemma sort_names_In (x : string) (l : list string) : In x (sort_names l) <-> In x l.
Proof.
  induction l as [|y l IH]; cbn [sort_names fold_right]; [reflexivity|].
  fold (sort_names l). rewrite insert_sorted_In, IH. cbn. intuition.
Qed.

Lemma insert_sorted_sorted (f : string) (l : list string) :
  StronglySorted by_name l -> StronglySorted by_name (insert_sorted f l).
Proof.
  induction 1 as [|x l Hs IH Hall]; cbn [insert_sorted].
  - repeat constructor.
  - destruct (String.leb f x) eqn:Hle.
    + constructor; [constructor; assumption|].
      constructor; [exact Hle|].
      eapply Forall_impl; [|exact Hall]. unfold by_name. intros y Hy.
      eapply string_leb_trans; eauto.
    + constructor; [exact IH|].
      apply Forall_forall. intros y Hy. apply insert_sorted_In in Hy.
      destruct Hy as [->|Hy].
      * now apply string_leb_false.
      * rewrite Forall_forall in Hall. auto.
Qed.

Lemma sort_names_sorted (l : list string) : StronglySorted by_name (sort_names l).
Proof.
  induction l as [|x l IH]; cbn [sort_names fold_right]; [constructor|].
  now apply insert_sorted_sorted.
Qed.

Lemma filter_sorted {A} (R : A -> A -> Prop) (P : A -> bool) (l : list A) :
  StronglySorted R l -> StronglySorted R (filter P l).
Proof.
  induction 1 as [|x l Hs IH Hall]; cbn [filter]; [constructor|].
  destruct (P x); [|exact IH].
  constructor; [exact IH|].
  apply Forall_forall. intros y Hy. apply filter_In in Hy.
  rewrite Forall_forall in Hall. now apply Hall.
Qed.

Lemma existsb_eqb_In (f : string) (l : list string) :
  existsb (String.eqb f) l = true <-> In f l.
Proof.
  rewrite existsb_exists. split.
  - intros (x & Hx & He). apply String.eqb_eq in He. now subst.
  - intro H. exists f. split; [exact H|apply String.eqb_refl].
Qed.

Section Runs.

Variable Schema : Type.
Variable run_sql : string -> Schema -> Schema + string.

Abbreviation apply_files := (apply_files run_sql).
Abbreviation migrate := (migrate run_sql).
Abbreviation run_all := (run_all run_sql).

Lemma recorded_create (c : Catalog Schema) :
  recorded (create_schema_migrations c) = recorded c /\
  schema (create_schema_migrations c) = schema c /\
  schema_migrations (create_schema_migrations c)
    = Some (recorded c).
Proof.
  unfold create_schema_migrations, recorded.
  destruct c as [s [t|]]; cbn; auto.
Qed.

(** The loop, as a function of the pending files. *)
Lemma apply_files_complete dir A (files : list string) : forall c k c' n,
  apply_files dir A files c k = (c', Complete n) ->
  recorded c' = (recorded c ++ filter (is_pending A) files)%list /\
  n = (k + List.length (filter (is_pending A) files))%nat /\
  run_all dir (filter (is_pending A) files) (schema c)
    = Some (schema c') /\
  (filter (is_pending A) files = [] -> c' = c).
Proof.
  induction files as [|file rest IH]; intros c k c' n H; cbn [apply_files] in H.
  - inversion H; subst. cbn. rewrite app_nil_r. auto.
  - cbn [filter].
    change (is_pending A file) with (negb (existsb (String.eqb file) A)).
    destruct (existsb (String.eqb file) A); cbn [negb].
    + now apply IH.
    + destruct (readFile dir file) as [sql|] eqn:Hread; [|discriminate].
      destruct (run_sql sql (schema c)) as [s|msg] eqn:Hrun; [|discriminate].
      destruct (insert_migration file (recorded c)) as [t|msg] eqn:Hins;
        [|discriminate].
      apply IH in H. destruct H as (Hrec & Hn & Hall & _).
      cbn [recorded schema_migrations schema] in Hrec, Hall.
      unfold insert_migration in Hins.
      destruct (negb _); [discriminate|].
      destruct (existsb _ _); [discriminate|]. inversion Hins; subst t.
      cbn [run_all List.length]. rewrite Hread, Hrun.
      rewrite Hrec, <- app_assoc. cbn [app].
      repeat split; auto; [lia|discriminate].
Qed.


Lemma apply_files_skip dir A (files : list string) c k :
  (forall f, In f files -> In f A) -> apply_files dir A files c k = (c, Complete k).
Proof.
  induction files as [|file rest IH]; intro Hall; cbn [apply_files]; [reflexivity|].
  assert (Hf : existsb (String.eqb file) A = true).
  { apply existsb_eqb_In. apply Hall. now left. }
  rewrite Hf. apply IH. intros f Hin. apply Hall. now right.
Qed.

(** A loop that fails stops at the first pending file that cannot be read,
    run or recorded. *)
Lemma apply_files_failure dir A (files : list string) : forall c k c' msg,
  apply_files dir A files c k = (c', Failure msg) ->
  exists done file rest,
    filter (is_pending A) files = (done ++ file :: rest)%list /\
    recorded c' = (recorded c ++ done)%list /\
    run_all dir done (schema c) = Some (schema c') /\
    (readFile dir file = None \/
     exists sql m,
       readFile dir file = Some sql /\ msg = migration_failed file m /\
       (run_sql sql (schema c') = inr m \/
        exists s, run_sql sql (schema c') = inl s /\
                  insert_migration file (recorded c') = inr m)).
Proof.
  induction files as [|file rest IH]; intros c k c' msg H; cbn [apply_files] in H;
    [discriminate|].
  cbn [filter].
  change (is_pending A file) with (negb (existsb (String.eqb file) A)).
  destruct (existsb (String.eqb file) A); cbn [negb].
  { exact (IH _ _ _ _ H). }
  destruct (readFile dir file) as [sql|] eqn:Hread.
  2:{ inversion H; subst. exists [], file, (filter (is_pending A) rest).
      cbn [app run_all]. rewrite app_nil_r. auto. }
  destruct (run_sql sql (schema c)) as [s|m] eqn:Hrun.
  2:{ inversion H; subst. exists [], file, (filter (is_pending A) rest).
      cbn [app run_all]. rewrite app_nil_r. repeat split; auto.
      right. exists sql, m. auto. }
  destruct (insert_migration file (recorded c)) as [t|m] eqn:Hins.
  2:{ inversion H; subst. exists [], file, (filter (is_pending A) rest).
      cbn [app run_all]. rewrite app_nil_r. repeat split; auto.
      right. exists sql, m. repeat split; auto. right. exists s. auto. }
  apply IH in H. destruct H as (done & f & rest' & Hp & Hrec & Hall & Hwhy).
  cbn [recorded schema_migrations schema] in Hrec, Hall.
  unfold insert_migration in Hins.
  destruct (negb _); [discriminate|].
  destruct (existsb _ _); [discriminate|]. inversion Hins; subst t.
  exists (file :: done), f, rest'.
  cbn [app run_all]. rewrite Hread, Hrun, Hp.
  split; [reflexivity|]. split; [now rewrite Hrec, <- app_assoc|].
  split; [exact Hall|exact Hwhy].
Qed.

Lemma insert_sorted_NoDup (f : string) (l : list string) :
  ~ In f l -> NoDup l -> NoDup (insert_sorted f l).
Proof.
  induction l as [|x l IH]; cbn [insert_sorted]; intros Hf Hnd.
  - constructor; [intros []|constructor].
  - destruct (String.leb f x); [constructor; assumption|].
    inversion Hnd; subst. constructor.
    + rewrite insert_sorted_In. intros [->|Hin]; [apply Hf; now left|contradiction].
    + apply IH; [|assumption]. intro Hin. apply Hf. now right.
Qed.

Lemma sort_names_NoDup (l : list string) : NoDup l -> NoDup (sort_names l).
Proof.
  induction 1 as [|x l Hx Hnd IH]; cbn [sort_names fold_right]; [constructor|].
  apply insert_sorted_NoDup; [|exact IH]. fold (sort_names l). now rewrite sort_names_In.
Qed.

Lemma pending_files_In dir t f :
  In f (pending_files dir t) <->
  In f (map fst dir) /\ endsWith ".sql" f = true /\ ~ In f t.
Proof.
  unfold pending_files, is_pending. rewrite filter_In, sort_names_In, filter_In.
  rewrite negb_true_iff, <- not_true_iff_false, existsb_eqb_In. tauto.
Qed.

(** X11.  A run that completes has applied the pending files, each once, in
    ascending order of their names: their texts were run in that order on
    the schema, their names were added to [schema_migrations] in that
    order, and the count is their number.  Every [.sql] file of the
    directory is recorded afterwards. *)
Theorem migrate_applies_pending_files_in_name_order dir c c' n :
  migrate dir c = (c', Complete n) ->
  let pending := pending_files dir (recorded c) in
  StronglySorted by_name pending /\
  recorded c' = (recorded c ++ pending)%list /\
  n = List.length pending /\
  run_all dir pending (schema c) = Some (schema c') /\
  (forall f, In f (map fst dir) -> endsWith ".sql" f = true ->
             In f (recorded c')).
Proof.
  unfold migrate. cbv zeta. intro H.
  destruct (recorded_create c) as (Hrec & Hsch & _).
  apply apply_files_complete in H. rewrite Hrec, Hsch in H.
  destruct H as (Ht & Hn & Hall & _).
  fold (pending_files dir (recorded c)) in Ht, Hn, Hall.
  split; [apply filter_sorted, sort_names_sorted|].
  repeat split; auto.
  intros f Hin Hsql. rewrite Ht. apply in_or_app.
  destruct (in_dec string_dec f (recorded c)) as [Hr|Hr]; [now left|right].
  apply pending_files_In. auto.
Qed.

Lemma apply_files_keeps_table dir A (files : list string) : forall c k,
  schema_migrations c <> None ->
  schema_migrations (fst (apply_files dir A files c k)) <> None.
Proof.
  induction files as [|file rest IH]; intros c k Hc; cbn [apply_files]; [exact Hc|].
  destruct (existsb (String.eqb file) A); [now apply IH|].
  destruct (readFile dir file) as [sql|]; [|exact Hc].
  destruct (run_sql sql (schema c)) as [s|m]; [|exact Hc].
  destruct (insert_migration file (recorded c)) as [t|m]; [|exact Hc].
  apply IH. discriminate.
Qed.

Lemma create_schema_migrations_idem (c : Catalog Schema) :
  schema_migrations c <> None -> create_schema_migrations c = c.
Proof.
  unfold create_schema_migrations. destruct (schema_migrations c); [auto|].
  now intros [].
Qed.

(** X12.  Running the migrations again after a run that completed applies
    nothing and changes nothing. *)
Theorem migrate_again_applies_nothing dir c c' n :
  migrate dir c = (c', Complete n) ->
  migrate dir c' = (c', Complete 0).
Proof.
  intro H.
  assert (Hsome : schema_migrations c' <> None).
  { unfold migrate in H. cbv zeta in H.
    pose proof (apply_files_keeps_table dir
                  (recorded (create_schema_migrations c))
                  (sort_names (filter (endsWith ".sql") (map fst dir)))
                  (create_schema_migrations c) 0) as Hk.
    rewrite H in Hk. apply Hk.
    destruct (recorded_create c) as (_ & _ & ->). discriminate. }
  assert (Hall : forall f,
            In f (sort_names (filter (endsWith ".sql") (map fst dir))) ->
            In f (recorded c')).
  { unfold migrate in H. cbv zeta in H.
    destruct (recorded_create c) as (Hrec & _ & _).
    apply apply_files_complete in H. rewrite Hrec in H.
    destruct H as (Ht & _). intros f Hin. rewrite Ht. apply in_or_app.
    destruct (in_dec string_dec f (recorded c)) as [Hr|Hr]; [now left|right].
    apply filter_In. split; [exact Hin|].
    unfold is_pending. apply negb_true_iff, not_true_iff_false.
    now rewrite existsb_eqb_In. }
  unfold migrate. cbv zeta.
  rewrite (create_schema_migrations_idem c' Hsome).
  now apply apply_files_skip.
Qed.

(** X13.  A run that fails has applied and recorded the pending files that sort
    before the one it failed on, in their order, and nothing else: the
    failing file and the ones after it are not recorded, and the schema is
    the one the last applied file left. *)
Theorem migrate_failure_keeps_the_files_before dir c c' msg :
  migrate dir c = (c', Failure msg) ->
  exists done file rest,
    pending_files dir (recorded c) = (done ++ file :: rest)%list /\
    recorded c' = (recorded c ++ done)%list /\
    run_all dir done (schema c) = Some (schema c') /\
    Forall (fun f => by_name f file) done /\
    (NoDup (map fst dir) -> ~ In file (recorded c')) /\
    (readFile dir file = None \/
     exists sql m,
       readFile dir file = Some sql /\ msg = migration_failed file m /\
       (run_sql sql (schema c') = inr m \/
        exists s, run_sql sql (schema c') = inl s /\
                  insert_migration file (recorded c') = inr m)).
Proof.
  unfold migrate. cbv zeta. intro H.
  destruct (recorded_create c) as (Hrec & Hsch & _).
  apply apply_files_failure in H. rewrite Hrec, Hsch in H.
  destruct H as (done & file & rest & Hp & Ht & Hall & Hwhy).
  fold (pending_files dir (recorded c)) in Hp.
  exists done, file, rest.
  split; [exact Hp|]. split; [exact Ht|]. split; [exact Hall|].
  assert (Hsorted : StronglySorted by_name (pending_files dir (recorded c)))
    by apply filter_sorted, sort_names_sorted.
  split.
  { rewrite Hp in Hsorted. clear - Hsorted.
    induction done as [|x done IH]; [constructor|].
    cbn [app] in Hsorted. inversion Hsorted as [|? ? Hs Hx]; subst.
    constructor; [|auto].
    rewrite Forall_forall in Hx. apply Hx. apply in_or_app. right. now left. }
  split; [|exact Hwhy].
  intros Hnd Hin. rewrite Ht in Hin. apply in_app_or in Hin.
  assert (Hpend : In file (pending_files dir (recorded c))).
  { rewrite Hp. apply in_or_app. right. now left. }
  destruct Hin as [Hin|Hin].
  - apply pending_files_In in Hpend. tauto.
  - assert (Hnd' : NoDup (pending_files dir (recorded c))).
    { unfold pending_files. apply NoDup_filter, sort_names_NoDup, NoDup_filter, Hnd. }
    rewrite Hp in Hnd'. apply NoDup_remove_2 in Hnd'.
    apply Hnd'. apply in_or_app. now left.
Qed.

End Runs.

Lemma toy_migration_completes :
  migrate toy_sql toy_dir fresh_catalog
  = (fst (migrate toy_sql toy_dir fresh_catalog), Complete 2).
Proof. vm_compute. reflexivity. Defined.

Lemma migrate_in_name_order_witness :
  recorded (fst (migrate toy_sql toy_dir fresh_catalog))
  = (recorded fresh_catalog ++ pending_files toy_dir (recorded fresh_catalog))%list /\
  pending_files toy_dir (recorded fresh_catalog)
  = ["001_create_asset_types.sql"; "002_create_wallets.sql"].
Proof.
  split; [|vm_compute; reflexivity].
  exact (proj1 (proj2 (migrate_applies_pending_files_in_name_order (list string) toy_sql
                         toy_dir fresh_catalog _ 2 toy_migration_completes))).
Defined.

Lemma migrate_again_witness :
  migrate toy_sql toy_dir (fst (migrate toy_sql toy_dir fresh_catalog))
  = (fst (migrate toy_sql toy_dir fresh_catalog), Complete 0).
Proof.
  exact (migrate_again_applies_nothing (list string) toy_sql toy_dir fresh_catalog _ 2
           toy_migration_completes).
Defined.

Lemma broken_migration_fails :
  migrate toy_sql broken_dir fresh_catalog
  = (fst (migrate toy_sql broken_dir fresh_catalog),
     Failure (migration_failed "003_create_transactions.sql"
                "syntax error at or near boom")).
Proof. vm_compute. reflexivity. Defined.

Lemma migrate_failure_witness :
  exists done file rest,
    pending_files broken_dir (recorded fresh_catalog) = (done ++ file :: rest)%list /\
    recorded (fst (migrate toy_sql broken_dir fresh_catalog))
    = (recorded fresh_catalog ++ done)%list /\
    Forall (fun f => by_name f file) done.
Proof.
  destruct (migrate_failure_keeps_the_files_before (list string) toy_sql broken_dir
              fresh_catalog _ _ broken_migration_fails)
    as (done & file & rest & H1 & H2 & _ & H3 & _).
  exists done, file, rest. exact (conj H1 (conj H2 H3)).
Defined.

(** * Binary64 arithmetic against the decimals of the store *)

(** ** Rounding to nearest, ties to even *)

Lemma round_half_even_close (N D : Z) :
  0 < D -> - D <= 2 * (Js.round_half_even N D * D - N) <= D.
Proof.
  intro HD. unfold Js.round_half_even. cbv zeta.
  pose proof (Z.div_mod N D ltac:(lia)) as Hdm.
  pose proof (Z.mod_pos_bound N D HD) as Hr.
  set (q := N / D) in *. set (r := N mod D) in *. clearbody q r.
  destruct (Z.compare_spec (2 * r) D) as [Hc|Hc|Hc];
    [destruct (Z.even q)| |]; lia.
Qed.

Lemma round_half_even_scale (N D N' D' : Z) :
  0 < D -> 0 < D' -> N * D' = N' * D ->
  Js.round_half_even N D = Js.round_half_even N' D'.
Proof.
  intros HD HD' Heq. unfold Js.round_half_even. cbv zeta.
  pose proof (Z.div_mod N D ltac:(lia)) as Hdm.
  pose proof (Z.mod_pos_bound N D HD) as Hr.
  set (q := N / D) in *. set (r := N mod D) in *. clearbody q r.
  assert (Hq' : N' / D' = q).
  { symmetry. apply (Z.div_unique _ _ _ (N' - D' * q)); nia. }
  assert (Hr' : (N' mod D') * D = r * D').
  { pose proof (Z.div_mod N' D' ltac:(lia)) as Hdm'. rewrite Hq' in Hdm'. nia. }
  rewrite Hq'. set (r' := N' mod D') in *. clearbody r'.
  assert (Hc : (2 * r ?= D) = (2 * r' ?= D')).
  { destruct (Z.compare_spec (2 * r) D), (Z.compare_spec (2 * r') D');
      try reflexivity; exfalso; nia. }
  now rewrite Hc.
Qed.

Section Binary64.

Local Open Scope Q_scope.

Lemma pow2Q_spec (e : Z) : Js.pow2Q e == 2 ^ e.
Proof.
  unfold Js.pow2Q. destruct (0 <=? e)%Z eqn:He.
  - apply Z.leb_le in He. now rewrite Zpower_Qpower.
  - apply Z.leb_gt in He.
    assert (Hk : (0 < 2 ^ (- e))%Z) by (apply Z.pow_pos_nonneg; lia).
    replace e with (- (- e))%Z at 2 by lia.
    rewrite Qpower_opp, <- (Zpower_Qpower 2 (- e)) by lia.
    destruct (2 ^ (- e))%Z as [|p|p]; try lia. reflexivity.
Qed.

Lemma pow2Q_pos (e : Z) : 0 < Js.pow2Q e.
Proof. rewrite pow2Q_spec. now apply Qpower_0_lt. Qed.

Lemma pow2Q_add (a b : Z) : Js.pow2Q (a + b) == Js.pow2Q a * Js.pow2Q b.
Proof. rewrite !pow2Q_spec. now apply Qpower_plus. Qed.

Lemma pow2Q_mono (a b : Z) : (a <= b)%Z -> Js.pow2Q a <= Js.pow2Q b.
Proof. intro H. rewrite !pow2Q_spec. apply Qpower_le_compat_l; [exact H|discriminate]. Qed.

Lemma pow2Q_nonneg (e : Z) : (0 <= e)%Z -> Js.pow2Q e = inject_Z (2 ^ e).
Proof. intro H. unfold Js.pow2Q. apply Z.leb_le in H. now rewrite H. Qed.

(** [p * 2^(a-b) <= q] read with non-negative exponents. *)
Lemma pow2Q_shift_le (a b : Z) (x y : Q) :
  x * Js.pow2Q a <= y * Js.pow2Q b -> x * Js.pow2Q (a - b) <= y.
Proof.
  intro H. apply (Qmult_le_r _ _ (Js.pow2Q b)); [apply pow2Q_pos|].
  assert (E : Js.pow2Q (a - b) * Js.pow2Q b == Js.pow2Q a).
  { rewrite <- pow2Q_add. now replace (a - b + b)%Z with a by lia. }
  rewrite <- Qmult_assoc, E. exact H.
Qed.

Lemma pow2Q_shift_lt (a b : Z) (x y : Q) :
  x * Js.pow2Q b < y * Js.pow2Q a -> x < y * Js.pow2Q (a - b).
Proof.
  intro H. apply (Qmult_lt_r _ _ (Js.pow2Q b)); [apply pow2Q_pos|].
  assert (E : Js.pow2Q (a - b) * Js.pow2Q b == Js.pow2Q a).
  { rewrite <- pow2Q_add. now replace (a - b + b)%Z with a by lia. }
  rewrite <- Qmult_assoc, E. exact H.
Qed.

Ltac push_inject H :=
  unfold Z.sub in H;
  repeat (rewrite inject_Z_plus in H || rewrite inject_Z_mult in H
          || rewrite inject_Z_opp in H);
  change (inject_Z 2) with 2 in H.

Lemma inject_Z_pos (z : Z) : (0 < z)%Z -> 0 < inject_Z z.
Proof. intro H. unfold Qlt. cbn. lia. Qed.

Lemma fl_pos_eq (n d : Z) :
  let e := Z.max (last_bit n d) (-1074) in
  Js.fl_pos n d == inject_Z (significand n d e) * Js.pow2Q e.
Proof.
  unfold Js.fl_pos, significand, last_bit. cbv zeta. apply Qred_correct.
Qed.

Lemma significand_close (n d e : Z) (q : Q) :
  (0 < d)%Z -> q * inject_Z d == inject_Z n ->
  q - (1 # 2) * Js.pow2Q e <= inject_Z (significand n d e) * Js.pow2Q e
  /\ inject_Z (significand n d e) * Js.pow2Q e <= q + (1 # 2) * Js.pow2Q e.
Proof.
  intros Hd Hq. unfold significand.
  assert (HdQ : 0 < inject_Z d) by (apply inject_Z_pos; exact Hd).
  destruct (0 <=? e)%Z eqn:He.
  - apply Z.leb_le in He. rewrite (pow2Q_nonneg e He).
    assert (HK : (0 < 2 ^ e)%Z) by (apply Z.pow_pos_nonneg; lia).
    pose proof (round_half_even_close n (d * 2 ^ e) ltac:(nia)) as (H1 & H2).
    set (m := Js.round_half_even n (d * 2 ^ e)) in *. clearbody m.
    set (K := (2 ^ e)%Z) in *. clearbody K.
    rewrite Zle_Qle in H1, H2. push_inject H1. push_inject H2.
    set (dQ := inject_Z d) in *. set (KQ := inject_Z K) in *.
    set (mQ := inject_Z m) in *. set (nQ := inject_Z n) in *.
    clearbody dQ KQ mQ nQ.
    split; apply (Qmult_le_r _ _ dQ); try exact HdQ; nra.
  - apply Z.leb_gt in He.
    assert (HK : (0 < 2 ^ (- e))%Z) by (apply Z.pow_pos_nonneg; lia).
    assert (HP : Js.pow2Q e * inject_Z (2 ^ (- e)) == 1).
    { rewrite <- (pow2Q_nonneg (- e)) by lia. rewrite <- pow2Q_add.
      now replace (e + - e)%Z with 0%Z by lia. }
    pose proof (pow2Q_pos e) as HPpos.
    pose proof (round_half_even_close (n * 2 ^ (- e)) d Hd) as (H1 & H2).
    set (m := Js.round_half_even (n * 2 ^ (- e)) d) in *. clearbody m.
    set (K := (2 ^ (- e))%Z) in *. clearbody K.
    set (P := Js.pow2Q e) in *. clearbody P.
    assert (HKQ : 0 < inject_Z K) by (apply inject_Z_pos; exact HK).
    rewrite Zle_Qle in H1, H2. push_inject H1. push_inject H2.
    set (dQ := inject_Z d) in *. set (KQ := inject_Z K) in *.
    set (mQ := inject_Z m) in *. set (nQ := inject_Z n) in *.
    clearbody dQ KQ mQ nQ.
    assert (E1 : q * dQ * KQ == nQ * KQ) by (rewrite Hq; reflexivity).
    assert (E2 : P * dQ * KQ == dQ)
      by (transitivity (P * KQ * dQ); [ring|rewrite HP; ring]).
    assert (E3 : mQ * P * dQ * KQ == mQ * dQ)
      by (transitivity (mQ * dQ * (P * KQ)); [ring|rewrite HP; ring]).
    split; apply (Qmult_le_r _ _ (dQ * KQ));
      try (apply Qmult_lt_0_compat; assumption); lra.
Qed.

Lemma log2_bounds (n : Z) :
  (0 < n)%Z ->
  Js.pow2Q (Z.log2 n) <= inject_Z n /\ inject_Z n < Js.pow2Q (Z.log2 n + 1).
Proof.
  intro Hn. pose proof (Z.log2_nonneg n) as H0.
  destruct (Z.log2_spec n Hn) as (H1 & H2).
  rewrite !pow2Q_nonneg by lia.
  split; [now rewrite <- Zle_Qle|].
  rewrite <- Zlt_Qlt. now replace (Z.log2 n + 1)%Z with (Z.succ (Z.log2 n)) by lia.
Qed.

Lemma last_bit_bounds (n d : Z) :
  (0 < n)%Z -> (0 < d)%Z ->
  inject_Z d * Js.pow2Q (last_bit n d + 52) <= inject_Z n /\
  inject_Z n < inject_Z d * Js.pow2Q (last_bit n d + 53).
Proof.
  intros Hn Hd. unfold last_bit. cbv zeta.
  destruct (log2_bounds n Hn) as (Hn1 & Hn2).
  destruct (log2_bounds d Hd) as (Hd1 & Hd2).
  pose proof (inject_Z_pos n Hn) as HnQ. pose proof (inject_Z_pos d Hd) as HdQ.
  pose proof (pow2Q_pos (Z.log2 n)) as P1. pose proof (pow2Q_pos (Z.log2 d)) as P2.
  set (Ln := Z.log2 n) in *. set (Ld := Z.log2 d) in *. clearbody Ln Ld.
  set (e0 := (Ln - Ld - 52)%Z).
  assert (Hbelow :
    (if (0 <=? e0)%Z then (n <? d * 2 ^ (e0 + 52))%Z
     else (n * 2 ^ (- e0) <? d * 2 ^ 52)%Z) = true
    -> inject_Z n < inject_Z d * Js.pow2Q (e0 + 52)).
  { destruct (0 <=? e0)%Z eqn:He; intro Hb; apply Z.ltb_lt in Hb.
    - apply Z.leb_le in He. rewrite pow2Q_nonneg by lia.
      rewrite <- inject_Z_mult. now rewrite <- Zlt_Qlt.
    - apply Z.leb_gt in He.
      replace (e0 + 52)%Z with (52 - - e0)%Z by lia.
      apply pow2Q_shift_lt. rewrite !pow2Q_nonneg by lia.
      rewrite <- !inject_Z_mult. now rewrite <- Zlt_Qlt. }
  assert (Hnot :
    (if (0 <=? e0)%Z then (n <? d * 2 ^ (e0 + 52))%Z
     else (n * 2 ^ (- e0) <? d * 2 ^ 52)%Z) = false
    -> inject_Z d * Js.pow2Q (e0 + 52) <= inject_Z n).
  { destruct (0 <=? e0)%Z eqn:He; intro Hb; apply Z.ltb_ge in Hb.
    - apply Z.leb_le in He. rewrite pow2Q_nonneg by lia.
      rewrite <- inject_Z_mult. now rewrite <- Zle_Qle.
    - apply Z.leb_gt in He.
      replace (e0 + 52)%Z with (52 - - e0)%Z by lia.
      apply pow2Q_shift_le. rewrite !pow2Q_nonneg by lia.
      rewrite <- !inject_Z_mult. now rewrite <- Zle_Qle. }
  destruct (if (0 <=? e0)%Z then _ else _) eqn:Hb.
  - split.
    + replace (e0 - 1 + 52)%Z with (Ln - (Ld + 1))%Z by (unfold e0; lia).
      apply pow2Q_shift_le.
      set (A := Js.pow2Q Ln) in *. set (B := Js.pow2Q (Ld + 1)) in *.
      set (nQ := inject_Z n) in *. set (dQ := inject_Z d) in *.
      clearbody A B nQ dQ. nra.
    + replace (e0 - 1 + 53)%Z with (e0 + 52)%Z by lia. now apply Hbelow.
  - split; [now apply Hnot|].
    replace (e0 + 53)%Z with (Ln + 1 - Ld)%Z by (unfold e0; lia).
    apply pow2Q_shift_lt.
    set (A := Js.pow2Q (Ln + 1)) in *. set (B := Js.pow2Q Ld) in *.
    set (nQ := inject_Z n) in *. set (dQ := inject_Z d) in *.
    clearbody A B nQ dQ. nra.
Qed.

Lemma fl_pos_close (n d : Z) (q : Q) :
  (0 < n)%Z -> (0 < d)%Z -> q * inject_Z d == inject_Z n ->
  q * (1 - unit_roundoff) - subnormal_slack <= Js.fl_pos n d /\
  Js.fl_pos n d <= q * (1 + unit_roundoff) + subnormal_slack.
Proof.
  intros Hn Hd Hq.
  pose proof (inject_Z_pos n Hn) as HnQ. pose proof (inject_Z_pos d Hd) as HdQ.
  assert (Hqpos : 0 < q).
  { apply (Qmult_lt_r _ _ (inject_Z d)); [exact HdQ|]. rewrite Hq. lra. }
  rewrite fl_pos_eq. cbv zeta.
  destruct (significand_close n d (Z.max (last_bit n d) (-1074)) q Hd Hq) as (H1 & H2).
  assert (HP : (1 # 2) * Js.pow2Q (Z.max (last_bit n d) (-1074))
               <= q * unit_roundoff + subnormal_slack).
  { destruct (Z.max_spec (last_bit n d) (-1074)) as [(Hlt & ->)|(Hge & ->)].
    - assert (Hc : (1 # 2) * Js.pow2Q (-1074) <= subnormal_slack)
        by (vm_compute; discriminate).
      unfold unit_roundoff in *. clear - Hc Hqpos.
      set (P := Js.pow2Q (-1074)) in *. clearbody P. lra.
    - destruct (last_bit_bounds n d Hn Hd) as (Hlow & _).
      rewrite pow2Q_add in Hlow.
      assert (H52 : Js.pow2Q 52 == 4503599627370496) by reflexivity.
      rewrite H52 in Hlow.
      assert (Hle : Js.pow2Q (last_bit n d) * 4503599627370496 <= q).
      { apply (Qmult_le_r _ _ (inject_Z d)); [exact HdQ|]. rewrite Hq.
        set (P := Js.pow2Q (last_bit n d)) in *.
        set (dQ := inject_Z d) in *. set (nQ := inject_Z n) in *.
        clearbody P dQ nQ. clear - Hlow. lra. }
      unfold unit_roundoff, subnormal_slack.
      set (P := Js.pow2Q (last_bit n d)) in *. clearbody P. clear - Hle Hqpos. lra. }
  set (X := inject_Z _ * Js.pow2Q _) in *. clearbody X.
  set (P := Js.pow2Q _) in *. clearbody P.
  unfold unit_roundoff, subnormal_slack in *. clear - H1 H2 HP. split; lra.
Qed.

Lemma round_half_even_nonneg (N D : Z) :
  (0 <= N)%Z -> (0 < D)%Z -> (0 <= Js.round_half_even N D)%Z.
Proof.
  intros HN HD. unfold Js.round_half_even. cbv zeta.
  pose proof (Z.div_pos N D HN HD).
  destruct (2 * (N mod D) ?= D)%Z; [destruct (Z.even _)| |]; lia.
Qed.

Lemma fl_pos_nonneg (n d : Z) : (0 < n)%Z -> (0 < d)%Z -> 0 <= Js.fl_pos n d.
Proof.
  intros Hn Hd. rewrite fl_pos_eq. cbv zeta.
  apply Qmult_le_0_compat; [|apply Qlt_le_weak, pow2Q_pos].
  change 0 with (inject_Z 0). rewrite <- Zle_Qle. unfold significand.
  destruct (0 <=? _)%Z eqn:He; apply round_half_even_nonneg; lia.
Qed.

(** Rounding to binary64 has a relative error of at most [2^-53]. *)
Lemma fl_close (q : Q) :
  0 <= q ->
  q * (1 - unit_roundoff) - subnormal_slack <= Js.fl q /\
  Js.fl q <= q * (1 + unit_roundoff) + subnormal_slack.
Proof.
  intro Hq. destruct q as [n d]. unfold Js.fl. cbn [Qnum Qden].
  destruct n as [|n|n].
  - unfold unit_roundoff, subnormal_slack. split; [vm_compute|vm_compute]; discriminate.
  - apply fl_pos_close; [lia|lia|].
    unfold Qeq. cbn. lia.
  - exfalso. unfold Qle in Hq. cbn in Hq. lia.
Qed.

Lemma fl_sign (q : Q) :
  (0 < Qnum (Js.fl q))%Z -> (0 < Qnum q)%Z.
Proof.
  destruct q as [n d]. unfold Js.fl. cbn [Qnum Qden].
  destruct n as [|n|n]; [cbn; lia|lia|].
  intro H. exfalso.
  pose proof (fl_pos_nonneg (Zpos n) (Zpos d) ltac:(lia) ltac:(lia)) as Hnn.
  assert (Hneg : Qred (- Js.fl_pos (Z.pos n) (Z.pos d)) <= 0).
  { rewrite Qred_correct. lra. }
  unfold Qle in Hneg. cbn [Qnum Qden] in Hneg. lia.
Qed.

Lemma eqb_Qeq (a b : Q) : Js.eqb a b = true -> a == b.
Proof. unfold Js.eqb, Qeq. apply Z.eqb_eq. Qed.

Lemma candidate_reads_back (a : Q) (E k : Z) (c : Q) :
  Js.candidate a E k = Some c -> Js.fl c == a.
Proof.
  unfold Js.candidate. cbv zeta.
  destruct (Js.eqb (Js.fl (Qred (inject_Z (Js.Qfloor' _) * _))) a) eqn:Hlo;
  destruct (Js.eqb (Js.fl (Qred (inject_Z (Js.Qfloor' _ + 1) * _))) a) eqn:Hhi;
    try discriminate.
  - destruct (Js.ltb _ _); [|destruct (Js.ltb _ _); [|destruct (Z.even _)]];
      inversion 1; subst; now apply eqb_Qeq.
  - inversion 1; subst. now apply eqb_Qeq.
  - inversion 1; subst. now apply eqb_Qeq.
Qed.

Lemma shortest_reads_back (a : Q) (E : Z) (fuel : nat) : forall k,
  Js.shortest a E fuel k = a \/ Js.fl (Js.shortest a E fuel k) == a.
Proof.
  induction fuel as [|fuel IH]; intro k; cbn [Js.shortest]; [now left|].
  destruct (Js.candidate a E k) as [c|] eqn:Hc.
  - right. eapply candidate_reads_back; eauto.
  - apply IH.
Qed.

(** The decimal that [String(x)] prints is within a relative [2^-53] of [x]. *)
Lemma toString_close (x : Q) :
  0 <= x ->
  0 <= Js.toString_value x /\
  Js.toString_value x * (1 - unit_roundoff) - subnormal_slack <= x /\
  x <= Js.toString_value x * (1 + unit_roundoff) + subnormal_slack.
Proof.
  intro Hx. unfold Js.toString_value.
  destruct (Qnum x) as [|n|n] eqn:Hn.
  - assert (Hx0 : x == 0) by (unfold Qeq; cbn; lia).
    unfold unit_roundoff, subnormal_slack. repeat split; lra.
  - destruct (shortest_reads_back x (Js.ilog10 (Z.pos n) (Z.pos (Qden x))) 17 1)
      as [-> | Hfl].
    + unfold unit_roundoff, subnormal_slack. repeat split; lra.
    + set (c := Js.shortest _ _ _ _) in *. clearbody c.
      assert (Hxpos : (0 < Qnum x)%Z) by lia.
      assert (Hc : (0 < Qnum c)%Z).
      { apply fl_sign. unfold Qeq in Hfl.
        assert (0 < Qnum (Js.fl c) * QDen x)%Z by (rewrite Hfl; nia). nia. }
      assert (Hc0 : 0 <= c) by (unfold Qle; cbn; lia).
      destruct (fl_close c Hc0) as (H1 & H2). rewrite Hfl in H1, H2.
      auto.
  - exfalso. unfold Qle in Hx. cbn in Hx. lia.
Qed.

(** Rounding to scale 6 of a non-negative decimal less than half a
    millionth from [k] millionths. *)
Lemma pg_round6_near (c : Q) (k : Z) :
  0 <= c ->
  numeric_value k - (1 # 2000000) < c -> c < numeric_value k + (1 # 2000000) ->
  pg_round6 c = k.
Proof.
  destruct c as [a b]. unfold Qle, Qlt, numeric_value, Qminus, Qplus, Qopp, pg_round6.
  cbn [Qnum Qden]. intros H0 H1 H2.
  assert (Ha : (0 <= a)%Z) by lia.
  assert (Hs : (0 <=? a * 1000000)%Z = true) by (apply Z.leb_le; lia).
  rewrite Hs. symmetry.
  apply (Z.div_unique _ _ _ (2 * (a * 1000000) + Z.pos b - k * (2 * Z.pos b))); nia.
Qed.

Lemma fl_nonneg (q : Q) : 0 <= q -> 0 <= Js.fl q.
Proof.
  intro Hq. destruct q as [n d]. unfold Js.fl. cbn [Qnum Qden].
  destruct n as [|n|n].
  - lra.
  - apply fl_pos_nonneg; lia.
  - exfalso. unfold Qle in Hq. cbn in Hq. lia.
Qed.

Lemma numeric_value_nonneg (v : numeric) : (0 <= v)%Z -> 0 <= numeric_value v.
Proof. intro H. unfold numeric_value, Qle. cbn. lia. Qed.

Lemma numeric_value_lt (v b : numeric) :
  (v < b)%Z -> numeric_value v < numeric_value b.
Proof. intro H. unfold numeric_value, Qlt. cbn. lia. Qed.

Lemma numeric_value_sub (v a : numeric) :
  numeric_value (v - a)%Z == numeric_value v - numeric_value a.
Proof. unfold numeric_value, Qeq, Qminus, Qplus, Qopp. cbn. lia. Qed.

Lemma numeric_value_add (v a : numeric) :
  numeric_value (v + a)%Z == numeric_value v + numeric_value a.
Proof. unfold numeric_value, Qeq, Qplus. cbn. lia. Qed.

(** A non-negative number within a third of a millionth of [k] millionths,
    [k] below [2^50], is stored as [k]. *)
Lemma stored_near (y : Q) (k : numeric) :
  0 <= y -> (0 <= k < 2 ^ 50)%Z ->
  numeric_value k - (1 # 3000000) <= y -> y <= numeric_value k + (1 # 3000000) ->
  numeric_20_6 (sql_param y) = Ok k.
Proof.
  intros Hy Hk H1 H2.
  destruct (toString_close y Hy) as (Hc0 & Hc1 & Hc2).
  unfold sql_param. set (c := Js.toString_value y) in *. clearbody c.
  pose proof (numeric_value_nonneg k ltac:(lia)) as HK0.
  pose proof (numeric_value_lt k (2 ^ 50)%Z ltac:(lia)) as HK1.
  change (numeric_value (2 ^ 50)%Z) with (1125899906842624 # 1000000) in HK1.
  set (K := numeric_value k) in *.
  assert (Hr : pg_round6 c = k).
  { apply pg_round6_near; [exact Hc0| |]; fold K; clearbody K;
      unfold unit_roundoff, subnormal_slack in *; clear - Hy H1 H2 Hc0 Hc1 Hc2 HK0 HK1;
      lra. }
  unfold numeric_20_6. rewrite Hr.
  assert (Hlt : (Z.abs k <? 10 ^ 20)%Z = true).
  { apply Z.ltb_lt. assert ((2 ^ 50 < 10 ^ 20)%Z) by reflexivity. lia. }
  now rewrite Hlt.
Qed.

(** A balance below [2^50] millionths is recorded as it is stored. *)
Lemma parsed_balance_is_stored_back (v : numeric) :
  (0 <= v < 2 ^ 50)%Z -> numeric_20_6 (sql_param (parseFloat v)) = Ok v.
Proof.
  intro Hv. unfold parseFloat.
  pose proof (numeric_value_nonneg v ltac:(lia)) as HK0.
  pose proof (numeric_value_lt v (2 ^ 50)%Z ltac:(lia)) as HK1.
  change (numeric_value (2 ^ 50)%Z) with (1125899906842624 # 1000000) in HK1.
  destruct (fl_close _ HK0) as (H1 & H2).
  apply stored_near; [now apply fl_nonneg|exact Hv| |];
    set (K := numeric_value v) in *; clearbody K;
    set (x := Js.fl K) in *; clearbody x;
    unfold unit_roundoff, subnormal_slack in *; lra.
Qed.

Lemma shortest_positive (a : Q) (E : Z) (fuel : nat) (k : Z) :
  (0 < Qnum a)%Z -> (0 < Qnum (Js.shortest a E fuel k))%Z.
Proof.
  intro Ha. destruct (shortest_reads_back a E fuel k) as [-> | Hfl]; [exact Ha|].
  apply fl_sign. unfold Qeq in Hfl.
  assert (0 < Qnum (Js.fl (Js.shortest a E fuel k)) * QDen a)%Z by (rewrite Hfl; nia).
  nia.
Qed.

Lemma pg_round6_nonpos (c : Q) : (Qnum c <= 0)%Z -> (pg_round6 c <= 0)%Z.
Proof.
  intro Hc. unfold pg_round6.
  destruct (0 <=? Qnum c * 1000000)%Z eqn:Hs.
  - apply Z.leb_le in Hs. assert (E : Qnum c = 0%Z) by lia. rewrite E.
    rewrite Z.div_small; lia.
  - assert (0 <= (2 * - (Qnum c * 1000000) + Z.pos (Qden c)) / (2 * Z.pos (Qden c)))%Z
      by (apply Z.div_pos; lia).
    lia.
Qed.

(** An amount that is stored as a positive NUMERIC is a positive number. *)
Lemma stored_amount_positive (a : Js.number) (amt : numeric) :
  numeric_20_6 (sql_param a) = Ok amt -> (0 < amt)%Z -> 0 <= a.
Proof.
  intros Hamt Hpos. apply numeric_20_6_ok in Hamt.
  unfold sql_param, Js.toString_value in Hamt.
  destruct (Qnum a) as [|n|n] eqn:Hn.
  - unfold Qle. cbn. lia.
  - unfold Qle. cbn. lia.
  - exfalso.
    pose proof (shortest_positive (Z.pos n # Qden a)
                  (Js.ilog10 (Z.pos n) (Z.pos (Qden a))) 17 1 ltac:(cbn; lia)) as Hs.
    set (c := Js.shortest _ _ _ _) in *. clearbody c.
    assert (Hc : (Qnum (Qred (- c)) <= 0)%Z).
    { assert (Hle : Qred (- c) <= 0).
      { rewrite Qred_correct.
        assert (Hc0 : 0 < c) by (unfold Qlt; cbn [Qnum Qden]; lia). lra. }
      unfold Qle in Hle. cbn [Qnum Qden] in Hle. lia. }
    pose proof (pg_round6_nonpos _ Hc). lia.
Qed.

Lemma fl_pos_unfold (n d : Z) :
  let e := Z.max (last_bit n d) (-1074) in
  Js.fl_pos n d = Qred (inject_Z (significand n d e) * Js.pow2Q e).
Proof. reflexivity. Qed.

Lemma pow2Q_lt_inv (a b : Z) : Js.pow2Q a < Js.pow2Q b -> (a < b)%Z.
Proof.
  intro H. destruct (Z.lt_ge_cases a b) as [Hlt|Hge]; [exact Hlt|].
  pose proof (pow2Q_mono b a Hge). lra.
Qed.

Lemma last_bit_compat (n d n' d' : Z) :
  (0 < n)%Z -> (0 < d)%Z -> (0 < n')%Z -> (0 < d')%Z ->
  (n * d' = n' * d)%Z -> last_bit n d = last_bit n' d'.
Proof.
  intros Hn Hd Hn' Hd' Heq.
  destruct (last_bit_bounds n d Hn Hd) as (L1 & U1).
  destruct (last_bit_bounds n' d' Hn' Hd') as (L2 & U2).
  pose proof (inject_Z_pos d Hd) as HdQ. pose proof (inject_Z_pos d' Hd') as HdQ'.
  assert (HeqQ : inject_Z n * inject_Z d' == inject_Z n' * inject_Z d).
  { rewrite <- !inject_Z_mult. now rewrite Heq. }
  set (nQ := inject_Z n) in *. set (dQ := inject_Z d) in *.
  set (nQ' := inject_Z n') in *. set (dQ' := inject_Z d') in *.
  clearbody nQ dQ nQ' dQ'.
  assert (H1 : Js.pow2Q (last_bit n d + 52) < Js.pow2Q (last_bit n' d' + 53)).
  { set (A := Js.pow2Q _) in *. set (B := Js.pow2Q (last_bit n' d' + 53)) in *.
    clearbody A B.
    apply (Qmult_lt_r _ _ (dQ * dQ')); [now apply Qmult_lt_0_compat|].
    assert (dQ * A * dQ' <= nQ * dQ') by (apply Qmult_le_compat_r; lra).
    assert (nQ' * dQ < dQ' * B * dQ) by (apply Qmult_lt_compat_r; lra).
    clear - H H0 HeqQ. lra. }
  assert (H2 : Js.pow2Q (last_bit n' d' + 52) < Js.pow2Q (last_bit n d + 53)).
  { set (A := Js.pow2Q (last_bit n' d' + 52)) in *.
    set (B := Js.pow2Q (last_bit n d + 53)) in *.
    clearbody A B.
    apply (Qmult_lt_r _ _ (dQ * dQ')); [now apply Qmult_lt_0_compat|].
    assert (dQ' * A * dQ <= nQ' * dQ) by (apply Qmult_le_compat_r; lra).
    assert (nQ * dQ' < dQ * B * dQ') by (apply Qmult_lt_compat_r; lra).
    clear - H H0 HeqQ. lra. }
  apply pow2Q_lt_inv in H1, H2. lia.
Qed.

Lemma fl_pos_compat (n d n' d' : Z) :
  (0 < n)%Z -> (0 < d)%Z -> (0 < n')%Z -> (0 < d')%Z ->
  (n * d' = n' * d)%Z -> Js.fl_pos n d = Js.fl_pos n' d'.
Proof.
  intros Hn Hd Hn' Hd' Heq.
  pose proof (last_bit_compat n d n' d' Hn Hd Hn' Hd' Heq) as Hlb.
  rewrite !fl_pos_unfold. cbv zeta.
  rewrite <- Hlb. set (e := Z.max (last_bit n d) (-1074)).
  f_equal. f_equal. f_equal. unfold significand.
  destruct (0 <=? e)%Z eqn:He.
  - apply Z.leb_le in He.
    assert (0 < 2 ^ e)%Z by (apply Z.pow_pos_nonneg; lia).
    apply round_half_even_scale; nia.
  - assert (0 < 2 ^ (- e))%Z by (apply Z.pow_pos_nonneg; lia).
    apply round_half_even_scale; nia.
Qed.

(** [fl] depends on the value of its argument only. *)
Lemma fl_compat (q q' : Q) : q == q' -> Js.fl q = Js.fl q'.
Proof.
  destruct q as [n d], q' as [n' d']. unfold Qeq, Js.fl. cbn [Qnum Qden]. intro H.
  destruct n as [|n|n], n' as [|n'|n']; try lia; try reflexivity.
  - apply fl_pos_compat; lia.
  - f_equal. f_equal. apply fl_pos_compat; lia.
Qed.

End Binary64.

(** ** The snapshots and the funds check in the exact range *)

Lemma ltb_false_le (x y : Q) : Js.ltb x y = false -> (y <= x)%Q.
Proof. unfold Js.ltb, Qle. intro H. apply Z.ltb_ge in H. lia. Qed.

Lemma find_by_pkey (l : list wallet_row) (x : wallet_row) :
  NoDup (map w_id l) -> In x l -> find (has_id (w_id x)) l = Some x.
Proof.
  intros Hnd Hin.
  destruct (find (has_id (w_id x)) l) as [y|] eqn:Hf.
  - apply find_some in Hf. destruct Hf as (Hy & Hid). apply has_id_true in Hid.
    f_equal. eapply (pkey_inj w_id); eauto.
  - pose proof (find_none _ _ Hf x Hin) as Hno.
    unfold has_id in Hno. now rewrite String.eqb_refl in Hno.
Qed.

(** What [debitWallet] records as [balance_after], in the exact range. *)
Lemma debit_snapshot_exact (v amt : numeric) (a : Js.number) :
  0 <= v < 2 ^ 49 -> 0 < amt < 2 ^ 49 -> amt <= v ->
  (numeric_value amt == sql_param a)%Q -> (0 <= a)%Q ->
  Js.ltb (parseFloat v) a = false ->
  numeric_20_6 (sql_param (Js.sub (parseFloat v) a)) = Ok (v - amt).
Proof.
  intros Hv Hamt Hle Heq Ha Hlt.
  apply ltb_false_le in Hlt.
  unfold Js.sub, parseFloat in *.
  pose proof (numeric_value_nonneg v ltac:(lia)) as HV0.
  pose proof (numeric_value_lt v (2 ^ 49) ltac:(lia)) as HV1.
  pose proof (numeric_value_nonneg amt ltac:(lia)) as HA0.
  pose proof (numeric_value_lt amt (2 ^ 49) ltac:(lia)) as HA1.
  change (numeric_value (2 ^ 49)) with (562949953421312 # 1000000)%Q in HV1, HA1.
  pose proof (numeric_value_sub v amt) as HK.
  destruct (fl_close _ HV0) as (X1 & X2).
  destruct (toString_close a Ha) as (_ & A1 & A2).
  fold (sql_param a) in A1, A2.
  set (x := Js.fl (numeric_value v)) in *.
  assert (Hz : (0 <= x - a)%Q) by (clear - Hlt; lra).
  destruct (fl_close _ Hz) as (Y1 & Y2).
  apply stored_near; [now apply fl_nonneg|lia| |];
    set (y := Js.fl (x - a)) in *; clearbody y; clearbody x;
    set (V := numeric_value v) in *; set (A := numeric_value amt) in *;
    set (K := numeric_value (v - amt)) in *; set (ca := sql_param a) in *;
    clearbody V A K ca;
    unfold unit_roundoff, subnormal_slack in *;
    clear - HV0 HV1 HA0 HA1 HK X1 X2 A1 A2 Y1 Y2 Heq Hz; lra.
Qed.

(** What [creditWallet] records as [balance_after], in the exact range. *)
Lemma credit_snapshot_exact (v amt : numeric) (a : Js.number) :
  0 <= v < 2 ^ 49 -> 0 < amt < 2 ^ 49 ->
  (numeric_value amt == sql_param a)%Q -> (0 <= a)%Q ->
  numeric_20_6 (sql_param (Js.add (parseFloat v) a)) = Ok (v + amt).
Proof.
  intros Hv Hamt Heq Ha.
  unfold Js.add, parseFloat in *.
  pose proof (numeric_value_nonneg v ltac:(lia)) as HV0.
  pose proof (numeric_value_lt v (2 ^ 49) ltac:(lia)) as HV1.
  pose proof (numeric_value_nonneg amt ltac:(lia)) as HA0.
  pose proof (numeric_value_lt amt (2 ^ 49) ltac:(lia)) as HA1.
  change (numeric_value (2 ^ 49)) with (562949953421312 # 1000000)%Q in HV1, HA1.
  pose proof (numeric_value_add v amt) as HK.
  destruct (fl_close _ HV0) as (X1 & X2).
  pose proof (fl_nonneg _ HV0) as X0.
  destruct (toString_close a Ha) as (_ & A1 & A2).
  fold (sql_param a) in A1, A2.
  set (x := Js.fl (numeric_value v)) in *.
  assert (Hz : (0 <= x + a)%Q) by (clear - X0 Ha; lra).
  destruct (fl_close _ Hz) as (Y1 & Y2).
  assert (Hk : 0 <= v + amt < 2 ^ 50).
  { assert (2 ^ 50 = 2 * 2 ^ 49) by reflexivity. lia. }
  apply stored_near; [now apply fl_nonneg|exact Hk| |];
    set (y := Js.fl (x + a)) in *; clearbody y; clearbody x;
    set (V := numeric_value v) in *; set (A := numeric_value amt) in *;
    set (K := numeric_value (v + amt)) in *; set (ca := sql_param a) in *;
    clearbody V A K ca;
    unfold unit_roundoff, subnormal_slack in *;
    clear - HV0 HV1 HA0 HA1 HK X1 X2 A1 A2 Y1 Y2 Heq Hz Ha X0; lra.
Qed.

Lemma ltb_true_lt (x y : Q) : Js.ltb x y = true <-> (x < y)%Q.
Proof. unfold Js.ltb, Qlt. apply Z.ltb_lt. Qed.

(** A binary64 number is read back from the decimal it prints as. *)
Lemma toString_reads_back (a : Js.number) :
  (0 <= a)%Q -> is_double a -> (Js.fl (sql_param a) == a)%Q.
Proof.
  intros Ha Hd. unfold sql_param, Js.toString_value.
  destruct (Qnum a) as [|n|n] eqn:Hn.
  - unfold Qeq. cbn. rewrite Hn. reflexivity.
  - destruct (shortest_reads_back a (Js.ilog10 (Z.pos n) (Z.pos (Qden a))) 17 1)
      as [-> | Hfl]; [now apply eqb_Qeq|exact Hfl].
  - exfalso. unfold Qle in Ha. cbn in Ha. lia.
Qed.

(** In the exact range the comparison of numbers in the funds check agrees
    with the comparison of the stored decimals. *)
Lemma funds_check_exact (v amt : numeric) (a : Js.number) :
  0 <= v < 2 ^ 50 -> 0 < amt < 2 ^ 50 ->
  (numeric_value amt == sql_param a)%Q -> (0 <= a)%Q -> is_double a ->
  (Js.ltb (parseFloat v) a = true <-> v < amt).
Proof.
  intros Hv Hamt Heq Ha Hd.
  unfold parseFloat.
  pose proof (numeric_value_nonneg v ltac:(lia)) as HV0.
  pose proof (numeric_value_lt v (2 ^ 50) ltac:(lia)) as HV1.
  pose proof (numeric_value_lt amt (2 ^ 50) ltac:(lia)) as HA1.
  change (numeric_value (2 ^ 50)) with (1125899906842624 # 1000000)%Q in HV1, HA1.
  destruct (fl_close _ HV0) as (X1 & X2).
  destruct (toString_close a Ha) as (_ & A1 & A2).
  fold (sql_param a) in A1, A2.
  rewrite ltb_true_lt.
  destruct (Z.lt_trichotomy v amt) as [Hlt|[He|Hgt]].
  - split; [intros _; exact Hlt|intros _].
    pose proof (numeric_value_lt v (v + 1) ltac:(lia)) as _.
    assert (Hstep : (numeric_value v + (1 # 1000000) <= numeric_value amt)%Q).
    { unfold numeric_value, Qle, Qplus. cbn. lia. }
    set (x := Js.fl (numeric_value v)) in *. clearbody x.
    set (V := numeric_value v) in *. set (A := numeric_value amt) in *.
    set (ca := sql_param a) in *. clearbody V A ca.
    unfold unit_roundoff, subnormal_slack in *.
    clear - HV0 HV1 HA1 X1 X2 A1 A2 Heq Hstep. lra.
  - split; [|lia]. intro Hx. exfalso. subst amt.
    assert (E : Js.fl (numeric_value v) = Js.fl (sql_param a)) by now apply fl_compat.
    rewrite E in Hx. rewrite (toString_reads_back a Ha Hd) in Hx. lra.
  - split; [|lia]. intro Hx. exfalso.
    assert (Hstep : (numeric_value amt + (1 # 1000000) <= numeric_value v)%Q).
    { unfold numeric_value, Qle, Qplus. cbn. lia. }
    pose proof (numeric_value_nonneg amt ltac:(lia)) as HA0.
    set (x := Js.fl (numeric_value v)) in *. clearbody x.
    set (V := numeric_value v) in *. set (A := numeric_value amt) in *.
    set (ca := sql_param a) in *. clearbody V A ca.
    unfold unit_roundoff, subnormal_slack in *.
    clear - HV0 HV1 HA0 HA1 X1 X2 A1 A2 Heq Hstep Hx. lra.
Qed.

Lemma exact_range_50 (v : numeric) : exact_range v -> 0 <= v < 2 ^ 50.
Proof.
  unfold exact_range. assert (2 ^ 50 = 2 * 2 ^ 49) by reflexivity.
  assert (0 < 2 ^ 49) by reflexivity. lia.
Qed.

Lemma six_decimals_value (a : Js.number) (amt : numeric) :
  six_decimals (sql_param a) = true -> numeric_20_6 (sql_param a) = Ok amt ->
  (numeric_value amt == sql_param a)%Q.
Proof.
  intros H6 Hamt. pose proof (six_decimals_whole _ H6) as Hw.
  rewrite <- (numeric_20_6_ok _ _ Hamt) in Hw.
  unfold numeric_value, Qeq. cbn [Qnum Qden]. lia.
Qed.

(** X14.  Where every balance and the amount involved are below [2^49]
    millionths and the amount has at most six decimals, a flow that posts
    records in its debit entry the source balance as it was stored and that
    balance less the amount, in its credit entry the target balance as it
    was stored and that balance plus the amount; the two [balance_after]
    snapshots are the balances the two wallet rows hold after the run. *)
Theorem ledger_snapshots_are_exact_below_2_49 ahead f p w w' r :
  dup_miss p (db w) ->
  wallets_pkey (ahead (db w)) ->
  six_decimals (sql_param (amount p)) = true ->
  pg_round6 (sql_param (amount p)) < 2 ^ 49 ->
  (forall x, In x (wallets (ahead (db w))) ->
             w_id x = source_id f p \/ w_id x = target_id f p ->
             exact_range (w_balance x)) ->
  run_flow ahead f p w = (w', Ok r) ->
  exists source target amt d c,
    wallet_of (ahead (db w)) (source_id f p) = Some source /\
    wallet_of (ahead (db w)) (target_id f p) = Some target /\
    (numeric_value amt == sql_param (amount p))%Q /\
    ledger_entries (db w') = (ledger_entries (ahead (db w)) ++ [d; c])%list /\
    le_entry_type d = debit /\ le_wallet_id d = source_id f p /\
    le_entry_type c = credit /\ le_wallet_id c = target_id f p /\
    le_amount d = amt /\ le_amount c = amt /\
    le_balance_before d = w_balance source /\
    le_balance_after d = w_balance source - amt /\
    le_balance_before c = w_balance target /\
    le_balance_after c = w_balance target + amt /\
    option_map w_balance (wallet_of (db w') (source_id f p)) = Some (le_balance_after d) /\
    option_map w_balance (wallet_of (db w') (target_id f p)) = Some (le_balance_after c).
Proof.
  intros Hmiss Hpk H6 Hsmall Hrange Hrun.
  destruct (fresh_run ahead f p w w' r Hmiss Hrun)
    as (source & target & amt & bd & ad & bc & ac & ws & Hins & Hids & Hint & Hidt & Hlt
        & Hamt & Hpos & Hbd & Had & Hbc & Hac & _ & _ & _ & Hdb).
  destruct (fresh_run_moved ahead f p w w' r amt Hmiss H6 Hamt Hrun) as (Hws & Hne).
  destruct (fresh_run_updates ahead f p w w' r Hmiss Hrun) as (ws1 & Hws1 & _ & _).
  pose proof (six_decimals_value _ _ H6 Hamt) as Heq.
  pose proof (stored_amount_positive _ _ Hamt Hpos) as Ha.
  rewrite <- (numeric_20_6_ok _ _ Hamt) in Hsmall.
  pose proof (Hrange source Hins (or_introl Hids)) as Hrs.
  pose proof (Hrange target Hint (or_intror Hidt)) as Hrt.
  assert (Hcov : amt <= w_balance source).
  { rewrite (numeric_20_6_ok _ _ Hamt). eapply update_rows_covered; eauto. }
  rewrite (parsed_balance_is_stored_back _ (exact_range_50 _ Hrs)) in Hbd.
  rewrite (parsed_balance_is_stored_back _ (exact_range_50 _ Hrt)) in Hbc.
  rewrite (debit_snapshot_exact _ amt _ Hrs (conj Hpos Hsmall) Hcov Heq Ha Hlt) in Had.
  rewrite (credit_snapshot_exact _ amt _ Hrt (conj Hpos Hsmall) Heq Ha) in Hac.
  inversion Hbd; inversion Had; inversion Hbc; inversion Hac; subst bd ad bc ac.
  destruct (fresh_run_printed ahead f p w w' r Hmiss Hrun) as (Hps & Hpt).
  assert (Hfs : wallet_of (ahead (db w)) (source_id f p) = Some source).
  { rewrite wallet_of_find, Hps. rewrite <- Hids. now apply find_by_pkey. }
  assert (Hft : wallet_of (ahead (db w)) (target_id f p) = Some target).
  { rewrite wallet_of_find, Hpt. rewrite <- Hidt. now apply find_by_pkey. }
  do 5 eexists.
  split; [exact Hfs|]. split; [exact Hft|]. split; [exact Heq|].
  split; [rewrite Hdb; reflexivity|].
  cbn [debit_entry credit_entry le_entry_type le_wallet_id le_amount le_balance_before
       le_balance_after].
  repeat (split; [solve [auto]|]).
  rewrite !wallet_of_find, Hps in *. rewrite Hpt in *.
  rewrite Hws, !find_moved, Hfs, Hft. cbn [option_map].
  unfold moved. rewrite Hids, Hidt, String.eqb_refl, String.eqb_sym, Hne, String.eqb_refl.
  split; reflexivity.
Qed.

(** X15.  Where the source balance and the amount are below [2^49] millionths and
    the amount is a binary64 number of at most six decimals, a flow that has
    found both wallets active and of one asset type raises InsufficientFunds
    exactly when the stored balance is below the amount as decimals, and
    then leaves the store as the lock statement found it. *)
Theorem insufficient_funds_is_decided_exactly_below_2_49
    ahead f p w source target amt :
  dup_miss p (db w) ->
  wallets_pkey (ahead (db w)) ->
  wallet_of (ahead (db w)) (source_id f p) = Some source ->
  wallet_of (ahead (db w)) (target_id f p) = Some target ->
  walletId p <> systemWalletId p ->
  w_is_active source = true ->
  w_is_active target = true ->
  w_asset_type_id source = w_asset_type_id target ->
  is_double (amount p) ->
  (numeric_value amt == sql_param (amount p))%Q ->
  0 < amt < 2 ^ 49 ->
  exact_range (w_balance source) ->
  (w_balance source < amt ->
   exists w',
     run_flow ahead f p w =
       (w', Throw (InsufficientFundsError (flow_available f source) (amount p))) /\
     db w' = ahead (db w)) /\
  (amt <= w_balance source ->
   forall avail req,
     snd (run_flow ahead f p w) <> Throw (InsufficientFundsError avail req)).
Proof.
  intros Hmiss Hpk Hs Ht Hne Has Hat Hasset Hd Heq Hamt Hrs.
  assert (Ha : (0 <= amount p)%Q).
  { destruct (amount p) as [n d] eqn:E. unfold Qle. cbn [Qnum Qden].
    destruct n as [|n|n]; try lia. exfalso.
    unfold sql_param, Js.toString_value in Heq. cbn [Qnum Qden] in Heq.
    pose proof (shortest_positive (Z.pos n # d) (Js.ilog10 (Z.pos n) (Z.pos d)) 17 1
                  ltac:(cbn; lia)) as Hsp.
    set (c := Js.shortest _ _ _ _) in *. clearbody c.
    assert (Hc0 : (0 < c)%Q) by (unfold Qlt; cbn [Qnum Qden]; lia).
    rewrite Qred_correct in Heq.
    pose proof (numeric_value_lt 0 amt ltac:(lia)) as Hp.
    change (numeric_value 0) with (0 # 1000000)%Q in Hp.
    clear - Heq Hc0 Hp. lra. }
  assert (H50 : 0 < amt < 2 ^ 50).
  { assert (2 ^ 50 = 2 * 2 ^ 49) by reflexivity. lia. }
  pose proof (funds_check_exact (w_balance source) amt (amount p)
                (exact_range_50 _ Hrs) H50 Heq Ha Hd) as Hiff.
  destruct (found_rows f p _ source target Hpk Hs Ht Hne) as (Hlen & Hfs & Hft).
  pose proof (validate_checks f p _ source target Hlen Hfs Hft) as Hv.
  rewrite Has, Hat, Hasset, String.eqb_refl in Hv. cbn [negb] in Hv.
  split; intro Hcmp.
  - apply Hiff in Hcmp. rewrite Hcmp in Hv.
    destruct (run_flow_rejected ahead f p w _ Hmiss
                (found_request_texts f p _ source target Hs Ht) Hv)
      as (w' & Hrun & Hdb & _).
    exists w'. auto.
  - assert (Hlt : Js.ltb (parseFloat (w_balance source)) (amount p) = false).
    { destruct (Js.ltb _ _); [|reflexivity].
      pose proof (proj1 Hiff eq_refl). lia. }
    rewrite Hlt in Hv.
    intros avail req Hthrow.
    pose proof (run_flow_accepted ahead f p w source target Hmiss Hv) as Hfn.
    rewrite run_flow_run, withTransaction_run, Hfn in Hthrow.
    pose proof (infra_post f p source target
                  (locked_world ahead (walletId p) (systemWalletId p) (begun w))) as Hinfra.
    destruct (post f p source target _) as [w1 [r|e]]; cbn [snd] in *; [discriminate|].
    inversion Hthrow; subst. specialize (Hinfra _ eq_refl). discriminate.
Qed.

Lemma seed_balances_in_exact_range (x : wallet_row) :
  In x (wallets (no_rivals (db (world_of seed_db)))) ->
  w_id x = source_id Topup topup_100 \/ w_id x = target_id Topup topup_100 ->
  exact_range (w_balance x).
Proof.
  intros Hin _.
  repeat (destruct Hin as [<-|Hin];
          [split; [vm_compute; discriminate|vm_compute; reflexivity]|]).
  destruct Hin.
Defined.

Lemma ledger_snapshots_witness :
  exists source target amt d c,
    wallet_of (no_rivals (db (world_of seed_db))) (source_id Topup topup_100)
      = Some source /\
    wallet_of (no_rivals (db (world_of seed_db))) (target_id Topup topup_100)
      = Some target /\
    ledger_entries (db after_topup_100)
      = (ledger_entries (no_rivals (db (world_of seed_db))) ++ [d; c])%list /\
    le_balance_before d = w_balance source /\
    le_balance_after d = w_balance source - amt /\
    le_balance_before c = w_balance target /\
    le_balance_after c = w_balance target + amt.
Proof.
  assert (Hsmall : pg_round6 (sql_param (amount topup_100)) < 2 ^ 49)
    by (vm_compute; reflexivity).
  destruct (ledger_snapshots_are_exact_below_2_49 no_rivals Topup topup_100
              (world_of seed_db) after_topup_100 _ topup_100_misses
              (seed_wallets_pkey (units 1000000) (units 500) [] [] [])
              six_decimals_100 Hsmall seed_balances_in_exact_range topup_100_commits)
    as (source & target & amt & d & c & H1 & H2 & _ & H3 & _ & _ & _ & _ & _ & _
        & H4 & H5 & H6 & H7 & _).
  exists source, target, amt, d, c.
  exact (conj H1 (conj H2 (conj H3 (conj H4 (conj H5 (conj H6 H7)))))).
Defined.

Lemma exact_funds_check_witness :
  exists w',
    run_flow no_rivals Spend spend_9999 (world_of seed_db) =
      (w', Throw (InsufficientFundsError (flow_available Spend alice_row)
                    (amount spend_9999))) /\
    db w' = no_rivals (db (world_of seed_db)).
Proof.
  destruct (insufficient_funds_is_decided_exactly_below_2_49 no_rivals Spend spend_9999
              (world_of seed_db) alice_row revenue_row (units 9999)) as (H & _).
  - vm_compute. reflexivity.
  - apply two_wallets_pkey. vm_compute. reflexivity.
  - vm_compute. reflexivity.
  - vm_compute. reflexivity.
  - intro E. discriminate E.
  - reflexivity.
  - reflexivity.
  - reflexivity.
  - vm_compute. reflexivity.
  - vm_compute. reflexivity.
  - split; vm_compute; reflexivity.
  - split; [vm_compute; discriminate|vm_compute; reflexivity].
  - apply H. vm_compute. reflexivity.
Defined.

(** * The read side *)

(** * Whole numbers in binary64 *)

Lemma round_half_even_one (N : Z) : Js.round_half_even N 1 = N.
Proof.
  unfold Js.round_half_even. cbv zeta. rewrite Z.div_1_r, Z.mod_1_r. reflexivity.
Qed.

Lemma Qred_inject_Z (n : Z) : Qred (inject_Z n) = inject_Z n.
Proof.
  unfold Qred, inject_Z.
  generalize (Z.ggcd_gcd n 1) (Z.ggcd_correct_divisors n 1).
  destruct (Z.ggcd n 1) as (g, (aa, bb)). cbn [fst snd].
  rewrite Z.gcd_1_r. intros Hg [H1 H2]. subst g.
  replace aa with n by lia. replace bb with 1 by lia. reflexivity.
Qed.

Lemma Qred_whole (q : Q) (n : Z) : (q == inject_Z n)%Q -> Qred q = inject_Z n.
Proof. intro H. rewrite <- Qred_inject_Z. now apply Qred_complete. Qed.

Lemma fl_pos_whole (n : Z) : 0 < n < 2 ^ 53 -> Js.fl_pos n 1 = inject_Z n.
Proof.
  intros [Hn Hlt]. rewrite fl_pos_unfold. cbv zeta.
  destruct (last_bit_bounds n 1 Hn ltac:(lia)) as (L & U).
  set (lb := last_bit n 1) in *. clearbody lb.
  change (inject_Z 1) with 1%Q in L, U. rewrite Qmult_1_l in L, U.
  assert (Hlb : -52 <= lb <= 0).
  { split.
    - assert (H : (Js.pow2Q 0 < Js.pow2Q (lb + 53))%Q).
      { eapply Qle_lt_trans; [|exact U].
        change (Js.pow2Q 0) with (inject_Z 1). rewrite <- Zle_Qle. lia. }
      apply pow2Q_lt_inv in H. lia.
    - assert (H : (Js.pow2Q (lb + 52) < Js.pow2Q 53)%Q).
      { eapply Qle_lt_trans; [|].
        - exact L.
        - change (Js.pow2Q 53) with (inject_Z (2 ^ 53)). now rewrite <- Zlt_Qlt. }
      apply pow2Q_lt_inv in H. lia. }
  rewrite Z.max_l by lia.
  apply Qred_whole. unfold significand.
  destruct (0 <=? lb) eqn:He.
  - apply Z.leb_le in He. assert (lb = 0) by lia. subst lb.
    change (1 * 2 ^ 0) with 1. rewrite round_half_even_one.
    change (Js.pow2Q 0) with 1%Q. apply Qmult_1_r.
  - apply Z.leb_gt in He. rewrite round_half_even_one.
    unfold Js.pow2Q. assert (Hs : (0 <=? lb) = false) by (apply Z.leb_gt; lia).
    rewrite Hs.
    assert (HK : 0 < 2 ^ (- lb)) by (apply Z.pow_pos_nonneg; lia).
    unfold Qeq. cbn [Qnum Qden inject_Z Qmult].
    rewrite Pos2Z.inj_mul, Z2Pos.id by exact HK. ring.
Qed.

Lemma fl_whole (n : Z) : - 2 ^ 53 < n < 2 ^ 53 -> Js.fl (inject_Z n) = inject_Z n.
Proof.
  intro Hn. unfold Js.fl. cbn [Qnum Qden inject_Z].
  destruct n as [|p|p]; [reflexivity| |].
  - apply fl_pos_whole. lia.
  - change (Z.pos 1) with 1. rewrite (fl_pos_whole (Z.pos p)) by lia.
    apply Qred_whole. unfold Qeq. cbn. lia.
Qed.

(** * The decimal that [String(x)] prints *)

Section Printing.

Local Open Scope Q_scope.

Lemma inject_Z_sub (a b : Z) : inject_Z (a - b) == inject_Z a - inject_Z b.
Proof. unfold Z.sub. rewrite inject_Z_plus, inject_Z_opp. reflexivity. Qed.

Lemma pow10Q_spec (e : Z) : Js.pow10Q e == 10 ^ e.
Proof.
  unfold Js.pow10Q. destruct (0 <=? e)%Z eqn:He.
  - apply Z.leb_le in He. now rewrite Zpower_Qpower.
  - apply Z.leb_gt in He.
    assert (Hk : (0 < 10 ^ (- e))%Z) by (apply Z.pow_pos_nonneg; lia).
    replace e with (- (- e))%Z at 2 by lia.
    rewrite Qpower_opp, <- (Zpower_Qpower 10 (- e)) by lia.
    destruct (10 ^ (- e))%Z as [|p|p]; try lia. reflexivity.
Qed.

Lemma pow10Q_pos (e : Z) : 0 < Js.pow10Q e.
Proof. rewrite pow10Q_spec. now apply Qpower_0_lt. Qed.

Lemma pow10Q_add (a b : Z) : Js.pow10Q (a + b) == Js.pow10Q a * Js.pow10Q b.
Proof. rewrite !pow10Q_spec. now apply Qpower_plus. Qed.

Lemma pow10Q_nonneg (e : Z) : (0 <= e)%Z -> Js.pow10Q e = inject_Z (10 ^ e).
Proof. intro H. unfold Js.pow10Q. apply Z.leb_le in H. now rewrite H. Qed.

Lemma pow10Q_inv (e : Z) : Js.pow10Q (- e) * Js.pow10Q e == 1.
Proof. rewrite <- pow10Q_add. now replace (- e + e)%Z with 0%Z by lia. Qed.

Lemma Qfloor'_spec (q : Q) :
  inject_Z (Js.Qfloor' q) <= q /\ q < inject_Z (Js.Qfloor' q + 1).
Proof.
  destruct q as [n d]. change (Js.Qfloor' (n # d)) with (Qfloor (n # d)).
  split; [apply Qfloor_le|apply Qlt_floor].
Qed.

(** A candidate is a whole multiple of the power of ten of its last digit. *)
Lemma candidate_grid (a : Q) (E k : Z) (c : Q) :
  Js.candidate a E k = Some c ->
  exists m, c = Qred (inject_Z m * Js.pow10Q (E + 1 - k)).
Proof.
  unfold Js.candidate. cbv zeta.
  set (s := Js.Qfloor' _).
  destruct (Js.eqb _ a); destruct (Js.eqb _ a); try discriminate.
  - destruct (Js.ltb _ _); [|destruct (Js.ltb _ _); [|destruct (Z.even _)]];
      inversion 1; subst; eexists; reflexivity.
  - inversion 1; subst; eexists; reflexivity.
  - inversion 1; subst; eexists; reflexivity.
Qed.

(** There is a candidate with [k] digits as soon as a decimal with [k]
    digits, less than one unit of its last digit from [a], reads back as
    [a]. *)
Lemma candidate_some (a : Q) (E k z : Z) :
  Js.fl (inject_Z z * Js.pow10Q (E + 1 - k)) == a ->
  inject_Z (z - 1) * Js.pow10Q (E + 1 - k) < a ->
  a < inject_Z (z + 1) * Js.pow10Q (E + 1 - k) ->
  Js.candidate a E k <> None.
Proof.
  intros Hfl Hlo Hhi. unfold Js.candidate. cbv zeta.
  set (p := (E + 1 - k)%Z) in *.
  destruct (Qfloor'_spec (a * Js.pow10Q (- p))) as (F1 & F2).
  set (s := Js.Qfloor' _) in *. clearbody s.
  pose proof (pow10Q_pos p) as Pp. pose proof (pow10Q_pos (- p)) as Pn.
  pose proof (pow10Q_inv p) as Pinv.
  assert (Hz : z = s \/ z = (s + 1)%Z).
  { assert (A1 : inject_Z (z - 1) < a * Js.pow10Q (- p)).
    { apply (Qmult_lt_r _ _ (Js.pow10Q p)); [exact Pp|].
      rewrite <- Qmult_assoc, Pinv, Qmult_1_r. exact Hlo. }
    assert (A2 : a * Js.pow10Q (- p) < inject_Z (z + 1)).
    { apply (Qmult_lt_r _ _ (Js.pow10Q p)); [exact Pp|].
      rewrite <- Qmult_assoc, Pinv, Qmult_1_r. exact Hhi. }
    assert (B1 : inject_Z (z - 1) < inject_Z (s + 1)) by lra.
    assert (B2 : inject_Z s < inject_Z (z + 1)) by lra.
    rewrite <- Zlt_Qlt in B1, B2. lia. }
  assert (Hok : forall y, y = z ->
            Js.eqb (Js.fl (Qred (inject_Z y * Js.pow10Q p))) a = true).
  { intros y ->. rewrite (fl_compat _ (inject_Z z * Js.pow10Q p)) by apply Qred_correct.
    unfold Js.eqb. apply Z.eqb_eq. exact Hfl. }
  destruct Hz as [Hz|Hz].
  - rewrite (Hok s) by auto.
    destruct (Js.eqb _ a); [|discriminate].
    destruct (Js.ltb _ _); [discriminate|].
    destruct (Js.ltb _ _); [discriminate|]. destruct (Z.even _); discriminate.
  - rewrite (Hok (s + 1)%Z) by auto.
    destruct (Js.eqb _ a); [|discriminate].
    destruct (Js.ltb _ _); [discriminate|].
    destruct (Js.ltb _ _); [discriminate|]. destruct (Z.even _); discriminate.
Qed.

(** The search stops at the first digit count that has a candidate. *)
Lemma shortest_found (a : Q) (E k1 : Z) (fuel : nat) : forall k,
  (k <= k1 < k + Z.of_nat fuel)%Z ->
  Js.candidate a E k1 <> None ->
  exists k' c, (k <= k' <= k1)%Z /\ Js.candidate a E k' = Some c /\
               Js.shortest a E fuel k = c.
Proof.
  induction fuel as [|fuel IH]; intros k Hk Hsome; [lia|].
  cbn [Js.shortest]. destruct (Js.candidate a E k) as [c|] eqn:Hc.
  - exists k, c. repeat split; auto; lia.
  - assert (k <> k1) by (intros ->; contradiction).
    destruct (IH (k + 1)%Z ltac:(lia) Hsome) as (k' & c & Hk' & Hc' & Hs).
    exists k', c. repeat split; auto; lia.
Qed.

(** Two multiples of [10^p0] less than [10^p0] apart are equal. *)
Lemma grid_unique (m z p p0 : Z) :
  (p0 <= p)%Z ->
  inject_Z m * Js.pow10Q p - inject_Z z * Js.pow10Q p0 < Js.pow10Q p0 ->
  inject_Z z * Js.pow10Q p0 - inject_Z m * Js.pow10Q p < Js.pow10Q p0 ->
  inject_Z m * Js.pow10Q p == inject_Z z * Js.pow10Q p0.
Proof.
  intros Hp H1 H2.
  assert (E : Js.pow10Q p == inject_Z (10 ^ (p - p0)) * Js.pow10Q p0).
  { rewrite <- pow10Q_nonneg by lia. rewrite <- pow10Q_add.
    now replace (p - p0 + p0)%Z with p by lia. }
  pose proof (pow10Q_pos p0) as P0.
  rewrite E in *. set (K := (10 ^ (p - p0))%Z) in *. clearbody K.
  set (T := Js.pow10Q p0) in *. clearbody T.
  assert (A : inject_Z (m * K - z) * T < 1 * T).
  { rewrite inject_Z_sub, inject_Z_mult. lra. }
  assert (B : inject_Z (z - m * K) * T < 1 * T).
  { rewrite inject_Z_sub, inject_Z_mult. lra. }
  apply Qmult_lt_r in A; [|exact P0]. apply Qmult_lt_r in B; [|exact P0].
  change 1 with (inject_Z 1) in A, B. rewrite <- Zlt_Qlt in A, B.
  assert (z = (m * K)%Z) by lia. subst z. rewrite inject_Z_mult. ring.
Qed.

(** [String(a)] is the decimal [t = z * 10^p0] when [t] reads back as [a],
    has at most 17 digits, and the spacing of binary64 numbers around it is
    finer than [10^p0]. *)
Lemma shortest_on_grid (a t : Q) (E z p0 : Z) :
  0 < a -> 0 < t ->
  t == inject_Z z * Js.pow10Q p0 ->
  Js.fl t == a ->
  (1 <= E + 1 - p0 <= 17)%Z ->
  t * (1 # 2251799813685248) + (1 # 316912650057057350374175801344) < Js.pow10Q p0 ->
  Js.shortest a E 17 1 == t.
Proof.
  intros Ha Ht Hz Hfl Hk Hfine.
  destruct (fl_close t ltac:(lra)) as (T1 & T2). rewrite Hfl in T1, T2.
  unfold unit_roundoff, subnormal_slack in T1, T2.
  pose proof (pow10Q_pos p0) as P0.
  assert (Hsome : Js.candidate a E (E + 1 - p0) <> None).
  { apply (candidate_some a E (E + 1 - p0) z);
      replace (E + 1 - (E + 1 - p0))%Z with p0 by lia.
    - rewrite <- Hfl. rewrite (fl_compat _ t); [reflexivity|]. now rewrite Hz.
    - rewrite inject_Z_sub. change (inject_Z 1) with 1.
      set (P := Js.pow10Q p0) in *. clearbody P.
      set (Z0 := inject_Z z) in *. clearbody Z0. lra.
    - rewrite inject_Z_plus. change (inject_Z 1) with 1.
      set (P := Js.pow10Q p0) in *. clearbody P.
      set (Z0 := inject_Z z) in *. clearbody Z0. lra. }
  destruct (shortest_found a E (E + 1 - p0) 17 1 ltac:(lia) Hsome)
    as (k' & c & Hk' & Hc & ->).
  pose proof (candidate_reads_back _ _ _ _ Hc) as Hback.
  destruct (candidate_grid _ _ _ _ Hc) as (m & Hm).
  assert (Hcm : c == inject_Z m * Js.pow10Q (E + 1 - k')).
  { rewrite Hm. apply Qred_correct. }
  assert (Hc0 : 0 <= c).
  { assert (Hq : (0 < Qnum c)%Z).
    { apply fl_sign. unfold Qeq in Hback. unfold Qlt in Ha. cbn in Ha.
      assert (0 < Qnum (Js.fl c) * QDen a)%Z by (rewrite Hback; nia). nia. }
    unfold Qle. cbn. lia. }
  destruct (fl_close c Hc0) as (C1 & C2). rewrite Hback in C1, C2.
  unfold unit_roundoff, subnormal_slack in C1, C2.
  rewrite Hcm, Hz.
  apply grid_unique; [lia| |]; rewrite <- Hcm, <- Hz;
    set (P := Js.pow10Q p0) in *; clearbody P;
    clear - Ha Ht T1 T2 C1 C2 Hfine Hc0; lra.
Qed.

End Printing.

Lemma count_digits_bound (fuel : nat) : forall i m,
  0 <= m -> i < 10 ^ (m + 1) -> 0 <= Js.count_digits fuel i <= m.
Proof.
  induction fuel as [|fuel IH]; intros i m Hm Hi; cbn [Js.count_digits]; [lia|].
  destruct (i <? 10) eqn:H10; [lia|]. apply Z.ltb_ge in H10.
  assert (Hm1 : 1 <= m).
  { destruct (Z.eq_dec m 0) as [->|]; [|lia]. change (10 ^ (0 + 1)) with 10 in Hi. lia. }
  assert (Hdiv : i / 10 < 10 ^ (m - 1 + 1)).
  { apply Z.div_lt_upper_bound; [lia|].
    replace (m - 1 + 1) with m by lia.
    replace (m + 1) with (Z.succ m) in Hi by lia.
    rewrite Z.pow_succ_r in Hi by lia. exact Hi. }
  specialize (IH (i / 10) (m - 1) ltac:(lia) Hdiv). lia.
Qed.

Lemma count_shifts_bound (fuel : nat) : forall n d m,
  0 <= m -> d <= n * 10 ^ m -> 0 <= Js.count_shifts fuel n d <= m.
Proof.
  induction fuel as [|fuel IH]; intros n d m Hm Hd; cbn [Js.count_shifts]; [lia|].
  destruct (d <=? n) eqn:Hle; [lia|]. apply Z.leb_gt in Hle.
  assert (Hm1 : 1 <= m).
  { destruct (Z.eq_dec m 0) as [->|]; [|lia]. change (10 ^ 0) with 1 in Hd. lia. }
  assert (Hd' : d <= n * 10 * 10 ^ (m - 1)).
  { replace m with (Z.succ (m - 1)) in Hd by lia.
    rewrite Z.pow_succ_r in Hd by lia. lia. }
  specialize (IH (n * 10) d (m - 1) ltac:(lia) Hd'). lia.
Qed.

(** The decimal exponent of [n / d] lies where [n / d] does. *)
Lemma ilog10_bounds (n d m1 m2 : Z) :
  0 < n -> 0 < d -> 0 <= m1 -> 0 <= m2 ->
  d <= n * 10 ^ m1 -> n < d * 10 ^ (m2 + 1) ->
  - m1 <= Js.ilog10 n d <= m2.
Proof.
  intros Hn Hd Hm1 Hm2 Hlo Hhi. unfold Js.ilog10.
  destruct (d <=? n) eqn:Hle.
  - assert (Hq : n / d < 10 ^ (m2 + 1)).
    { apply Z.div_lt_upper_bound; [lia|exact Hhi]. }
    pose proof (count_digits_bound (S (Z.to_nat (Z.log2 (n / d)))) (n / d) m2 Hm2 Hq).
    lia.
  - pose proof (count_shifts_bound (2 + Z.to_nat (Z.log2 d)) n d m1 Hm1 Hlo). lia.
Qed.

Section PrintingWhole.

Local Open Scope Q_scope.

(** A whole number up to [2^50] prints as its digits. *)
Lemma toString_whole_pos (n : Z) :
  (0 < n <= 2 ^ 50)%Z -> Js.toString_value (inject_Z n) == inject_Z n.
Proof.
  intros [Hn Hle]. unfold Js.toString_value. cbn [Qnum Qden inject_Z].
  destruct n as [|p|p]; try lia.
  change (Z.pos p # 1) with (inject_Z (Z.pos p)).
  set (n := Z.pos p) in *.
  apply (shortest_on_grid (inject_Z n) (inject_Z n) _ n 0).
  - now apply inject_Z_pos.
  - now apply inject_Z_pos.
  - change (Js.pow10Q 0) with 1. now rewrite Qmult_1_r.
  - rewrite fl_whole; [reflexivity|].
    assert ((2 ^ 50 < 2 ^ 53)%Z) by reflexivity. lia.
  - assert (H17 : (n < 1 * 10 ^ (16 + 1))%Z).
    { assert ((2 ^ 50 < 10 ^ 17)%Z) by reflexivity. lia. }
    pose proof (ilog10_bounds n 1 0 16 ltac:(lia) ltac:(lia) ltac:(lia) ltac:(lia)
                  ltac:(change (10 ^ 0)%Z with 1%Z; lia) H17).
    lia.
  - change (Js.pow10Q 0) with 1.
    assert (Hq : inject_Z n <= inject_Z (2 ^ 50)) by (now rewrite <- Zle_Qle).
    change (inject_Z (2 ^ 50)) with 1125899906842624 in Hq.
    set (x := inject_Z n) in *. clearbody x. lra.
Qed.

Lemma toString_whole (n : Z) :
  (- 2 ^ 50 <= n <= 2 ^ 50)%Z -> Js.toString_value (inject_Z n) == inject_Z n.
Proof.
  intro Hn. destruct n as [|p|p].
  - reflexivity.
  - apply toString_whole_pos. lia.
  - unfold Js.toString_value. cbn [Qnum Qden inject_Z].
    rewrite Qred_correct.
    pose proof (toString_whole_pos (Z.pos p) ltac:(lia)) as H.
    unfold Js.toString_value in H. cbn [Qnum Qden inject_Z] in H.
    rewrite H. reflexivity.
Qed.

(** A balance below [2^49] millionths, parsed, prints as the decimal that
    is stored. *)
Lemma toString_parsed_balance (v : numeric) :
  exact_range v -> Js.toString_value (parseFloat v) == numeric_value v.
Proof.
  intros [H0 Hlt].
  destruct (Z.eq_dec v 0) as [->|Hv0]; [reflexivity|].
  destruct (Z.eq_dec v 1) as [->|Hv1]; [vm_compute; reflexivity|].
  assert (Hv : (2 <= v)%Z) by lia.
  unfold parseFloat.
  assert (Ht0 : 0 <= numeric_value v) by (apply numeric_value_nonneg; lia).
  assert (Ht2 : (2 # 1000000) <= numeric_value v).
  { unfold numeric_value, Qle. cbn. lia. }
  assert (Ht49 : numeric_value v < (562949953421312 # 1000000)).
  { unfold numeric_value, Qlt. cbn [Qnum Qden].
    assert ((2 ^ 49 = 562949953421312)%Z) by reflexivity. lia. }
  destruct (fl_close _ Ht0) as (F1 & F2).
  unfold unit_roundoff, subnormal_slack in F1, F2.
  set (t := numeric_value v) in *.
  set (a := Js.fl t) in *.
  assert (Ha1 : (1 # 1000000) <= a) by (clearbody a t; lra).
  assert (Ha2 : a < 100000000000) by (clearbody a t; lra).
  assert (Hapos : 0 < a) by lra.
  unfold Js.toString_value.
  destruct (Qnum a) as [|n|n] eqn:Hn.
  - exfalso. unfold Qlt in Hapos. cbn in Hapos. lia.
  - apply (shortest_on_grid a t _ v (-6)).
    + exact Hapos.
    + lra.
    + unfold t, numeric_value, Qeq. cbn. lia.
    + reflexivity.
    + assert (Hlo : (Z.pos (Qden a) <= Z.pos n * 10 ^ 6)%Z).
      { unfold Qle in Ha1. cbn [Qnum Qden] in Ha1. rewrite Hn in Ha1.
        change (10 ^ 6)%Z with 1000000%Z. lia. }
      assert (Hhi : (Z.pos n < Z.pos (Qden a) * 10 ^ (10 + 1))%Z).
      { unfold Qlt in Ha2. cbn [Qnum Qden] in Ha2. rewrite Hn in Ha2.
        change (10 ^ (10 + 1))%Z with 100000000000%Z. lia. }
      pose proof (ilog10_bounds (Z.pos n) (Z.pos (Qden a)) 6 10
                    ltac:(lia) ltac:(lia) ltac:(lia) ltac:(lia) Hlo Hhi).
      lia.
    + change (Js.pow10Q (-6)) with (1 # 1000000). clearbody t. lra.
  - exfalso. unfold Qlt in Hapos. cbn in Hapos. lia.
Qed.

End PrintingWhole.

(** * Whole numbers through the arithmetic of the read side *)

Lemma is_negative_compat (q q' : Q) : (q == q')%Q -> is_negative q = is_negative q'.
Proof.
  unfold Qeq, is_negative. intro H.
  destruct (Z.ltb_spec (Qnum q) 0), (Z.ltb_spec (Qnum q') 0); try reflexivity; nia.
Qed.

Lemma number_of_compat (q q' : Q) : (q == q')%Q -> number_of q = number_of q'.
Proof.
  intro H. unfold number_of. cbv zeta.
  now rewrite (fl_compat _ _ H), (is_negative_compat _ _ H).
Qed.

Lemma two_53_below_two_1024 : 2 ^ 53 < 2 ^ 1024.
Proof. apply Z.pow_lt_mono_r; lia. Qed.

Lemma number_of_whole (n : Z) :
  - 2 ^ 53 < n < 2 ^ 53 -> number_of (inject_Z n) = js_int n.
Proof.
  intro Hn. unfold number_of, js_int. cbv zeta. rewrite (fl_whole n Hn).
  unfold Js.eqb, Js.ltb, Js.Qabs', two_1024. cbn [Qnum Qden inject_Z].
  rewrite !Z.mul_1_r. change (0 * 1) with 0.
  destruct (n =? 0) eqn:H0.
  - apply Z.eqb_eq in H0. subst n. reflexivity.
  - assert (Hlt : (Z.abs n <? 2 ^ 1024) = true).
    { apply Z.ltb_lt. pose proof two_53_below_two_1024. lia. }
    now rewrite Hlt.
Qed.

Lemma js_int_real (n : Z) : (real_of (js_int n) == inject_Z n)%Q.
Proof.
  unfold js_int. destruct (n =? 0) eqn:H0; [|reflexivity].
  apply Z.eqb_eq in H0. subst n. reflexivity.
Qed.

(** [page - 1] *)
Lemma js_sub_one (p : Z) :
  - 2 ^ 52 <= p <= 2 ^ 52 -> js_sub (js_int p) (Num 1%Q) = js_int (p - 1).
Proof.
  intro Hp.
  assert (H53 : - 2 ^ 53 < p - 1 < 2 ^ 53).
  { assert (2 ^ 53 = 2 * 2 ^ 52) by reflexivity. lia. }
  rewrite <- (number_of_whole _ H53).
  assert (E : js_sub (js_int p) (Num 1%Q)
              = number_of (real_of (js_int p) - real_of (Num 1%Q))).
  { unfold js_int. destruct (p =? 0); reflexivity. }
  rewrite E. apply number_of_compat. rewrite js_int_real. cbn [real_of].
  rewrite inject_Z_sub. reflexivity.
Qed.

(** [Math.min(n, 100)] *)
Lemma Math_min_100 (n : Z) : Math_min (js_int n) (Num 100%Q) = js_int (Z.min n 100).
Proof.
  unfold js_int. destruct (n =? 0) eqn:H0.
  - apply Z.eqb_eq in H0. subst n. reflexivity.
  - apply Z.eqb_neq in H0. unfold Math_min, below, Js.ltb.
    cbn [Qnum Qden inject_Z]. rewrite !Z.mul_1_r.
    destruct (100 <? n) eqn:Hlt.
    + apply Z.ltb_lt in Hlt. rewrite Z.min_r by lia. reflexivity.
    + apply Z.ltb_ge in Hlt. rewrite Z.min_l by lia.
      assert (Hn0 : (n =? 0) = false) by (apply Z.eqb_neq; lia). now rewrite Hn0.
Qed.

Section BigintParameters.

Variable String_of : jsnum -> string.

Lemma whole_value (d : Q) (n : Z) :
  (d == inject_Z n)%Q -> is_whole d = true /\ whole_part d = n.
Proof.
  unfold Qeq, is_whole, whole_part. cbn [Qnum Qden inject_Z]. intro H.
  rewrite Z.mul_1_r in H. rewrite H.
  rewrite Z.mod_mul, Z.div_mul by lia. split; [reflexivity|reflexivity].
Qed.

(** A whole number up to [2^50] in magnitude reaches the server as
    itself. *)
Lemma bigint_param_whole (n : Z) :
  - 2 ^ 50 <= n <= 2 ^ 50 ->
  walletService.bigint_param String_of (js_int n) = Ok n.
Proof.
  intro Hn. unfold js_int. destruct (n =? 0) eqn:H0.
  - apply Z.eqb_eq in H0. subst n. reflexivity.
  - unfold walletService.bigint_param. cbv zeta.
    destruct (whole_value _ _ (toString_whole n Hn)) as (Hw & Hp).
    rewrite Hw, Hp.
    assert (H50 : 2 ^ 50 = 1125899906842624) by reflexivity.
    assert (B1 : (Z.abs n <? 1000000000000000000000) = true) by (apply Z.ltb_lt; lia).
    assert (B2 : (- 9223372036854775808 <=? n) = true) by (apply Z.leb_le; lia).
    assert (B3 : (n <? 9223372036854775808) = true) by (apply Z.ltb_lt; lia).
    rewrite B1, B2, B3. reflexivity.
Qed.

(** [(page - 1) * limit] *)
Lemma bigint_param_product (a l : Z) :
  - 2 ^ 50 <= a * l <= 2 ^ 50 ->
  walletService.bigint_param String_of (js_mul (js_int a) (js_int l)) = Ok (a * l).
Proof.
  intro H. unfold js_int at 1 2.
  destruct (a =? 0) eqn:Ha; [|destruct (l =? 0) eqn:Hl].
  - apply Z.eqb_eq in Ha. subst a. destruct (l =? 0); reflexivity.
  - apply Z.eqb_eq in Hl. subst l. rewrite Z.mul_0_r. reflexivity.
  - cbn [js_mul].
    rewrite (number_of_compat _ (inject_Z (a * l))) by (now rewrite inject_Z_mult).
    assert (H53 : - 2 ^ 53 < a * l < 2 ^ 53).
    { assert (2 ^ 53 = 8 * 2 ^ 50) by reflexivity. lia. }
    rewrite (number_of_whole _ H53). now apply bigint_param_whole.
Qed.

End BigintParameters.

Lemma ceiling_unique (x : Q) (K : Z) :
  (inject_Z (K - 1) < x)%Q -> (x <= inject_Z K)%Q ->
  - ((- Qnum x) / Zpos (Qden x)) = K.
Proof.
  destruct x as [a b]. unfold Qlt, Qle. cbn [Qnum Qden inject_Z].
  rewrite !Z.mul_1_r. intros H1 H2.
  assert (E : - a / Z.pos b = - K).
  { symmetry. apply (Z.div_unique _ _ _ (- a + K * Z.pos b)); lia. }
  lia.
Qed.

(** [Math.ceil(total / limit)] is the number of pages. *)
Lemma pages_whole (n : nat) (l : Z) :
  1 <= l -> Z.of_nat n + l <= 2 ^ 50 ->
  Math_ceil (js_div (count_number n) (js_int l))
  = js_int ((Z.of_nat n + l - 1) / l).
Proof.
  intros Hl Hsum. unfold count_number.
  set (N := Z.of_nat n) in *. assert (HN : 0 <= N) by lia. clearbody N.
  assert (H50 : 2 ^ 50 = 1125899906842624) by reflexivity.
  assert (H53 : 2 ^ 53 = 8 * 2 ^ 50) by reflexivity.
  rewrite number_of_whole by lia.
  assert (Hjl : js_int l = Num (inject_Z l)).
  { unfold js_int. assert (E : (l =? 0) = false) by (apply Z.eqb_neq; lia). now rewrite E. }
  rewrite Hjl.
  destruct (Z.eq_dec N 0) as [->|HN0].
  - change (js_int 0) with (Zero false). cbn [js_div].
    assert (Hneg : is_negative (inject_Z l) = false).
    { unfold is_negative. cbn. apply Z.ltb_ge. lia. }
    rewrite Hneg. cbn [xorb Math_ceil].
    rewrite Z.div_small by lia. reflexivity.
  - assert (HjN : js_int N = Num (inject_Z N)).
    { unfold js_int. assert (E : (N =? 0) = false) by (apply Z.eqb_neq; lia). now rewrite E. }
    rewrite HjN. cbn [js_div].
    set (K := (N + l - 1) / l).
    assert (HK : (K - 1) * l + 1 <= N <= K * l).
    { pose proof (Z.div_mod (N + l - 1) l ltac:(lia)) as Hdm.
      pose proof (Z.mod_pos_bound (N + l - 1) l ltac:(lia)) as Hr.
      fold K in Hdm. nia. }
    assert (HK1 : 1 <= K) by nia.
    assert (HKl : K * l <= 2 ^ 50) by nia.
    clearbody K.
    set (q := (inject_Z N / inject_Z l)%Q).
    assert (HLq : (0 < inject_Z l)%Q) by (apply inject_Z_pos; lia).
    assert (HNq : (0 < inject_Z N)%Q) by (apply inject_Z_pos; lia).
    assert (Hq : (q * inject_Z l == inject_Z N)%Q).
    { unfold q. rewrite Qmult_comm. apply Qmult_div_r.
      intro E. rewrite E in HLq. lra. }
    assert (Hq0 : (0 <= q)%Q).
    { unfold q. apply Qle_shift_div_l; [exact HLq|lra]. }
    destruct (fl_close q Hq0) as (F1 & F2).
    unfold unit_roundoff, subnormal_slack in F1, F2.
    set (x := Js.fl q) in *.
    assert (Hlow : (inject_Z (K - 1) < x)%Q).
    { apply (Qmult_lt_r _ _ (inject_Z l)); [exact HLq|].
      assert (A : ((q * (1 - (1 # 9007199254740992))
                    - (1 # 1267650600228229401496703205376)) * inject_Z l
                   <= x * inject_Z l)%Q).
      { apply Qmult_le_compat_r; [exact F1|lra]. }
      assert (B : (inject_Z ((K - 1) * l + 1) <= inject_Z N)%Q)
        by (rewrite <- Zle_Qle; lia).
      assert (C : (inject_Z (K * l) <= inject_Z (2 ^ 50))%Q)
        by (rewrite <- Zle_Qle; lia).
      assert (D : (inject_Z l <= inject_Z (2 ^ 50))%Q)
        by (rewrite <- Zle_Qle; nia).
      rewrite inject_Z_plus, inject_Z_mult, inject_Z_sub in B.
      rewrite inject_Z_mult in C. rewrite inject_Z_sub.
      change (inject_Z (2 ^ 50)) with 1125899906842624%Q in C, D.
      change (inject_Z 1) with 1%Q in *.
      clearbody x q.
      set (Lq := inject_Z l) in *. set (Nq := inject_Z N) in *.
      set (Kq := inject_Z K) in *. clearbody Lq Nq Kq.
      set (P := (q * Lq)%Q) in *.
      assert (A' : (P * (1 - (1 # 9007199254740992))
                    - (1 # 1267650600228229401496703205376) * Lq <= x * Lq)%Q).
      { unfold P. lra. }
      clearbody P. set (W := (Kq * Lq)%Q) in *.
      assert (Wexp : ((Kq - 1) * Lq == W - Lq)%Q) by (unfold W; ring).
      rewrite Wexp in *. clearbody W. set (X := (x * Lq)%Q) in *. clearbody X.
      clear - A' B C D Hq HLq. lra. }
    assert (Hhigh : (x <= inject_Z K)%Q).
    { destruct (Z.eq_dec N (K * l)) as [HNK|HNK].
      - assert (Eq : (q == inject_Z K)%Q).
        { unfold q. rewrite HNK, inject_Z_mult. apply Qdiv_mult_l.
          intro E. rewrite E in HLq. lra. }
        unfold x. rewrite (fl_compat _ _ Eq), fl_whole by lia. apply Qle_refl.
      - apply (Qmult_le_r _ _ (inject_Z l)); [exact HLq|].
        assert (A : (x * inject_Z l
                     <= (q * (1 + (1 # 9007199254740992))
                         + (1 # 1267650600228229401496703205376)) * inject_Z l)%Q).
        { apply Qmult_le_compat_r; [exact F2|lra]. }
        assert (B : (inject_Z N <= inject_Z (K * l - 1))%Q)
          by (rewrite <- Zle_Qle; lia).
        assert (C : (inject_Z (K * l) <= inject_Z (2 ^ 50))%Q)
          by (rewrite <- Zle_Qle; lia).
        assert (D : (inject_Z l <= inject_Z (2 ^ 50))%Q)
          by (rewrite <- Zle_Qle; nia).
        rewrite inject_Z_sub, inject_Z_mult in B.
        rewrite inject_Z_mult in C.
        change (inject_Z (2 ^ 50)) with 1125899906842624%Q in C, D.
        change (inject_Z 1) with 1%Q in *.
        clearbody x q.
        set (Lq := inject_Z l) in *. set (Nq := inject_Z N) in *.
        set (Kq := inject_Z K) in *. clearbody Lq Nq Kq.
        set (P := (q * Lq)%Q) in *.
        assert (A' : (x * Lq <= P * (1 + (1 # 9007199254740992))
                      + (1 # 1267650600228229401496703205376) * Lq)%Q).
        { unfold P. lra. }
        clearbody P. set (W := (Kq * Lq)%Q) in *. clearbody W.
        set (X := (x * Lq)%Q) in *. clearbody X.
        clear - A' B C D Hq HLq. lra. }
    assert (Hxpos : (0 < x)%Q).
    { eapply Qle_lt_trans; [|exact Hlow]. change 0%Q with (inject_Z 0).
      rewrite <- Zle_Qle. lia. }
    unfold number_of. cbv zeta. fold q. fold x.
    assert (E0 : Js.eqb x 0%Q = false).
    { unfold Js.eqb. cbn [Qnum Qden]. apply Z.eqb_neq.
      unfold Qlt in Hxpos. cbn [Qnum Qden] in Hxpos. lia. }
    assert (E1 : Js.ltb (Js.Qabs' x) two_1024 = true).
    { unfold Js.ltb, Js.Qabs', two_1024. cbn [Qnum Qden inject_Z]. apply Z.ltb_lt.
      unfold Qlt in Hxpos. unfold Qle in Hhigh. cbn [Qnum Qden inject_Z] in Hxpos, Hhigh.
      pose proof two_53_below_two_1024.
      assert (Z.abs (Qnum x) = Qnum x) by lia.
      assert (0 < Z.pos (Qden x)) by lia.
      nia. }
    rewrite E0, E1. cbn [Math_ceil]. cbv zeta.
    rewrite (ceiling_unique x K Hlow Hhigh).
    unfold js_int. destruct (K =? 0) eqn:EK; [apply Z.eqb_eq in EK; lia|reflexivity].
Qed.

(** * Ordering, joining and slicing *)

Lemma insert_desc_perm {A} (key : A -> Z) (r : A) (l : list A) :
  Permutation (insert_desc key r l) (r :: l).
Proof.
  induction l as [|x l IH]; cbn [insert_desc]; [reflexivity|].
  destruct (key x <? key r); [reflexivity|].
  rewrite IH. apply perm_swap.
Qed.

Lemma order_by_desc_perm {A} (key : A -> Z) (l : list A) :
  Permutation (order_by_desc key l) l.
Proof.
  induction l as [|x l IH]; cbn; [reflexivity|].
  fold (order_by_desc key l). rewrite insert_desc_perm. now constructor.
Qed.

Lemma insert_desc_sorted {A} (key : A -> Z) (r : A) (l : list A) :
  StronglySorted (newest_first key) l ->
  StronglySorted (newest_first key) (insert_desc key r l).
Proof.
  induction 1 as [|x l Hs IH Hall]; cbn [insert_desc].
  - repeat constructor.
  - destruct (key x <? key r) eqn:Hlt.
    + apply Z.ltb_lt in Hlt. constructor; [constructor; assumption|].
      constructor; [unfold newest_first; lia|].
      eapply Forall_impl; [|exact Hall]. unfold newest_first. intros; lia.
    + apply Z.ltb_ge in Hlt. constructor; [exact IH|].
      rewrite (insert_desc_perm key r l). constructor; [exact Hlt|exact Hall].
Qed.

Lemma order_by_desc_sorted {A} (key : A -> Z) (l : list A) :
  StronglySorted (newest_first key) (order_by_desc key l).
Proof.
  induction l as [|x l IH]; cbn; [constructor|].
  fold (order_by_desc key l). now apply insert_desc_sorted.
Qed.

(** With distinct keys the order is strict, and so the same for every way
    of breaking ties. *)
Lemma sorted_strict {A} (key : A -> Z) (l : list A) :
  NoDup (map key l) -> StronglySorted (newest_first key) l ->
  StronglySorted (fun x y => key y < key x) l.
Proof.
  induction 2 as [|x l Hs IH Hall]; [constructor|].
  cbn [map] in H. inversion H as [|? ? Hnot Hnd]; subst.
  constructor; [now apply IH|].
  rewrite Forall_forall in *. intros y Hy. specialize (Hall y Hy).
  unfold newest_first in Hall.
  assert (key y <> key x).
  { intro E. apply Hnot. rewrite <- E. now apply in_map. }
  lia.
Qed.

Lemma join_one (d : Db) (e : ledger_entry_row) (t : transaction_row) :
  transactions_pkey d -> In t (transactions d) -> t_id t = le_transaction_id e ->
  join_transaction d e = [history_of e t].
Proof.
  intros Hpk Hin Hid. unfold join_transaction.
  rewrite (filter_unique t_id _ _ t Hpk Hin); [reflexivity| |].
  - unfold id_is. rewrite Hid. apply Nat.eqb_refl.
  - intros y Hy. unfold id_is in Hy. apply Nat.eqb_eq in Hy. congruence.
Qed.

(** Under the primary key of [transactions] and the foreign key of
    [ledger_entries] the join keeps every entry, once. *)
Lemma join_entries (d : Db) (es : list ledger_entry_row) :
  transactions_pkey d ->
  Forall (fun e => existsb (id_is (le_transaction_id e)) (transactions d) = true) es ->
  exists ets : list (ledger_entry_row * transaction_row),
    flat_map (join_transaction d) es = map (fun et => history_of (fst et) (snd et)) ets /\
    map fst ets = es /\
    Forall (fun et => In (snd et) (transactions d) /\
                      t_id (snd et) = le_transaction_id (fst et)) ets.
Proof.
  intros Hpk. induction 1 as [|e es He Hes IH].
  - exists []. repeat split; constructor.
  - destruct IH as (ets & Hmap & Hfst & Hall).
    apply existsb_exists in He. destruct He as (t & Hin & Hid).
    unfold id_is in Hid. apply Nat.eqb_eq in Hid.
    exists ((e, t) :: ets). cbn [flat_map map fst snd].
    rewrite (join_one d e t Hpk Hin Hid), Hmap, Hfst.
    split; [reflexivity|]. split; [reflexivity|].
    constructor; [split; assumption|exact Hall].
Qed.

Lemma Forall_filter {A} (P : A -> Prop) (f : A -> bool) (l : list A) :
  Forall P l -> Forall P (filter f l).
Proof.
  intro H. rewrite Forall_forall in *. intros x Hx. apply filter_In in Hx. now apply H.
Qed.

(** Consecutive pages of size [l], as many as the rows fill, make up the
    rows. *)
Lemma pages_concat {A} (l : nat) : forall (n : nat) (rows : list A),
  (List.length rows <= n * l)%nat ->
  List.concat (map (fun i => firstn l (skipn (i * l) rows)) (seq 0 n)) = rows.
Proof.
  induction n as [|n IH]; intros rows Hlen.
  - destruct rows; [reflexivity|cbn in Hlen; lia].
  - cbn [seq map List.concat]. rewrite <- seq_shift, map_map.
    transitivity (firstn l rows ++ skipn l rows)%list; [|apply firstn_skipn].
    f_equal.
    rewrite <- (IH (skipn l rows)) by (rewrite length_skipn; lia).
    f_equal. apply map_ext. intro i. f_equal.
    rewrite skipn_skipn. f_equal. lia.
Qed.

(** * The wallet service *)

Lemma find_filter {A} (P : A -> bool) (l : list A) (x : A) :
  find P l = Some x -> exists rest, filter P l = x :: rest.
Proof.
  induction l as [|y l IH]; [discriminate|]. cbn [find filter].
  destruct (P y); [inversion 1; subst; eauto|exact IH].
Qed.

Lemma find_none_filter {A} (P : A -> bool) (l : list A) :
  find P l = None -> filter P l = [].
Proof.
  induction l as [|y l IH]; [reflexivity|]. cbn [find filter].
  destruct (P y); [discriminate|exact IH].
Qed.

Section Service.

Variable asset_types : list asset_type_row.
Variable columns_of : uuid -> wallet_columns.
Variable meanwhile : Db -> Db.
Variable String_of : jsnum -> string.

Lemma wallet_with_asset_by_uuid (d : Db) (id : uuid) (x : wallet_row)
    (a : asset_type_row) :
  wallet_with_asset asset_types d id x a ->
  uuid_in id = Some id /\ wallet_and_asset asset_types d id x a.
Proof.
  intros [Hx Ha]. apply wallet_of_Some in Hx. destruct Hx as (Hid & Hx).
  split; [exact Hid|]. split; [exact Hx|exact Ha].
Qed.

Lemma joined_wallet (d : Db) (v : uuid) (x : wallet_row) (a : asset_type_row) :
  wallet_and_asset asset_types d v x a ->
  exists rest,
    walletService.join_asset_types asset_types columns_of
      (filter (w_id_is v) (wallets d))
    = mk_view x (columns_of (w_id x)) a :: rest.
Proof.
  intros [Hx Ha]. unfold wallet_by_uuid in Hx.
  destruct (find_filter _ _ _ Hx) as (ws & ->).
  destruct (find_filter _ _ _ Ha) as (ats & Hats).
  unfold walletService.join_asset_types. cbn [flat_map]. rewrite Hats. cbn [map app].
  eauto.
Qed.

Lemma no_joined_wallet (d : Db) (v : uuid) :
  wallet_by_uuid d v = None ->
  walletService.join_asset_types asset_types columns_of
    (filter (w_id_is v) (wallets d)) = [].
Proof.
  intro H. unfold wallet_by_uuid in H. now rewrite (find_none_filter _ _ H).
Qed.

Lemma getWalletById_found (w : World) (id : string) (v : uuid) (x : wallet_row)
    (a : asset_type_row) :
  uuid_in id = Some v ->
  wallet_and_asset asset_types (db w) v x a ->
  walletService.getWalletById asset_types columns_of id w
  = (w, Ok (walletService.formatWallet (mk_view x (columns_of (w_id x)) a))).
Proof.
  intros Hv H. destruct (joined_wallet _ _ _ _ H) as (rest & Hj).
  unfold walletService.getWalletById, bind, get_db, lift, uuid_param.
  rewrite Hv. now rewrite Hj.
Qed.

Lemma getWalletById_missing (w : World) (id : string) (v : uuid) :
  uuid_in id = Some v ->
  wallet_by_uuid (db w) v = None ->
  walletService.getWalletById asset_types columns_of id w
  = (w, Throw (NotFoundError "Wallet")).
Proof.
  intros Hv H. unfold walletService.getWalletById, bind, get_db, lift, uuid_param.
  rewrite Hv. now rewrite (no_joined_wallet _ _ H).
Qed.

Lemma getWalletById_no_uuid (w : World) (id : string) :
  uuid_in id = None ->
  walletService.getWalletById asset_types columns_of id w = (w, Throw no_uuid).
Proof.
  intro Hv. unfold walletService.getWalletById, bind, get_db, lift, uuid_param.
  now rewrite Hv.
Qed.

(** The statements of [getWalletTransactions], one after the other. *)
Lemma getWalletTransactions_steps (id : string) (v : uuid) (page limit : jsnum)
    (w : World) :
  uuid_in id = Some v ->
  walletService.getWalletTransactions asset_types columns_of meanwhile String_of
    id page limit w
  = match walletService.getWalletById asset_types columns_of id w with
    | (_, Throw e) => (w, Throw e)
    | (_, Ok _) =>
        let w1 := autocommit meanwhile w in
        match walletService.bigint_param String_of limit with
        | Throw e => (w1, Throw e)
        | Ok l =>
            match walletService.bigint_param String_of
                    (js_mul (js_sub page (Num 1%Q)) limit) with
            | Throw e => (w1, Throw e)
            | Ok o =>
                match limit_offset l o (wallet_history v (db w1)) with
                | Throw e => (w1, Throw e)
                | Ok rows =>
                    let w2 := autocommit meanwhile w1 in
                    let total :=
                      count_number
                        (List.length (filter (of_wallet v) (ledger_entries (db w2)))) in
                    (w2, Ok (mk_paged rows
                               (mk_pagination page limit total
                                  (Math_ceil (js_div total limit)))))
                end
            end
        end
    end.
Proof.
  intro Hv.
  unfold walletService.getWalletTransactions, walletService.getWalletById.
  unfold bind, get_db, lift, ret, throw, walletService.others, uuid_param.
  rewrite Hv.
  destruct (walletService.join_asset_types _ _ _); [reflexivity|].
  cbv zeta.
  destruct (walletService.bigint_param String_of limit); [|reflexivity].
  destruct (walletService.bigint_param String_of _); [|reflexivity].
  destruct (limit_offset _ _ _); reflexivity.
Qed.

Lemma getWalletTransactions_no_uuid (id : string) (page limit : jsnum) (w : World) :
  uuid_in id = None ->
  walletService.getWalletTransactions asset_types columns_of meanwhile String_of
    id page limit w = (w, Throw no_uuid).
Proof.
  intro Hv.
  unfold walletService.getWalletTransactions, walletService.getWalletById.
  unfold bind, get_db, lift, ret, throw, walletService.others, uuid_param.
  now rewrite Hv.
Qed.

End Service.

(** ** The history of a wallet *)

Lemma wallet_history_joined (d : Db) (id : uuid) :
  transactions_pkey d -> ledger_fkey d ->
  exists ets : list (ledger_entry_row * transaction_row),
    wallet_history id d = map (fun et => history_of (fst et) (snd et)) ets /\
    Permutation (map fst ets) (filter (of_wallet id) (ledger_entries d)) /\
    Forall (fun et => In (snd et) (transactions d) /\
                      t_id (snd et) = le_transaction_id (fst et)) ets.
Proof.
  intros Hpk Hfk. unfold wallet_history.
  destruct (join_entries d (filter (of_wallet id) (ledger_entries d)) Hpk
              (Forall_filter _ _ _ Hfk)) as (ets & Hj & Hfst & Hall).
  rewrite Hj.
  pose proof (order_by_desc_perm h_created_at
                (map (fun et => history_of (fst et) (snd et)) ets)) as Hperm.
  destruct (Permutation_map_inv _ _ Hperm) as (ets' & Heq & Hp).
  exists ets'. split; [exact Heq|]. split.
  - rewrite <- Hfst. apply Permutation_map. now symmetry.
  - rewrite Forall_forall in *. intros et Het. apply Hall.
    eapply Permutation_in; [symmetry; exact Hp|exact Het].
Qed.

Lemma wallet_history_length (d : Db) (id : uuid) :
  transactions_pkey d -> ledger_fkey d ->
  List.length (wallet_history id d)
  = List.length (filter (of_wallet id) (ledger_entries d)).
Proof.
  intros Hpk Hfk.
  destruct (wallet_history_joined d id Hpk Hfk) as (ets & Heq & Hp & _).
  rewrite Heq, length_map, <- (Permutation_length Hp), length_map. reflexivity.
Qed.

Lemma wallet_history_strict (d : Db) (id : uuid) :
  transactions_pkey d -> ledger_fkey d ->
  NoDup (map le_created_at (filter (of_wallet id) (ledger_entries d))) ->
  StronglySorted (fun x y => h_created_at y < h_created_at x) (wallet_history id d).
Proof.
  intros Hpk Hfk Hnd. apply sorted_strict; [|apply order_by_desc_sorted].
  destruct (wallet_history_joined d id Hpk Hfk) as (ets & Heq & Hp & _).
  rewrite Heq, map_map. cbn [history_of h_created_at].
  rewrite <- (map_map fst le_created_at).
  eapply Permutation_NoDup; [|exact Hnd].
  apply Permutation_map. now symmetry.
Qed.

(** X16.  Under the primary key of [transactions] and the foreign key of
    [ledger_entries], the history of a wallet has one row for each ledger
    entry of the wallet, made of the columns of the entry and of the
    transaction it references, the newest entry first; where no two
    entries of the wallet were created at the same instant, each row is
    strictly newer than the rows after it. *)
Theorem wallet_history_lists_each_entry_once_newest_first (d : Db) (id : uuid) :
  transactions_pkey d -> ledger_fkey d ->
  (exists ets : list (ledger_entry_row * transaction_row),
     wallet_history id d = map (fun et => history_of (fst et) (snd et)) ets /\
     Permutation (map fst ets) (filter (of_wallet id) (ledger_entries d)) /\
     Forall (fun et => In (snd et) (transactions d) /\
                       t_id (snd et) = le_transaction_id (fst et)) ets) /\
  StronglySorted (newest_first h_created_at) (wallet_history id d) /\
  (NoDup (map le_created_at (filter (of_wallet id) (ledger_entries d))) ->
   StronglySorted (fun x y => h_created_at y < h_created_at x) (wallet_history id d)).
Proof.
  intros Hpk Hfk. split; [now apply wallet_history_joined|].
  split; [apply order_by_desc_sorted|].
  intro Hnd. now apply wallet_history_strict.
Qed.

Section ServiceFacts.

Variable asset_types : list asset_type_row.
Variable columns_of : uuid -> wallet_columns.
Variable meanwhile : Db -> Db.
Variable String_of : jsnum -> string.

Lemma count_number_whole (n : nat) :
  Z.of_nat n <= 2 ^ 50 -> count_number n = js_int (Z.of_nat n).
Proof.
  intro H. unfold count_number. apply number_of_whole.
  assert (2 ^ 53 = 8 * 2 ^ 50) by reflexivity.
  assert (0 < 2 ^ 50) by reflexivity. lia.
Qed.

(** The page a call of the service returns, for whole numbers. *)
Lemma getWalletTransactions_page (id : uuid) (p l : Z) (w : World)
    (x : wallet_row) (a : asset_type_row) :
  wallet_with_asset asset_types (db w) id x a ->
  1 <= p -> 1 <= l -> (p - 1) * l <= 2 ^ 50 ->
  let d1 := meanwhile (db w) in
  let d2 := meanwhile d1 in
  let total := List.length (filter (of_wallet id) (ledger_entries d2)) in
  Z.of_nat total + l <= 2 ^ 50 ->
  walletService.getWalletTransactions asset_types columns_of meanwhile String_of
    id (js_int p) (js_int l) w
  = (autocommit meanwhile (autocommit meanwhile w),
     Ok (mk_paged (slice p l (wallet_history id d1))
           (mk_pagination (js_int p) (js_int l) (js_int (Z.of_nat total))
              (js_int (page_count total l))))).
Proof.
  intros Hx Hp Hl Hpl d1 d2 total Htot.
  assert (H50 : 0 < 2 ^ 50) by reflexivity.
  assert (H52 : 2 ^ 52 = 4 * 2 ^ 50) by reflexivity.
  destruct (wallet_with_asset_by_uuid _ _ _ _ _ Hx) as (Hid & Hxa).
  rewrite (getWalletTransactions_steps _ _ _ _ id id _ _ _ Hid),
    (getWalletById_found _ _ _ _ _ _ _ Hid Hxa).
  cbv zeta.
  rewrite (bigint_param_whole String_of l) by lia.
  rewrite js_sub_one by nia.
  rewrite (bigint_param_product String_of (p - 1) l) by nia.
  unfold limit_offset.
  assert (E1 : ((p - 1) * l <? 0) = false) by (apply Z.ltb_ge; nia).
  assert (E2 : (l <? 0) = false) by (apply Z.ltb_ge; lia).
  rewrite E1, E2.
  change (db (autocommit meanwhile w)) with d1.
  change (db (autocommit meanwhile (autocommit meanwhile w))) with d2.
  fold total. rewrite count_number_whole by lia.
  rewrite <- (count_number_whole total) at 2 by lia.
  rewrite pages_whole by lia. reflexivity.
Qed.

End ServiceFacts.

Lemma limit_offset_fault {A} (l o : Z) (rows : list A) (e : Err) :
  limit_offset l o rows = Throw e -> paging_fault e.
Proof.
  unfold limit_offset, paging_fault.
  destruct (o <? 0); [|destruct (l <? 0)]; inversion 1; subst;
    do 2 eexists; (split; [reflexivity|]); cbn; auto.
Qed.

Lemma limit_offset_ok {A} (l o : Z) (rows page : list A) :
  limit_offset l o rows = Ok page ->
  0 <= o /\ 0 <= l /\ page = firstn (Z.to_nat l) (skipn (Z.to_nat o) rows).
Proof.
  unfold limit_offset.
  destruct (o <? 0) eqn:Ho; [discriminate|]. destruct (l <? 0) eqn:Hl; [discriminate|].
  apply Z.ltb_ge in Ho, Hl. inversion 1. auto.
Qed.

Lemma paging_fault_is_internal (env : Env) (req : Request) (e : Err) :
  paging_fault e -> answers_500 req (errorHandler env e req).
Proof.
  intros (code & m & -> & Hin). unfold answers_500, errorHandler.
  fold (requestId_of req).
  assert (E : String.eqb code "23514" = false /\ String.eqb code "23505" = false).
  { cbn in Hin. destruct Hin as [<-|[<-|[<-|[<-|[]]]]]; split; reflexivity. }
  destruct E as [-> ->].
  destruct (String.eqb (NODE_ENV env) "production"); cbn; split; eauto.
Qed.

Section Endpoint.

Variable env : Env.
Variable asset_types : list asset_type_row.
Variable columns_of : uuid -> wallet_columns.
Variable meanwhile : Db -> Db.
Variable String_of : jsnum -> string.

Lemma bigint_param_fault (x : jsnum) (e : Err) :
  walletService.bigint_param String_of x = Throw e -> paging_fault e.
Proof.
  unfold walletService.bigint_param, paging_fault. cbv zeta.
  destruct x as [|s|s|v]; try discriminate.
  - inversion 1. do 2 eexists. split; [reflexivity|]. cbn. auto.
  - inversion 1. do 2 eexists. split; [reflexivity|]. cbn. auto.
  - destruct (_ && _); [destruct (_ && _); [discriminate|]|];
      inversion 1; do 2 eexists; (split; [reflexivity|]); cbn; auto.
Qed.

(** What a call of the service for a wallet that exists comes to. *)
Lemma getWalletTransactions_outcome (id : string) (v : uuid) (page limit : jsnum)
    (w : World) (x : wallet_row) (a : asset_type_row) :
  uuid_in id = Some v ->
  wallet_and_asset asset_types (db w) v x a ->
  let run := walletService.getWalletTransactions asset_types columns_of meanwhile
               String_of id page limit w in
  (exists l o r,
     walletService.bigint_param String_of limit = Ok l /\
     walletService.bigint_param String_of (js_mul (js_sub page (Num 1%Q)) limit) = Ok o /\
     0 <= o /\ 0 <= l /\
     run = (autocommit meanwhile (autocommit meanwhile w), Ok r) /\
     data r = firstn (Z.to_nat l) (skipn (Z.to_nat o)
                                     (wallet_history v (meanwhile (db w)))) /\
     pg_page (pagination r) = page /\ pg_limit (pagination r) = limit) \/
  (exists e,
     run = (autocommit meanwhile w, Throw e) /\ paging_fault e /\
     (forall l o,
        walletService.bigint_param String_of limit = Ok l ->
        walletService.bigint_param String_of (js_mul (js_sub page (Num 1%Q)) limit) = Ok o ->
        o < 0 \/ l < 0)).
Proof.
  intros Hv Hx run. unfold run.
  rewrite (getWalletTransactions_steps _ _ _ _ id v _ _ _ Hv),
    (getWalletById_found _ _ _ _ _ _ _ Hv Hx).
  cbv zeta.
  destruct (walletService.bigint_param String_of limit) as [l|e] eqn:Hl.
  2:{ right. exists e. split; [reflexivity|]. split; [eapply bigint_param_fault; eauto|].
      discriminate. }
  destruct (walletService.bigint_param String_of
              (js_mul (js_sub page (Num 1%Q)) limit)) as [o|e] eqn:Ho.
  2:{ right. exists e. split; [reflexivity|]. split; [eapply bigint_param_fault; eauto|].
      discriminate. }
  destruct (limit_offset l o _) as [rows|e] eqn:Hlo.
  - left. apply limit_offset_ok in Hlo. destruct Hlo as (H1 & H2 & ->).
    do 3 eexists. repeat (split; [reflexivity || assumption|]). split; reflexivity.
  - right. exists e. split; [reflexivity|]. split; [eapply limit_offset_fault; eauto|].
    intros l' o' E1 E2. inversion E1; inversion E2; subst.
    unfold limit_offset in Hlo.
    destruct (o' <? 0) eqn:Eo; [apply Z.ltb_lt in Eo; lia|].
    destruct (l' <? 0) eqn:El; [apply Z.ltb_lt in El; lia|discriminate].
Qed.

Lemma page_of_number (page : option string) (p : Z) :
  query_number page 1 p -> walletController.page_of page = js_int p.
Proof.
  unfold query_number, walletController.page_of.
  destruct (truthy page); [auto|]. intros ->. reflexivity.
Qed.

Lemma limit_of_number (limit : option string) (l : Z) :
  query_number limit 20 l -> walletController.limit_of limit = js_int (Z.min l 100).
Proof.
  unfold query_number, walletController.limit_of.
  destruct (truthy limit); [intros ->; apply Math_min_100|]. intros ->. reflexivity.
Qed.

(** X17.  For a wallet that exists, a page number of at least 1 and a limit of
    at least 1, both read from the query or defaulted to 1 and 20, the
    endpoint answers with the rows of that page of the history as the page
    query found it, the limit capped at 100, and with the totals as the
    count query found them. *)
Theorem wallet_history_endpoint_serves_the_page (req : Request) (id : uuid)
    (page limit : option string) (p l : Z) (w : World)
    (x : wallet_row) (a : asset_type_row) :
  wallet_with_asset asset_types (db w) id x a ->
  query_number page 1 p -> query_number limit 20 l ->
  1 <= p <= 2 ^ 40 -> 1 <= l ->
  let d1 := meanwhile (db w) in
  let d2 := meanwhile d1 in
  let total := List.length (filter (of_wallet id) (ledger_entries d2)) in
  Z.of_nat total <= 2 ^ 49 ->
  exists w',
    walletController.getWalletTransactions env asset_types columns_of meanwhile
      String_of req id page limit w
    = (w', Json (mk_paged (slice p (Z.min l 100) (wallet_history id d1))
                   (mk_pagination (js_int p) (js_int (Z.min l 100))
                      (js_int (Z.of_nat total))
                      (js_int (page_count total (Z.min l 100)))))) /\
    db w' = d2.
Proof.
  intros Hx Hp Hl Hpr Hlr d1 d2 total Htot.
  unfold walletController.getWalletTransactions, walletController.answer.
  rewrite (page_of_number _ _ Hp), (limit_of_number _ _ Hl).
  assert (H40 : 2 ^ 40 * 100 <= 2 ^ 50) by (vm_compute; discriminate).
  assert (H49 : 2 ^ 49 + 100 <= 2 ^ 50) by (vm_compute; discriminate).
  assert (H0 : 0 < 2 ^ 40) by reflexivity.
  rewrite (getWalletTransactions_page asset_types columns_of meanwhile String_of
             id p (Z.min l 100) w x a Hx) by (fold d1 d2 total; nia).
  eexists. split; reflexivity.
Qed.

End Endpoint.

Lemma page_count_bounds (n : nat) (l : Z) :
  1 <= l ->
  0 <= page_count n l /\
  Z.of_nat n <= page_count n l * l /\ page_count n l * l < Z.of_nat n + l.
Proof.
  intro Hl. unfold page_count.
  pose proof (Z.div_mod (Z.of_nat n + l - 1) l ltac:(lia)) as Hdm.
  pose proof (Z.mod_pos_bound (Z.of_nat n + l - 1) l ltac:(lia)) as Hr.
  assert (0 <= (Z.of_nat n + l - 1) / l) by (apply Z.div_pos; lia).
  nia.
Qed.

Lemma slices_concat {A} (l : Z) (n : nat) (rows : list A) :
  1 <= l -> Z.of_nat (List.length rows) <= Z.of_nat n * l ->
  List.concat (map (fun i => slice (Z.of_nat i) l rows) (seq 1 n)) = rows.
Proof.
  intros Hl Hlen. rewrite <- seq_shift, map_map.
  etransitivity; [|apply (pages_concat (Z.to_nat l) n rows); nia].
  f_equal. apply map_ext. intro i. unfold slice. f_equal. f_equal. nia.
Qed.

Section Coverage.

Variable asset_types : list asset_type_row.
Variable columns_of : uuid -> wallet_columns.
Variable String_of : jsnum -> string.

(** X18.  With no other request committing in between and with the keys of
    the schema in force, asking for the pages 1 to [pages] of a wallet with
    one limit returns the whole history of the wallet, every entry once,
    newest first; every answer reports the same total and the same number
    of pages. *)
Theorem wallet_history_pages_cover_the_history (d : Db) (id : uuid) (l : Z)
    (ws : nat -> World) (x : wallet_row) (a : asset_type_row) :
  (forall i, db (ws i) = d) ->
  wallet_with_asset asset_types d id x a ->
  transactions_pkey d -> ledger_fkey d ->
  NoDup (map le_created_at (filter (of_wallet id) (ledger_entries d))) ->
  1 <= l ->
  let total := List.length (filter (of_wallet id) (ledger_entries d)) in
  Z.of_nat total + l <= 2 ^ 49 ->
  let pages := page_count total l in
  let answer i :=
    walletService.getWalletTransactions asset_types columns_of (fun d => d)
      String_of id (js_int (Z.of_nat i)) (js_int l) (ws i) in
  List.concat (map (fun i => rows_of (answer i)) (seq 1 (Z.to_nat pages)))
  = wallet_history id d /\
  StronglySorted (fun x y => h_created_at y < h_created_at x) (wallet_history id d) /\
  List.length (wallet_history id d) = total /\
  forall i, In i (seq 1 (Z.to_nat pages)) ->
    exists r, snd (answer i) = Ok r /\
              pg_total (pagination r) = js_int (Z.of_nat total) /\
              pg_pages (pagination r) = js_int pages.
Proof.
  intros Hws Hx Hpk Hfk Hnd Hl total Htot pages answer.
  destruct (page_count_bounds total l Hl) as (P0 & P1 & P2). fold pages in P0, P1, P2.
  assert (H49 : 2 * 2 ^ 49 = 2 ^ 50) by reflexivity.
  assert (Hrun : forall i, In i (seq 1 (Z.to_nat pages)) ->
            answer i
            = (autocommit (fun d => d) (autocommit (fun d => d) (ws i)),
               Ok (mk_paged (slice (Z.of_nat i) l (wallet_history id d))
                     (mk_pagination (js_int (Z.of_nat i)) (js_int l)
                        (js_int (Z.of_nat total)) (js_int pages))))).
  { intros i Hi. apply in_seq in Hi. unfold answer.
    assert (Hxi : wallet_with_asset asset_types (db (ws i)) id x a)
      by (now rewrite Hws).
    rewrite (getWalletTransactions_page asset_types columns_of (fun d => d) String_of
               id (Z.of_nat i) l (ws i) x a Hxi);
      rewrite ?Hws; fold total; try nia.
    reflexivity. }
  split; [|split; [now apply wallet_history_strict|split]].
  - etransitivity;
      [|apply (slices_concat l (Z.to_nat pages) (wallet_history id d) Hl);
        rewrite wallet_history_length by assumption; fold total; lia].
    f_equal. apply map_ext_in. intros i Hi. unfold rows_of.
    now rewrite (Hrun i Hi).
  - now apply wallet_history_length.
  - intros i Hi. rewrite (Hrun i Hi). eexists. cbn [snd pagination pg_total pg_pages].
    repeat split.
Qed.

End Coverage.

Section HistoryRejections.

Variable env : Env.
Variable asset_types : list asset_type_row.
Variable columns_of : uuid -> wallet_columns.
Variable meanwhile : Db -> Db.
Variable String_of : jsnum -> string.

Lemma page_of_nan (page : option string) :
  query_nan page -> walletController.page_of page = NaN.
Proof.
  intros (s & Hs & Hn). unfold walletController.page_of. now rewrite Hs.
Qed.

Lemma limit_of_nan (limit : option string) :
  query_nan limit -> walletController.limit_of limit = NaN.
Proof.
  intros (s & Hs & Hn). unfold walletController.limit_of. now rewrite Hs, Hn.
Qed.

Lemma min_100_negative (l : Z) : l < 0 -> Z.min l 100 = l.
Proof. lia. Qed.

(** Parameters that do not name a page never pass the page query. *)
Lemma bad_paging_fails (page limit : option string) (l o : Z) :
  bad_paging page limit ->
  walletService.bigint_param String_of (walletController.limit_of limit) = Ok l ->
  walletService.bigint_param String_of
    (js_mul (js_sub (walletController.page_of page) (Num 1%Q))
            (walletController.limit_of limit)) = Ok o ->
  o < 0 \/ l < 0.
Proof.
  assert (H50 : 2 ^ 50 = 1125899906842624) by reflexivity.
  assert (H40 : 2 ^ 40 = 1099511627776) by reflexivity.
  assert (H52 : 2 ^ 52 = 4503599627370496) by reflexivity.
  intros [Hp|[Hl|[(l0 & Hl & Hr)|(p0 & l0 & Hp & Hl & Hpr & Hlr)]]] E1 E2.
  - rewrite (page_of_nan _ Hp) in E2. discriminate.
  - rewrite (limit_of_nan _ Hl) in E1. discriminate.
  - rewrite (limit_of_number _ _ Hl), min_100_negative in E1 by lia.
    rewrite bigint_param_whole in E1 by lia. inversion E1. lia.
  - rewrite (limit_of_number _ _ Hl) in E1, E2. rewrite (page_of_number _ _ Hp) in E2.
    rewrite js_sub_one in E2 by lia.
    rewrite bigint_param_product in E2 by nia.
    inversion E2. left. nia.
Qed.

(** X19.  For an id that the server reads as a uuid, in whatever case and
    grouping the text is written: when no wallet has that uuid the history
    endpoint answers 404 NOT_FOUND whatever the page and the limit are; when
    a wallet has it, a page or a limit without digits, a negative limit or a
    page below 1 is answered 500 INTERNAL_ERROR, raised by the server at the
    page query. *)
Theorem wallet_history_endpoint_answers_404_before_500 (req : Request) (id : string)
    (v : uuid) (page limit : option string) (w : World) :
  uuid_in id = Some v ->
  let run := walletController.getWalletTransactions env asset_types columns_of
               meanwhile String_of req id page limit w in
  (wallet_by_uuid (db w) v = None ->
   run = (w, Failed (mk_response 404 false
                       (BodyError "NOT_FOUND" (Msg "Wallet not found") None false
                          (requestId_of req))))) /\
  (forall x a,
     wallet_and_asset asset_types (db w) v x a -> bad_paging page limit ->
     exists w' res, run = (w', Failed res) /\ answers_500 req res /\
                    db w' = meanwhile (db w)).
Proof.
  intro Hv. cbv zeta.
  unfold walletController.getWalletTransactions, walletController.answer.
  split.
  - intro Hnone.
    rewrite (getWalletTransactions_steps _ _ _ _ id v _ _ _ Hv),
      (getWalletById_missing _ _ _ _ _ Hv Hnone).
    reflexivity.
  - intros x a Hx Hbad.
    destruct (getWalletTransactions_outcome asset_types columns_of meanwhile String_of
                id v (walletController.page_of page) (walletController.limit_of limit)
                w x a Hv Hx)
      as [(l & o & r & E1 & E2 & Ho & Hl & _)|(e & Hrun & Hfault & _)].
    + destruct (bad_paging_fails page limit l o Hbad E1 E2); lia.
    + rewrite Hrun. do 2 eexists. split; [reflexivity|].
      split; [now apply paging_fault_is_internal|reflexivity].
Qed.

End HistoryRejections.

(** ** The list of wallets *)

Lemma sorted_map {A B} (f : A -> B) (key : B -> Z) (l : list A) :
  StronglySorted (newest_first key) (map f l) ->
  StronglySorted (newest_first (fun x => key (f x))) l.
Proof.
  induction l as [|x l IH]; cbn [map]; intro H; [constructor|].
  inversion H as [|? ? Hs Hall]; subst. constructor; [now apply IH|].
  rewrite Forall_forall in *. intros y Hy. apply Hall. now apply in_map.
Qed.

Lemma slice_map {A B} (f : A -> B) (p l : Z) (rows : list A) :
  slice p l (map f rows) = map f (slice p l rows).
Proof. unfold slice. now rewrite skipn_map, firstn_map. Qed.

Section WalletList.

Variable env : Env.
Variable asset_types : list asset_type_row.
Variable columns_of : uuid -> wallet_columns.
Variable meanwhile : Db -> Db.
Variable String_of : jsnum -> string.

Lemma join_asset_type_one (x : wallet_row) (a : asset_type_row) :
  asset_types_pkey asset_types -> In a asset_types -> at_id a = w_asset_type_id x ->
  filter (fun a => String.eqb (at_id a) (w_asset_type_id x)) asset_types = [a].
Proof.
  intros Hpk Hin Hid. apply (filter_unique at_id); auto.
  - rewrite Hid. apply String.eqb_refl.
  - intros y Hy. apply String.eqb_eq in Hy. congruence.
Qed.

Lemma join_wallets (ws : list wallet_row) :
  asset_types_pkey asset_types ->
  Forall (fun x => existsb (fun a => String.eqb (at_id a) (w_asset_type_id x))
                           asset_types = true) ws ->
  exists was : list (wallet_row * asset_type_row),
    walletService.join_asset_types asset_types columns_of ws
    = map (fun wa => mk_view (fst wa) (columns_of (w_id (fst wa))) (snd wa)) was /\
    map fst was = ws /\
    Forall (fun wa => In (snd wa) asset_types /\
                      at_id (snd wa) = w_asset_type_id (fst wa)) was.
Proof.
  intros Hpk. induction 1 as [|x ws Hx Hws IH].
  - exists []. repeat split; constructor.
  - destruct IH as (was & Hmap & Hfst & Hall).
    apply existsb_exists in Hx. destruct Hx as (a & Hin & Hid).
    apply String.eqb_eq in Hid.
    exists ((x, a) :: was). unfold walletService.join_asset_types in *.
    cbn [flat_map map fst snd].
    rewrite (join_asset_type_one x a Hpk Hin Hid), Hmap, Hfst.
    split; [reflexivity|]. split; [reflexivity|].
    constructor; [split; assumption|exact Hall].
Qed.

Lemma owner_filter_valid (ownerType : option string) :
  In (truthy ownerType) [None; Some "user"; Some "system"] ->
  exists keep,
    walletService.owner_filter columns_of ownerType = Ok keep /\
    forall x, keep x = owner_matches columns_of ownerType x.
Proof.
  unfold walletService.owner_filter, owner_matches.
  intros [<-|[<-|[<-|[]]]].
  - eexists. split; [reflexivity|reflexivity].
  - eexists. split; [reflexivity|].
    intro x. cbv beta. destruct (wc_owner_type (columns_of (w_id x))); reflexivity.
  - eexists. split; [reflexivity|].
    intro x. cbv beta. destruct (wc_owner_type (columns_of (w_id x))); reflexivity.
Qed.

(** The statements of [listWallets], one after the other. *)
Lemma listWallets_steps (ownerType : option string) (page limit : jsnum) (w : World) :
  walletService.listWallets asset_types columns_of meanwhile String_of
    ownerType page limit w
  = match walletService.owner_filter columns_of ownerType with
    | Throw e => (w, Throw e)
    | Ok keep =>
        match walletService.bigint_param String_of limit with
        | Throw e => (w, Throw e)
        | Ok l =>
            match walletService.bigint_param String_of
                    (js_mul (js_sub page (Num 1%Q)) limit) with
            | Throw e => (w, Throw e)
            | Ok o =>
                match limit_offset l o
                        (order_by_desc (fun v => wc_created_at (v_columns v))
                           (walletService.join_asset_types asset_types columns_of
                              (filter keep (wallets (db w))))) with
                | Throw e => (w, Throw e)
                | Ok rows =>
                    let w1 := autocommit meanwhile w in
                    let total :=
                      count_number (List.length (filter keep (wallets (db w1)))) in
                    (w1, Ok (mk_paged (map walletService.formatWallet rows)
                               (mk_pagination page limit total
                                  (Math_ceil (js_div total limit)))))
                end
            end
        end
    end.
Proof.
  unfold walletService.listWallets.
  unfold bind, get_db, lift, ret, throw, walletService.others.
  destruct (walletService.owner_filter _ _); [|reflexivity].
  destruct (walletService.bigint_param String_of limit); [|reflexivity].
  destruct (walletService.bigint_param String_of _); [|reflexivity].
  destruct (limit_offset _ _ _); reflexivity.
Qed.

(** X20.  With the keys of [asset_types] in force, the list endpoint answers a
    page of at least 1 and a limit of at least 1 with the rows of that page
    of the wallets the owner type selects, each wallet once with its asset
    type, the newest wallet first, the limit capped at 100; the total counts
    the selected wallets as the count query found them. *)
Theorem wallet_list_endpoint_serves_the_page (req : Request)
    (ownerType page limit : option string) (p l : Z) (w : World) :
  asset_types_pkey asset_types ->
  wallets_asset_type_fkey asset_types (db w) ->
  In (truthy ownerType) [None; Some "user"; Some "system"] ->
  query_number page 1 p -> query_number limit 20 l ->
  1 <= p <= 2 ^ 40 -> 1 <= l ->
  let d1 := meanwhile (db w) in
  let total := List.length (filter (owner_matches columns_of ownerType) (wallets d1)) in
  Z.of_nat total <= 2 ^ 49 ->
  exists w' (was : list (wallet_row * asset_type_row)),
    walletController.listWallets env asset_types columns_of meanwhile String_of
      req ownerType page limit w
    = (w', Json (mk_paged (map (listed columns_of) (slice p (Z.min l 100) was))
                   (mk_pagination (js_int p) (js_int (Z.min l 100))
                      (js_int (Z.of_nat total))
                      (js_int (page_count total (Z.min l 100)))))) /\
    db w' = d1 /\
    Permutation (map fst was)
      (filter (owner_matches columns_of ownerType) (wallets (db w))) /\
    Forall (fun wa => In (snd wa) asset_types /\
                      at_id (snd wa) = w_asset_type_id (fst wa)) was /\
    StronglySorted
      (newest_first (fun wa => wc_created_at (columns_of (w_id (fst wa))))) was.
Proof.
  intros Hpk Hfk Hown Hp Hl Hpr Hlr d1 total Htot.
  assert (H40 : 2 ^ 40 * 100 <= 2 ^ 50) by (vm_compute; discriminate).
  assert (H49 : 2 ^ 49 + 100 <= 2 ^ 50) by (vm_compute; discriminate).
  assert (H0 : 2 ^ 40 = 1099511627776) by reflexivity.
  assert (H50 : 2 ^ 50 = 1125899906842624) by reflexivity.
  assert (H52 : 2 ^ 52 = 4503599627370496) by reflexivity.
  destruct (owner_filter_valid ownerType Hown) as (keep & Hkeep & Hext).
  assert (Hfilter : forall ws, filter keep ws = filter (owner_matches columns_of ownerType) ws).
  { intro ws. apply filter_ext. exact Hext. }
  destruct (join_wallets (filter (owner_matches columns_of ownerType) (wallets (db w)))
              Hpk (Forall_filter _ _ _ Hfk)) as (was0 & Hj & Hfst & Hall).
  pose proof (order_by_desc_perm (fun v => wc_created_at (v_columns v))
                (map (fun wa => mk_view (fst wa) (columns_of (w_id (fst wa))) (snd wa))
                     was0)) as Hperm.
  destruct (Permutation_map_inv _ _ Hperm) as (was & Heq & Hpw).
  pose proof (order_by_desc_sorted (fun v => wc_created_at (v_columns v))
                (map (fun wa => mk_view (fst wa) (columns_of (w_id (fst wa))) (snd wa))
                     was0)) as Hsorted.
  rewrite Heq in Hsorted. apply sorted_map in Hsorted. cbn [v_columns] in Hsorted.
  unfold walletController.listWallets, walletController.answer.
  rewrite listWallets_steps, Hkeep.
  rewrite (page_of_number _ _ Hp), (limit_of_number _ _ Hl).
  rewrite (bigint_param_whole String_of (Z.min l 100)) by lia.
  rewrite js_sub_one by lia.
  rewrite (bigint_param_product String_of (p - 1) (Z.min l 100)) by nia.
  rewrite !Hfilter, Hj, Heq.
  unfold limit_offset.
  assert (E1 : ((p - 1) * Z.min l 100 <? 0) = false) by (apply Z.ltb_ge; nia).
  assert (E2 : (Z.min l 100 <? 0) = false) by (apply Z.ltb_ge; lia).
  rewrite E1, E2. cbv zeta.
  change (db (autocommit meanwhile w)) with d1. rewrite !Hfilter. fold total.
  rewrite pages_whole by lia.
  rewrite count_number_whole by lia.
  fold (slice p (Z.min l 100)
          (map (fun wa => mk_view (fst wa) (columns_of (w_id (fst wa))) (snd wa)) was)).
  rewrite slice_map, map_map.
  exists (autocommit meanwhile w), was.
  split; [reflexivity|]. split; [reflexivity|]. split.
  - rewrite <- Hfst. apply Permutation_map. now symmetry.
  - split; [|exact Hsorted].
    rewrite Forall_forall in *. intros wa Hwa. apply Hall.
    eapply Permutation_in; [symmetry; exact Hpw|exact Hwa].
Qed.

End WalletList.

(** ** The cap on the page size *)

(** A number of at most 100 prints as a decimal whose whole part is at most
    100. *)
Lemma toString_at_most_100 (x : Q) :
  (x <= 100)%Q -> whole_part (Js.toString_value x) <= 100.
Proof.
  intro Hx. unfold whole_part.
  assert (Hlt : (Js.toString_value x < 101)%Q).
  { unfold Js.toString_value. destruct (Qnum x) as [|n|n] eqn:Hn.
    - reflexivity.
    - assert (H0 : (0 <= x)%Q) by (unfold Qle; cbn; lia).
      destruct (toString_close x H0) as (_ & C1 & _).
      unfold Js.toString_value in C1. rewrite Hn in C1.
      unfold unit_roundoff, subnormal_slack in C1.
      set (c := Js.shortest _ _ _ _) in *. clearbody c. lra.
    - pose proof (shortest_positive (Z.pos n # Qden x)
                    (Js.ilog10 (Z.pos n) (Z.pos (Qden x))) 17 1 ltac:(cbn; lia)) as Hs.
      set (c := Js.shortest _ _ _ _) in *. clearbody c.
      rewrite Qred_correct.
      assert (0 < c)%Q by (unfold Qlt; cbn [Qnum Qden]; lia). lra. }
  unfold Qlt in Hlt. cbn [Qnum Qden] in Hlt.
  assert (Qnum (Js.toString_value x) / Z.pos (Qden (Js.toString_value x)) < 101).
  { apply Z.div_lt_upper_bound; lia. }
  lia.
Qed.

Section Cap.

Variable env : Env.
Variable asset_types : list asset_type_row.
Variable columns_of : uuid -> wallet_columns.
Variable meanwhile : Db -> Db.
Variable String_of : jsnum -> string.

Lemma bigint_param_at_most_100 (x : Q) (l : Z) :
  (x <= 100)%Q -> walletService.bigint_param String_of (Num x) = Ok l -> l <= 100.
Proof.
  intros Hx. unfold walletService.bigint_param. cbv zeta.
  destruct (_ && _); [|discriminate]. destruct (_ && _); [|discriminate].
  inversion 1. now apply toString_at_most_100.
Qed.

(** Whatever the query says, the limit that reaches the server is at most
    100. *)
Lemma limit_of_cap (limit : option string) (l : Z) :
  walletService.bigint_param String_of (walletController.limit_of limit) = Ok l ->
  l <= 100.
Proof.
  unfold walletController.limit_of. destruct (truthy limit) as [s|].
  - destruct (parseInt s) as [|t|t|x]; cbn [Math_min below].
    + discriminate.
    + destruct t; cbn [negb].
      * discriminate.
      * apply bigint_param_at_most_100. apply Qle_refl.
    + change (is_negative 100%Q) with false. cbv iota. inversion 1. lia.
    + destruct (Js.ltb 100%Q x) eqn:Hlt.
      * apply bigint_param_at_most_100. apply Qle_refl.
      * apply bigint_param_at_most_100. now apply ltb_false_le.
  - apply bigint_param_at_most_100. unfold Qle. cbn. lia.
Qed.

Lemma limit_offset_length {A} (l o : Z) (rows page : list A) :
  l <= 100 -> limit_offset l o rows = Ok page -> (List.length page <= 100)%nat.
Proof.
  intros Hl H. apply limit_offset_ok in H. destruct H as (_ & H0 & ->).
  rewrite length_firstn. lia.
Qed.

(** X21.  Whatever the query parameters are, an answer of the history endpoint
    or of the list endpoint carries at most 100 rows. *)
Theorem read_endpoints_send_at_most_100_rows (req : Request) (id : uuid)
    (ownerType page limit : option string) (w : World) :
  match snd (walletController.getWalletTransactions env asset_types columns_of
               meanwhile String_of req id page limit w) with
  | Json r => (List.length (data r) <= 100)%nat
  | Failed _ => True
  end /\
  match snd (walletController.listWallets env asset_types columns_of meanwhile
               String_of req ownerType page limit w) with
  | Json r => (List.length (data r) <= 100)%nat
  | Failed _ => True
  end.
Proof.
  unfold walletController.getWalletTransactions, walletController.listWallets,
    walletController.answer.
  rewrite listWallets_steps. cbv zeta.
  set (pg := walletController.page_of page).
  set (lm := walletController.limit_of limit).
  assert (Hhistory :
    match walletService.getWalletTransactions asset_types columns_of meanwhile
            String_of id pg lm w with
    | (_, Ok r) => (List.length (data r) <= 100)%nat
    | (_, Throw _) => True
    end).
  { destruct (uuid_in id) as [v|] eqn:Hv;
      [|now rewrite (getWalletTransactions_no_uuid _ _ _ _ _ _ _ _ Hv)].
    rewrite (getWalletTransactions_steps _ _ _ _ id v _ _ _ Hv). cbv zeta.
    destruct (walletService.getWalletById _ _ _ _) as [w0 [fw|e0]]; [|exact I].
    destruct (walletService.bigint_param String_of lm) as [l|e] eqn:Hl; [|exact I].
    apply limit_of_cap in Hl.
    destruct (walletService.bigint_param String_of (js_mul (js_sub pg (Num 1%Q)) lm))
      as [o|e] eqn:Ho; [|exact I].
    destruct (limit_offset l o _) as [rows|e] eqn:Hrows; [|exact I].
    cbn [data]. eapply limit_offset_length; eauto. }
  destruct (walletService.bigint_param String_of lm) as [l|e] eqn:Hl.
  2:{ split.
      - destruct (walletService.getWalletTransactions _ _ _ _ _ _ _ _) as [w0 [r|e0]];
          [exact Hhistory|exact I].
      - destruct (walletService.owner_filter _ _); exact I. }
  apply limit_of_cap in Hl.
  destruct (walletService.bigint_param String_of (js_mul (js_sub pg (Num 1%Q)) lm))
    as [o|e] eqn:Ho.
  2:{ split.
      - destruct (walletService.getWalletTransactions _ _ _ _ _ _ _ _) as [w0 [r|e0]];
          [exact Hhistory|exact I].
      - destruct (walletService.owner_filter _ _); exact I. }
  split.
  - destruct (walletService.getWalletTransactions _ _ _ _ _ _ _ _) as [w0 [r|e0]];
      [exact Hhistory|exact I].
  - destruct (walletService.owner_filter _ _) as [keep|e0]; [|exact I].
    destruct (limit_offset l o _) as [rows|e] eqn:Hrows; [|exact I].
    cbn [snd data]. rewrite length_map. eapply limit_offset_length; eauto.
Qed.

(** X22.  An owner type other than [user] and [system] is answered 500
    INTERNAL_ERROR, whatever the page and the limit are: the server refuses
    the text as a value of the enumeration, and nothing is read. *)
Theorem wallet_list_endpoint_refuses_unknown_owner_types (req : Request)
    (s : string) (page limit : option string) (w : World) :
  s <> "" -> s <> "user" -> s <> "system" ->
  exists res,
    walletController.listWallets env asset_types columns_of meanwhile String_of
      req (Some s) page limit w = (w, Failed res) /\
    answers_500 req res.
Proof.
  intros H0 H1 H2.
  unfold walletController.listWallets, walletController.answer.
  rewrite listWallets_steps.
  unfold walletService.owner_filter, walletService.owner_type_param.
  assert (Ht : truthy (Some s) = Some s).
  { destruct s; [contradiction|reflexivity]. }
  rewrite Ht.
  apply String.eqb_neq in H1, H2. rewrite H1, H2.
  eexists. split; [reflexivity|].
  apply paging_fault_is_internal. do 2 eexists. split; [reflexivity|]. cbn. auto.
Qed.

(** ** One wallet *)

Lemma wallet_by_uuid_id (d : Db) (v : uuid) (x : wallet_row) :
  wallet_by_uuid d v = Some x -> w_id x = v.
Proof.
  unfold wallet_by_uuid. intro H. apply find_some in H. now apply w_id_is_true.
Qed.

(** X23.  For an id that the server reads as a uuid, in whatever case and
    grouping the text is written: the wallet endpoint and the balance
    endpoint answer 404 NOT_FOUND when no wallet has that uuid.  When a
    wallet has it they answer with its columns and its asset type, its id
    as the server prints it, and change nothing; a balance below [2^49]
    millionths is reported as a number that prints as the stored decimal,
    digit for digit. *)
Theorem wallet_endpoints_report_the_stored_balance (req : Request) (id : string)
    (v : uuid) (w : World) :
  uuid_in id = Some v ->
  let not_found :=
    mk_response 404 false
      (BodyError "NOT_FOUND" (Msg "Wallet not found") None false (requestId_of req)) in
  (wallet_by_uuid (db w) v = None ->
   walletController.getWallet env asset_types columns_of req id w
   = (w, Failed not_found) /\
   walletController.getBalance env asset_types columns_of req id w
   = (w, Failed not_found)) /\
  (forall x a,
     wallet_and_asset asset_types (db w) v x a ->
     exact_range (w_balance x) ->
     exists wallet,
       walletController.getWallet env asset_types columns_of req id w
       = (w, Json wallet) /\
       walletController.getBalance env asset_types columns_of req id w
       = (w, Json (mk_balance_body v (fw_balance wallet) (fw_assetType wallet)
                     (w_updated_at x))) /\
       (Js.toString_value (fw_balance wallet) == numeric_value (w_balance x))%Q /\
       fw_id wallet = v /\ fw_ownerId wallet = w_owner_id x /\
       fw_isActive wallet = w_is_active x /\
       fw_name wallet = wc_name (columns_of v) /\
       fw_ownerType wallet = wc_owner_type (columns_of v) /\
       fw_assetType wallet = mk_ref (at_id a) (at_name a) (at_symbol a) /\
       at_id a = w_asset_type_id x).
Proof.
  intro Hv. cbv zeta.
  unfold walletController.getWallet, walletController.getBalance,
    walletController.answer.
  split.
  - intro Hnone. rewrite (getWalletById_missing _ _ _ _ _ Hv Hnone). split; reflexivity.
  - intros x a Hx Hrange.
    rewrite (getWalletById_found _ _ _ _ _ _ _ Hv Hx).
    pose proof (wallet_by_uuid_id _ _ _ (proj1 Hx)) as Hid.
    destruct Hx as [_ Ha]. apply find_some in Ha. destruct Ha as [_ Ha].
    apply String.eqb_eq in Ha.
    eexists. split; [reflexivity|].
    unfold walletService.formatWallet.
    cbn [fw_id fw_balance fw_assetType fw_updatedAt fw_ownerId fw_isActive fw_name
         fw_ownerType v_wallet v_columns v_asset_type].
    rewrite Hid. split; [reflexivity|].
    split; [now apply toString_parsed_balance|].
    repeat (split; [reflexivity|]). exact Ha.
Qed.

End Cap.

(** ** The read side at the scenarios *)

Lemma pkey_after_topup_and_spend : transactions_pkey (db after_topup_and_spend).
Proof.
  unfold transactions_pkey. apply (nodupb_sound Nat.eqb); [exact Nat.eqb_eq|].
  vm_compute. reflexivity.
Defined.

Lemma fkey_after_topup_and_spend : ledger_fkey (db after_topup_and_spend).
Proof. unfold ledger_fkey. vm_compute. repeat constructor. Defined.

Lemma alice_after_topup_and_spend :
  wallet_with_asset seed_asset_types (db after_topup_and_spend) alice
    alice_after_spend test_coins.
Proof. split; vm_compute; reflexivity. Defined.

Lemma wallet_history_witness :
  (transactions_pkey (db after_topup_and_spend) /\
   ledger_fkey (db after_topup_and_spend)) /\
  (exists ets : list (ledger_entry_row * transaction_row),
     wallet_history alice (db after_topup_and_spend)
     = map (fun et => history_of (fst et) (snd et)) ets /\
     Permutation (map fst ets)
       (filter (of_wallet alice) (ledger_entries (db after_topup_and_spend))) /\
     Forall (fun et => In (snd et) (transactions (db after_topup_and_spend)) /\
                       t_id (snd et) = le_transaction_id (fst et)) ets) /\
  StronglySorted (newest_first h_created_at)
    (wallet_history alice (db after_topup_and_spend)) /\
  (NoDup (map le_created_at
            (filter (of_wallet alice) (ledger_entries (db after_topup_and_spend)))) ->
   StronglySorted (fun x y => h_created_at y < h_created_at x)
     (wallet_history alice (db after_topup_and_spend))).
Proof.
  exact (conj (conj pkey_after_topup_and_spend fkey_after_topup_and_spend)
              (wallet_history_lists_each_entry_once_newest_first
                 (db after_topup_and_spend) alice
                 pkey_after_topup_and_spend fkey_after_topup_and_spend)).
Defined.

Lemma wallet_history_page_witness :
  (wallet_with_asset seed_asset_types (db after_topup_and_spend) alice
     alice_after_spend test_coins /\
   query_number (Some "2") 1 2 /\ query_number (Some "1") 20 1 /\
   1 <= 2 <= 2 ^ 40 /\ 1 <= 1 /\
   Z.of_nat (List.length
               (filter (of_wallet alice)
                  (ledger_entries (no_rivals (no_rivals (db after_topup_and_spend))))))
   <= 2 ^ 49) /\
  exists w',
    walletController.getWalletTransactions test_env seed_asset_types seed_columns
      no_rivals text_of get_request alice (Some "2") (Some "1") after_topup_and_spend
    = (w', Json (mk_paged
                   (slice 2 (Z.min 1 100)
                      (wallet_history alice (no_rivals (db after_topup_and_spend))))
                   (mk_pagination (js_int 2) (js_int (Z.min 1 100))
                      (js_int (Z.of_nat
                         (List.length
                            (filter (of_wallet alice)
                               (ledger_entries
                                  (no_rivals (no_rivals (db after_topup_and_spend))))))))
                      (js_int (page_count
                         (List.length
                            (filter (of_wallet alice)
                               (ledger_entries
                                  (no_rivals (no_rivals (db after_topup_and_spend))))))
                         (Z.min 1 100)))))) /\
    db w' = no_rivals (no_rivals (db after_topup_and_spend)).
Proof.
  assert (H1 : query_number (Some "2") 1 2) by (vm_compute; reflexivity).
  assert (H2 : query_number (Some "1") 20 1) by (vm_compute; reflexivity).
  assert (H3 : 1 <= 2 <= 2 ^ 40) by (split; vm_compute; discriminate).
  assert (H4 : 1 <= 1) by lia.
  assert (H5 : Z.of_nat (List.length
               (filter (of_wallet alice)
                  (ledger_entries (no_rivals (no_rivals (db after_topup_and_spend))))))
               <= 2 ^ 49) by (vm_compute; discriminate).
  exact (conj (conj alice_after_topup_and_spend (conj H1 (conj H2 (conj H3 (conj H4 H5)))))
              (wallet_history_endpoint_serves_the_page test_env seed_asset_types
                 seed_columns no_rivals text_of get_request alice (Some "2") (Some "1")
                 2 1 after_topup_and_spend alice_after_spend test_coins
                 alice_after_topup_and_spend H1 H2 H3 H4 H5)).
Defined.

Lemma distinct_instants_after_topup_and_spend :
  NoDup (map le_created_at
           (filter (of_wallet alice) (ledger_entries (db after_topup_and_spend)))).
Proof.
  apply (nodupb_sound Z.eqb); [exact Z.eqb_eq|]. vm_compute. reflexivity.
Defined.

Lemma wallet_history_pages_witness :
  ((forall i : nat, db ((fun _ => after_topup_and_spend) i) = db after_topup_and_spend) /\
   1 <= 1 /\
   Z.of_nat (List.length
               (filter (of_wallet alice) (ledger_entries (db after_topup_and_spend))))
   + 1 <= 2 ^ 49) /\
  let total :=
    List.length (filter (of_wallet alice) (ledger_entries (db after_topup_and_spend))) in
  let pages := page_count total 1 in
  let answer i :=
    walletService.getWalletTransactions seed_asset_types seed_columns (fun d => d)
      text_of alice (js_int (Z.of_nat i)) (js_int 1)
      ((fun _ => after_topup_and_spend) i) in
  List.concat (map (fun i => rows_of (answer i)) (seq 1 (Z.to_nat pages)))
  = wallet_history alice (db after_topup_and_spend) /\
  StronglySorted (fun x y => h_created_at y < h_created_at x)
    (wallet_history alice (db after_topup_and_spend)) /\
  List.length (wallet_history alice (db after_topup_and_spend)) = total /\
  forall i, In i (seq 1 (Z.to_nat pages)) ->
    exists r, snd (answer i) = Ok r /\
              pg_total (pagination r) = js_int (Z.of_nat total) /\
              pg_pages (pagination r) = js_int pages.
Proof.
  assert (H1 : forall i : nat,
            db ((fun _ => after_topup_and_spend) i) = db after_topup_and_spend)
    by (intro i; reflexivity).
  assert (H2 : 1 <= 1) by lia.
  assert (H3 : Z.of_nat (List.length
                 (filter (of_wallet alice) (ledger_entries (db after_topup_and_spend))))
               + 1 <= 2 ^ 49) by (vm_compute; discriminate).
  exact (conj (conj H1 (conj H2 H3))
              (wallet_history_pages_cover_the_history seed_asset_types seed_columns
                 text_of (db after_topup_and_spend) alice 1
                 (fun _ => after_topup_and_spend) alice_after_spend test_coins
                 H1 alice_after_topup_and_spend pkey_after_topup_and_spend
                 fkey_after_topup_and_spend distinct_instants_after_topup_and_spend
                 H2 H3)).
Defined.

Lemma page_zero_is_bad_paging : bad_paging (Some "0") None.
Proof.
  right. right. right. exists 0, 20.
  split; [vm_compute; reflexivity|]. split; [reflexivity|].
  split; [split; vm_compute; discriminate|vm_compute; discriminate].
Defined.

Lemma no_wallet_of_stranger : wallet_by_uuid (db after_topup_and_spend) stranger = None.
Proof. vm_compute. reflexivity. Defined.

Lemma stranger_is_a_uuid : uuid_in stranger = Some stranger.
Proof. vm_compute. reflexivity. Defined.

Lemma alice_in_capitals_is_alice : uuid_in alice_in_capitals = Some alice.
Proof. vm_compute. reflexivity. Defined.

Lemma alice_by_uuid_after_topup_and_spend :
  wallet_and_asset seed_asset_types (db after_topup_and_spend) alice
    alice_after_spend test_coins.
Proof. split; vm_compute; reflexivity. Defined.

Lemma wallet_history_errors_witness :
  ((uuid_in stranger = Some stranger /\
    wallet_by_uuid (db after_topup_and_spend) stranger = None) /\
   walletController.getWalletTransactions test_env seed_asset_types seed_columns
     no_rivals text_of get_request stranger (Some "abc") (Some "-5")
     after_topup_and_spend
   = (after_topup_and_spend,
      Failed (mk_response 404 false
                (BodyError "NOT_FOUND" (Msg "Wallet not found") None false
                   (requestId_of get_request))))) /\
  ((uuid_in alice_in_capitals = Some alice /\
    wallet_and_asset seed_asset_types (db after_topup_and_spend) alice
      alice_after_spend test_coins /\
    bad_paging (Some "0") None) /\
   exists w' res,
     walletController.getWalletTransactions test_env seed_asset_types seed_columns
       no_rivals text_of get_request alice_in_capitals (Some "0") None
       after_topup_and_spend
     = (w', Failed res) /\
     answers_500 get_request res /\
     db w' = no_rivals (db after_topup_and_spend)).
Proof.
  destruct (wallet_history_endpoint_answers_404_before_500 test_env seed_asset_types
              seed_columns no_rivals text_of get_request stranger stranger (Some "abc")
              (Some "-5") after_topup_and_spend stranger_is_a_uuid) as [Ha _].
  destruct (wallet_history_endpoint_answers_404_before_500 test_env seed_asset_types
              seed_columns no_rivals text_of get_request alice_in_capitals alice
              (Some "0") None after_topup_and_spend alice_in_capitals_is_alice)
    as [_ Hb].
  exact (conj (conj (conj stranger_is_a_uuid no_wallet_of_stranger)
                    (Ha no_wallet_of_stranger))
              (conj (conj alice_in_capitals_is_alice
                       (conj alice_by_uuid_after_topup_and_spend page_zero_is_bad_paging))
                    (Hb alice_after_spend test_coins alice_by_uuid_after_topup_and_spend
                        page_zero_is_bad_paging))).
Defined.

Lemma seed_asset_types_pkey : asset_types_pkey seed_asset_types.
Proof.
  unfold asset_types_pkey. apply (nodupb_sound String.eqb); [exact String.eqb_eq|].
  vm_compute. reflexivity.
Defined.

Lemma seed_wallets_asset_type_fkey :
  wallets_asset_type_fkey seed_asset_types (db after_topup_and_spend).
Proof. unfold wallets_asset_type_fkey. vm_compute. repeat constructor. Defined.

Lemma wallet_list_witness :
  (asset_types_pkey seed_asset_types /\
   wallets_asset_type_fkey seed_asset_types (db after_topup_and_spend) /\
   In (truthy (Some "user")) [None; Some "user"; Some "system"] /\
   query_number None 1 1 /\ query_number (Some "1") 20 1 /\
   1 <= 1 <= 2 ^ 40 /\ 1 <= 1 /\
   Z.of_nat (List.length
               (filter (owner_matches seed_columns (Some "user"))
                  (wallets (no_rivals (db after_topup_and_spend)))))
   <= 2 ^ 49) /\
  exists w' (was : list (wallet_row * asset_type_row)),
    walletController.listWallets test_env seed_asset_types seed_columns no_rivals
      text_of get_request (Some "user") None (Some "1") after_topup_and_spend
    = (w', Json (mk_paged (map (listed seed_columns) (slice 1 (Z.min 1 100) was))
                   (mk_pagination (js_int 1) (js_int (Z.min 1 100))
                      (js_int (Z.of_nat
                         (List.length
                            (filter (owner_matches seed_columns (Some "user"))
                               (wallets (no_rivals (db after_topup_and_spend)))))))
                      (js_int (page_count
                         (List.length
                            (filter (owner_matches seed_columns (Some "user"))
                               (wallets (no_rivals (db after_topup_and_spend)))))
                         (Z.min 1 100)))))) /\
    db w' = no_rivals (db after_topup_and_spend) /\
    Permutation (map fst was)
      (filter (owner_matches seed_columns (Some "user"))
         (wallets (db after_topup_and_spend))) /\
    Forall (fun wa => In (snd wa) seed_asset_types /\
                      at_id (snd wa) = w_asset_type_id (fst wa)) was /\
    StronglySorted
      (newest_first (fun wa => wc_created_at (seed_columns (w_id (fst wa))))) was.
Proof.
  assert (H1 : In (truthy (Some "user")) [None; Some "user"; Some "system"])
    by (right; left; reflexivity).
  assert (H2 : query_number None 1 1) by reflexivity.
  assert (H3 : query_number (Some "1") 20 1) by (vm_compute; reflexivity).
  assert (H4 : 1 <= 1 <= 2 ^ 40) by (split; vm_compute; discriminate).
  assert (H5 : 1 <= 1) by lia.
  assert (H6 : Z.of_nat (List.length
                 (filter (owner_matches seed_columns (Some "user"))
                    (wallets (no_rivals (db after_topup_and_spend)))))
               <= 2 ^ 49) by (vm_compute; discriminate).
  exact (conj (conj seed_asset_types_pkey
                 (conj seed_wallets_asset_type_fkey
                    (conj H1 (conj H2 (conj H3 (conj H4 (conj H5 H6)))))))
              (wallet_list_endpoint_serves_the_page test_env seed_asset_types
                 seed_columns no_rivals text_of get_request (Some "user") None
                 (Some "1") 1 1 after_topup_and_spend seed_asset_types_pkey
                 seed_wallets_asset_type_fkey H1 H2 H3 H4 H5 H6)).
Defined.

Lemma unknown_owner_type_witness :
  ("admin" <> "" /\ "admin" <> "user" /\ "admin" <> "system") /\
  exists res,
    walletController.listWallets test_env seed_asset_types seed_columns no_rivals
      text_of get_request (Some "admin") None None after_topup_and_spend
    = (after_topup_and_spend, Failed res) /\
    answers_500 get_request res.
Proof.
  assert (H0 : "admin" <> "") by discriminate.
  assert (H1 : "admin" <> "user") by discriminate.
  assert (H2 : "admin" <> "system") by discriminate.
  exact (conj (conj H0 (conj H1 H2))
              (wallet_list_endpoint_refuses_unknown_owner_types test_env
                 seed_asset_types seed_columns no_rivals text_of get_request "admin"
                 None None after_topup_and_spend H0 H1 H2)).
Defined.

Lemma alice_balance_in_exact_range : exact_range (w_balance alice_after_spend).
Proof. split; vm_compute; [discriminate|reflexivity]. Defined.

Lemma wallet_endpoints_witness :
  ((uuid_in stranger = Some stranger /\
    wallet_by_uuid (db after_topup_and_spend) stranger = None) /\
   walletController.getBalance test_env seed_asset_types seed_columns get_request
     stranger after_topup_and_spend
   = (after_topup_and_spend,
      Failed (mk_response 404 false
                (BodyError "NOT_FOUND" (Msg "Wallet not found") None false
                   (requestId_of get_request))))) /\
  ((uuid_in alice_in_capitals = Some alice /\
    wallet_and_asset seed_asset_types (db after_topup_and_spend) alice
      alice_after_spend test_coins /\
    exact_range (w_balance alice_after_spend)) /\
   exists wallet,
     walletController.getBalance test_env seed_asset_types seed_columns get_request
       alice_in_capitals after_topup_and_spend
     = (after_topup_and_spend,
        Json (mk_balance_body alice (fw_balance wallet) (fw_assetType wallet)
                (w_updated_at alice_after_spend))) /\
     (Js.toString_value (fw_balance wallet)
      == numeric_value (w_balance alice_after_spend))%Q).
Proof.
  destruct (wallet_endpoints_report_the_stored_balance test_env seed_asset_types
              seed_columns get_request stranger stranger after_topup_and_spend
              stranger_is_a_uuid) as [Ha _].
  destruct (wallet_endpoints_report_the_stored_balance test_env seed_asset_types
              seed_columns get_request alice_in_capitals alice after_topup_and_spend
              alice_in_capitals_is_alice) as [_ Hb].
  destruct (Hb alice_after_spend test_coins alice_by_uuid_after_topup_and_spend
              alice_balance_in_exact_range) as (wallet & _ & Hbal & Hprint & _).
  exact (conj (conj (conj stranger_is_a_uuid no_wallet_of_stranger)
                    (proj2 (Ha no_wallet_of_stranger)))
              (conj (conj alice_in_capitals_is_alice
                       (conj alice_by_uuid_after_topup_and_spend
                             alice_balance_in_exact_range))
                    (ex_intro _ wallet (conj Hbal Hprint)))).
Defined.

(** ** A committed flow, seen from the read side *)

Lemma filter_nothing {A} (P : A -> bool) (l : list A) :
  existsb P l = false -> filter P l = [].
Proof.
  induction l as [|x l IH]; [reflexivity|].
  cbn [existsb filter]. intro H. apply orb_false_iff in H. destruct H as (Hx & Hl).
  rewrite Hx. auto.
Qed.

Lemma join_transaction_kept (d d' : Db) (t : transaction_row) (e : ledger_entry_row) :
  transactions d' = (transactions d ++ [t])%list ->
  existsb (id_is (t_id t)) (transactions d) = false ->
  existsb (id_is (le_transaction_id e)) (transactions d) = true ->
  join_transaction d' e = join_transaction d e.
Proof.
  intros Hts Hfresh Href. unfold join_transaction. rewrite Hts, filter_app.
  cbn [filter]. unfold id_is at 2.
  destruct (Nat.eqb (t_id t) (le_transaction_id e)) eqn:E; [|now rewrite app_nil_r].
  apply Nat.eqb_eq in E. rewrite <- E in Href. congruence.
Qed.

Lemma join_transaction_new (d d' : Db) (t : transaction_row) (e : ledger_entry_row) :
  transactions d' = (transactions d ++ [t])%list ->
  existsb (id_is (t_id t)) (transactions d) = false ->
  le_transaction_id e = t_id t ->
  join_transaction d' e = [history_of e t].
Proof.
  intros Hts Hfresh Href. unfold join_transaction. rewrite Hts, filter_app, Href.
  rewrite (filter_nothing _ _ Hfresh). cbn [filter app]. unfold id_is.
  now rewrite Nat.eqb_refl.
Qed.

Lemma flat_map_kept (d d' : Db) (t : transaction_row) (es : list ledger_entry_row) :
  transactions d' = (transactions d ++ [t])%list ->
  existsb (id_is (t_id t)) (transactions d) = false ->
  Forall (fun e => existsb (id_is (le_transaction_id e)) (transactions d) = true) es ->
  flat_map (join_transaction d') es = flat_map (join_transaction d) es.
Proof.
  intros Hts Hfresh. induction 1 as [|e es He Hes IH]; [reflexivity|].
  cbn [flat_map]. now rewrite IH, (join_transaction_kept d d' t e Hts Hfresh He).
Qed.

Lemma order_by_desc_snoc {A} (key : A -> Z) (l : list A) (x : A) :
  Permutation (order_by_desc key (l ++ [x])) (x :: order_by_desc key l).
Proof.
  rewrite !order_by_desc_perm. rewrite Permutation_app_comm. reflexivity.
Qed.

Section Composition.

Variable ahead : Db -> Db.

(** X24.  A flow that posts adds one row to the history of the wallet it debits
    and one to the history of the wallet it credits, both joined with the
    completed transaction it returns, and leaves the history of every other
    wallet as it was. *)
Theorem committed_flow_shows_in_both_histories (f : Flow) (p : Params)
    (w w' : World) (r : formatted_transaction) :
  dup_miss p (db w) -> ledger_fkey (ahead (db w)) ->
  run_flow ahead f p w = (w', Ok r) ->
  exists hd hc,
    h_entry_type hd = debit /\ h_entry_type hc = credit /\
    (forall h, h = hd \/ h = hc ->
       h_transaction_id h = f_id r /\ h_transaction_type h = f_type r /\
       h_status h = completed /\ parseFloat (h_amount h) = f_amount r /\
       h_reference_id h = f_referenceId r /\ h_description h = f_description r /\
       h_metadata h = f_metadata r /\ h_created_at h = f_createdAt r) /\
    Permutation (wallet_history (source_id f p) (db w'))
      (hd :: wallet_history (source_id f p) (ahead (db w))) /\
    Permutation (wallet_history (target_id f p) (db w'))
      (hc :: wallet_history (target_id f p) (ahead (db w))) /\
    (forall id, id <> source_id f p -> id <> target_id f p ->
       wallet_history id (db w') = wallet_history id (ahead (db w))).
Proof.
  intros Hmiss Hfk Hrun.
  destruct (fresh_run_updates ahead f p w w' r Hmiss Hrun) as (_ & _ & _ & Hne).
  destruct (fresh_run ahead f p w w' r Hmiss Hrun)
    as (source & target & amt & bd & ad & bc & ac & ws & _ & Hids & _ & Hidt & _ & _ & _
        & _ & _ & _ & _ & Hfresh & _ & Hr & Hdb).
  set (T := completed_row f p (next_uuid w) (clock w) amt) in *.
  set (D := debit_entry (next_uuid w) (clock w) source amt bd ad) in *.
  set (C := credit_entry (next_uuid w) (clock w) target amt bc ac) in *.
  set (d0 := ahead (db w)) in *.
  assert (Hts : transactions (db w') = (transactions d0 ++ [T])%list)
    by (now rewrite Hdb).
  assert (Hes : ledger_entries (db w') = (ledger_entries d0 ++ [D; C])%list)
    by (now rewrite Hdb).
  assert (HT : existsb (id_is (t_id T)) (transactions d0) = false) by exact Hfresh.
  assert (HD : join_transaction (db w') D = [history_of D T])
    by (now apply (join_transaction_new d0)).
  assert (HC : join_transaction (db w') C = [history_of C T])
    by (now apply (join_transaction_new d0)).
  assert (Hold : forall id,
            flat_map (join_transaction (db w')) (filter (of_wallet id) (ledger_entries d0))
            = flat_map (join_transaction d0) (filter (of_wallet id) (ledger_entries d0))).
  { intro id. apply (flat_map_kept d0 (db w') T); auto.
    now apply Forall_filter. }
  assert (Hsplit : forall id,
            wallet_history id (db w')
            = order_by_desc h_created_at
                (flat_map (join_transaction d0) (filter (of_wallet id) (ledger_entries d0))
                 ++ flat_map (join_transaction (db w')) (filter (of_wallet id) [D; C]))).
  { intro id. unfold wallet_history. now rewrite Hes, filter_app, flat_map_app, Hold. }
  assert (EDs : of_wallet (source_id f p) D = true).
  { unfold of_wallet, D, debit_entry. cbn [le_wallet_id]. rewrite Hids.
    apply String.eqb_refl. }
  assert (ECs : of_wallet (source_id f p) C = false).
  { unfold of_wallet, C, credit_entry. cbn [le_wallet_id]. rewrite Hidt.
    now rewrite String.eqb_sym. }
  assert (EDt : of_wallet (target_id f p) D = false).
  { unfold of_wallet, D, debit_entry. cbn [le_wallet_id]. now rewrite Hids. }
  assert (ECt : of_wallet (target_id f p) C = true).
  { unfold of_wallet, C, credit_entry. cbn [le_wallet_id]. rewrite Hidt.
    apply String.eqb_refl. }
  exists (history_of D T), (history_of C T).
  split; [reflexivity|]. split; [reflexivity|]. split.
  { intros h [-> | ->]; rewrite Hr; repeat split. }
  split; [|split].
  - rewrite Hsplit. cbn [filter]. rewrite EDs, ECs. cbn [flat_map]. rewrite HD.
    cbn [app]. apply order_by_desc_snoc.
  - rewrite Hsplit. cbn [filter]. rewrite EDt, ECt. cbn [flat_map]. rewrite HC.
    cbn [app]. apply order_by_desc_snoc.
  - intros id Hs Ht. rewrite Hsplit. cbn [filter].
    assert (E1 : of_wallet id D = false).
    { unfold of_wallet, D, debit_entry. cbn [le_wallet_id]. rewrite Hids.
      apply String.eqb_neq. congruence. }
    assert (E2 : of_wallet id C = false).
    { unfold of_wallet, C, credit_entry. cbn [le_wallet_id]. rewrite Hidt.
      apply String.eqb_neq. congruence. }
    rewrite E1, E2. cbn [flat_map]. now rewrite app_nil_r.
Qed.

End Composition.

Lemma spend_100_commits :
  run_flow no_rivals Spend spend_100 (later 60 after_topup_100)
  = (after_topup_and_spend, Ok (formatTransaction (star spend_100_row))).
Proof. vm_compute. reflexivity. Defined.

Lemma committed_flow_history_witness :
  (dup_miss spend_100 (db (later 60 after_topup_100)) /\
   ledger_fkey (no_rivals (db (later 60 after_topup_100))) /\
   run_flow no_rivals Spend spend_100 (later 60 after_topup_100)
   = (after_topup_and_spend, Ok (formatTransaction (star spend_100_row)))) /\
  exists hd hc,
    h_entry_type hd = debit /\ h_entry_type hc = credit /\
    (forall h, h = hd \/ h = hc ->
       h_transaction_id h = f_id (formatTransaction (star spend_100_row)) /\
       h_transaction_type h = f_type (formatTransaction (star spend_100_row)) /\
       h_status h = completed /\
       parseFloat (h_amount h) = f_amount (formatTransaction (star spend_100_row)) /\
       h_reference_id h = f_referenceId (formatTransaction (star spend_100_row)) /\
       h_description h = f_description (formatTransaction (star spend_100_row)) /\
       h_metadata h = f_metadata (formatTransaction (star spend_100_row)) /\
       h_created_at h = f_createdAt (formatTransaction (star spend_100_row))) /\
    Permutation (wallet_history (source_id Spend spend_100) (db after_topup_and_spend))
      (hd :: wallet_history (source_id Spend spend_100)
               (no_rivals (db (later 60 after_topup_100)))) /\
    Permutation (wallet_history (target_id Spend spend_100) (db after_topup_and_spend))
      (hc :: wallet_history (target_id Spend spend_100)
               (no_rivals (db (later 60 after_topup_100)))) /\
    (forall id, id <> source_id Spend spend_100 -> id <> target_id Spend spend_100 ->
       wallet_history id (db after_topup_and_spend)
       = wallet_history id (no_rivals (db (later 60 after_topup_100)))).
Proof.
  assert (H1 : dup_miss spend_100 (db (later 60 after_topup_100)))
    by (vm_compute; reflexivity).
  assert (H2 : ledger_fkey (no_rivals (db (later 60 after_topup_100))))
    by (unfold ledger_fkey; vm_compute; repeat constructor).
  exact (conj (conj H1 (conj H2 spend_100_commits))
              (committed_flow_shows_in_both_histories no_rivals Spend spend_100
                 (later 60 after_topup_100) after_topup_and_spend
                 (formatTransaction (star spend_100_row)) H1 H2 spend_100_commits)).
Defined.
